(* ===== verification/_CoqProject ===== *)
-Q . S2P
Prelude.v
GradidoDef.v
Packed.v
MemoryManagers.v
FileTile.v
Fnr.v
Blockchain.v
BlockchainBase.v
GroupRegister.v
SubclusterBlockchain.v
GradidoMath.v
BlockchainGradido.v
WorkerPool.v
CoreUtils.v
TimerPool.v
DelayedTasks.v
Translate.v
Factory.v
Communications.v
TopicStream.v
Handshake.v
Config.v
Facades.v
Layout.v
Stored.v
Json.v
Dump.v
DumpRecords.v
JsonRpc.v
Signals.v
Programs.v
Locks.v
Nodes.v
Startup.v
Shutdown.v
