(* ===== verification/Prelude.v ===== *)
(** * Gradido node: a verification library

    The Gradido node (src/src) keeps one blockchain per group of users, a
    register of the groups, and a blockchain that describes the subcluster
    the node belongs to.  Each blockchain is a sequence of fixed-size records
    stored in block files.  Transactions arrive with a sequence number, are
    checked against indexes held in memory, get a result and new balances,
    and are appended; siblings exchange blocks; on a restart the blocks are
    validated and the indexes rebuilt.

    ** The parts of the program and where they are modelled

    - [Prelude] (this file): machine integers, byte strings and C strings,
      [std::map] insertion and iteration order, and the effect monad [M]:
      a method returns ([Ret]), throws ([Throw]) or runs into undefined
      behaviour ([Undef]).
    - [GradidoDef] (blockchain_gradido_def.h): enumerations with their codes,
      [GradidoValue] and [HederaTimestamp] arithmetic at machine width, the
      structs of ledger records.
    - [Packed] (PACKED_STRUCT of gradido_core_utils.h): formats, that is the
      bytes of a value and the value of bytes, with the laws [Packed], closed
      under the fields, arrays, unions and enumerations of C.
    - [MemoryManagers] (memory_managers.h): the pools of fixed-size blocks.
    - [FileTile] (file_tile.h): an array of tiles, each a file of records,
      with its cache states; files are lists of records, and a fault plan
      lets any write fail or stop short.
    - [Fnr] (class Fnr of blockchain.h): names of block files.
    - [Blockchain] (blockchain.h): appending, validating, reading, truncating
      blocks of records with a running checksum; the cache and its flushing.
    - [BlockchainBase] (blockchain_base_deprecated.h, blockchain_base.h): the
      state machine INITIAL / FETCHING_CHECKSUMS / FETCHING_BLOCKS /
      VALIDATING / READY, the queue of incoming batches and the queries.  It
      sits on the class [Storage] (what the code calls of the block store)
      with the laws [StorageLaws], and calls the class [Child] (the pure
      virtual methods).  Tasks pushed to the facade and requests to other
      nodes are recorded in the state as a list of effects.
    - [GroupRegister] (group_register.cpp): the register of group aliases.
    - [SubclusterBlockchain] (subcluster_blockchain.cpp): admins, nodes and
      blockchains of a subcluster.
    - [GradidoMath] (gradidomath.c): the decay of balances over MPFR numbers.
    - [BlockchainGradido] (blockchain_gradido.cpp): the ledger: creations,
      users, friends, local, inbound and outbound transfers, pairing with
      other groups' ledgers, rebuilding of the indexes.
    - [WorkerPool] (worker_pool.cpp): the threads that run the tasks of all
      the above: queue, condition variable, shutdown, and the handshake of a
      caller that waits for its task, as step relations.
    - [CoreUtils] (gradido_core_utils.cpp): hexadecimal, log text, clock
      differences.
    - [Handshake] (handshake_handler.cpp, with the parts of facades_impl.cpp,
      gradido_events.h and versioned.cpp it needs): how a launched node gets
      into the subcluster blockchain, over the interface [IVersioned] and for
      its implementation [Versioned_1].
    - [TimerPool] (timer_pool.cpp): running timers, executors and their
      threads as step relations.
    - [DelayedTasks] (facades_impl.cpp): tasks pushed for later, whose
      listeners delete themselves, over [TimerPool].
    - [Translate] (blockchain_gradido_translate.cpp, and the tasks of
      gradido_events.h that feed a blockchain): messages of the mirror node
      and of other nodes to records and back.
    - [Factory] (versioned.cpp): requests to transactions.
    - [Communications] (communications.cpp, providers of gradido_events.h):
      module [Server], the life of a streaming call on the node that serves
      it; module [Client], a subscriber on the node that asks; the handlers
      that stream a blockchain ([Provider]) and their composition.
    - [Config] (config.cpp, key files of utils.cpp): groups, siblings and the
      key pair, with the files that outlive the process.
    - [Facades] (facades_impl.cpp, gradido_events.h): the blockchains of
      groups, and the paired transactions that are asked from siblings; tasks,
      answers and questions are the steps.
    - [Layout] (blockchain_gradido_def.h, the record of gradido_interfaces.h):
      the format of every struct that is stored, and of files of records; the
      bytes of a pair a sibling sent.
    - [Stored]: what is translated fits the structs; a restart from the bytes
      of the files.
    - [Json], [Dump], [DumpRecords], [JsonRpc] (utils.cpp, dumper.h,
      JsonRPCHandler.cpp): a reference of JSON texts, what is written for
      records, and the answer to a request for transactions.
    - [Signals] (gradido_signals.cpp): the thread that reloads on a signal.
    - [TopicStream] (communications.cpp, blockchain_base_deprecated.h,
      gradido_events.h): subscriber of a topic, queue of tasks, workers and
      ledger in one step relation, in which a message may arrive while the one
      before is still being delivered.
    - [Programs] (bins/create_kp_identity.cpp, create_sb.cpp,
      create_admin_enquiry.cpp, add_admin_to_sb.cpp): the programs that start
      a subcluster.
    - [Locks] (the mutexes of all the above): what each method locks, touches
      and calls, for the threads of both kinds of node, over a small language
      of locked scopes.
    - [Nodes] (facades_impl.h, facades_impl.cpp, gradido_events.h): the calls
      each kind of node serves, and the receivers of signed transactions as
      handlers of [Communications].
    - [Startup] (config.cpp, facades_impl.cpp, main_def.h, bins/): the main
      program of every kind of node, from the files of its folder to running
      threads or an exit code, with each change of the folder in between.
    - [Shutdown] (communications.cpp): the services of the communication layer
      while they are stopped, run and deleted by different threads.

    ** What the theorems show

    - Values: addition and subtraction are exact or throw exactly when they
      should; a balance after decay differs from the real product by at most
      half a millionth and the rounding of MPFR ([decay_accurate]).
    - Storage refinement: [tiles_ok] / [bc_rep] relate files, cache and
      counters to a list of blocks; appending adds exactly the new records to
      the log [bc_log], reads return what is stored, a restart recovers the
      same chain.  [Blockchain_implements_storage] packs this as the laws of
      [Storage], and everything above is proved from those laws alone.
    - Bytes: every stored struct reads back from its bytes, every record that
      is translated from a message within its bounds fits its struct, and a
      restart that parses the bytes finds the blocks ([restart_from_disk]).
    - Starts: no start overwrites a key, a property or a group file, whenever
      it is killed; a launched node keeps its keys over restarts; what
      [NodeFacade] does with files refines the node of [Handshake]; an ordering
      node has one worker whatever its configuration says.  The service for
      calls is stopped without harm in every interleaving, a service for
      subscribers only while it has none.
    - State machine: over all interleavings of tasks, answers and
      transactions (relation [step]) a task that continues the validation is
      pending exactly in the states that wait for one.
    - Children: records in the order of their numbers are all stored, and
      their result is pinned by the log: in the register a name is new exactly
      when no record since the last start has its alias field
      ([in_order_records_stored]; names of before the start do not count,
      [registered_alias_accepted_again]), in the subcluster a record is
      refused exactly when its key is found under the records before
      ([sb_in_order_records_stored]); the ledger's running index agrees
      with the one a restart builds ([restart_keeps_ledger]); failed
      transactions change nothing; recorded balances of a transfer conserve
      the sum; a user who moves in waits for the pair; pairs are found.
    - Threads: over all interleavings the worker pool starts tasks in order,
      loses no wake-up, deletes each task once, and ends after shutdown; the
      handshake of a synced task ends with both sides done.
    - Launch: whatever arrives, a node starts once and submits its entry at
      most once.  For a version of the messages that reads back what it writes
      ([VersionedLaws]) the handshake completes with the entry signed by both
      sides; the one version there is, [Versioned_1], writes nothing, does not
      keep those laws ([version1_breaks_laws]) and submits an empty entry
      ([version1_submits_empty_entry]).
    - Messages: a message is translated without undefined behaviour exactly
      when its keys, signatures, hashes and names have the lengths that are
      copied ([in_bounds]), and then it is well typed and says what the message
      said; the messages of a topic, in order, end in the ledger, and one that
      cannot be read resets it.
      From the network on: with one worker, and no message arriving inside the
      delivery of the one before ([orderly_step]), every interleaving stores
      the stream of a topic ([one_worker_stores_stream]); a message that does
      arrive there is lost and resets the ledger
      ([overwritten_message_resets_ledger]).
    - Start of a subcluster: the programs leave a chain whose index holds the
      first admins, and a restart finds the index again.
    - Locks: the threads of a node never wait for each other in a circle as
      long as no pair is delivered, and no two of them touch a field with a
      lock of its own at a time; the fields without one (the state of a call,
      of a subscriber's buffer and of the handshake) are raced for
      ([unlocked_fields_race]).
    - Network: over gRPC's completion queues, in every interleaving and with
      failing operations, a call gives only answers its handler makes, in
      order, and gives them all when nothing fails and the task is over before
      the next event ([call_serves_answers]); under such calm schedules a
      subscriber delivers the stream it is sent, the first block of a chain
      reaches the empty store of a sibling ([block_reaches_sibling]), and a
      node and its launcher complete the handshake for a version that keeps
      [VersionedLaws] ([handshake_over_network]).
    - Timers and facade: one thread at a time calls a timer's listener and due
      events are handled; a task pushed for later is pushed at most once and
      not before its time; a group has one blockchain, opened once, faults or
      not; a pair that is waited for is pursued until a call breaks off or a
      task for later is lost, and never again after that ([pair_pursued]); a
      group that is added is served after a restart.
    - Texts: dumps of records read back as the reference value of the record
      ([parse_laid_out] and the equivalence theorems), and the answer to a
      request for transactions is the array of those values.
    - Utilities: hexadecimal round trips; log lines are printable; key files
      and the sibling file are read back.
    - Deviations, each proved: a balance can be spent twice until the index
      is rebuilt; record numbers one too high; the queue gives the newest
      batch first; chains of more than one block are never fetched; checksums
      not chained between blocks; counters kept by truncate; alias keys that
      differ after a restart; typed nodes that survive a reset;
      a caller that waits for ever for a task that threw or was still queued
      at shutdown; a log line that overruns its buffer; an empty entry
      submitted with version 1 of the messages; factories that never succeed;
      a message that overwrites the one being delivered; a server that stops
      after a failed operation; a pair that is never delivered and would be
      read shifted; an alias that keeps the node from starting; siblings that
      are not removed; dumps that are no JSON; transactions missing from an
      answer; reloading without end; a second worker that
      overtakes the first and makes the ledger drop its blocks; a second run
      of a program, or a chain of several blocks, that breaks the chain of a
      subcluster; the delivery of pairs, which can block two threads for
      ever, and the lookup of pairs without a lock; calls nobody serves that
      are never answered; a task for later that is lost because another one's
      listener deletes itself; an ordering node that acknowledges nothing; a
      pinger that cannot be launched; a pair sent by a sibling that is copied
      one byte too far, is never recognised and keeps the ledger waiting for
      ever; a second append without a read, whose checksum covers the new
      record alone ([append_twice_drops_chain]), and a validation that looks
      at the shape of a block and not at its checksum
      ([validate_block_accepts_shape]); a signal that interrupts the thread it
      is meant for and blocks it; a launch token that is lost when anything fails after it was read,
      key files that can be left half written, a restart that skips the
      handshake, and topic numbers that are accepted though they are none; a
      service that is used by the thread that stops it after it was deleted.

    ** Bounds and assumptions

    Counters that are only incremented (records, blocks, sequence numbers)
    are [N]; they are assumed to stay below their width, and theorems on
    sequence numbers say so.  Values, timestamps and subtractions are wrapped
    at their width; the subtraction of timestamps is signed, where an overflow
    would be undefined, and none occurs between timestamps that are well
    formed.  Recursion is structural, except that a pool's [get]
    calls itself once after allocating an array: its fuel of 2 is proved
    sufficient.  Parameters: SHA-512, [std::sort] (a sorted permutation), the
    byte image of a payload (in the storage part; [Layout] has the images of
    all three kinds of record), MPFR (correct rounding), the ledgers of other
    groups, the sibling endpoint, the generated protobuf classes, Poco's
    property files, and whether an address can be listened on.  Their laws
    are stated as classes or hypotheses, and the witnesses instantiate all of
    them.

    ** Not modelled

    Freeing of memory and the destructors that run when a program ends, the
    lock of the log, creation of storage folders, the inside of gRPC and HTTP
    servers, and the parts listed as not modelled in the project description:
    abstract interfaces, methods that only forward, and the demo of a login
    node, whose methods all throw.  In every file but [Locks] and the models
    of threads a method holds its object's lock and is one step; [TopicStream]
    splits [add_transaction] where it releases the lock.  Managing a group by a
    request and reading the group register through the facade use a pointer
    that is not returned: nothing but undefined behaviour would be modelled.
    The broadcast of the ordering node, the subscription to its events and
    the node's log for others are unfinished in the source.  Reading the
    checksum of a block as if it were a payload is undefined in the model,
    except where a stream sends its bytes, which are a parameter.

    ** Further work

    The blocks of a sibling together with the stream of the topic, both
    feeding one ledger. *)

From stdpp Require Import base gmap list strings pretty numbers sorting.
From Stdlib Require Import ZArith Lia.

(** ** Machine integers

    A C integer is a [Z] (or an [N], for an unsigned counter that is only
    incremented); each arithmetic result the source stores in a fixed-width
    variable is passed through the wrap of that width. *)

Definition uwrap (w z : Z) : Z := z mod 2 ^ w.
Definition swrap (w z : Z) : Z := (z + 2 ^ (w - 1)) mod 2 ^ w - 2 ^ (w - 1).

Abbreviation u8 := (uwrap 8).
Abbreviation u32 := (uwrap 32).
Abbreviation u64 := (uwrap 64).
Abbreviation i32 := (swrap 32).
Abbreviation i64 := (swrap 64).

Definition UINT32_MAX : N := 2 ^ 32 - 1.

(** [x - 1] and [x - 2] on unsigned counters: they wrap below zero. *)
Definition u32_pred (n : N) : N := if (n =? 0)%N then UINT32_MAX else (n - 1)%N.
Definition u64_sub (n k : N) : N :=
  if (n <? k)%N then (2 ^ 64 + n - k)%N else (n - k)%N.

Lemma uwrap_small w z : (0 <= z < 2 ^ w)%Z -> uwrap w z = z.
Proof. intros H. unfold uwrap. now apply Z.mod_small. Qed.

Lemma uwrap_range w z : (0 <= w)%Z -> (0 <= uwrap w z < 2 ^ w)%Z.
Proof. intros H. unfold uwrap. apply Z.mod_pos_bound. now apply Z.pow_pos_nonneg. Qed.

Lemma swrap_small w z :
  (0 < w)%Z -> (- 2 ^ (w - 1) <= z < 2 ^ (w - 1))%Z -> swrap w z = z.
Proof.
  intros Hw H. unfold swrap.
  assert (2 ^ w = 2 * 2 ^ (w - 1))%Z as E.
  { rewrite <- Z.pow_succ_r by lia. f_equal. lia. }
  rewrite Z.mod_small; lia.
Qed.

Lemma u32_pred_pos n : (0 < n)%N -> u32_pred n = (n - 1)%N.
Proof. unfold u32_pred. destruct (N.eqb_spec n 0); lia. Qed.

(** ** Byte strings *)

Abbreviation bytes := (list Z).

(** [std::string((char* )p)]: the bytes up to the first null. *)
Fixpoint cstr (l : bytes) : bytes :=
  match l with
  | [] => []
  | b :: l' => if (b =? 0)%Z then [] else b :: cstr l'
  end.

Lemma cstr_app_nonzero l m : Forall (fun c => c <> 0%Z) l -> cstr (l ++ m) = l ++ cstr m.
Proof.
  induction 1 as [|c l Hc _ IH]; [done|]. cbn. destruct (Z.eqb_spec c 0); [done|]. now rewrite IH.
Qed.

Lemma cstr_zero_padded s n : Forall (fun c => c <> 0%Z) s -> cstr (s ++ replicate n 0%Z) = s.
Proof. intros H. rewrite (cstr_app_nonzero s _ H). destruct n; apply app_nil_r. Qed.

Lemma length_cstr l : (length (cstr l) <= length l)%nat.
Proof. induction l as [|b l IH]; [done|]. cbn [cstr]. destruct (b =? 0)%Z; cbn; lia. Qed.

Lemma length_cstr_null s l : (length (cstr (s ++ 0%Z :: l)) <= length s)%nat.
Proof. induction s as [|b s IH]; [done|]. cbn [app cstr]. destruct (b =? 0)%Z; cbn; lia. Qed.

(** [std::string((char* )field)] of a field of fixed size: [None] when no
    null ends it inside the field. *)
Definition field_string (l : bytes) : option bytes :=
  let s := cstr l in if (length s <? length l)%nat then Some s else None.

(** [memcpy(dst, s.c_str(), n)]: the bytes read, from the characters of [s]
    and the null that ends them; [None] reads past the end. *)
Definition c_str_read (n : nat) (s : bytes) : option bytes :=
  if (n <=? length s + 1)%nat then Some (take n (s ++ [0%Z])) else None.

(** [memcpy(field, s.c_str(), s.size())]: [None] writes past the field. *)
Definition field_write (field s : bytes) : option bytes :=
  if (length s <=? length field)%nat then Some (s ++ drop (length s) field) else None.

Lemma length_c_str_read n s l : c_str_read n s = Some l -> length l = n.
Proof.
  unfold c_str_read. destruct (Nat.leb_spec n (length s + 1)); [|done]. intros [= <-].
  rewrite length_take, length_app. cbn. lia.
Qed.

Lemma c_str_read_fits n s : (n <= length s)%nat -> c_str_read n s = Some (take n s).
Proof.
  intros H. unfold c_str_read. destruct (Nat.leb_spec n (length s + 1)); [|lia].
  now rewrite take_app_le.
Qed.

Lemma length_field_write f s l : field_write f s = Some l -> length l = length f.
Proof.
  unfold field_write. destruct (Nat.leb_spec (length s) (length f)); [|done]. intros [= <-].
  rewrite length_app, length_drop. lia.
Qed.

Lemma field_write_fits f s :
  (length s <= length f)%nat -> field_write f s = Some (s ++ drop (length s) f).
Proof. intros H. unfold field_write. now destruct (Nat.leb_spec (length s) (length f)); [|lia]. Qed.

(** The order of [std::string]. *)
Fixpoint bytes_leb (a c : bytes) : bool :=
  match a, c with
  | [], _ => true
  | _, [] => false
  | p :: a', q :: c' => (p <? q)%Z || ((p =? q)%Z && bytes_leb a' c')
  end.

Definition bytes_le (a c : bytes) : Prop := bytes_leb a c = true.
#[export] Instance bytes_le_dec a c : Decision (bytes_le a c).
Proof. unfold bytes_le. apply _. Defined.

#[export] Instance bytes_le_total : Total bytes_le.
Proof.
  unfold bytes_le. intros a. induction a as [|p a IH]; intros [|q c]; cbn; auto.
  destruct (Z.ltb_spec p q), (Z.ltb_spec q p); cbn; auto.
  assert (p = q) as -> by lia. rewrite Z.eqb_refl. cbn. apply IH.
Qed.

(** [std::map::insert]: an element that is there already stays. *)
Definition map_insert {K V} `{Countable K} (k : K) (v : V) (m : gmap K V) : gmap K V :=
  match m !! k with Some _ => m | None => <[k := v]> m end.

(** The keys of a map in the order in which a [std::map] is iterated. *)
Definition sorted_keys {V} (m : gmap bytes V) : list bytes := merge_sort bytes_le (elements (dom m)).

Lemma sorted_keys_spec {V} (m : gmap bytes V) :
  (forall k, k ∈ sorted_keys m <-> is_Some (m !! k)) /\ NoDup (sorted_keys m) /\ Sorted bytes_le (sorted_keys m).
Proof.
  unfold sorted_keys. split; [|split].
  - intros k. rewrite merge_sort_Permutation, elem_of_elements. apply elem_of_dom.
  - rewrite merge_sort_Permutation. apply NoDup_elements.
  - apply Sorted_merge_sort. apply _.
Qed.

(** ** Effects

    A method that reads and writes an object's fields is a state-passing
    computation.  It returns ([Ret]), raises a C++ exception with the state
    the raise leaves behind ([Throw]), or runs into behaviour the language
    does not define ([Undef]: null or past-the-end dereference, missing
    return). *)

Inductive outcome (S A : Type) : Type :=
| Ret (a : A) (s : S)
| Throw (msg : string) (s : S)
| Undef.
Arguments Ret {S A} a s.
Arguments Throw {S A} msg s.
Arguments Undef {S A}.

Definition M (S A : Type) : Type := S -> outcome S A.

Definition ret {S A} (a : A) : M S A := fun s => Ret a s.
Definition bind {S A B} (m : M S A) (k : A -> M S B) : M S B :=
  fun s => match m s with
           | Ret a s' => k a s'
           | Throw e s' => Throw e s'
           | Undef => Undef
           end.
Definition throw {S A} (msg : string) : M S A := fun s => Throw msg s.
Definition undef {S A} : M S A := fun _ => Undef.
Definition of_option {S A} (o : option A) : M S A := match o with Some a => ret a | None => undef end.
(** [try { m } catch (...) { h }]. *)
Definition try_catch {S A} (m h : M S A) : M S A :=
  fun s => match m s with Throw _ s' => h s' | r => r end.
Definition gets {S A} (f : S -> A) : M S A := fun s => Ret (f s) s.
Definition modify {S} (f : S -> S) : M S unit := fun s => Ret tt (f s).

Declare Scope node_scope.
Delimit Scope node_scope with node.
Notation "'let!' x ':=' m 'in' k" := (bind m (fun x => k))
  (at level 10, x pattern, m at level 100, k at level 200) : node_scope.
Notation "m ';;;' k" := (bind m (fun _ => k))
  (at level 199, right associativity) : node_scope.

(** Running a computation on one field of a larger object. *)
Definition zoom {S T A} (get : S -> T) (set : T -> S -> S) (m : M T A) : M S A :=
  fun s => match m (get s) with
           | Ret a t => Ret a (set t s)
           | Throw e t => Throw e (set t s)
           | Undef => Undef
           end.

(** A [for] loop over a range that is fixed when the loop starts. *)
Fixpoint for_each {S A} (l : list A) (body : A -> M S unit) : M S unit :=
  match l with
  | [] => ret tt
  | x :: l' => bind (body x) (fun _ => for_each l' body)
  end.

(** The same loop filling a local variable. *)
Fixpoint fold_each {S A B} (l : list A) (acc : B) (body : B -> A -> M S B) : M S B :=
  match l with
  | [] => ret acc
  | x :: l' => bind (body acc x) (fun acc' => fold_each l' acc' body)
  end.

Section monad_lemmas.
Context {S A B C : Type}.
Implicit Types (s : S).

Lemma bind_Ret (m : M S A) (k : A -> M S B) s a s' :
  m s = Ret a s' -> bind m k s = k a s'.
Proof. intros H. unfold bind. now rewrite H. Qed.

Lemma bind_Ret_inv (m : M S A) (k : A -> M S B) s b s' :
  bind m k s = Ret b s' -> exists a s1, m s = Ret a s1 /\ k a s1 = Ret b s'.
Proof. unfold bind. destruct (m s) eqn:E; intros H; try discriminate. eauto. Qed.

Lemma bind_assoc (m : M S A) (k : A -> M S B) (h : B -> M S C) s :
  bind (bind m k) h s = bind m (fun a => bind (k a) h) s.
Proof. unfold bind. destruct (m s); reflexivity. Qed.

Lemma zoom_Ret {T} (get : S -> T) (set : T -> S -> S) (m : M T A) s a t :
  m (get s) = Ret a t -> zoom get set m s = Ret a (set t s).
Proof. intros H. unfold zoom. now rewrite H. Qed.

Lemma zoom_bind {T} (get : S -> T) (set : T -> S -> S)
    (m : M T A) (k : A -> M S B) s a t :
  m (get s) = Ret a t -> bind (zoom get set m) k s = k a (set t s).
Proof. intros H. unfold bind, zoom. now rewrite H. Qed.
End monad_lemmas.

Lemma for_each_app {S A} (l1 l2 : list A) (body : A -> M S unit) s :
  for_each (l1 ++ l2) body s = bind (for_each l1 body) (fun _ => for_each l2 body) s.
Proof.
  revert s. induction l1 as [|x l1 IH]; intros s; [reflexivity|].
  cbn [for_each app]. rewrite bind_assoc. unfold bind at 1 2.
  destruct (body x s); auto.
Qed.

(** The invariant rule for loops: if the body returns and keeps [P], so does
    the loop. *)
Lemma for_each_inv {S A} (P : S -> Prop) (l : list A) (body : A -> M S unit) s :
  P s ->
  (forall x s1, x ∈ l -> P s1 -> exists s2, body x s1 = Ret tt s2 /\ P s2) ->
  exists s', for_each l body s = Ret tt s' /\ P s'.
Proof.
  revert s. induction l as [|x l IH]; intros s HP Hb; cbn [for_each].
  - exists s. split; [reflexivity|assumption].
  - destruct (Hb x s) as (s2 & E & HP2); [left|assumption|].
    rewrite (bind_Ret _ _ _ _ _ E). apply IH; [assumption|].
    intros y s3 Hy HP3. apply Hb; [now right|assumption].
Qed.

Lemma fold_each_inv {S A B} (P : B -> S -> Prop) (l : list A) (acc : B) (body : B -> A -> M S B) s :
  P acc s ->
  (forall x b s1, x ∈ l -> P b s1 -> exists b' s2, body b x s1 = Ret b' s2 /\ P b' s2) ->
  exists b' s', fold_each l acc body s = Ret b' s' /\ P b' s'.
Proof.
  revert acc s. induction l as [|x l IH]; intros acc s HP Hb; cbn [fold_each].
  - exists acc, s. split; [reflexivity|assumption].
  - destruct (Hb x acc s) as (b2 & s2 & E & HP2); [left|assumption|].
    rewrite (bind_Ret _ _ _ _ _ E). apply IH; [assumption|].
    intros y b s3 Hy HP3. apply Hb; [now right|assumption].
Qed.

(** ** Sums over a list updated at an index *)

Lemma sum_list_with_insert {A} (f : A -> nat) l i x x' :
  l !! i = Some x -> (sum_list_with f (<[i := x']> l) + f x = sum_list_with f l + f x')%nat.
Proof.
  revert i. induction l as [|y l IH]; intros [|i] H; cbn in *; [done..|simplify_eq; lia|].
  specialize (IH i H). unfold insert in *. lia.
Qed.

(** ** Automation *)

Create HintDb node discriminated.
#[export] Hint Rewrite @length_insert @length_replicate @length_app
  @length_take @length_drop : node.

Ltac destruct_bool_eqns :=
  repeat match goal with
  | H : (_ && _) = true |- _ => apply andb_prop in H; destruct H
  | H : (_ =? _)%Z = true |- _ => apply Z.eqb_eq in H
  | H : (_ =? _)%Z = false |- _ => apply Z.eqb_neq in H
  | H : (_ <? _)%Z = true |- _ => apply Z.ltb_lt in H
  | H : (_ <? _)%Z = false |- _ => apply Z.ltb_ge in H
  | H : (_ <=? _)%Z = true |- _ => apply Z.leb_le in H
  | H : (_ <=? _)%Z = false |- _ => apply Z.leb_gt in H
  | H : (_ =? _)%N = true |- _ => apply N.eqb_eq in H
  | H : (_ =? _)%N = false |- _ => apply N.eqb_neq in H
  | H : (_ <? _)%N = true |- _ => apply N.ltb_lt in H
  | H : (_ <? _)%N = false |- _ => apply N.ltb_ge in H
  | H : (_ <=? _)%N = true |- _ => apply N.leb_le in H
  | H : (_ <=? _)%N = false |- _ => apply N.leb_gt in H
  end.

(** [lia] with quotients and remainders. *)
Ltac divmod_lia := Z.to_euclidean_division_equations; lia.

(** Case split on the innermost scrutinee of the goal. *)
Ltac case_innermost :=
  match goal with
  | |- context [match ?x with _ => _ end] =>
      lazymatch x with
      | context [match _ with _ => _ end] => fail
      | _ => let E := fresh "E" in destruct x eqn:E
      end
  end.
