(* ===== verification/GradidoDef.v ===== *)
(** * Record layout and value types (blockchain_gradido_def.h)

    The enumerations with the byte codes the records store, the packed
    structs, and the two value types that have arithmetic: [GradidoValue]
    (an amount with six decimals) and [HederaTimestamp].  The theorems tie
    both to exact integer arithmetic: micro-gradidos and nanoseconds. *)

From stdpp Require Import base gmap list strings.
From Stdlib Require Import ZArith Lia.
From S2P Require Import Prelude.
Local Open Scope Z_scope.

(** ** Constants *)

Definition GRADIDO_BLOCK_SIZE : N := 1000.
Definition PUB_KEY_LENGTH : nat := 32.
Definition SIGNATURE_LENGTH : nat := 64.
Definition HEDERA_RUNNING_HASH_LENGTH : nat := 48.
Definition MEMO_MAIN_SIZE : nat := 16.
Definition MEMO_FULL_SIZE : nat := 150.
Definition GROUP_ALIAS_LENGTH : nat := 16.
Definition BLOCKCHAIN_CHECKSUM_SIZE : nat := 64.
Definition GRADIDO_VALUE_DECIMAL_AMOUNT_BASE : Z := 1000000.

(** ** Enumerations *)

Inductive TransactionType :=
| GRADIDO_CREATION | ADD_GROUP_FRIEND | REMOVE_GROUP_FRIEND | ADD_USER
| MOVE_USER_INBOUND | MOVE_USER_OUTBOUND | LOCAL_TRANSFER
| INBOUND_TRANSFER | OUTBOUND_TRANSFER
| HEADER | ADD_ADMIN | REMOVE_ADMIN | ADD_NODE | REMOVE_NODE
| INITIALIZATION_DONE.

Definition TransactionType_code (t : TransactionType) : Z :=
  match t with
  | GRADIDO_CREATION => 1 | ADD_GROUP_FRIEND => 2 | REMOVE_GROUP_FRIEND => 3
  | ADD_USER => 4 | MOVE_USER_INBOUND => 5 | MOVE_USER_OUTBOUND => 6
  | LOCAL_TRANSFER => 7 | INBOUND_TRANSFER => 8 | OUTBOUND_TRANSFER => 9
  | HEADER => 10 | ADD_ADMIN => 11 | REMOVE_ADMIN => 12 | ADD_NODE => 13
  | REMOVE_NODE => 14 | INITIALIZATION_DONE => 15
  end.

Inductive TransactionResult :=
| SUCCESS | UNKNOWN | NOT_ENOUGH_GRADIDOS | UNKNOWN_LOCAL_USER
| UNKNOWN_REMOTE_USER | UNKNOWN_GROUP | OUTBOUND_TRANSACTION_FAILED
| USER_ALREADY_EXISTS | GROUP_IS_ALREADY_FRIEND | GROUP_IS_NOT_FRIEND.

Definition TransactionResult_code (r : TransactionResult) : Z :=
  match r with
  | SUCCESS => 0 | UNKNOWN => 1 | NOT_ENOUGH_GRADIDOS => 2
  | UNKNOWN_LOCAL_USER => 3 | UNKNOWN_REMOTE_USER => 4 | UNKNOWN_GROUP => 5
  | OUTBOUND_TRANSACTION_FAILED => 6 | USER_ALREADY_EXISTS => 7
  | GROUP_IS_ALREADY_FRIEND => 8 | GROUP_IS_NOT_FRIEND => 9
  end.

Inductive GradidoRecordType :=
| BLANK | GRADIDO_TRANSACTION | MEMO | SIGNATURES
| STRUCTURALLY_BAD_MESSAGE | RAW_MESSAGE.

Definition GradidoRecordType_code (t : GradidoRecordType) : Z :=
  match t with
  | BLANK => 0 | GRADIDO_TRANSACTION => 1 | MEMO => 2 | SIGNATURES => 3
  | STRUCTURALLY_BAD_MESSAGE => 4 | RAW_MESSAGE => 5
  end.

Inductive GroupRegisterRecordType :=
| GROUP_RECORD | GR_STRUCTURALLY_BAD_MESSAGE | GR_RAW_MESSAGE.

Inductive SbRecordType :=
| SB_HEADER | SB_ADD_ADMIN | SB_ADD_NODE | ENABLE_ADMIN | DISABLE_ADMIN
| ENABLE_NODE | DISABLE_NODE | ADD_BLOCKCHAIN | ADD_NODE_TO_BLOCKCHAIN
| REMOVE_NODE_FROM_BLOCKCHAIN | SB_SIGNATURES.

Inductive SbNodeType := ORDERING | GRADIDO | LOGIN | BACKUP | LOGGER | PINGER.

Inductive SbTransactionResult :=
| SB_SUCCESS | DUPLICATE_PUB_KEY | BAD_ADMIN_SIGNATURE | NON_MAJORITY
| DUPLICATE_ALIAS | NODE_ALREADY_ADDED_TO_BLOCKCHAIN.

#[export] Instance TransactionType_eq_dec : EqDecision TransactionType.
Proof. solve_decision. Defined.
#[export] Instance TransactionResult_eq_dec : EqDecision TransactionResult.
Proof. solve_decision. Defined.
#[export] Instance GradidoRecordType_eq_dec : EqDecision GradidoRecordType.
Proof. solve_decision. Defined.
#[export] Instance GroupRegisterRecordType_eq_dec : EqDecision GroupRegisterRecordType.
Proof. solve_decision. Defined.
#[export] Instance SbRecordType_eq_dec : EqDecision SbRecordType.
Proof. solve_decision. Defined.
#[export] Instance SbNodeType_eq_dec : EqDecision SbNodeType.
Proof. solve_decision. Defined.
#[export] Instance SbTransactionResult_eq_dec : EqDecision SbTransactionResult.
Proof. solve_decision. Defined.

(** ** GradidoValue *)

Record GradidoValue := mkGradidoValue { amount : Z; decimal_amount : Z }.

#[export] Instance GradidoValue_eq_dec : EqDecision GradidoValue.
Proof. solve_decision. Defined.

(** [GradidoValue()]: all bytes zero. *)
Definition GradidoValue_zero : GradidoValue := mkGradidoValue 0 0.

Definition GradidoValue_add (a v : GradidoValue) : GradidoValue :=
  let am := u64 (amount a + amount v) in
  let dec := u32 (decimal_amount a + decimal_amount v) in
  if GRADIDO_VALUE_DECIMAL_AMOUNT_BASE <=? dec
  then mkGradidoValue (u64 (am + 1)) (u32 (dec - GRADIDO_VALUE_DECIMAL_AMOUNT_BASE))
  else mkGradidoValue am dec.

Definition GradidoValue_lt (a v : GradidoValue) : bool :=
  (amount a <? amount v)
  || ((amount a =? amount v) && (decimal_amount a <? decimal_amount v)).

(** [operator<(uint64_t)] compares whole gradidos only. *)
Definition GradidoValue_lt_u64 (a : GradidoValue) (v : Z) : bool := amount a <? v.

(** [None]: the operator throws "GradidoValue less than zero". *)
Definition GradidoValue_sub (a v : GradidoValue) : option GradidoValue :=
  if GradidoValue_lt a v then None
  else
    let am := u64 (amount a - amount v) in
    if decimal_amount v <=? decimal_amount a
    then Some (mkGradidoValue am (u32 (decimal_amount a - decimal_amount v)))
    else Some (mkGradidoValue (u64 (am - 1))
           (u32 (GRADIDO_VALUE_DECIMAL_AMOUNT_BASE
                 - u32 (decimal_amount v - decimal_amount a)))).

(** Well-formed values: fields in range, decimals below one gradido. *)
Definition GradidoValue_wf (v : GradidoValue) : Prop :=
  0 <= amount v < 2 ^ 64
  /\ 0 <= decimal_amount v < GRADIDO_VALUE_DECIMAL_AMOUNT_BASE.

#[export] Instance GradidoValue_wf_dec v : Decision (GradidoValue_wf v).
Proof. unfold GradidoValue_wf. apply _. Defined.

(** The value in micro-gradidos. *)
Definition micro (v : GradidoValue) : Z :=
  amount v * GRADIDO_VALUE_DECIMAL_AMOUNT_BASE + decimal_amount v.

(** ** HederaTimestamp *)

Record HederaTimestamp := mkHederaTimestamp { seconds : Z; nanos : Z }.

#[export] Instance HederaTimestamp_eq_dec : EqDecision HederaTimestamp.
Proof. solve_decision. Defined.
#[export] Instance HederaTimestamp_countable : Countable HederaTimestamp.
Proof.
  apply (inj_countable' (fun t => (seconds t, nanos t))
                        (fun p => mkHederaTimestamp p.1 p.2)).
  now intros [].
Defined.

Definition HederaTimestamp_zero : HederaTimestamp := mkHederaTimestamp 0 0.

Definition HederaTimestamp_lt (a ts : HederaTimestamp) : bool :=
  (seconds a <? seconds ts)
  || ((seconds ts =? seconds a) && (nanos a <? nanos ts)).

Definition HederaTimestamp_eqb (a ts : HederaTimestamp) : bool :=
  (seconds ts =? seconds a) && (nanos ts =? nanos a).

(** A difference that does not fit its type, which is undefined, is written
    as wrapped; for timestamps of a proper range ([HederaTimestamp_wf])
    every difference fits ([HederaTimestamp_sub_exact]). *)
Definition HederaTimestamp_sub (a v : HederaTimestamp) : HederaTimestamp :=
  let s := i64 (seconds a - seconds v) in
  if nanos v <=? nanos a
  then mkHederaTimestamp s (i32 (nanos a - nanos v))
  else mkHederaTimestamp (i64 (s - 1)) (i32 (1000000000 - i32 (nanos v - nanos a))).

(** A timestamp with a proper nanosecond part, in the range of Unix times
    that fit 62 bits. *)
Definition HederaTimestamp_wf (t : HederaTimestamp) : Prop :=
  0 <= seconds t < 2 ^ 62 /\ 0 <= nanos t < 1000000000.

Definition nanoseconds (t : HederaTimestamp) : Z := seconds t * 1000000000 + nanos t.

(** ** Packed structs

    Fixed-size byte arrays are [bytes].  The union of [Transaction] is the
    sum [TransactionBody]: the source reads a member only under the
    [transaction_type] that was stored with it.  [TB_other] stands for the
    types no handler has a case for (0, and the codes 10 to 15). *)

Record HederaTopicID := mkHederaTopicID
  { topic_shardNum : Z; topic_realmNum : Z; topic_topicNum : Z }.
Record HederaAccountID := mkHederaAccountID
  { acc_shardNum : Z; acc_realmNum : Z; acc_accountNum : Z }.
Record HederaTransactionID := mkHederaTransactionID
  { transactionValidStart : HederaTimestamp; accountID : HederaAccountID }.
Record HederaTransaction := mkHederaTransaction
  { consensusTimestamp : HederaTimestamp; runningHash : bytes;
    sequenceNumber : N; runningHashVersion : Z }.
Record Signature := mkSignature { sig_pubkey : bytes; sig_signature : bytes }.

Record UserState := mkUserState
  { new_balance : GradidoValue; prev_transfer_rec_num : N }.
Record UserTransfer := mkUserTransfer { ut_user : bytes; ut_state : UserState }.
Record PairedTransaction := mkPairedTransaction
  { paired_transaction_id : HederaTimestamp; other_group : bytes }.

Record GradidoCreation := mkGradidoCreation
  { gc_user : UserTransfer; gc_amount : GradidoValue }.
Record MoveUser := mkMoveUser
  { mu_user : bytes; mu_paired : PairedTransaction; mu_state : UserState }.
Record LocalTransfer := mkLocalTransfer
  { lt_amount : GradidoValue; lt_sender : UserTransfer; lt_receiver : UserTransfer }.
Record InboundTransfer := mkInboundTransfer
  { it_amount : GradidoValue; it_paired : PairedTransaction;
    it_sender : bytes; it_receiver : UserTransfer }.
Record OutboundTransfer := mkOutboundTransfer
  { ot_amount : GradidoValue; ot_paired : PairedTransaction;
    ot_sender : UserTransfer; ot_receiver : bytes }.

Inductive TransactionBody :=
| TB_gradido_creation (gc : GradidoCreation)
| TB_add_group_friend (group : bytes)
| TB_remove_group_friend (group : bytes)
| TB_add_user (user : bytes)
| TB_move_user_inbound (mu : MoveUser)
| TB_move_user_outbound (mu : MoveUser)
| TB_local_transfer (lt : LocalTransfer)
| TB_inbound_transfer (it : InboundTransfer)
| TB_outbound_transfer (ot : OutboundTransfer)
| TB_other (code : Z).

Definition transaction_type (b : TransactionBody) : Z :=
  match b with
  | TB_gradido_creation _ => TransactionType_code GRADIDO_CREATION
  | TB_add_group_friend _ => TransactionType_code ADD_GROUP_FRIEND
  | TB_remove_group_friend _ => TransactionType_code REMOVE_GROUP_FRIEND
  | TB_add_user _ => TransactionType_code ADD_USER
  | TB_move_user_inbound _ => TransactionType_code MOVE_USER_INBOUND
  | TB_move_user_outbound _ => TransactionType_code MOVE_USER_OUTBOUND
  | TB_local_transfer _ => TransactionType_code LOCAL_TRANSFER
  | TB_inbound_transfer _ => TransactionType_code INBOUND_TRANSFER
  | TB_outbound_transfer _ => TransactionType_code OUTBOUND_TRANSFER
  | TB_other c => c
  end.

Record Transaction := mkTransaction
  { version_number : Z; parts : Z; transaction_id : HederaTimestamp;
    hedera_transaction : HederaTransaction;
    signature : Signature; signature_count : Z;
    body : TransactionBody; tr_result : TransactionResult; memo : bytes }.

(** A message that could not be understood.  It shares the common header
    with [Transaction] and has a transaction data field of its own
    besides. *)
Record StructurallyBadMessage := mkStructurallyBadMessage
  { sbm_version_number : Z; sbm_parts : Z; sbm_transaction_id : HederaTimestamp;
    sbm_header_hedera_transaction : HederaTransaction;
    sbm_result : Z; sbm_length : Z; sbm_hedera_transaction : HederaTransaction }.

(** A blockchain line: a transaction or a bad message, or one of their
    further parts; [GR_blank] is the zeroed line. *)
Inductive GradidoRecord :=
| GR_transaction (t : Transaction)
| GR_memo (m : bytes)
| GR_signatures (l : list Signature)
| GR_structurally_bad_message (m : StructurallyBadMessage)
| GR_raw_message (m : bytes)
| GR_blank.

Definition record_type (r : GradidoRecord) : GradidoRecordType :=
  match r with
  | GR_transaction _ => GRADIDO_TRANSACTION
  | GR_memo _ => MEMO
  | GR_signatures _ => SIGNATURES
  | GR_structurally_bad_message _ => STRUCTURALLY_BAD_MESSAGE
  | GR_raw_message _ => RAW_MESSAGE
  | GR_blank => BLANK
  end.

Definition Signature_zero : Signature :=
  mkSignature (replicate PUB_KEY_LENGTH 0) (replicate SIGNATURE_LENGTH 0).
Definition HederaTransaction_zero : HederaTransaction :=
  mkHederaTransaction HederaTimestamp_zero
    (replicate HEDERA_RUNNING_HASH_LENGTH 0) 0 0.
Definition UserState_zero : UserState := mkUserState GradidoValue_zero 0.

(** [Transaction()]: zeroed, so type 0 and result code 0. *)
Definition Transaction_zero : Transaction :=
  mkTransaction 0 0 HederaTimestamp_zero HederaTransaction_zero
    Signature_zero 0 (TB_other 0) SUCCESS (replicate MEMO_MAIN_SIZE 0).

Definition with_body (b : TransactionBody) (t : Transaction) : Transaction :=
  mkTransaction (version_number t) (parts t) (transaction_id t)
    (hedera_transaction t) (signature t) (signature_count t) b (tr_result t) (memo t).
Definition with_result (r : TransactionResult) (t : Transaction) : Transaction :=
  mkTransaction (version_number t) (parts t) (transaction_id t)
    (hedera_transaction t) (signature t) (signature_count t) (body t) r (memo t).

(** ** Theorems *)

Ltac unfold_value :=
  unfold GradidoValue_wf, micro, GradidoValue_add, GradidoValue_sub,
    GradidoValue_lt, GRADIDO_VALUE_DECIMAL_AMOUNT_BASE in *; cbn [amount decimal_amount] in *.

Lemma GradidoValue_lt_micro a v :
  GradidoValue_wf a -> GradidoValue_wf v ->
  GradidoValue_lt a v = true <-> micro a < micro v.
Proof.
  unfold_value. rewrite orb_true_iff, andb_true_iff, !Z.ltb_lt, Z.eqb_eq. lia.
Qed.

Lemma micro_range v :
  GradidoValue_wf v -> 0 <= micro v < 2 ^ 64 * GRADIDO_VALUE_DECIMAL_AMOUNT_BASE.
Proof. unfold_value. lia. Qed.

Lemma micro_inj a v :
  GradidoValue_wf a -> GradidoValue_wf v -> micro a = micro v -> a = v.
Proof.
  destruct a, v. unfold_value. intros. f_equal; lia.
Qed.

(** The sum is well-formed and exact, modulo the 64-bit range of whole
    gradidos. *)
Lemma GradidoValue_add_wrap a v :
  GradidoValue_wf a -> GradidoValue_wf v ->
  GradidoValue_wf (GradidoValue_add a v)
  /\ micro (GradidoValue_add a v)
     = (micro a + micro v) mod (2 ^ 64 * GRADIDO_VALUE_DECIMAL_AMOUNT_BASE).
Proof.
  intros Ha Hv.
  assert (exists q r, micro a + micro v = q * (2 ^ 64 * 1000000) + r
          /\ GradidoValue_wf (GradidoValue_add a v)
          /\ micro (GradidoValue_add a v) = r) as (q & r & E & Hwf & Hr).
  { unfold_value.
    rewrite (uwrap_small 32 (decimal_amount a + decimal_amount v)) by lia.
    destruct (1000000 <=? decimal_amount a + decimal_amount v) eqn:Ed;
      cbn [amount decimal_amount]; destruct_bool_eqns.
    - rewrite (uwrap_small 32) by lia.
      exists ((amount a + amount v + 1) / 2 ^ 64). eexists. split; [|split; [|reflexivity]].
      + unfold uwrap. rewrite Zplus_mod_idemp_l. divmod_lia.
      + unfold uwrap. divmod_lia.
    - exists ((amount a + amount v) / 2 ^ 64). eexists. split; [|split; [|reflexivity]].
      + unfold uwrap. divmod_lia.
      + unfold uwrap. divmod_lia. }
  split; [exact Hwf|]. rewrite Hr, E.
  pose proof (micro_range _ Hwf). rewrite Hr in H.
  unfold GRADIDO_VALUE_DECIMAL_AMOUNT_BASE in *.
  apply (Z.mod_unique _ _ q); lia.
Qed.

Lemma GradidoValue_sub_spec a v :
  GradidoValue_wf a -> GradidoValue_wf v ->
  match GradidoValue_sub a v with
  | None => micro a < micro v
  | Some r => micro v <= micro a /\ GradidoValue_wf r /\ micro r = micro a - micro v
  end.
Proof.
  intros Ha Hv. pose proof (GradidoValue_lt_micro a v Ha Hv) as Hlt.
  unfold GradidoValue_sub. destruct (GradidoValue_lt a v).
  { now apply Hlt. }
  assert (micro v <= micro a) as Hle.
  { destruct (Z.lt_ge_cases (micro a) (micro v)); [|assumption].
    now apply Hlt in H. }
  clear Hlt. unfold_value.
  rewrite (uwrap_small 64 (amount a - amount v)) by lia.
  destruct (decimal_amount v <=? decimal_amount a) eqn:Ed; destruct_bool_eqns;
    cbn [amount decimal_amount].
  - rewrite (uwrap_small 32) by lia. lia.
  - rewrite (uwrap_small 32 (decimal_amount v - decimal_amount a)) by lia.
    rewrite (uwrap_small 32), (uwrap_small 64) by lia. lia.
Qed.

(** [operator+] on well-formed values is exact when the sum fits. *)
Theorem GradidoValue_add_exact a v :
  GradidoValue_wf a -> GradidoValue_wf v ->
  micro a + micro v < 2 ^ 64 * GRADIDO_VALUE_DECIMAL_AMOUNT_BASE ->
  GradidoValue_wf (GradidoValue_add a v)
  /\ micro (GradidoValue_add a v) = micro a + micro v
  /\ GradidoValue_sub (GradidoValue_add a v) v = Some a.
Proof.
  intros Ha Hv Hs.
  destruct (GradidoValue_add_wrap a v Ha Hv) as [Hwf E].
  pose proof (micro_range _ Ha). pose proof (micro_range _ Hv).
  rewrite Z.mod_small in E by lia.
  split; [assumption|]. split; [assumption|].
  pose proof (GradidoValue_sub_spec _ _ Hwf Hv) as Hsub.
  destruct (GradidoValue_sub _ _) as [r|]; [|lia].
  f_equal. apply micro_inj; tauto || lia.
Qed.

(** The witness: 1.6 + 0.5 carries into the whole part. *)
Lemma GradidoValue_add_exact_witness :
  micro (GradidoValue_add (mkGradidoValue 1 600000) (mkGradidoValue 0 500000)) = 2100000
  /\ GradidoValue_sub (mkGradidoValue 2 100000) (mkGradidoValue 0 500000)
     = Some (mkGradidoValue 1 600000).
Proof.
  destruct (GradidoValue_add_exact (mkGradidoValue 1 600000) (mkGradidoValue 0 500000))
    as (_ & E & S).
  - now apply (bool_decide_unpack _).
  - now apply (bool_decide_unpack _).
  - reflexivity.
  - split; [exact E | exact S].
Defined.

(** [operator-] throws exactly when the subtrahend is larger, and is exact
    otherwise. *)
Theorem GradidoValue_sub_exact a v :
  GradidoValue_wf a -> GradidoValue_wf v ->
  (GradidoValue_sub a v = None <-> micro a < micro v)
  /\ (forall r, GradidoValue_sub a v = Some r ->
        GradidoValue_wf r /\ micro r = micro a - micro v
        /\ GradidoValue_add r v = a).
Proof.
  intros Ha Hv. pose proof (GradidoValue_sub_spec a v Ha Hv) as H.
  destruct (GradidoValue_sub a v) as [r|]; (split; [split; [intros; try discriminate|]|]).
  - lia.
  - intros r' [= <-]. destruct H as (Hle & Hwf & E). split; [assumption|]. split; [assumption|].
    destruct (GradidoValue_add_wrap r v Hwf Hv) as [Hw2 E2].
    pose proof (micro_range _ Ha).
    apply micro_inj; [assumption..|]. rewrite E2, E, Z.mod_small; lia.
  - assumption.
  - reflexivity.
  - discriminate.
Qed.

Lemma GradidoValue_sub_exact_witness :
  (GradidoValue_sub (mkGradidoValue 1 0) (mkGradidoValue 1 1) = None
     <-> micro (mkGradidoValue 1 0) < micro (mkGradidoValue 1 1))
  /\ GradidoValue_sub (mkGradidoValue 1 0) (mkGradidoValue 1 1) = None.
Proof.
  split; [apply GradidoValue_sub_exact; now apply (bool_decide_unpack _) | reflexivity].
Defined.

(** Subtracting timestamps borrows from the seconds: the result is the
    exact difference in nanoseconds, in normal form, and the seconds part
    (what the decay computation uses) is the difference rounded down. *)
Theorem HederaTimestamp_sub_exact a v :
  HederaTimestamp_wf a -> HederaTimestamp_wf v ->
  nanoseconds (HederaTimestamp_sub a v) = nanoseconds a - nanoseconds v
  /\ 0 <= nanos (HederaTimestamp_sub a v) < 1000000000
  /\ seconds (HederaTimestamp_sub a v) = (nanoseconds a - nanoseconds v) / 1000000000.
Proof.
  unfold HederaTimestamp_wf, nanoseconds, HederaTimestamp_sub. intros Ha Hv.
  rewrite (swrap_small 64 (seconds a - seconds v)) by lia.
  destruct (nanos v <=? nanos a) eqn:E; destruct_bool_eqns; cbn [seconds nanos].
  - rewrite swrap_small by lia. divmod_lia.
  - rewrite (swrap_small 32 (nanos v - nanos a)), swrap_small, (swrap_small 32) by lia. divmod_lia.
Qed.

Lemma HederaTimestamp_sub_exact_witness :
  seconds (HederaTimestamp_sub (mkHederaTimestamp 10 5) (mkHederaTimestamp 7 6)) = 2.
Proof.
  destruct (HederaTimestamp_sub_exact (mkHederaTimestamp 10 5) (mkHederaTimestamp 7 6))
    as (_ & _ & E).
  - unfold HederaTimestamp_wf; cbn; lia.
  - unfold HederaTimestamp_wf; cbn; lia.
  - rewrite E. reflexivity.
Defined.

(** The order [std::map] uses on timestamps agrees with time. *)
Lemma HederaTimestamp_lt_nanoseconds a v :
  HederaTimestamp_wf a -> HederaTimestamp_wf v ->
  HederaTimestamp_lt a v = true <-> nanoseconds a < nanoseconds v.
Proof.
  unfold HederaTimestamp_wf, nanoseconds, HederaTimestamp_lt. intros.
  rewrite orb_true_iff, andb_true_iff, !Z.ltb_lt, Z.eqb_eq. lia.
Qed.

Lemma HederaTimestamp_eqb_spec a v : HederaTimestamp_eqb a v = true <-> a = v.
Proof.
  unfold HederaTimestamp_eqb. rewrite andb_true_iff, !Z.eqb_eq.
  destruct a, v; cbn. split; [intros [-> ->]; reflexivity | now intros [= -> ->]].
Qed.
