(* ===== verification/Packed.v ===== *)
(** * Packed layouts (the structs declared PACKED_STRUCT)

    A format says how a value lies in memory: its size, its bytes, the value
    read from that many bytes, and which values it can hold.  Integers are
    little-endian and signed ones in two's complement (the byte order of the
    machines the node is built for: blocks are exchanged as they lie in
    memory), fields follow each other without gaps, and a union is as large
    as its largest member, a shorter member being followed by the zeros the
    constructors write. *)

From stdpp Require Import base list.
From Stdlib Require Import ZArith Lia.
From S2P Require Import Prelude.
Local Open Scope Z_scope.
Set Default Proof Using "Type".

(** ** Bytes of integers *)

Definition byteb (b : Z) : bool := (0 <=? b) && (b <? 256).
Abbreviation all_bytes l := (Forall (fun b => byteb b = true) l).

Fixpoint le_bytes (n : nat) (z : Z) : bytes :=
  match n with
  | O => []
  | S n' => z mod 256 :: le_bytes n' (z / 256)
  end.
Fixpoint le_value (l : bytes) : Z :=
  match l with
  | [] => 0
  | b :: l' => b + 256 * le_value l'
  end.

Definition bits (n : nat) : Z := 8 * Z.of_nat n.

Lemma byteb_spec b : byteb b = true <-> 0 <= b < 256.
Proof. unfold byteb. rewrite andb_true_iff, Z.leb_le, Z.ltb_lt. done. Qed.

Lemma pow_bits_S n : 2 ^ bits (S n) = 256 * 2 ^ bits n.
Proof. unfold bits. rewrite Nat2Z.inj_succ, Z.mul_succ_r, Z.add_comm, Z.pow_add_r by lia. done. Qed.

Lemma pow_bits_pos n : 0 < 2 ^ bits n.
Proof. apply Z.pow_pos_nonneg; unfold bits; lia. Qed.

Lemma length_le_bytes n z : length (le_bytes n z) = n.
Proof. revert z. induction n as [|n IH]; intros z; cbn; [done|]. by rewrite IH. Qed.

Lemma le_bytes_all n z : all_bytes (le_bytes n z).
Proof.
  revert z. induction n as [|n IH]; intros z; cbn [le_bytes]; constructor; [|apply IH].
  apply byteb_spec, Z.mod_pos_bound. lia.
Qed.

Lemma le_value_bytes n z : le_value (le_bytes n z) = z mod 2 ^ bits n.
Proof.
  revert z. induction n as [|n IH]; intros z; [by rewrite Z.mod_1_r|]. cbn [le_bytes le_value].
  pose proof (pow_bits_pos n). rewrite IH, pow_bits_S, Z.rem_mul_r by lia. lia.
Qed.

Lemma le_value_range l : all_bytes l -> 0 <= le_value l < 2 ^ bits (length l).
Proof.
  induction 1 as [|b l Hb _ IH]; [done|]. apply byteb_spec in Hb. cbn [le_value length]. rewrite pow_bits_S. lia.
Qed.

Lemma forallb_all {A} (f : A -> bool) l : forallb f l = true <-> Forall (fun x => f x = true) l.
Proof. rewrite forallb_forall, Forall_forall. by setoid_rewrite list_elem_of_In. Qed.

(** Bytes that follow are worth more. *)
Lemma le_value_app l m : le_value (l ++ m) = le_value l + 2 ^ bits (length l) * le_value m.
Proof.
  induction l as [|b l IH]; [cbn [app le_value length]; unfold bits; lia|].
  cbn [app le_value length]. rewrite IH, pow_bits_S. lia.
Qed.

(** ** Formats *)

Record Format (A : Type) := mkFormat
  { fm_size : nat; fm_put : A -> bytes; fm_get : bytes -> option A; fm_fits : A -> bool }.
Arguments mkFormat {A} _ _ _ _.
Arguments fm_size {A} _.
Arguments fm_put {A} _ _.
Arguments fm_get {A} _ _.
Arguments fm_fits {A} _ _.

(** What is written has the size, reads back, and only values that fit are
    read. *)
Class Packed {A} (F : Format A) : Prop := {
  put_size a : fm_fits F a = true -> length (fm_put F a) = fm_size F;
  put_all a : fm_fits F a = true -> all_bytes (fm_put F a);
  get_put a : fm_fits F a = true -> fm_get F (fm_put F a) = Some a;
  get_fits l a : length l = fm_size F -> all_bytes l -> fm_get F l = Some a -> fm_fits F a = true;
}.

Lemma put_inj {A} (F : Format A) `{!Packed F} a b :
  fm_fits F a = true -> fm_fits F b = true -> fm_put F a = fm_put F b -> a = b.
Proof. intros Ha Hb E. apply (inj Some). by rewrite <- (get_put a Ha), <- (get_put b Hb), E. Qed.

(** Reading a value that is followed by others. *)
Lemma get_put_app {A} (F : Format A) `{!Packed F} a r :
  fm_fits F a = true ->
  fm_get F (take (fm_size F) (fm_put F a ++ r)) = Some a /\ drop (fm_size F) (fm_put F a ++ r) = r.
Proof.
  intros H. rewrite <- (put_size a H), take_app_length, drop_app_length. split; [by apply get_put|done].
Qed.

Lemma get_part {A} (F : Format A) `{!Packed F} l a :
  (fm_size F <= length l)%nat -> all_bytes l -> fm_get F (take (fm_size F) l) = Some a -> fm_fits F a = true.
Proof. intros Hl Hb. apply get_fits; [rewrite length_take; lia|by apply Forall_take]. Qed.

(** [uintN_t], as a [Z]. *)
Definition uint (n : nat) : Format Z :=
  mkFormat n (le_bytes n) (fun l => Some (le_value l)) (fun z => (0 <=? z) && (z <? 2 ^ bits n)).

(** [intN_t]. *)
Definition sint (n : nat) : Format Z :=
  mkFormat n (le_bytes n) (fun l => Some (swrap (bits n) (le_value l)))
    (fun z => (- 2 ^ (bits n - 1) <=? z) && (z <? 2 ^ (bits n - 1))).

(** [uint8_t f[n]]. *)
Definition raw (n : nat) : Format bytes :=
  mkFormat n id Some (fun l => (length l =? n)%nat && forallb byteb l).

(** A field after another. *)
Definition followed {A B} (F : Format A) (G : Format B) : Format (A * B) :=
  mkFormat (fm_size F + fm_size G) (fun p => fm_put F p.1 ++ fm_put G p.2)
    (fun l => a ← fm_get F (take (fm_size F) l); b ← fm_get G (drop (fm_size F) l); Some (a, b))
    (fun p => fm_fits F p.1 && fm_fits G p.2).

(** A member of a union of [n] bytes. *)
Definition member {A} (n : nat) (F : Format A) : Format A :=
  mkFormat n (fun a => fm_put F a ++ replicate (n - fm_size F) 0)
    (fun l => if (fm_size F <=? n)%nat then fm_get F (take (fm_size F) l) else None)
    (fun a => (fm_size F <=? n)%nat && fm_fits F a).

(** Fields, and a union of [n] bytes whose member they tell. *)
Definition tagged {A B} (F : Format A) (n : nat) (G : A -> Format B) : Format (A * B) :=
  mkFormat (fm_size F + n) (fun p => fm_put F p.1 ++ fm_put (member n (G p.1)) p.2)
    (fun l => a ← fm_get F (take (fm_size F) l);
              b ← fm_get (member n (G a)) (drop (fm_size F) l); Some (a, b))
    (fun p => fm_fits F p.1 && fm_fits (member n (G p.1)) p.2).

(** A value seen as another: a struct as the tuple of its fields, a case of
    a sum, an enumerator as its code. *)
Definition seen {A B} (inj : A -> option B) (prj : B -> option A) (F : Format A) : Format B :=
  mkFormat (fm_size F) (fun b => match prj b with Some a => fm_put F a | None => [] end)
    (fun l => a ← fm_get F l; inj a)
    (fun b => match prj b with Some a => fm_fits F a | None => false end).
Class Seen {A B} (inj : A -> option B) (prj : B -> option A) : Prop :=
  seen_iff : forall a b, inj a = Some b <-> prj b = Some a.

Definition struct {A B} (make : A -> B) (fields : B -> A) (F : Format A) : Format B :=
  seen (fun a => Some (make a)) (fun b => Some (fields b)) F.

(** An array of structs. *)
Fixpoint get_array {A} (F : Format A) (n : nat) (l : bytes) : option (list A) :=
  match n with
  | O => Some []
  | S n' => a ← fm_get F (take (fm_size F) l); r ← get_array F n' (drop (fm_size F) l); Some (a :: r)
  end.
Definition array {A} (n : nat) (F : Format A) : Format (list A) :=
  mkFormat (n * fm_size F) (fun l => concat (map (fm_put F) l)) (get_array F n)
    (fun l => (length l =? n)%nat && forallb (fm_fits F) l).

(** No bytes, and no value at all. *)
Definition nothing : Format unit := mkFormat 0 (fun _ => []) (fun _ => Some tt) (fun _ => true).
Definition no_member {A} : Format A := mkFormat 0 (fun _ => []) (fun _ => None) (fun _ => false).

(** ** Laws *)

#[export] Instance uint_packed n : Packed (uint n).
Proof.
  split; cbn [fm_size fm_put fm_get fm_fits uint].
  - intros a _. apply length_le_bytes.
  - intros a _. apply le_bytes_all.
  - intros a H. rewrite andb_true_iff, Z.leb_le, Z.ltb_lt in H. by rewrite le_value_bytes, Z.mod_small.
  - intros l a Hl Hb [= <-]. pose proof (le_value_range l Hb). rewrite Hl in *.
    rewrite andb_true_iff, Z.leb_le, Z.ltb_lt. done.
Qed.

Lemma sint_packed n : (0 < n)%nat -> Packed (sint n).
Proof.
  intros Hn. assert (0 < bits n) as Hw by (unfold bits; lia).
  assert (2 ^ bits n = 2 * 2 ^ (bits n - 1)) as E.
  { rewrite <- Z.pow_succ_r by lia. f_equal. lia. }
  pose proof (pow_bits_pos n) as Hp. split; cbn [fm_size fm_put fm_get fm_fits sint].
  - intros a _. apply length_le_bytes.
  - intros a _. apply le_bytes_all.
  - intros a H. rewrite andb_true_iff, Z.leb_le, Z.ltb_lt in H. rewrite le_value_bytes. unfold swrap.
    rewrite Zplus_mod_idemp_l, Z.mod_small by lia. f_equal. lia.
  - intros l a _ _ [= <-]. unfold swrap. pose proof (Z.mod_pos_bound (le_value l + 2 ^ (bits n - 1)) (2 ^ bits n)).
    rewrite andb_true_iff, Z.leb_le, Z.ltb_lt. lia.
Qed.
#[export] Instance sint4_packed : Packed (sint 4).
Proof. apply sint_packed. lia. Qed.
#[export] Instance sint8_packed : Packed (sint 8).
Proof. apply sint_packed. lia. Qed.

#[export] Instance raw_packed n : Packed (raw n).
Proof.
  split; cbn [fm_size fm_put fm_get fm_fits raw].
  - intros a [H _]%andb_true_iff. by apply Nat.eqb_eq.
  - intros a [_ H]%andb_true_iff. by apply forallb_all.
  - done.
  - intros l a Hl Hb [= <-]. rewrite Hl, Nat.eqb_refl. by apply forallb_all.
Qed.

#[export] Instance followed_packed {A B} (F : Format A) (G : Format B) :
  Packed F -> Packed G -> Packed (followed F G).
Proof.
  intros HF HG. split; cbn [fm_size fm_put fm_get fm_fits followed].
  - intros [a b] [Ha Hb]%andb_true_iff. cbn in *. by rewrite length_app, !put_size.
  - intros [a b] [Ha Hb]%andb_true_iff. cbn in *. apply Forall_app. split; by apply put_all.
  - intros [a b] [Ha Hb]%andb_true_iff. cbn in *. destruct (get_put_app F a (fm_put G b) Ha) as [-> ->]. cbn.
    by rewrite get_put.
  - intros l p Hl Hb (a & Ha & (b & E & [= <-])%bind_Some)%bind_Some. cbn.
    rewrite (get_part F l a), (get_fits (F := G) (drop (fm_size F) l) b); try done; [|by apply Forall_drop|lia].
    rewrite length_drop. lia.
Qed.

#[export] Instance member_packed {A} n (F : Format A) : Packed F -> Packed (member n F).
Proof.
  intros HF. split; cbn [fm_size fm_put fm_get fm_fits member].
  - intros a [Hn Ha]%andb_true_iff. apply Nat.leb_le in Hn. rewrite length_app, length_replicate, put_size by done. lia.
  - intros a [_ Ha]%andb_true_iff. apply Forall_app. split; [by apply put_all|]. by apply Forall_replicate.
  - intros a [-> Ha]%andb_true_iff. by apply get_put_app.
  - intros l a Hl Hb. destruct (Nat.leb_spec (fm_size F) n); [|done]. apply get_part; [done|lia|done].
Qed.

#[export] Instance tagged_packed {A B} (F : Format A) n (G : A -> Format B) :
  Packed F -> (forall a, Packed (G a)) -> Packed (tagged F n G).
Proof.
  intros HF HG. assert (forall a, Packed (member n (G a))) as HM by (intros a; apply _).
  split; cbn [fm_size fm_put fm_get fm_fits tagged].
  - intros [a b] [Ha Hb]%andb_true_iff. cbn [fst snd] in *. by rewrite length_app, !put_size.
  - intros [a b] [Ha Hb]%andb_true_iff. cbn [fst snd] in *. apply Forall_app. split; by apply put_all.
  - intros [a b] [Ha Hb]%andb_true_iff. cbn [fst snd] in *.
    destruct (get_put_app F a (fm_put (member n (G a)) b) Ha) as [-> ->]. cbn [mbind option_bind].
    by rewrite (get_put (F := member n (G a))).
  - intros l p Hl Hb (a & Ha & (b & E & [= <-])%bind_Some)%bind_Some. cbn [fst snd].
    rewrite (get_part F l a) by (lia || done). cbn [andb].
    apply (get_fits (F := member n (G a)) (drop (fm_size F) l)); [|by apply Forall_drop|done].
    rewrite length_drop. cbn [fm_size member]. lia.
Qed.

#[export] Instance seen_packed {A B} (inj : A -> option B) prj (F : Format A) :
  Seen inj prj -> Packed F -> Packed (seen inj prj F).
Proof.
  intros HS HF. split; cbn [fm_size fm_put fm_get fm_fits seen].
  - intros b. destruct (prj b) as [a|]; [apply put_size|done].
  - intros b. destruct (prj b) as [a|]; [apply put_all|done].
  - intros b. destruct (prj b) as [a|] eqn:E; [|done]. intros H. rewrite get_put by done. cbn. by apply HS.
  - intros l b Hl Hb (a & Ha & E)%bind_Some. apply HS in E. rewrite E. by eapply get_fits.
Qed.

#[export] Instance struct_packed {A B} (make : A -> B) fields (F : Format A) :
  Cancel (=) fields make -> Cancel (=) make fields -> Packed F -> Packed (struct make fields F).
Proof.
  intros H1 H2 HF. apply seen_packed; [|done]. intros a b. split; intros [= <-]; by f_equal.
Qed.

#[export] Instance array_packed {A} n (F : Format A) : Packed F -> Packed (array n F).
Proof.
  intros HF. split; cbn [fm_size fm_put fm_get fm_fits array].
  - intros l [<-%Nat.eqb_eq H]%andb_true_iff. induction l as [|a l IH]; [done|].
    cbn [forallb map concat length] in *. apply andb_true_iff in H as [Ha H]. by rewrite length_app, put_size, IH.
  - intros l [_ H]%andb_true_iff. induction l as [|a l IH]; [constructor|].
    cbn [forallb map concat] in *. apply andb_true_iff in H as [Ha H]. apply Forall_app. split; [by apply put_all|by apply IH].
  - intros l [<-%Nat.eqb_eq H]%andb_true_iff. induction l as [|a l IH]; [done|].
    cbn [forallb map concat length get_array] in *. apply andb_true_iff in H as [Ha H].
    destruct (get_put_app F a (concat (map (fm_put F) l)) Ha) as [-> ->]. cbn. by rewrite IH.
  - induction n as [|n IH]; intros l r Hl Hb; cbn [get_array].
    + by intros [= <-].
    + intros (a & Ha & (r' & Hr & [= <-])%bind_Some)%bind_Some. cbn [length forallb].
      assert (fm_size F <= length l)%nat by (rewrite Hl; cbn; lia).
      rewrite (get_part F l a) by done. cbn [andb Nat.eqb].
      apply (IH (drop (fm_size F) l)); [rewrite length_drop, Hl; cbn; lia|by apply Forall_drop|done].
Qed.

#[export] Instance nothing_packed : Packed nothing.
Proof. split; try done. by intros []. Qed.
#[export] Instance no_member_packed {A} : Packed (no_member (A := A)).
Proof. split; done. Qed.

(** [uintN_t], as an [N]. *)
Definition nat_of (z : Z) : option N := if 0 <=? z then Some (Z.to_N z) else None.
Definition uintN (n : nat) : Format N := seen nat_of (fun k => Some (Z.of_N k)) (uint n).
#[export] Instance nat_of_seen : Seen nat_of (fun k => Some (Z.of_N k)).
Proof. intros z k. unfold nat_of. destruct (Z.leb_spec 0 z); split; intros [= <-]; try f_equal; lia. Qed.

(** [bool]: a byte other than 0 and 1 is none. *)
Definition bool_of (z : Z) : option bool := if z =? 0 then Some false else if z =? 1 then Some true else None.
Definition boolean : Format bool := seen bool_of (fun b : bool => Some (if b then 1 else 0)) (uint 1).
#[export] Instance bool_of_seen : Seen bool_of (fun b : bool => Some (if b then 1 else 0)).
Proof.
  intros z b. unfold bool_of. destruct (Z.eqb_spec z 0) as [->|]; [|destruct (Z.eqb_spec z 1) as [->|]];
    destruct b; split; intros [=]; congruence.
Qed.

(** [uint8_t] for an enumeration with the given enumerators. *)
Definition enumerator {E} (all : list E) (code : E -> Z) (c : Z) : option E := List.find (fun e => code e =? c) all.
Definition enumeration {E} (all : list E) (code : E -> Z) : Format E :=
  seen (enumerator all code) (fun e => Some (code e)) (uint 1).
Lemma enumerator_seen {E} (all : list E) (code : E -> Z) :
  (forall e, enumerator all code (code e) = Some e) -> Seen (enumerator all code) (fun e => Some (code e)).
Proof.
  intros H c e. split; [|intros [= <-]; apply H]. unfold enumerator. intros [_ E1]%find_some. f_equal. lia.
Qed.

(** A case of a sum. *)
Ltac solve_seen :=
  let a := fresh in let b := fresh in intros a b;
  lazymatch type of a with unit => destruct a | _ => idtac end;
  split; [|destruct b; try discriminate]; intros; simplify_eq; reflexivity.

(** Fields and constructor of a struct undo each other. *)
Ltac solve_cancel :=
  let x := fresh in intros x;
  repeat match goal with p : _ * _ |- _ => destruct p end;
  first [reflexivity | destruct x; reflexivity].
#[export] Hint Extern 2 (Cancel _ _ _) => solve_cancel : typeclass_instances.
#[export] Hint Extern 3 (Seen _ _) => solve_seen : typeclass_instances.

Infix "**" := followed (at level 35, right associativity) : node_scope.

(** A tag that says which member of a union of [n] bytes follows. *)
Definition variant {B} (n : nat) (code : B -> Z) (G : Z -> Format B) : Format B :=
  seen (fun p : Z * B => if code p.2 =? p.1 then Some p.2 else None) (fun b => Some (code b, b)) (tagged (uint 1) n G).
#[export] Instance variant_packed {B} n (code : B -> Z) (G : Z -> Format B) :
  (forall c, Packed (G c)) -> Packed (variant n code G).
Proof.
  intros H. apply seen_packed; [|apply _]. intros [c b] b'. cbn.
  destruct (Z.eqb_spec (code b) c) as [<-|Hn]; split; congruence.
Qed.
