(* ===== verification/MemoryManagers.v ===== *)
(** * Object pool (memory_managers.h)

    [PermanentBlockAllocator] hands out zeroed blocks of items;
    [BigObjectMemoryPool] keeps three singly linked lists of items
    ([no_payload], [ready], [used]) threaded through item memory and lends
    out zeroed arrays of [TCount] objects.

    The model keeps the pointers: items live in a store indexed by address
    and the lists are first/last/count triples.  The invariant [pool_inv]
    reads the three lists off the store; the theorems show that [get] always
    lends a zeroed array nobody else holds and that [release] gives it
    back.  The file tiles rely on exactly this. *)

From stdpp Require Import base gmap list strings.
From Stdlib Require Import ZArith Lia.
From S2P Require Import Prelude.
Local Open Scope node_scope.

(** ** State *)

Record Item := mkItem { item_next : option nat; item_payload : option nat }.
Record ItemList := mkItemList
  { il_first : option nat; il_last : option nat; il_count : nat }.

(** Item addresses count up in allocation order; array addresses likewise,
    and a deleted array leaves the store. *)
Record Pool (R : Type) := mkPool
  { pl_items : list Item;
    pl_arrays : gmap nat (list R);
    pl_next_array : nat;
    pl_no_payload : ItemList;
    pl_ready : ItemList;
    pl_used : ItemList }.
Arguments mkPool {R} _ _ _ _ _ _.
Arguments pl_items {R} _.
Arguments pl_arrays {R} _.
Arguments pl_next_array {R} _.
Arguments pl_no_payload {R} _.
Arguments pl_ready {R} _.
Arguments pl_used {R} _.

Inductive ListId := NoPayload | Ready | Used.

Definition ItemList_empty : ItemList := mkItemList None None 0.

Section pool.
Context {R : Type} (zeroR : R) (TCount block_size : nat).
Implicit Types (p : Pool R) (a : nat).

Definition list_of (L : ListId) p : ItemList :=
  match L with
  | NoPayload => pl_no_payload p | Ready => pl_ready p | Used => pl_used p
  end.
Definition with_list (L : ListId) (l : ItemList) p : Pool R :=
  match L with
  | NoPayload => mkPool (pl_items p) (pl_arrays p) (pl_next_array p) l (pl_ready p) (pl_used p)
  | Ready => mkPool (pl_items p) (pl_arrays p) (pl_next_array p) (pl_no_payload p) l (pl_used p)
  | Used => mkPool (pl_items p) (pl_arrays p) (pl_next_array p) (pl_no_payload p) (pl_ready p) l
  end.
Definition with_items (h : list Item) p : Pool R :=
  mkPool h (pl_arrays p) (pl_next_array p) (pl_no_payload p) (pl_ready p) (pl_used p).
Definition with_arrays (g : gmap nat (list R)) (n : nat) p : Pool R :=
  mkPool (pl_items p) g n (pl_no_payload p) (pl_ready p) (pl_used p).

Definition load a : M (Pool R) Item :=
  fun p => match pl_items p !! a with Some it => Ret it p | None => Undef end.
Definition store a (it : Item) : M (Pool R) unit :=
  load a ;;; modify (fun p => with_items (<[a := it]> (pl_items p)) p).

Definition set_next a (n : option nat) : M (Pool R) unit :=
  let! it := load a in store a (mkItem n (item_payload it)).
Definition set_payload a (q : option nat) : M (Pool R) unit :=
  let! it := load a in store a (mkItem (item_next it) q).

(** ** PermanentBlockAllocator *)

(** [new Item[block_size]] followed by [memset]: [block_size] zeroed items
    at fresh addresses; the first address is returned. *)
Definition allocate : M (Pool R) nat :=
  let! base := gets (fun p => length (pl_items p)) in
  modify (fun p => with_items (pl_items p ++ replicate block_size (mkItem None None)) p) ;;;
  ret base.

(** ** ItemList *)

Definition ItemList_push (L : ListId) (item : nat) : M (Pool R) unit :=
  let! l := gets (list_of L) in
  let! last := (match il_first l with
                | Some f => set_next item (Some f) ;;; ret (il_last l)
                | None => set_next item None ;;; ret (Some item)
                end) in
  modify (with_list L (mkItemList (Some item) last (S (il_count l)))).

Definition ItemList_pop (L : ListId) : M (Pool R) nat :=
  let! l := gets (list_of L) in
  match il_first l with
  | None => undef
  | Some res =>
      let! it := load res in
      set_next res None ;;;
      modify (with_list L (mkItemList (item_next it) (il_last l) (pred (il_count l)))) ;;;
      ret res
  end.

(** [delete [] first->payload]. *)
Definition delete_payload (it : Item) : M (Pool R) unit :=
  match item_payload it with
  | None => ret tt
  | Some q => modify (fun p => with_arrays (delete q (pl_arrays p)) (pl_next_array p) p)
  end.

Definition ItemList_dispose_first (L into : ListId) : M (Pool R) unit :=
  let! l := gets (list_of L) in
  match il_first l with
  | None => ret tt
  | Some f =>
      let! it := load f in
      delete_payload it ;;;
      set_payload f None ;;;
      ItemList_push into f ;;;
      modify (fun p => let l' := list_of L p in
        with_list L (mkItemList (item_next it) (il_last l') (pred (il_count l'))) p)
  end.

(** ** BigObjectMemoryPool *)

Definition BigObjectMemoryPool_init : Pool R :=
  mkPool [] ∅ 0 ItemList_empty ItemList_empty ItemList_empty.

Definition reset_to_zero (q : nat) : M (Pool R) unit :=
  fun p => match pl_arrays p !! q with
           | Some _ => Ret tt (with_arrays (<[q := replicate TCount zeroR]> (pl_arrays p))
                                           (pl_next_array p) p)
           | None => Undef
           end.

(** [new T[TCount]] with unspecified contents [junk]. *)
Definition new_array (junk : list R) : M (Pool R) nat :=
  let! q := gets pl_next_array in
  modify (fun p => with_arrays (<[q := junk]> (pl_arrays p)) (S q) p) ;;;
  ret q.

(** [rc] is the value of [(int)(not_exceed_ratio * used.count)]. *)
Definition release_unused (rc : nat) : M (Pool R) unit :=
  let! crc := gets (fun p => il_count (pl_ready p)) in
  for_each (seq rc (crc - rc)) (fun _ => ItemList_dispose_first Ready NoPayload).

(** [fuel] bounds the recursion after an allocation; running out of it is
    the unbounded recursion an empty block would cause. *)
Fixpoint get (fuel : nat) : M (Pool R) nat :=
  match fuel with
  | O => undef
  | S fuel' =>
      let! rdy := gets (fun p => il_count (pl_ready p)) in
      let! nop := gets (fun p => il_count (pl_no_payload p)) in
      if (0 <? rdy)%nat then
        let! item := ItemList_pop Ready in
        let! it := load item in
        match item_payload it with
        | None => undef
        | Some res =>
            reset_to_zero res ;;; set_payload item None ;;;
            ItemList_push Used item ;;; ret res
        end
      else if (0 <? nop)%nat then
        let! item := ItemList_pop NoPayload in
        set_payload item None ;;;
        ItemList_push Used item ;;;
        let! res := new_array [] in
        reset_to_zero res ;;; ret res
      else
        let! base := allocate in
        for_each (seq base block_size) (ItemList_push NoPayload) ;;;
        get fuel'
  end.

Definition release (obj : nat) : M (Pool R) unit :=
  let! n := gets (fun p => il_count (pl_used p)) in
  if (n =? 0)%nat then throw "BigObjectMemoryPool: cannot release"
  else
    let! item := ItemList_pop Used in
    set_payload item (Some obj) ;;; ItemList_push Ready item.

(** ** Invariant *)

(** [chain h first ids]: following [next] from [first] visits [ids]. *)
Fixpoint chain (h : list Item) (first : option nat) (ids : list nat) : Prop :=
  match ids with
  | [] => first = None
  | a :: ids' => first = Some a
      /\ exists it, h !! a = Some it /\ chain h (item_next it) ids'
  end.

Definition list_rep (h : list Item) (l : ItemList) (ids : list nat) : Prop :=
  chain h (il_first l) ids /\ il_count l = length ids.

Definition payload_of (h : list Item) a : option nat := h !! a ≫= item_payload.

(** The pool with abstract contents: items without payload, ready items with
    the arrays they carry, used items, and the arrays lent out ([live]). *)
Record pool_rep p (nop : list nat) (rdy : list (nat * nat)) (usd : list nat)
    (live : gset nat) : Prop := {
  rep_nop : list_rep (pl_items p) (pl_no_payload p) nop;
  rep_rdy : list_rep (pl_items p) (pl_ready p) rdy.*1;
  rep_usd : list_rep (pl_items p) (pl_used p) usd;
  rep_nodup : NoDup (nop ++ rdy.*1 ++ usd);
  rep_pay_nop : forall a, a ∈ nop ++ usd -> payload_of (pl_items p) a = None;
  rep_pay_rdy : forall a q, (a, q) ∈ rdy -> payload_of (pl_items p) a = Some q;
  rep_arr_nodup : NoDup rdy.*2;
  rep_arr_rdy : forall q, q ∈ rdy.*2 -> is_Some (pl_arrays p !! q) /\ q ∉ live;
  rep_arr_live : forall q, q ∈ live -> is_Some (pl_arrays p !! q);
  rep_arr_fresh : forall q, is_Some (pl_arrays p !! q) -> (q < pl_next_array p)%nat;
  rep_count : size live = length usd;
}.

Definition pool_inv p (live : gset nat) : Prop :=
  exists nop rdy usd, pool_rep p nop rdy usd live.

(** ** Item memory *)

Lemma chain_insert h f ids a it :
  a ∉ ids -> chain h f ids -> chain (<[a := it]> h) f ids.
Proof.
  revert f. induction ids as [|b ids IH]; intros f Hn; cbn; [done|].
  intros (-> & itb & Hb & Hc). split; [done|]. exists itb.
  apply not_elem_of_cons in Hn as [Hab Hn].
  rewrite list_lookup_insert_ne by done. auto.
Qed.

Lemma chain_app h ext f ids : chain h f ids -> chain (h ++ ext) f ids.
Proof.
  revert f. induction ids as [|b ids IH]; intros f; cbn; [done|].
  intros (-> & itb & Hb & Hc). split; [done|]. exists itb.
  rewrite lookup_app_l by eauto using lookup_lt_Some. auto.
Qed.

Lemma chain_lookup h f ids a : chain h f ids -> a ∈ ids -> is_Some (h !! a).
Proof.
  revert f. induction ids as [|b ids IH]; intros f; cbn; [now intros _ ?%elem_of_nil|].
  intros (-> & itb & Hb & Hc) [->|Ha]%elem_of_cons; eauto.
Qed.

(** Linking a fresh or detached item in front of a list. *)
Lemma list_rep_push h l ids a pay last :
  (a < length h)%nat -> a ∉ ids -> list_rep h l ids ->
  list_rep (<[a := mkItem (il_first l) pay]> h)
    (mkItemList (Some a) last (S (il_count l))) (a :: ids).
Proof.
  intros Ha Hn [Hc Hk]. split; cbn; [|now rewrite Hk].
  split; [done|]. eexists. rewrite list_lookup_insert_eq by done.
  split; [done|]. cbn. now apply chain_insert.
Qed.

Lemma list_rep_frame h l ids a it :
  a ∉ ids -> list_rep h l ids -> list_rep (<[a := it]> h) l ids.
Proof. intros Hn [Hc Hk]. split; [now apply chain_insert | done]. Qed.

Lemma payload_insert_ne h a b it : a <> b -> payload_of (<[a := it]> h) b = payload_of h b.
Proof. intros H. unfold payload_of. now rewrite list_lookup_insert_ne. Qed.

Lemma payload_insert_eq h a it :
  (a < length h)%nat -> payload_of (<[a := it]> h) a = item_payload it.
Proof. intros H. unfold payload_of. now rewrite list_lookup_insert_eq. Qed.

(** ** What each list operation does to the store *)

Lemma store_eq p a it0 it :
  pl_items p !! a = Some it0 ->
  store a it p = Ret tt (with_items (<[a := it]> (pl_items p)) p).
Proof. intros H. unfold store, load, bind, modify. now rewrite H. Qed.

Lemma set_next_eq p a it n :
  pl_items p !! a = Some it ->
  set_next a n p = Ret tt (with_items (<[a := mkItem n (item_payload it)]> (pl_items p)) p).
Proof.
  intros H. unfold set_next. unfold bind, load. rewrite H. now apply (store_eq _ _ it).
Qed.

Lemma set_payload_eq p a it q :
  pl_items p !! a = Some it ->
  set_payload a q p = Ret tt (with_items (<[a := mkItem (item_next it) q]> (pl_items p)) p).
Proof.
  intros H. unfold set_payload. unfold bind, load. rewrite H. now apply (store_eq _ _ it).
Qed.

Lemma list_of_with_items L h p : list_of L (with_items h p) = list_of L p.
Proof. now destruct L. Qed.

Definition push_last (l : ItemList) (a : nat) : option nat :=
  match il_first l with Some _ => il_last l | None => Some a end.

Lemma ItemList_push_eq p L a it :
  pl_items p !! a = Some it ->
  ItemList_push L a p = Ret tt
    (with_list L (mkItemList (Some a) (push_last (list_of L p) a) (S (il_count (list_of L p))))
       (with_items (<[a := mkItem (il_first (list_of L p)) (item_payload it)]> (pl_items p)) p)).
Proof.
  intros H. unfold ItemList_push, push_last. cbn.
  destruct (il_first (list_of L p)) as [f|] eqn:Ef;
    unfold bind, gets; rewrite (set_next_eq p a it) by done; cbn; rewrite ?Ef; reflexivity.
Qed.

Lemma ItemList_pop_eq p L a it :
  il_first (list_of L p) = Some a -> pl_items p !! a = Some it ->
  ItemList_pop L p = Ret a
    (with_list L (mkItemList (item_next it) (il_last (list_of L p)) (pred (il_count (list_of L p))))
       (with_items (<[a := mkItem None (item_payload it)]> (pl_items p)) p)).
Proof.
  intros Hf H. unfold ItemList_pop, bind, gets. rewrite Hf. unfold load. rewrite H.
  now rewrite (set_next_eq p a it).
Qed.

(** ** Pool operations *)

Lemma list_rep_cons h l a ids :
  list_rep h l (a :: ids) ->
  exists it, il_first l = Some a /\ h !! a = Some it
    /\ chain h (item_next it) ids /\ il_count l = S (length ids).
Proof. intros [(Hf & it & Ha & Hc) Hk]. eauto 10. Qed.

Lemma NoDup_middle_inv (l1 l2 l3 : list nat) a :
  NoDup (l1 ++ a :: l2 ++ l3) -> a ∉ l1 /\ a ∉ l2 /\ a ∉ l3.
Proof.
  rewrite <- Permutation_middle. intros [Hn _]%NoDup_cons.
  rewrite !elem_of_app in Hn. tauto.
Qed.

(** A ready item is lent out: its array is zeroed and becomes live. *)
Lemma get_ready fuel p nop a q rdy usd live :
  pool_rep p nop ((a, q) :: rdy) usd live ->
  exists p', get (S fuel) p = Ret q p'
    /\ pool_rep p' nop rdy (a :: usd) ({[q]} ∪ live)
    /\ q ∉ live
    /\ pl_arrays p' = <[q := replicate TCount zeroR]> (pl_arrays p).
Proof.
  intros H. destruct (list_rep_cons _ _ _ _ (rep_rdy _ _ _ _ _ H)) as (it & Hf & Ha & Hc & Hk).
  cbn [fst] in Hf, Ha, Hk.
  pose proof (rep_pay_rdy _ _ _ _ _ H a q ltac:(left)) as Hq.
  unfold payload_of in Hq. rewrite Ha in Hq. cbn in Hq.
  destruct (rep_arr_rdy _ _ _ _ _ H q ltac:(left)) as [[arr Harr] Hlive].
  pose proof (lookup_lt_Some _ _ _ Ha) as Hlen.
  pose proof (rep_nodup _ _ _ _ _ H) as Hnd. cbn in Hnd.
  eexists. split; [|split; [|split; [exact Hlive|]]].
  - cbn [get]. unfold bind at 1 2, gets. rewrite Hk. cbn [Nat.ltb Nat.leb].
    rewrite (bind_Ret _ _ _ _ _ (ItemList_pop_eq p Ready a it Hf Ha)).
    unfold bind at 1, load. cbn. rewrite list_lookup_insert_eq by done. cbn. rewrite Hq.
    unfold bind at 1, reset_to_zero. cbn. rewrite Harr.
    erewrite bind_Ret; [|eapply set_payload_eq; cbn; now rewrite list_lookup_insert_eq].
    erewrite bind_Ret; [|eapply ItemList_push_eq; cbn;
      rewrite list_insert_insert_eq; now rewrite list_lookup_insert_eq].
    cbn. rewrite !list_insert_insert_eq. reflexivity.
  - destruct (NoDup_middle_inv _ _ _ _ Hnd) as (Hn1 & Hn3 & Hn5).
    constructor; cbn.
    + apply list_rep_frame; [done|]. apply (rep_nop _ _ _ _ _ H).
    + apply list_rep_frame; [done|]. split; [done|]. cbn. now rewrite Hk.
    + apply list_rep_push; [done..|]. apply (rep_usd _ _ _ _ _ H).
    + now rewrite <- (Permutation_middle rdy.*1 usd a).
    + intros x Hx. destruct (decide (x = a)) as [->|].
      { now rewrite payload_insert_eq. }
      rewrite payload_insert_ne by done. apply (rep_pay_nop _ _ _ _ _ H).
      set_solver.
    + intros x r Hx. rewrite payload_insert_ne.
      { apply (rep_pay_rdy _ _ _ _ _ H). now right. }
      intros ->. apply Hn3. apply list_elem_of_fmap. exists (x, r). done.
    + pose proof (rep_arr_nodup _ _ _ _ _ H) as Hr. cbn in Hr. now apply NoDup_cons in Hr.
    + intros r Hr. destruct (rep_arr_rdy _ _ _ _ _ H r ltac:(now right)) as [Hs Hl].
      pose proof (rep_arr_nodup _ _ _ _ _ H) as Hnr. cbn in Hnr.
      apply NoDup_cons in Hnr as [Hnr _].
      assert (r <> q) by (intros ->; done).
      rewrite lookup_insert_ne by done. set_solver.
    + intros r [->%elem_of_singleton|Hr]%elem_of_union.
      * rewrite lookup_insert_eq. done.
      * rewrite lookup_insert_is_Some. destruct (decide (q = r)); [now left|].
        right. split; [done|]. now apply (rep_arr_live _ _ _ _ _ H).
    + intros r [->|[_ Hr]]%lookup_insert_is_Some; apply (rep_arr_fresh _ _ _ _ _ H); [|done].
      now rewrite Harr.
    + rewrite size_union by set_solver. rewrite size_singleton.
      now rewrite (rep_count _ _ _ _ _ H).
  - reflexivity.
Qed.

(** No ready item: an item without payload is used and a new array made. *)
Lemma get_new fuel p a nop usd live :
  pool_rep p (a :: nop) [] usd live ->
  exists p', get (S fuel) p = Ret (pl_next_array p) p'
    /\ pool_rep p' nop [] (a :: usd) ({[pl_next_array p]} ∪ live)
    /\ pl_next_array p ∉ live
    /\ pl_arrays p' = <[pl_next_array p := replicate TCount zeroR]> (pl_arrays p).
Proof.
  intros H. destruct (list_rep_cons _ _ _ _ (rep_nop _ _ _ _ _ H)) as (it & Hf & Ha & Hc & Hk).
  pose proof (lookup_lt_Some _ _ _ Ha) as Hlen.
  pose proof (rep_nodup _ _ _ _ _ H) as Hnd. cbn in Hnd.
  apply NoDup_cons in Hnd as [Hn Hnd]. rewrite not_elem_of_app in Hn. destruct Hn as [Hn1 Hn2].
  destruct (rep_rdy _ _ _ _ _ H) as [Hr0 Hr1]. cbn in Hr0, Hr1.
  assert (pl_next_array p ∉ live) as Hfresh.
  { intros Hl%(rep_arr_live _ _ _ _ _ H)%(rep_arr_fresh _ _ _ _ _ H). lia. }
  eexists. split; [|split; [|split; [exact Hfresh|]]].
  - cbn [get]. unfold bind at 1 2, gets. rewrite Hk, Hr1. cbn [Nat.ltb Nat.leb].
    rewrite (bind_Ret _ _ _ _ _ (ItemList_pop_eq p NoPayload a it Hf Ha)).
    erewrite bind_Ret; [|eapply set_payload_eq; cbn; now rewrite list_lookup_insert_eq].
    erewrite bind_Ret; [|eapply ItemList_push_eq; cbn;
      rewrite list_insert_insert_eq; now rewrite list_lookup_insert_eq].
    unfold new_array, reset_to_zero, bind, gets, modify, ret.
    cbn [pl_arrays with_arrays pl_next_array with_list with_items list_of pl_used].
    rewrite lookup_insert_eq, insert_insert_eq. cbn. rewrite !list_insert_insert_eq. reflexivity.
  - constructor; cbn.
    + apply list_rep_frame; [done|]. split; [done|]. cbn. now rewrite Hk.
    + split; done.
    + apply list_rep_push; [done..|]. apply (rep_usd _ _ _ _ _ H).
    + now rewrite <- (Permutation_middle nop usd a); constructor; [rewrite not_elem_of_app|].
    + intros x Hx. destruct (decide (x = a)) as [->|]; [now rewrite payload_insert_eq|].
      rewrite payload_insert_ne by done. apply (rep_pay_nop _ _ _ _ _ H). set_solver.
    + now intros x r ?%elem_of_nil.
    + constructor.
    + now intros r ?%elem_of_nil.
    + intros r [->%elem_of_singleton|Hr]%elem_of_union; apply lookup_insert_is_Some; [now left|].
      destruct (decide (pl_next_array p = r)); [now left|].
      right. split; [done|]. now apply (rep_arr_live _ _ _ _ _ H).
    + intros r [->|[_ Hr]]%lookup_insert_is_Some; [lia|].
      apply (rep_arr_fresh _ _ _ _ _ H) in Hr. lia.
    + rewrite size_union by set_solver. rewrite size_singleton.
      now rewrite (rep_count _ _ _ _ _ H).
  - reflexivity.
Qed.

(** Linking the items of a fresh block, one after the other. *)
Lemma push_items p nop usd live ids :
  pool_rep p nop [] usd live ->
  NoDup ids -> (forall a, a ∈ ids -> a ∉ nop ++ usd /\ pl_items p !! a = Some (mkItem None None)) ->
  exists p', for_each ids (ItemList_push NoPayload) p = Ret tt p'
    /\ pool_rep p' (reverse ids ++ nop) [] usd live
    /\ pl_arrays p' = pl_arrays p /\ pl_next_array p' = pl_next_array p.
Proof.
  revert p nop. induction ids as [|a ids IH]; intros p nop H Hnd Hids.
  - exists p. rewrite reverse_nil. done.
  - destruct (Hids a ltac:(left)) as [Ha Hit]. apply NoDup_cons in Hnd as [Hna Hnd].
    pose proof (lookup_lt_Some _ _ _ Hit) as Hlen.
    rewrite not_elem_of_app in Ha. destruct Ha as [Ha1 Ha2].
    cbn [for_each]. rewrite (bind_Ret _ _ _ _ _ (ItemList_push_eq p NoPayload a _ Hit)).
    cbn [list_of with_list with_items].
    destruct (IH (with_list NoPayload (mkItemList (Some a) (push_last (pl_no_payload p) a)
                    (S (il_count (pl_no_payload p))))
                  (with_items (<[a := mkItem (il_first (pl_no_payload p)) None]> (pl_items p)) p))
                 (a :: nop)) as (p' & E & Hrep & Harr & Hnext).
    + constructor; cbn.
      * apply list_rep_push; [done..|]. apply (rep_nop _ _ _ _ _ H).
      * apply (rep_rdy _ _ _ _ _ H).
      * apply list_rep_frame; [done|]. apply (rep_usd _ _ _ _ _ H).
      * constructor; [now rewrite not_elem_of_app|]. apply (rep_nodup _ _ _ _ _ H).
      * intros x Hx. destruct (decide (x = a)) as [->|]; [now rewrite payload_insert_eq|].
        rewrite payload_insert_ne by done. apply (rep_pay_nop _ _ _ _ _ H). set_solver.
      * now intros x r ?%elem_of_nil.
      * constructor.
      * now intros r ?%elem_of_nil.
      * apply (rep_arr_live _ _ _ _ _ H).
      * apply (rep_arr_fresh _ _ _ _ _ H).
      * apply (rep_count _ _ _ _ _ H).
    + done.
    + intros x Hx. assert (x <> a) by (intros ->; done).
      destruct (Hids x ltac:(now right)) as [Hx1 Hx2]. cbn.
      rewrite list_lookup_insert_ne by done. set_solver.
    + exists p'. split; [exact E|]. rewrite reverse_cons, <- app_assoc. done.
Qed.

(** Appending zeroed items changes no list. *)
Lemma pool_rep_alloc p nop rdy usd live ext :
  pool_rep p nop rdy usd live ->
  pool_rep (with_items (pl_items p ++ ext) p) nop rdy usd live.
Proof.
  intros H.
  assert (forall a, is_Some (pl_items p !! a) ->
            payload_of (pl_items p ++ ext) a = payload_of (pl_items p) a) as Hp.
  { intros a [it Ha]. unfold payload_of.
    now rewrite lookup_app_l by eauto using lookup_lt_Some. }
  destruct (rep_nop _ _ _ _ _ H) as [Hn1 Hn2].
  destruct (rep_rdy _ _ _ _ _ H) as [Hr1 Hr2].
  destruct (rep_usd _ _ _ _ _ H) as [Hu1 Hu2].
  constructor; cbn; try (apply H); try (split; [now apply chain_app | done]).
  - intros a Ha. rewrite Hp; [now apply (rep_pay_nop _ _ _ _ _ H)|].
    apply elem_of_app in Ha as [Ha|Ha]; eauto using chain_lookup.
  - intros a q Ha. rewrite Hp; [now apply (rep_pay_rdy _ _ _ _ _ H)|].
    eapply chain_lookup; [exact Hr1|]. apply list_elem_of_fmap. now exists (a, q).
Qed.

Lemma pool_rep_bound p nop rdy usd live a :
  pool_rep p nop rdy usd live -> a ∈ nop ++ usd -> (a < length (pl_items p))%nat.
Proof.
  intros H Ha. apply lookup_lt_is_Some. apply elem_of_app in Ha as [Ha|Ha].
  - eapply chain_lookup; [apply (rep_nop _ _ _ _ _ H)|done].
  - eapply chain_lookup; [apply (rep_usd _ _ _ _ _ H)|done].
Qed.

(** The general form of [get]: two rounds are always enough. *)
Lemma get_general fuel p live :
  (0 < block_size)%nat -> pool_inv p live ->
  exists q p', get (S (S fuel)) p = Ret q p' /\ q ∉ live /\ pool_inv p' ({[q]} ∪ live)
    /\ pl_arrays p' = <[q := replicate TCount zeroR]> (pl_arrays p).
Proof.
  intros Hb (nop & rdy & usd & H).
  destruct rdy as [|[a q] rdy].
  2:{ destruct (get_ready (S fuel) _ _ _ _ _ _ _ H) as (p' & E & Hr & Hq & Ha).
      exists q, p'. unfold pool_inv. eauto 10. }
  destruct nop as [|a nop].
  2:{ destruct (get_new (S fuel) _ _ _ _ _ H) as (p' & E & Hr & Hq & Ha).
      eexists _, p'. unfold pool_inv. eauto 10. }
  destruct (rep_nop _ _ _ _ _ H) as [_ Hn]. destruct (rep_rdy _ _ _ _ _ H) as [_ Hr].
  set (p1 := with_items (pl_items p ++ replicate block_size (mkItem None None)) p).
  destruct (push_items p1 [] usd live (seq (length (pl_items p)) block_size))
    as (p2 & E2 & H2 & Ha2 & Hx2).
  - now apply pool_rep_alloc.
  - apply NoDup_seq.
  - intros a Ha%elem_of_seq. split.
    + intros Hin. pose proof (pool_rep_bound _ _ _ _ _ _ H Hin). lia.
    + cbn. rewrite lookup_app_r by lia. apply lookup_replicate_2. lia.
  - assert (exists a l, reverse (seq (length (pl_items p)) block_size) ++ [] = a :: l) as (a & l & El).
    { rewrite app_nil_r. destruct (reverse _) as [|a l] eqn:E; [|eauto].
      apply (f_equal length) in E. rewrite length_reverse, length_seq in E. cbn in E. lia. }
    rewrite El in H2.
    destruct (get_new fuel _ _ _ _ _ H2) as (p' & E & Hrep & Hq & Harr).
    eexists _, p'. split; [|split; [exact Hq|split; [unfold pool_inv; eauto 10|]]].
    + cbn [get]. unfold bind at 1 2, gets. cbn in Hn, Hr. rewrite Hr, Hn. cbn [Nat.ltb Nat.leb].
      unfold allocate, bind at 1 2 3, gets, modify, ret.
      fold p1. rewrite (bind_Ret _ _ _ _ _ E2). exact E.
    + rewrite Harr, Ha2. reflexivity.
Qed.

Lemma release_general p live q :
  pool_inv p live -> q ∈ live ->
  exists p', release q p = Ret tt p' /\ pool_inv p' (live ∖ {[q]})
    /\ pl_arrays p' = pl_arrays p.
Proof.
  intros (nop & rdy & usd & H) Hq.
  destruct usd as [|a usd].
  { pose proof (rep_count _ _ _ _ _ H) as Hc. apply size_empty_inv in Hc. set_solver. }
  destruct (list_rep_cons _ _ _ _ (rep_usd _ _ _ _ _ H)) as (it & Hf & Ha & Hc & Hk).
  pose proof (lookup_lt_Some _ _ _ Ha) as Hlen.
  pose proof (rep_nodup _ _ _ _ _ H) as Hnd.
  pose proof Hnd as Hnd'. rewrite app_assoc in Hnd'. rewrite <- (Permutation_middle _ usd a) in Hnd'.
  apply NoDup_cons in Hnd' as [Hn Hnd']. rewrite !not_elem_of_app in Hn.
  destruct Hn as [[Hn1 Hn2] Hn3].
  assert (q ∉ rdy.*2) as Hqr by (intros []%(rep_arr_rdy _ _ _ _ _ H); done).
  eexists. split; [|split].
  - unfold release, bind at 1, gets. rewrite Hk. cbn [Nat.eqb].
    rewrite (bind_Ret _ _ _ _ _ (ItemList_pop_eq p Used a it Hf Ha)).
    erewrite bind_Ret; [|eapply set_payload_eq; cbn; now rewrite list_lookup_insert_eq].
    erewrite ItemList_push_eq; [|cbn; rewrite list_insert_insert_eq; now rewrite list_lookup_insert_eq].
    cbn. rewrite !list_insert_insert_eq. reflexivity.
  - exists nop, ((a, q) :: rdy), usd. constructor; cbn.
    + apply list_rep_frame; [done|]. apply (rep_nop _ _ _ _ _ H).
    + apply list_rep_push; [done..|]. apply (rep_rdy _ _ _ _ _ H).
    + apply list_rep_frame; [done|]. split; [done|]. cbn. now rewrite Hk.
    + now rewrite (Permutation_middle rdy.*1 usd a).
    + intros x Hx. assert (x <> a) by (intros ->; set_solver).
      rewrite payload_insert_ne by done. apply (rep_pay_nop _ _ _ _ _ H). set_solver.
    + intros x r [[= -> ->]|Hx]%elem_of_cons; [now rewrite payload_insert_eq|].
      rewrite payload_insert_ne; [now apply (rep_pay_rdy _ _ _ _ _ H)|].
      intros ->. apply Hn2, list_elem_of_fmap. now exists (x, r).
    + constructor; [done|]. apply (rep_arr_nodup _ _ _ _ _ H).
    + intros r [->|Hr]%elem_of_cons.
      * split; [now apply (rep_arr_live _ _ _ _ _ H)|set_solver].
      * destruct (rep_arr_rdy _ _ _ _ _ H r Hr). set_solver.
    + intros r Hr. apply (rep_arr_live _ _ _ _ _ H). set_solver.
    + apply (rep_arr_fresh _ _ _ _ _ H).
    + rewrite size_difference by set_solver. rewrite size_singleton, (rep_count _ _ _ _ _ H).
      cbn. lia.
  - reflexivity.
Qed.

(** Disposing of the first ready item frees its array and keeps the item. *)
Lemma dispose_ready p nop a q rdy usd live :
  pool_rep p nop ((a, q) :: rdy) usd live ->
  exists p', ItemList_dispose_first Ready NoPayload p = Ret tt p'
    /\ pool_rep p' (a :: nop) rdy usd live
    /\ pl_arrays p' = delete q (pl_arrays p).
Proof.
  intros H. destruct (list_rep_cons _ _ _ _ (rep_rdy _ _ _ _ _ H)) as (it & Hf & Ha & Hc & Hk).
  cbn [fst] in Hf, Ha, Hk.
  pose proof (rep_pay_rdy _ _ _ _ _ H a q ltac:(left)) as Hq.
  unfold payload_of in Hq. rewrite Ha in Hq. cbn in Hq.
  pose proof (lookup_lt_Some _ _ _ Ha) as Hlen.
  pose proof (rep_nodup _ _ _ _ _ H) as Hnd. cbn in Hnd.
  destruct (NoDup_middle_inv _ _ _ _ Hnd) as (Hn1 & Hn2 & Hn3).
  pose proof (rep_arr_nodup _ _ _ _ _ H) as Hqd. cbn in Hqd. apply NoDup_cons in Hqd as [Hq1 Hqd].
  destruct (rep_arr_rdy _ _ _ _ _ H q ltac:(left)) as [_ Hql].
  eexists. split; [|split].
  - unfold ItemList_dispose_first, bind at 1, gets. cbn [list_of]. rewrite Hf.
    unfold bind at 1, load. rewrite Ha. unfold bind at 1, delete_payload. rewrite Hq.
    unfold modify at 1.
    erewrite bind_Ret; [|eapply set_payload_eq; cbn; exact Ha].
    erewrite bind_Ret; [|eapply ItemList_push_eq; cbn; now rewrite list_lookup_insert_eq].
    cbn. rewrite !list_insert_insert_eq. reflexivity.
  - constructor; cbn.
    + apply list_rep_push; [done..|]. apply (rep_nop _ _ _ _ _ H).
    + apply list_rep_frame; [done|]. split; [done|]. cbn. now rewrite Hk.
    + apply list_rep_frame; [done|]. apply (rep_usd _ _ _ _ _ H).
    + now rewrite (Permutation_middle nop (rdy.*1 ++ usd) a).
    + intros x Hx. destruct (decide (x = a)) as [->|]; [now rewrite payload_insert_eq|].
      rewrite payload_insert_ne by done. apply (rep_pay_nop _ _ _ _ _ H). set_solver.
    + intros x r Hx. rewrite payload_insert_ne.
      { apply (rep_pay_rdy _ _ _ _ _ H). now right. }
      intros ->. apply Hn2, list_elem_of_fmap. now exists (x, r).
    + done.
    + intros r Hr. rewrite lookup_delete_ne by (intros ->; done).
      apply (rep_arr_rdy _ _ _ _ _ H). now right.
    + intros r Hr. rewrite lookup_delete_ne by (intros ->; done).
      now apply (rep_arr_live _ _ _ _ _ H).
    + intros r Hr. apply (rep_arr_fresh _ _ _ _ _ H).
      apply lookup_delete_is_Some in Hr. tauto.
    + apply (rep_count _ _ _ _ _ H).
  - reflexivity.
Qed.

Lemma dispose_loop ids p nop rdy usd live :
  pool_rep p nop rdy usd live -> (length ids <= length rdy)%nat ->
  exists p' nop', for_each ids (fun _ : nat => ItemList_dispose_first Ready NoPayload) p = Ret tt p'
    /\ pool_rep p' nop' (drop (length ids) rdy) usd live
    /\ forall q, q ∈ live -> pl_arrays p' !! q = pl_arrays p !! q.
Proof.
  revert p nop rdy. induction ids as [|i ids IH]; intros p nop rdy H Hl.
  - exists p, nop. split; [reflexivity|]. rewrite drop_0. done.
  - destruct rdy as [|[a q] rdy]; [cbn in Hl; lia|].
    destruct (dispose_ready _ _ _ _ _ _ _ H) as (p1 & E1 & H1 & Ha1).
    cbn [for_each]. rewrite (bind_Ret _ _ _ _ _ E1).
    destruct (IH _ _ _ H1 ltac:(cbn in Hl; lia)) as (p2 & nop2 & E2 & H2 & Ha2).
    exists p2, nop2. split; [exact E2|]. split; [exact H2|].
    intros r Hr. rewrite Ha2, Ha1 by done. apply lookup_delete_ne.
    intros ->. destruct (rep_arr_rdy _ _ _ _ _ H r ltac:(left)). done.
Qed.
End pool.

(** ** Theorems *)

(** The pool lends out a zeroed array of [TCount] objects that no other
    holder has, leaves every lent array as it was, and always returns (one
    allocation round is enough when blocks are not empty). *)
Theorem pool_get_correct {R} (zeroR : R) (TCount block_size fuel : nat) p live :
  (0 < block_size)%nat -> (2 <= fuel)%nat -> pool_inv p live ->
  exists q p', get zeroR TCount block_size fuel p = Ret q p'
    /\ q ∉ live /\ pool_inv p' ({[q]} ∪ live)
    /\ pl_arrays p' !! q = Some (replicate TCount zeroR)
    /\ forall l, l ∈ live -> pl_arrays p' !! l = pl_arrays p !! l.
Proof.
  intros Hb Hf H. destruct fuel as [|[|fuel]]; [lia..|].
  destruct (get_general zeroR TCount block_size fuel p live Hb H) as (q & p' & E & Hq & Hi & Ha).
  exists q, p'. split; [exact E|]. split; [exact Hq|]. split; [exact Hi|].
  rewrite Ha. split; [apply lookup_insert_eq|].
  intros l Hl. apply lookup_insert_ne. intros ->. done.
Qed.

Lemma pool_inv_init {R} : @pool_inv R BigObjectMemoryPool_init ∅.
Proof.
  exists [], [], []. constructor; cbn; try (split; reflexivity); try constructor;
    try (intros *; now intros ?%elem_of_nil); try (intros *; set_solver).
  intros q. rewrite lookup_empty. now intros [? ?].
Qed.

Lemma pool_get_correct_witness :
  exists q p', get 0%Z 3 2 2 BigObjectMemoryPool_init = Ret q p'
    /\ q ∉ (∅ : gset nat) /\ pool_inv p' ({[q]} ∪ ∅)
    /\ pl_arrays p' !! q = Some (replicate 3 0%Z)
    /\ forall l, l ∈ (∅ : gset nat) ->
         pl_arrays p' !! l = pl_arrays (BigObjectMemoryPool_init (R:=Z)) !! l.
Proof. apply pool_get_correct; [lia|lia|apply pool_inv_init]. Defined.

(** Releasing a lent array succeeds, makes it available again and touches
    no array's contents (it is [get] that zeroes); with nothing lent out
    [release] throws. *)
Theorem pool_release_correct {R} (p : Pool R) live q :
  pool_inv p live ->
  (q ∈ live -> exists p', release q p = Ret tt p' /\ pool_inv p' (live ∖ {[q]})
                 /\ pl_arrays p' = pl_arrays p)
  /\ (live = ∅ -> release q p = Throw "BigObjectMemoryPool: cannot release" p).
Proof.
  intros H. split; [intros Hq; now apply release_general|].
  intros ->. destruct H as (nop & rdy & usd & H).
  pose proof (rep_count _ _ _ _ _ H) as Hc. rewrite size_empty in Hc.
  destruct (rep_usd _ _ _ _ _ H) as [_ Hk].
  unfold release, bind, gets. rewrite Hk, <- Hc. reflexivity.
Qed.

(** Lend the first array of a new pool, then give it back. *)
Lemma pool_release_correct_witness :
  exists p p', get 0%Z 3 2 2 BigObjectMemoryPool_init = Ret 0 p
    /\ release 0 p = Ret tt p' /\ pool_inv p' (({[0]} ∪ ∅) ∖ {[0]})
    /\ release 0 BigObjectMemoryPool_init
       = Throw "BigObjectMemoryPool: cannot release" (BigObjectMemoryPool_init (R:=Z)).
Proof.
  destruct (get_general 0%Z 3 2 0 BigObjectMemoryPool_init ∅ ltac:(lia) pool_inv_init)
    as (q & p & E & Hq & Hi & _).
  assert (q = 0) as -> by (vm_compute in E; congruence).
  destruct (proj1 (pool_release_correct p _ 0 Hi) ltac:(set_solver)) as (p' & ER & Hi' & _).
  exists p, p'. split; [exact E|]. split; [exact ER|]. split; [exact Hi'|].
  apply (pool_release_correct _ ∅ 0 pool_inv_init). reflexivity.
Defined.

(** [release_unused] returns, leaves at most [rc] ready arrays and keeps
    every lent array and its contents. *)
Theorem pool_release_unused_correct {R} (p : Pool R) live rc :
  pool_inv p live ->
  exists p', release_unused rc p = Ret tt p' /\ pool_inv p' live
    /\ (il_count (pl_ready p') <= rc)%nat
    /\ forall q, q ∈ live -> pl_arrays p' !! q = pl_arrays p !! q.
Proof.
  intros (nop & rdy & usd & H). destruct (rep_rdy _ _ _ _ _ H) as [_ Hk].
  rewrite length_fmap in Hk.
  destruct (dispose_loop (seq rc (il_count (pl_ready p) - rc)) _ _ _ _ _ H)
    as (p' & nop' & E & H' & Ha).
  { rewrite length_seq. lia. }
  exists p'. split; [exact E|]. split; [unfold pool_inv; eauto|]. split; [|exact Ha].
  destruct (rep_rdy _ _ _ _ _ H') as [_ Hk'].
  rewrite length_fmap, length_drop, length_seq in Hk'. lia.
Qed.

Lemma pool_release_unused_correct_witness :
  exists p', release_unused 0 (BigObjectMemoryPool_init (R:=Z)) = Ret tt p'
    /\ pool_inv p' ∅ /\ (il_count (pl_ready p') <= 0)%nat
    /\ forall q, q ∈ (∅ : gset nat) ->
         pl_arrays p' !! q = pl_arrays (BigObjectMemoryPool_init (R:=Z)) !! q.
Proof. apply pool_release_unused_correct, pool_inv_init. Defined.
