(* ===== verification/FileTile.v ===== *)
(** * Tile files (file_tile.h)

    A tile is a fixed-size array of records kept in one file, with a
    descriptor that remembers the last operation's outcome, the fetched
    copy and the open [FILE*].  Descriptors are pooled and reached through
    pointers, so the model keeps them in a store indexed by address.

    C stdio is modelled at the granularity the code uses it: a file is the
    list of its whole records (plus an odd rest of bytes), a [FILE*] is the
    file's name and a position counted in records, a write reaches the file
    at once.  A list of injected faults decides which calls fail. *)

From stdpp Require Import base gmap list strings pretty.
From Stdlib Require Import ZArith Lia.
From S2P Require Import Prelude.
Local Open Scope node_scope.
Set Default Proof Using "Type".

Inductive TileState :=
| OK | MISSING_FILE | NOT_A_FILE | BAD_LENGTH | NOT_READABLE | NOT_WRITEABLE
| CANNOT_OPEN_FILE | CANNOT_CLOSE_FILE | ERROR_WHILE_READING
| ERROR_WHILE_WRITING | CANNOT_SYNC_NO_RAW_DATA | FSEEK_FAILED
| REC_INDEX_EXCEEDS_BOUNDS | TRUNCATED | BAD_INDEX.

#[export] Instance TileState_eq_dec : EqDecision TileState.
Proof. solve_decision. Defined.

(** What [stat] and [access] report of a file, and its contents. *)
Record File (R : Type) := mkFile
  { f_recs : list R; f_odd_bytes : nat;
    f_regular : bool; f_readable : bool; f_writeable : bool }.
Arguments mkFile {R} _ _ _ _ _.
Arguments f_recs {R} _.
Arguments f_odd_bytes {R} _.
Arguments f_regular {R} _.
Arguments f_readable {R} _.
Arguments f_writeable {R} _.

(** A [FILE*] that [fclose] has been called on is no longer [fh_live]: any
    further use of it is undefined. *)
Record FILE := mkFILE { fh_name : string; fh_pos : nat; fh_live : bool }.

Record TileDesc (R Sup : Type) := mkTileDesc
  { td_index : N; td_state : TileState; td_fetched : option (list R);
    td_handle : option FILE; td_sup : Sup }.
Arguments mkTileDesc {R Sup} _ _ _ _ _.
Arguments td_index {R Sup} _.
Arguments td_state {R Sup} _.
Arguments td_fetched {R Sup} _.
Arguments td_handle {R Sup} _.
Arguments td_sup {R Sup} _.

(** [ft_faults]: the outcomes of the coming stdio calls, [None] for success,
    [Some k] for a failure after [k] records; an exhausted list means
    success. *)
Record FileTile (R Sup : Type) := mkFileTile
  { ft_fs : gmap string (File R);
    ft_faults : list (option nat);
    ft_descs : list (TileDesc R Sup);
    ft_unused_tiles : list nat;
    ft_tiles : list nat }.
Arguments mkFileTile {R Sup} _ _ _ _ _.
Arguments ft_fs {R Sup} _.
Arguments ft_faults {R Sup} _.
Arguments ft_descs {R Sup} _.
Arguments ft_unused_tiles {R Sup} _.
Arguments ft_tiles {R Sup} _.

(** What a tile array needs of its client: names for the tile files, all
    different, and the number of files found in the directory. *)
Class FileNameResolver := {
  get_file_name : N -> string;
  get_file_count : list string -> option N;
  get_file_name_inj : Inj (=) (=) get_file_name;
}.
#[export] Existing Instance get_file_name_inj.

(** [static const size_t tile_block_size]. *)
Definition tile_block_size : nat := 1000.

Section file_tile.
Context {R Sup : Type} (zeroR : R) (zeroSup : Sup) (sup_reset : Sup -> Sup).
Context (TCount : nat) `{FNR : !FileNameResolver}.
Abbreviation FT := (FileTile R Sup).
Abbreviation TD := (TileDesc R Sup).
Implicit Types (s : FT) (d : TD).

Definition with_fs (fs : gmap string (File R)) s : FT :=
  mkFileTile fs (ft_faults s) (ft_descs s) (ft_unused_tiles s) (ft_tiles s).
Definition with_faults (fl : list (option nat)) s : FT :=
  mkFileTile (ft_fs s) fl (ft_descs s) (ft_unused_tiles s) (ft_tiles s).
Definition with_descs (l : list TD) s : FT :=
  mkFileTile (ft_fs s) (ft_faults s) l (ft_unused_tiles s) (ft_tiles s).
Definition with_unused (l : list nat) s : FT :=
  mkFileTile (ft_fs s) (ft_faults s) (ft_descs s) l (ft_tiles s).
Definition with_tiles (l : list nat) s : FT :=
  mkFileTile (ft_fs s) (ft_faults s) (ft_descs s) (ft_unused_tiles s) l.

Definition td_with_state (st : TileState) d : TD :=
  mkTileDesc (td_index d) st (td_fetched d) (td_handle d) (td_sup d).
Definition td_with_fetched (m : option (list R)) d : TD :=
  mkTileDesc (td_index d) (td_state d) m (td_handle d) (td_sup d).
Definition td_with_handle (h : option FILE) d : TD :=
  mkTileDesc (td_index d) (td_state d) (td_fetched d) h (td_sup d).

(** ** C stdio *)

Definition next_fault : M FT (option nat) :=
  fun s => match ft_faults s with
           | [] => Ret None s
           | f :: fl => Ret f (with_faults fl s)
           end.

Definition fopen_wb (name : string) : M FT (option FILE) :=
  let! f := next_fault in
  match f with
  | Some _ => ret None
  | None =>
      modify (fun s => with_fs (<[name := mkFile [] 0 true true true]> (ft_fs s)) s) ;;;
      ret (Some (mkFILE name 0 true))
  end.

Definition fopen_rb (name : string) : M FT (option FILE) :=
  let! f := next_fault in
  match f with
  | Some _ => ret None
  | None =>
      let! fs := gets ft_fs in
      ret (match fs !! name with Some _ => Some (mkFILE name 0 true) | None => None end)
  end.

(** Overwriting [l] from position [n], extending it when needed (a gap
    past the end would read as zeroed records). *)
Definition splice (n : nat) (new l : list R) : list R :=
  take n (l ++ replicate (n - length l) zeroR) ++ new ++ drop (n + length new) l.

(** Using a stream. *)
Definition live (h : FILE) : M FT unit := if fh_live h then ret tt else undef.

(** [fwrite]: the number of records written and the moved handle. *)
Definition fwrite (h : FILE) (recs : list R) : M FT (nat * FILE) :=
  live h ;;;
  let! f := next_fault in
  let recs' := match f with Some k => take k recs | None => recs end in
  modify (fun s => match ft_fs s !! fh_name h with
    | Some fl => with_fs (<[fh_name h := mkFile (splice (fh_pos h) recs' (f_recs fl))
                              (f_odd_bytes fl) (f_regular fl) (f_readable fl) (f_writeable fl)]>
                            (ft_fs s)) s
    | None => s (* unlinked while open *)
    end) ;;;
  ret (length recs', mkFILE (fh_name h) (fh_pos h + length recs') true).

(** [fread] of up to [n] records: the records read and the moved handle. *)
Definition fread (h : FILE) (n : nat) : M FT (list R * FILE) :=
  live h ;;;
  let! f := next_fault in
  let! fs := gets ft_fs in
  let avail := match fs !! fh_name h with Some fl => f_recs fl | None => [] end in
  let got := take (match f with Some k => min k n | None => n end) (drop (fh_pos h) avail) in
  ret (got, mkFILE (fh_name h) (fh_pos h + length got) true).

(** [fseek(h, sizeof(T) * n, SEEK_SET)]; [true] when the call fails. *)
Definition fseek (h : FILE) (n : nat) : M FT (bool * FILE) :=
  live h ;;;
  let! f := next_fault in
  match f with Some _ => ret (true, h) | None => ret (false, mkFILE (fh_name h) n true) end.

(** [fclose]; [true] when the call fails. *)
Definition fclose (h : FILE) : M FT bool :=
  live h ;;;
  let! f := next_fault in ret (match f with Some _ => true | None => false end).

(** ** Descriptors *)

Definition desc (t : nat) : M FT TD :=
  fun s => match ft_descs s !! t with Some d => Ret d s | None => Undef end.
Definition upd_desc (t : nat) (f : TD -> TD) : M FT unit :=
  let! d := desc t in modify (fun s => with_descs (<[t := f d]> (ft_descs s)) s).
Definition set_state (t : nat) (st : TileState) : M FT unit := upd_desc t (td_with_state st).
Definition set_handle (t : nat) (h : option FILE) : M FT unit := upd_desc t (td_with_handle h).
Definition set_fetched (t : nat) (m : option (list R)) : M FT unit :=
  upd_desc t (td_with_fetched m).

Definition TileDesc_reset (ind : N) d : TD :=
  mkTileDesc ind OK None None (sup_reset (td_sup d)).

Definition check_file2 (fname : string) : M FT TileState :=
  let! fs := gets ft_fs in
  ret (match fs !! fname with
       | None => MISSING_FILE
       | Some f =>
           if negb (f_regular f) then NOT_A_FILE
           else if negb ((length (f_recs f) =? TCount)%nat && (f_odd_bytes f =? 0)%nat)
           then BAD_LENGTH
           else if negb (f_readable f) then NOT_READABLE
           else if negb (f_writeable f) then NOT_WRITEABLE
           else OK
       end).

Definition create_tile_desc (index : N) : M FT nat :=
  let! un := gets ft_unused_tiles in
  (if (length un =? 0)%nat
   then modify (fun s =>
          with_unused (seq (length (ft_descs s)) tile_block_size)
            (with_descs (ft_descs s ++ replicate tile_block_size
                           (mkTileDesc 0 OK None None zeroSup)) s))
   else ret tt) ;;;
  let! un' := gets ft_unused_tiles in
  match last un' with
  | None => undef
  | Some td =>
      upd_desc td (TileDesc_reset index) ;;;
      modify (with_unused (take (length un' - 1) un')) ;;;
      ret td
  end.

(** ** Tile *)

Definition open_file (t : nat) : M FT bool :=
  let! d := desc t in
  match td_handle d with
  | Some _ => set_state t OK ;;; ret true
  | None =>
      let fname := get_file_name (td_index d) in
      let! ts := check_file2 fname in
      let! h := (match ts with
                 | MISSING_FILE => fopen_wb fname
                 | OK => fopen_rb fname
                 | _ => ret None
                 end) in
      set_handle t h ;;;
      match h with
      | None => set_state t CANNOT_OPEN_FILE ;;; ret false
      | Some _ => set_state t OK ;;; ret true
      end
  end.

Definition close_file (t : nat) : M FT unit :=
  let! d := desc t in
  match td_handle d with
  | Some h =>
      let! failed := fclose h in
      if failed
      then set_handle t (Some (mkFILE (fh_name h) (fh_pos h) false)) ;;;
           set_state t CANNOT_CLOSE_FILE
      else set_handle t None ;;; set_state t OK
  | None => set_state t OK
  end.

(** The [FILE*] of an open tile; dereferencing a null one is undefined. *)
Definition handle_of (t : nat) : M FT FILE :=
  let! d := desc t in
  match td_handle d with Some h => ret h | None => undef end.

Definition tile_write (t : nat) (rec : R) (rec_index : nat) (close_on_exit : bool) : M FT bool :=
  if (TCount <=? rec_index)%nat then set_state t REC_INDEX_EXCEEDS_BOUNDS ;;; ret false
  else
    let! opened := open_file t in
    if negb opened then ret false
    else
      let! h := handle_of t in
      let! sk := fseek h rec_index in
      set_handle t (Some sk.2) ;;;
      if (sk.1 : bool) then set_state t FSEEK_FAILED ;;; close_file t ;;; ret false
      else
        let! w := fwrite sk.2 [rec] in
        set_handle t (Some w.2) ;;;
        let! sk2 := fseek w.2 0 in
        set_handle t (Some sk2.2) ;;;
        if (sk2.1 : bool) then set_state t FSEEK_FAILED ;;; close_file t ;;; ret false
        else if negb (w.1 =? 1)%nat
        then set_state t ERROR_WHILE_WRITING ;;; close_file t ;;; ret false
        else (if close_on_exit then close_file t else ret tt) ;;; ret true.

Definition sync_to_file (t : nat) (close_on_exit : bool) : M FT bool :=
  let! d := desc t in
  match td_fetched d with
  | None => set_state t CANNOT_SYNC_NO_RAW_DATA ;;; ret false
  | Some data =>
      let! opened := open_file t in
      if negb opened then undef (* no return statement on this path *)
      else
        let! h := handle_of t in
        let! w := fwrite h (take TCount data) in
        set_handle t (Some w.2) ;;;
        if negb (w.1 =? TCount)%nat then set_state t ERROR_WHILE_WRITING ;;; ret false
        else
          set_state t OK ;;;
          (if close_on_exit then close_file t else ret tt) ;;;
          ret true
  end.

(** [close_on_exit] is accepted and ignored. *)
Definition sync_from_file (t : nat) (close_on_exit : bool) : M FT bool :=
  let! opened := open_file t in
  if negb opened then ret false
  else
    let! d := desc t in
    let data := match td_fetched d with
                | Some m => m
                | None => replicate TCount zeroR (* mp->get() *)
                end in
    let! h := handle_of t in
    let! r := fread h TCount in
    set_handle t (Some r.2) ;;;
    set_fetched t (Some (r.1 ++ drop (length r.1) data)) ;;;
    if negb (length r.1 =? TCount)%nat then set_state t ERROR_WHILE_READING ;;; ret false
    else set_state t OK ;;; ret true.

(** [None] is the null pointer. *)
Definition tile_read (t : nat) (rec_index : nat) : M FT (option R) :=
  if (TCount <=? rec_index)%nat then set_state t REC_INDEX_EXCEEDS_BOUNDS ;;; ret None
  else
    let! d := desc t in
    let! ok := (match td_fetched d with
                | Some _ => ret true
                | None => sync_from_file t true
                end) in
    if negb ok then ret None
    else
      let! d' := desc t in
      match td_fetched d' with
      | None => undef
      | Some m => match m !! rec_index with Some r => ret (Some r) | None => undef end
      end.

Definition get_state (t : nat) : M FT TileState := let! d := desc t in ret (td_state d).

(** The array behind the returned pointer is the descriptor's own. *)
Definition get_tile_data (t : nat) : M FT (option (list R)) :=
  set_state t OK ;;; let! d := desc t in ret (td_fetched d).

Definition alloc_tile_data (t : nat) : M FT unit :=
  upd_desc t (fun d => match td_fetched d with
                       | Some _ => d
                       | None => td_with_fetched (Some (replicate TCount zeroR)) d
                       end).

Definition set_tile_data (t : nat) (data : list R) : M FT unit :=
  upd_desc t (fun d => td_with_state OK (td_with_fetched (Some (take TCount data)) d)).

Definition release_fetched_data (t : nat) : M FT unit :=
  upd_desc t (fun d => td_with_state OK (td_with_fetched None d)).

Definition get_sup (t : nat) : M FT Sup := let! d := desc t in ret (td_sup d).

(** Storing through the pointer [get_tile_data] returned. *)
Definition poke (t : nat) (i : nat) (r : R) : M FT unit :=
  let! d := desc t in
  match td_fetched d with
  | None => undef
  | Some m => if (i <? length m)%nat then set_fetched t (Some (<[i := r]> m)) else undef
  end.

(** ** FileTile *)

Definition get_tile_count : M FT N := gets (fun s => N.of_nat (length (ft_tiles s))).

Definition get_tile (index : N) : M FT nat :=
  let! ts := gets ft_tiles in
  if (N.of_nat (length ts) <=? index)%N then throw "TileFile: index too large"
  else match ts !! N.to_nat index with Some t => ret t | None => undef end.

Definition append_tile : M FT nat :=
  let! i := get_tile_count in
  let! t := create_tile_desc i in
  set_state t OK ;;;
  modify (fun s => with_tiles (ft_tiles s ++ [t]) s) ;;;
  ret t.

(** The descriptors keep their open file and fetched data; they go back to
    the pool of unused ones and the files stay on disk. *)
Definition truncate_tail (first : N) : M FT unit :=
  let! ts := gets ft_tiles in
  if (N.of_nat (length ts) <=? first)%N then ret tt
  else
    for_each (drop (N.to_nat first) ts) (fun t =>
      set_state t TRUNCATED ;;;
      modify (fun s => with_unused (ft_unused_tiles s ++ [t]) s)) ;;;
    modify (with_tiles (take (N.to_nat first) ts)).

(** The names [isFile] accepts when the directory is listed. *)
Definition regular_files (fs : gmap string (File R)) : list string :=
  omap (fun nf : string * File R => if f_regular nf.2 then Some nf.1 else None) (map_to_list fs).

(** The constructor: one tile per file found, in index order. *)
Definition FileTile_init (fs : gmap string (File R)) (faults : list (option nat)) : outcome FT unit :=
  match get_file_count (regular_files fs) with
  | None => Throw "bad block number or too many blocks" (mkFileTile fs faults [] [] [])
  | Some fc =>
      for_each (seq 0 (N.to_nat fc)) (fun i =>
        let! t := create_tile_desc (N.of_nat i) in
        let! st := check_file2 (get_file_name (N.of_nat i)) in
        set_state t st ;;;
        modify (fun s => with_tiles (ft_tiles s ++ [t]) s))
      (mkFileTile fs faults [] [] [])
  end.

(** The destructor returns fetched arrays and closes open files. *)
Definition FileTile_destroy : M FT unit :=
  let! ts := gets ft_tiles in
  for_each ts (fun t =>
    let! d := desc t in
    (match td_fetched d with Some _ => set_fetched t None | None => ret tt end) ;;;
    match td_handle d with
    | Some h => let! _ := fclose h in ret tt
    | None => ret tt
    end).

(** ** Invariant

    Without injected faults, [ft_rep s tds blocks] says that tile [i] has
    descriptor [tds !! i] and that its file holds exactly the records
    [blocks !! i].  A stream is either at the start of its file or, when it
    is at the end, the fetched copy is what the file holds: this is what
    makes a repeated [sync_from_file] harmless. *)

Definition good_file (recs : list R) : File R := mkFile recs 0 true true true.

Definition stream_ok (i : nat) d (recs : list R) : Prop :=
  match td_handle d with
  | None => True
  | Some h => fh_name h = get_file_name (N.of_nat i) /\ fh_live h = true
      /\ (fh_pos h = 0 \/ (fh_pos h = TCount /\ td_fetched d = Some recs))
  end.

Record desc_ok (i : nat) d (recs : list R) : Prop := {
  ok_index : td_index d = N.of_nat i;
  ok_len : length recs = TCount;
  ok_mem : forall m, td_fetched d = Some m -> length m = TCount;
  ok_stream : stream_ok i d recs;
}.

Record ft_rep s (tds : list TD) (blocks : list (list R)) : Prop := {
  rep_faults : ft_faults s = [];
  rep_tds : length tds = length (ft_tiles s);
  rep_blocks : length blocks = length (ft_tiles s);
  rep_nodup : NoDup (ft_tiles s ++ ft_unused_tiles s);
  rep_unused : forall t, t ∈ ft_unused_tiles s -> (t < length (ft_descs s))%nat;
  rep_tile : forall i t d recs,
    ft_tiles s !! i = Some t -> tds !! i = Some d -> blocks !! i = Some recs ->
    ft_descs s !! t = Some d
    /\ ft_fs s !! get_file_name (N.of_nat i) = Some (good_file recs)
    /\ desc_ok i d recs;
}.

(** ** Stepping through tile operations *)

Definition setd (t : nat) d s : FT := with_descs (<[t := d]> (ft_descs s)) s.

Lemma setd_lookup t d0 d s :
  ft_descs s !! t = Some d0 -> ft_descs (setd t d s) !! t = Some d.
Proof. intros H. cbn. apply list_lookup_insert_eq. eauto using lookup_lt_Some. Qed.

Lemma setd_setd t d1 d2 s : setd t d2 (setd t d1 s) = setd t d2 s.
Proof. unfold setd, with_descs. cbn. now rewrite list_insert_insert_eq. Qed.

Lemma setd_fs t d fs s : with_fs fs (setd t d s) = setd t d (with_fs fs s).
Proof. reflexivity. Qed.

Lemma desc_bind {A} t d (k : TD -> M FT A) s :
  ft_descs s !! t = Some d -> bind (desc t) k s = k d s.
Proof. intros H. unfold bind, desc. now rewrite H. Qed.

Lemma upd_bind {A} t d f (k : unit -> M FT A) s :
  ft_descs s !! t = Some d -> bind (upd_desc t f) k s = k tt (setd t (f d) s).
Proof. intros H. unfold upd_desc, bind, desc, modify. now rewrite H. Qed.

Lemma upd_eq t d f s :
  ft_descs s !! t = Some d -> upd_desc t f s = Ret tt (setd t (f d) s).
Proof. intros H. unfold upd_desc, bind, desc, modify. now rewrite H. Qed.

Lemma fault_bind {A} (k : option nat -> M FT A) s :
  ft_faults s = [] -> bind next_fault k s = k None s.
Proof. intros H. unfold bind, next_fault. now rewrite H. Qed.

Lemma gets_bind {A B} (f : FT -> A) (k : A -> M FT B) s :
  bind (gets f) k s = k (f s) s.
Proof. reflexivity. Qed.

Lemma modify_bind {B} (f : FT -> FT) (k : unit -> M FT B) s :
  bind (modify f) k s = k tt (f s).
Proof. reflexivity. Qed.

Lemma ret_bind {A B} (a : A) (k : A -> M FT B) s : bind (ret a) k s = k a s.
Proof. reflexivity. Qed.

Lemma live_bind {A} h (k : unit -> M FT A) s :
  fh_live h = true -> bind (live h) k s = k tt s.
Proof. intros H. unfold bind, live. now rewrite H. Qed.

Lemma fs_setd t d s : ft_fs (setd t d s) = ft_fs s.
Proof. reflexivity. Qed.
Lemma faults_setd t d s : ft_faults (setd t d s) = ft_faults s.
Proof. reflexivity. Qed.
Lemma tiles_setd t d s : ft_tiles (setd t d s) = ft_tiles s.
Proof. reflexivity. Qed.

Ltac ft_side :=
  rewrite ?setd_fs; solve
    [ eassumption | eapply setd_lookup; ft_side | reflexivity
    | cbn; congruence ].

(** One primitive of the program at the head of the goal. *)
Ltac ft_step :=
  cbv beta iota;
  cbn [fst snd td_index td_state td_fetched td_handle td_sup
       td_with_state td_with_handle td_with_fetched];
  lazymatch goal with
  | |- bind (bind _ _) _ _ = _ => rewrite bind_assoc
  | |- bind (desc _) _ _ = _ => erewrite desc_bind by ft_side
  | |- bind (set_state _ _) _ _ = _ => unfold set_state; erewrite upd_bind by ft_side
  | |- bind (set_handle _ _) _ _ = _ => unfold set_handle; erewrite upd_bind by ft_side
  | |- bind (set_fetched _ _) _ _ = _ => unfold set_fetched; erewrite upd_bind by ft_side
  | |- bind (upd_desc _ _) _ _ = _ => erewrite upd_bind by ft_side
  | |- set_state _ _ _ = _ => unfold set_state; erewrite upd_eq by ft_side
  | |- bind next_fault _ _ = _ => rewrite fault_bind by ft_side
  | |- bind (live _) _ _ = _ => rewrite live_bind by ft_side
  | |- bind (gets _) _ _ = _ => rewrite gets_bind
  | |- bind (modify _) _ _ = _ => rewrite modify_bind
  | |- bind (ret _) _ _ = _ => rewrite ret_bind
  | |- bind (handle_of _) _ _ = _ => unfold handle_of; rewrite bind_assoc
  | |- bind (fclose _) _ _ = _ => unfold fclose; rewrite bind_assoc
  | |- bind (fseek _ _) _ _ = _ => unfold fseek; rewrite bind_assoc
  | |- bind (fwrite _ _) _ _ = _ => unfold fwrite; rewrite bind_assoc
  | |- bind (fread _ _) _ _ = _ => unfold fread; rewrite bind_assoc
  | |- bind (check_file2 _) _ _ = _ => unfold check_file2; rewrite bind_assoc
  | |- bind (fopen_rb _) _ _ = _ => unfold fopen_rb; rewrite bind_assoc
  | |- bind (fopen_wb _) _ _ = _ => unfold fopen_wb; rewrite bind_assoc
  end; cbv beta iota.

Lemma close_file_ok t d s :
  ft_faults s = [] -> ft_descs s !! t = Some d ->
  (forall h, td_handle d = Some h -> fh_live h = true) ->
  close_file t s = Ret tt (setd t (td_with_state OK (td_with_handle None d)) s).
Proof.
  intros Hf Hd Hl. unfold close_file. ft_step. destruct (td_handle d) as [h|] eqn:Eh.
  - specialize (Hl h eq_refl). repeat ft_step. now rewrite setd_setd.
  - ft_step. f_equal. unfold td_with_state, td_with_handle. cbn. now rewrite Eh.
Qed.

(** The stream an open tile has: where it was, or the start of the file. *)
Definition opened (i : nat) d : FILE :=
  match td_handle d with
  | Some h => h
  | None => mkFILE (get_file_name (N.of_nat i)) 0 true
  end.

Lemma check_good recs s i :
  length recs = TCount -> ft_fs s !! get_file_name (N.of_nat i) = Some (good_file recs) ->
  check_file2 (get_file_name (N.of_nat i)) s = Ret OK s.
Proof.
  intros Hl Hf. unfold check_file2, bind, gets, ret. rewrite Hf. cbn.
  now rewrite Hl, Nat.eqb_refl.
Qed.

(** Opening a tile whose file is there. *)
Lemma open_file_ok i t d recs s :
  ft_faults s = [] -> ft_descs s !! t = Some d -> desc_ok i d recs ->
  ft_fs s !! get_file_name (N.of_nat i) = Some (good_file recs) ->
  open_file t s = Ret true (setd t (td_with_state OK (td_with_handle (Some (opened i d)) d)) s).
Proof.
  intros Hf Hd Hok Hfs. unfold open_file, opened. ft_step.
  destruct (td_handle d) as [h|] eqn:Eh.
  - repeat ft_step. unfold ret. do 2 f_equal.
    unfold td_with_state, td_with_handle. cbn. now rewrite Eh.
  - cbv zeta. rewrite (ok_index _ _ _ Hok).
    erewrite bind_Ret by (eapply check_good; [apply Hok|exact Hfs]).
    repeat ft_step. rewrite Hfs. repeat ft_step. now rewrite setd_setd.
Qed.

Lemma opened_ok i d recs :
  desc_ok i d recs ->
  fh_name (opened i d) = get_file_name (N.of_nat i) /\ fh_live (opened i d) = true
  /\ (fh_pos (opened i d) = 0
      \/ (fh_pos (opened i d) = TCount /\ td_fetched d = Some recs)).
Proof.
  intros Hok. pose proof (ok_stream _ _ _ Hok) as H. unfold opened, stream_ok in *.
  destruct (td_handle d); cbn; auto.
Qed.

(** The descriptor after a read: the fetched copy is the file. *)
Definition synced (i : nat) (recs : list R) (st : TileState) d : TD :=
  mkTileDesc (td_index d) st (Some recs)
    (Some (mkFILE (get_file_name (N.of_nat i)) TCount true)) (td_sup d).

Lemma sync_from_file_ok i t d recs c s :
  ft_faults s = [] -> ft_descs s !! t = Some d -> desc_ok i d recs ->
  ft_fs s !! get_file_name (N.of_nat i) = Some (good_file recs) ->
  exists b st, sync_from_file t c s = Ret b (setd t (synced i recs st d) s)
    /\ (fh_pos (opened i d) = 0 -> b = true /\ st = OK).
Proof.
  intros Hf Hd Hok Hfs. destruct (opened_ok _ _ _ Hok) as (Hn & Hl & Hp).
  pose proof (ok_len _ _ _ Hok) as Hlen.
  set (b := (length (drop (fh_pos (opened i d)) recs) =? TCount)%nat).
  exists b, (if b then OK else ERROR_WHILE_READING). split.
  - unfold sync_from_file.
    erewrite bind_Ret by (eapply open_file_ok; eassumption). cbv beta iota. cbn [negb].
    repeat ft_step. rewrite fs_setd, Hn, Hfs. cbn [f_recs good_file].
    rewrite (take_ge (drop _ _)) by (rewrite length_drop; lia).
    repeat ft_step. rewrite !setd_setd.
    assert (drop (fh_pos (opened i d)) recs
              ++ drop (length (drop (fh_pos (opened i d)) recs))
                   match td_fetched d with Some m => m | None => replicate TCount zeroR end
            = recs) as Hrecs.
    { destruct Hp as [->|[-> Hm]].
      - rewrite drop_0, drop_ge, app_nil_r; [done|].
        destruct (td_fetched d) as [m|] eqn:Em.
        + rewrite (ok_mem _ _ _ Hok m Em). lia.
        + rewrite length_replicate. lia.
      - rewrite (drop_ge recs) by lia. rewrite Hm. cbn. apply drop_0. }
    rewrite Hrecs. subst b.
    assert (fh_pos (opened i d) + length (drop (fh_pos (opened i d)) recs) = TCount) as Hpos.
    { rewrite length_drop. destruct Hp as [->|[-> _]]; lia. }
    rewrite Hpos. destruct (_ =? TCount)%nat; cbn [negb];
      repeat ft_step; unfold ret; now rewrite !setd_setd.
  - intros H0. subst b. rewrite H0, drop_0, Hlen, Nat.eqb_refl. done.
Qed.

Lemma splice_one j r (l : list R) : (j < length l)%nat -> splice j [r] l = <[j := r]> l.
Proof.
  intros H. unfold splice. replace (j - length l) with 0 by lia. cbn [replicate].
  rewrite app_nil_r. cbn [length app]. rewrite insert_take_drop by done.
  now rewrite Nat.add_1_r.
Qed.

Lemma splice_all (new l : list R) : (length l <= length new)%nat -> splice 0 new l = new.
Proof.
  intros H. unfold splice. rewrite take_0. cbn [app]. now rewrite drop_ge, app_nil_r by lia.
Qed.

Lemma splice_end (new l : list R) : splice (length l) new l = l ++ new.
Proof.
  unfold splice. rewrite Nat.sub_diag. cbn [replicate]. rewrite app_nil_r, take_ge by lia.
  rewrite drop_ge by lia. now rewrite app_nil_r.
Qed.

(** A state with new contents for one tile's file. *)
Definition set_file (i : nat) (recs : list R) s : FT :=
  with_fs (<[get_file_name (N.of_nat i) := good_file recs]> (ft_fs s)) s.

Lemma tile_write_ok i t d recs r j c s :
  ft_faults s = [] -> ft_descs s !! t = Some d -> desc_ok i d recs ->
  ft_fs s !! get_file_name (N.of_nat i) = Some (good_file recs) -> (j < TCount)%nat ->
  tile_write t r j c s = Ret true
    (setd t (mkTileDesc (td_index d) OK (td_fetched d)
               (if c then None else Some (mkFILE (get_file_name (N.of_nat i)) 0 true)) (td_sup d))
       (set_file i (<[j := r]> recs) s)).
Proof.
  intros Hf Hd Hok Hfs Hj. destruct (opened_ok _ _ _ Hok) as (Hn & Hl & _).
  pose proof (ok_len _ _ _ Hok) as Hlen.
  unfold tile_write. rewrite (proj2 (Nat.leb_gt _ _) Hj).
  erewrite bind_Ret by (eapply open_file_ok; eassumption). cbn [negb].
  repeat ft_step. rewrite !setd_setd. cbn [fh_name fh_pos fh_live].
  rewrite !fs_setd, Hn, Hfs. cbn [f_recs f_odd_bytes f_regular f_readable f_writeable good_file].
  rewrite splice_one by lia. rewrite setd_fs.
  unfold set_file, good_file.
  repeat ft_step. cbn [length Nat.eqb negb]. rewrite !setd_setd.
  destruct c.
  - erewrite bind_Ret.
    2:{ apply close_file_ok; [exact Hf|eapply setd_lookup; exact Hd|]. cbn. now intros h [= <-]. }
    unfold ret. now rewrite setd_setd.
  - repeat ft_step. reflexivity.
Qed.

(** Writing a whole tile to a file that does not exist yet. *)
Lemma sync_to_file_new i t d data c s :
  ft_faults s = [] -> ft_descs s !! t = Some d -> td_index d = N.of_nat i ->
  td_handle d = None -> td_fetched d = Some data -> length data = TCount ->
  ft_fs s !! get_file_name (N.of_nat i) = None ->
  sync_to_file t c s = Ret true
    (setd t (mkTileDesc (td_index d) OK (Some data)
               (if c then None else Some (mkFILE (get_file_name (N.of_nat i)) TCount true)) (td_sup d))
       (set_file i data s)).
Proof.
  intros Hf Hd Hi Hh Hm Hlen Hfs. unfold sync_to_file. ft_step. rewrite Hm.
  unfold open_file. repeat ft_step. rewrite Hh, Hi. cbv zeta. repeat ft_step. rewrite Hfs.
  repeat ft_step. cbn [negb]. rewrite !setd_setd. repeat ft_step.
  rewrite take_ge by lia. cbn [fh_name fh_pos fh_live]. rewrite !fs_setd. cbn [ft_fs with_fs]. rewrite lookup_insert_eq.
  cbn [f_recs f_odd_bytes f_regular f_readable f_writeable].
  rewrite splice_all by (cbn; lia). rewrite !setd_fs.
  unfold set_file, good_file, with_fs. cbn [ft_fs ft_faults ft_descs ft_unused_tiles ft_tiles].
  rewrite insert_insert_eq, Hlen, Nat.eqb_refl. cbn [negb Nat.add]. repeat ft_step.
  rewrite !setd_setd. destruct c.
  - erewrite bind_Ret.
    2:{ apply close_file_ok; [exact Hf|eapply setd_lookup; exact Hd|]. cbn. now intros h [= <-]. }
    unfold ret. rewrite setd_setd. unfold td_with_state, td_with_handle. cbn. now rewrite Hi, Hm.
  - repeat ft_step. unfold ret, td_with_state, td_with_handle. cbn. now rewrite Hi, Hm.
Qed.

(** Writing a whole tile over an existing file: at the start of the file it
    replaces the contents; after a read it is appended instead. *)
Lemma sync_to_file_existing i t d recs data c s :
  ft_faults s = [] -> ft_descs s !! t = Some d -> td_index d = N.of_nat i ->
  length recs = TCount ->
  ft_fs s !! get_file_name (N.of_nat i) = Some (good_file recs) ->
  fh_name (opened i d) = get_file_name (N.of_nat i) -> fh_live (opened i d) = true ->
  td_fetched d = Some data -> length data = TCount ->
  (fh_pos (opened i d) = 0 \/ fh_pos (opened i d) = TCount) ->
  sync_to_file t c s = Ret true
    (setd t (mkTileDesc (td_index d) OK (Some data)
       (if c then None
        else Some (mkFILE (get_file_name (N.of_nat i)) (fh_pos (opened i d) + TCount) true)) (td_sup d))
       (set_file i (if (fh_pos (opened i d) =? 0)%nat then data else recs ++ data) s)).
Proof.
  intros Hf Hd Hi Hlr Hfs Hn Hl Hm Hlen Hp. unfold sync_to_file. ft_step. rewrite Hm.
  assert (open_file t s = Ret true
            (setd t (td_with_state OK (td_with_handle (Some (opened i d)) d)) s)) as Hopen.
  { unfold open_file, opened. ft_step. destruct (td_handle d) as [h|] eqn:Eh.
    - repeat ft_step. unfold ret, td_with_state, td_with_handle. cbn. now rewrite Eh.
    - cbv zeta. rewrite Hi. erewrite bind_Ret by (eapply check_good; [exact Hlr|exact Hfs]).
      repeat ft_step. rewrite Hfs. repeat ft_step. now rewrite setd_setd. }
  erewrite bind_Ret by exact Hopen. cbn [negb]. repeat ft_step.
  rewrite take_ge by lia. rewrite !fs_setd, Hn, Hfs.
  cbn [f_recs f_odd_bytes f_regular f_readable f_writeable good_file]. rewrite !setd_fs.
  rewrite Hlen, Nat.eqb_refl. cbn [negb].
  assert (splice (fh_pos (opened i d)) data recs
          = if (fh_pos (opened i d) =? 0)%nat then data else recs ++ data) as Hsp.
  { destruct (Nat.eqb_spec (fh_pos (opened i d)) 0) as [->|Hne].
    - apply splice_all. lia.
    - destruct Hp as [?|Hp]; [lia|]. rewrite Hp, <- Hlr. apply splice_end. }
  rewrite Hsp. unfold set_file, good_file. repeat ft_step. rewrite !setd_setd.
  destruct c.
  - erewrite bind_Ret.
    2:{ apply close_file_ok; [exact Hf|eapply setd_lookup; exact Hd|]. cbn. now intros h [= <-]. }
    unfold ret, td_with_state, td_with_handle. rewrite setd_setd. cbn. now rewrite Hm.
  - repeat ft_step. unfold ret, td_with_state, td_with_handle. cbn. now rewrite Hm.
Qed.


(** ** Keeping the invariant *)

Lemma rep_lookup s tds blocks i t :
  ft_rep s tds blocks -> ft_tiles s !! i = Some t ->
  exists d recs, tds !! i = Some d /\ blocks !! i = Some recs
    /\ ft_descs s !! t = Some d
    /\ ft_fs s !! get_file_name (N.of_nat i) = Some (good_file recs)
    /\ desc_ok i d recs.
Proof.
  intros Hr Ht. pose proof (lookup_lt_Some _ _ _ Ht) as Hlt.
  destruct (lookup_lt_is_Some_2 tds i) as [d Hd]; [rewrite (rep_tds _ _ _ Hr); lia|].
  destruct (lookup_lt_is_Some_2 blocks i) as [recs Hb]; [rewrite (rep_blocks _ _ _ Hr); lia|].
  destruct (rep_tile _ _ _ Hr i t d recs) as (? & ? & ?); eauto 10.
Qed.

Lemma rep_tile_inj s tds blocks i j t :
  ft_rep s tds blocks -> ft_tiles s !! i = Some t -> ft_tiles s !! j = Some t -> i = j.
Proof.
  intros Hr. pose proof (rep_nodup _ _ _ Hr) as Hn. apply NoDup_app in Hn as (Hn & _ & _).
  intros. eapply NoDup_lookup; eassumption.
Qed.

(** Changing a tile's descriptor and its file together. *)
Lemma rep_update s tds blocks i t d recs :
  ft_rep s tds blocks -> ft_tiles s !! i = Some t -> desc_ok i d recs ->
  ft_rep (setd t d (set_file i recs s)) (<[i := d]> tds) (<[i := recs]> blocks).
Proof.
  intros Hr Ht Hok. destruct (rep_lookup _ _ _ _ _ Hr Ht) as (d0 & r0 & _ & _ & Hd0 & _).
  split; cbn; rewrite ?length_insert; try apply Hr.
  intros j u e re Hu He Hre. destruct (decide (j = i)) as [->|Hne].
  - rewrite list_lookup_insert_eq in He
      by (rewrite (rep_tds _ _ _ Hr); eauto using lookup_lt_Some).
    rewrite list_lookup_insert_eq in Hre
      by (rewrite (rep_blocks _ _ _ Hr); eauto using lookup_lt_Some).
    simplify_eq. split; [apply list_lookup_insert_eq; eauto using lookup_lt_Some|].
    now rewrite lookup_insert_eq.
  - rewrite list_lookup_insert_ne in He by done. rewrite list_lookup_insert_ne in Hre by done.
    assert (u <> t) by (intros ->; eauto using rep_tile_inj).
    rewrite list_lookup_insert_ne by done. rewrite lookup_insert_ne.
    + eapply (rep_tile _ _ _ Hr); eassumption.
    + intros E. apply get_file_name_inj in E. lia.
Qed.

Lemma set_file_id i recs s :
  ft_fs s !! get_file_name (N.of_nat i) = Some (good_file recs) -> set_file i recs s = s.
Proof. intros H. unfold set_file, with_fs. rewrite insert_id by done. now destruct s. Qed.

Lemma rep_setd s tds blocks i t d recs :
  ft_rep s tds blocks -> ft_tiles s !! i = Some t -> blocks !! i = Some recs ->
  desc_ok i d recs -> ft_rep (setd t d s) (<[i := d]> tds) blocks.
Proof.
  intros Hr Ht Hb Hok. destruct (rep_lookup _ _ _ _ _ Hr Ht) as (d0 & r0 & _ & Hb' & _ & Hfs & _).
  simplify_eq. rewrite <- (set_file_id i recs s) by done.
  rewrite <- (list_insert_id blocks i recs) by done. now apply rep_update.
Qed.

(** A descriptor and a file that no tile uses. *)
Lemma rep_fresh s tds blocks t d :
  ft_rep s tds blocks -> t ∉ ft_tiles s -> ft_rep (setd t d s) tds blocks.
Proof.
  intros Hr Ht. split; cbn; rewrite ?length_insert; try apply Hr.
  intros i u e re Hu He Hre. rewrite list_lookup_insert_ne.
  - eapply (rep_tile _ _ _ Hr); eassumption.
  - intros <-. eauto using list_elem_of_lookup_2.
Qed.

Lemma rep_new_file s tds blocks n recs :
  ft_rep s tds blocks -> (length (ft_tiles s) <= n)%nat -> ft_rep (set_file n recs s) tds blocks.
Proof.
  intros Hr Hn. split; cbn; try apply Hr.
  intros i u e re Hu He Hre. apply lookup_lt_Some in Hu as Hi. rewrite lookup_insert_ne.
  - eapply (rep_tile _ _ _ Hr); eassumption.
  - intros E. apply get_file_name_inj in E. lia.
Qed.

(** Adding a tile at the end. *)
Lemma rep_snoc s tds blocks t d recs :
  ft_rep s tds blocks -> t ∉ ft_tiles s ++ ft_unused_tiles s -> ft_descs s !! t = Some d ->
  ft_fs s !! get_file_name (N.of_nat (length (ft_tiles s))) = Some (good_file recs) ->
  desc_ok (length (ft_tiles s)) d recs ->
  ft_rep (with_tiles (ft_tiles s ++ [t]) s) (tds ++ [d]) (blocks ++ [recs]).
Proof.
  intros Hr Ht Hd Hf Hok. pose proof (rep_tds _ _ _ Hr) as Hl1.
  pose proof (rep_blocks _ _ _ Hr) as Hl2.
  split; cbn; rewrite ?length_app, ?Hl1, ?Hl2; try done; try apply Hr.
  - rewrite <- (Permutation_cons_append (ft_tiles s) t). cbn.
    apply NoDup_cons. split; [done|apply Hr].
  - intros i u e re Hu He Hre. apply lookup_lt_Some in Hu as Hi. rewrite length_app in Hi. cbn in Hi.
    destruct (decide (i = length (ft_tiles s))) as [->|Hne].
    + rewrite list_lookup_middle in Hu by done. rewrite list_lookup_middle in He by done.
      rewrite list_lookup_middle in Hre by done. simplify_eq. done.
    + rewrite lookup_app_l in Hu by lia. rewrite lookup_app_l in He by lia.
      rewrite lookup_app_l in Hre by lia. eapply (rep_tile _ _ _ Hr); eassumption.
Qed.

#[local] Opaque tile_block_size.

Lemma create_tile_desc_ok idx s tds blocks :
  ft_rep s tds blocks ->
  exists t sup s', create_tile_desc idx s = Ret t s'
    /\ ft_rep s' tds blocks /\ t ∉ ft_tiles s' ++ ft_unused_tiles s'
    /\ ft_descs s' !! t = Some (mkTileDesc idx OK None None (sup_reset sup))
    /\ ft_fs s' = ft_fs s /\ ft_tiles s' = ft_tiles s.
Proof.
  intros Hr. assert (forall t, t ∈ ft_tiles s -> (t < length (ft_descs s))%nat) as Hlt.
  { intros t Ht. apply list_elem_of_lookup in Ht as [i Ht].
    destruct (rep_lookup _ _ _ _ _ Hr Ht) as (? & ? & _ & _ & ? & _). eauto using lookup_lt_Some. }
  unfold create_tile_desc. rewrite gets_bind.
  assert (exists s1, (if (length (ft_unused_tiles s) =? 0)%nat
     then modify (fun s => with_unused (seq (length (ft_descs s)) tile_block_size)
            (with_descs (ft_descs s ++ replicate tile_block_size
                           (mkTileDesc 0 OK None None zeroSup)) s))
     else ret tt) s = Ret tt s1 /\ ft_rep s1 tds blocks /\ ft_unused_tiles s1 <> []
     /\ ft_fs s1 = ft_fs s /\ ft_tiles s1 = ft_tiles s) as (s1 & E & Hr1 & Hne & Hfs & Hti).
  { destruct (Nat.eqb_spec (length (ft_unused_tiles s)) 0) as [H0|H0].
    - eexists. split; [reflexivity|]. apply nil_length_inv in H0. cbn. split; [|done].
      split; cbn; try apply Hr.
      + apply NoDup_app. split; [|split]; [|
          intros u Hu Hs; apply Hlt in Hu; apply elem_of_seq in Hs; lia|apply NoDup_seq].
        pose proof (rep_nodup _ _ _ Hr) as Hn. now apply NoDup_app in Hn as (? & _ & _).
      + intros u Hu. apply elem_of_seq in Hu. rewrite length_app, length_replicate. lia.
      + intros i u e re Hu He Hre.
        destruct (rep_tile _ _ _ Hr i u e re Hu He Hre) as (Hd & ? & ?).
        rewrite lookup_app_l by eauto using lookup_lt_Some. done.
    - exists s. split; [done|]. split; [done|]. split; [|done].
      intros E. now rewrite E in H0. }
  rewrite (bind_Ret _ _ _ _ _ E), gets_bind.
  destruct (exists_last Hne) as (un & t & Eun).
  rewrite Eun, last_snoc, length_app. cbn [length]. rewrite Nat.add_sub, take_app_length.
  destruct (lookup_lt_is_Some_2 (ft_descs s1) t) as [d Hd].
  { apply (rep_unused _ _ _ Hr1). rewrite Eun. apply elem_of_app. right. now left. }
  rewrite (upd_bind _ _ _ _ _ Hd), modify_bind.
  pose proof (rep_nodup _ _ _ Hr1) as Hn. rewrite Eun, (assoc (++)) in Hn.
  apply NoDup_app in Hn as (Hn1 & Hn2 & _).
  assert (t ∉ ft_tiles s1 ++ un) as Hfresh by (intros H; eapply Hn2; [exact H|now left]).
  eexists t, (td_sup d), _. split; [reflexivity|]. split; [|split; [|split; [|done]]].
  - assert (ft_rep (setd t (TileDesc_reset idx d) s1) tds blocks) as Hr2.
    { apply rep_fresh; [done|]. set_solver. }
    split; try apply Hr2; [exact Hn1|].
    intros u Hu. cbn. rewrite length_insert. apply (rep_unused _ _ _ Hr1). rewrite Eun. set_solver.
  - exact Hfresh.
  - cbn. now rewrite list_lookup_insert_eq by eauto using lookup_lt_Some.
Qed.

Lemma append_tile_ok s tds blocks :
  ft_rep s tds blocks ->
  exists t sup s', append_tile s = Ret t (with_tiles (ft_tiles s' ++ [t]) s')
    /\ ft_rep s' tds blocks /\ t ∉ ft_tiles s' ++ ft_unused_tiles s'
    /\ ft_descs s' !! t
       = Some (mkTileDesc (N.of_nat (length (ft_tiles s))) OK None None (sup_reset sup))
    /\ ft_fs s' = ft_fs s /\ ft_tiles s' = ft_tiles s.
Proof.
  intros Hr. unfold append_tile, get_tile_count. rewrite gets_bind.
  destruct (create_tile_desc_ok (N.of_nat (length (ft_tiles s))) s tds blocks Hr)
    as (t & sup & s1 & E & Hr1 & Ht & Hd & Hfs & Hti).
  rewrite (bind_Ret _ _ _ _ _ E). unfold set_state. rewrite (upd_bind _ _ _ _ _ Hd), modify_bind.
  exists t, sup, (setd t (mkTileDesc (N.of_nat (length (ft_tiles s))) OK None None (sup_reset sup)) s1).
  split; [reflexivity|]. split; [apply rep_fresh; [done|set_solver]|].
  split; [done|]. split; [now apply (setd_lookup _ _ _ _ Hd)|]. done.
Qed.

Lemma get_tile_ok s tds blocks i :
  ft_rep s tds blocks -> (i < length blocks)%nat ->
  exists t, ft_tiles s !! i = Some t /\ get_tile (N.of_nat i) s = Ret t s.
Proof.
  intros Hr Hi. rewrite (rep_blocks _ _ _ Hr) in Hi.
  destruct (lookup_lt_is_Some_2 _ _ Hi) as [t Ht]. exists t. split; [done|].
  unfold get_tile. rewrite gets_bind.
  destruct (N.leb_spec (N.of_nat (length (ft_tiles s))) (N.of_nat i)); [lia|].
  now rewrite Nat2N.id, Ht.
Qed.

(** The new tile's data is in place once it has been written. *)
Lemma rep_appended s tds blocks t d data :
  ft_rep s tds blocks -> t ∉ ft_tiles s ++ ft_unused_tiles s ->
  (exists d0, ft_descs s !! t = Some d0) -> desc_ok (length (ft_tiles s)) d data ->
  ft_rep (setd t d (set_file (length (ft_tiles s)) data (with_tiles (ft_tiles s ++ [t]) s)))
    (tds ++ [d]) (blocks ++ [data]).
Proof.
  intros Hr Ht [d0 Hd0] Hok.
  change (setd t d (set_file (length (ft_tiles s)) data (with_tiles (ft_tiles s ++ [t]) s)))
    with (with_tiles (ft_tiles (setd t d (set_file (length (ft_tiles s)) data s)) ++ [t])
            (setd t d (set_file (length (ft_tiles s)) data s))).
  apply rep_snoc; cbn.
  - apply rep_fresh; [apply rep_new_file; [done|lia]|]. cbn.
    intros Hin. apply Ht, elem_of_app. now left.
  - exact Ht.
  - apply list_lookup_insert_eq. eauto using lookup_lt_Some.
  - now rewrite lookup_insert_eq.
  - exact Hok.
Qed.

Lemma desc_ok_closed i d recs st m sup :
  length recs = TCount -> td_index d = N.of_nat i -> (forall l, m = Some l -> length l = TCount) ->
  desc_ok i (mkTileDesc (td_index d) st m None sup) recs.
Proof. intros. split; cbn; auto; exact I. Qed.

(** *** What a client may rely on *)

(** Reading a tile leaves the fetched copy equal to the file and keeps the
    invariant, whether or not the call reports success: a second read in a
    row reports [ERROR_WHILE_READING], yet the copy it leaves is right. *)
Theorem sync_from_file_refreshes s tds blocks i t c :
  ft_rep s tds blocks -> ft_tiles s !! i = Some t ->
  exists b recs d', blocks !! i = Some recs
    /\ sync_from_file t c s = Ret b (setd t d' s)
    /\ td_fetched d' = Some recs
    /\ ft_rep (setd t d' s) (<[i := d']> tds) blocks.
Proof.
  intros Hr Ht. destruct (rep_lookup _ _ _ _ _ Hr Ht) as (d & recs & Hd & Hb & Hds & Hfs & Hok).
  destruct (sync_from_file_ok i t d recs c s (rep_faults _ _ _ Hr) Hds Hok Hfs) as (b & st & E & _).
  exists b, recs, (synced i recs st d). do 3 (split; [done|]).
  eapply rep_setd; [done..|]. destruct Hok as [H1 H2 H3 H4]. split; cbn; [done..| |].
  - now intros m [= <-].
  - unfold stream_ok. cbn. auto.
Qed.

(** Writing record [j] of a tile changes that record of that file and
    nothing else on disk, and the next read of the tile succeeds and sees it. *)
Theorem tile_write_durable s tds blocks i t r j c c' :
  ft_rep s tds blocks -> ft_tiles s !! i = Some t -> (j < TCount)%nat ->
  exists recs d' d'', blocks !! i = Some recs
    /\ tile_write t r j c s = Ret true (setd t d' (set_file i (<[j := r]> recs) s))
    /\ ft_rep (setd t d' (set_file i (<[j := r]> recs) s))
         (<[i := d']> tds) (<[i := <[j := r]> recs]> blocks)
    /\ sync_from_file t c' (setd t d' (set_file i (<[j := r]> recs) s))
       = Ret true (setd t d'' (set_file i (<[j := r]> recs) s))
    /\ td_fetched d'' = Some (<[j := r]> recs).
Proof.
  intros Hr Ht Hj. destruct (rep_lookup _ _ _ _ _ Hr Ht) as (d & recs & Hd & Hb & Hds & Hfs & Hok).
  pose proof (tile_write_ok i t d recs r j c s (rep_faults _ _ _ Hr) Hds Hok Hfs Hj) as E.
  set (d1 := mkTileDesc _ _ _ _ _) in E.
  assert (desc_ok i d1 (<[j := r]> recs)) as Hok1.
  { destruct Hok as [H1 H2 H3 H4]. split; cbn; rewrite ?length_insert; try done.
    unfold stream_ok. cbn. destruct c; cbn; auto. }
  assert (ft_rep (setd t d1 (set_file i (<[j := r]> recs) s))
            (<[i := d1]> tds) (<[i := <[j := r]> recs]> blocks)) as Hr1 by (now apply rep_update).
  destruct (sync_from_file_ok i t d1 (<[j := r]> recs) c' (setd t d1 (set_file i (<[j := r]> recs) s)))
    as (b & st & E1 & Hb1).
  - apply Hr1.
  - eapply setd_lookup. exact Hds.
  - exact Hok1.
  - cbn. now rewrite lookup_insert_eq.
  - destruct Hb1 as [-> ->]; [subst d1; unfold opened; now destruct c|].
    exists recs, d1, (synced i (<[j := r]> recs) OK d1). do 3 (split; [done|]).
    rewrite E1, setd_setd. done.
Qed.

(** Appending a tile and writing its data creates the file with exactly
    that data, whatever the other tiles hold. *)
Theorem append_tile_stored s tds blocks data c :
  ft_rep s tds blocks -> length data = TCount ->
  ft_fs s !! get_file_name (N.of_nat (length blocks)) = None ->
  exists s' d',
    (let! t := append_tile in set_tile_data t data ;;; sync_to_file t c) s = Ret true s'
    /\ ft_rep s' (tds ++ [d']) (blocks ++ [data]) /\ td_state d' = OK.
Proof.
  intros Hr Hlen Hfs. destruct (append_tile_ok _ _ _ Hr) as (t & sup & s1 & E & Hr1 & Ht & Hd & Ef & Et).
  rewrite (bind_Ret _ _ _ _ _ E). unfold set_tile_data.
  rewrite (upd_bind t _ _ _ (with_tiles (ft_tiles s1 ++ [t]) s1) Hd).
  rewrite take_ge by lia. rewrite (rep_blocks _ _ _ Hr), <- Et in Hfs.
  set (d1 := mkTileDesc (N.of_nat (length (ft_tiles s))) OK (Some data) None (sup_reset sup)).
  set (s2 := with_tiles _ s1).
  pose proof (sync_to_file_new (length (ft_tiles s1)) t d1 data c (setd t d1 s2)
    (rep_faults _ _ _ Hr1) (setd_lookup _ _ _ s2 Hd)) as E1.
  eexists _, _. split.
  { apply E1; cbn; rewrite ?Ef, ?Et; try done. now rewrite <- Et. }
  unfold set_file. rewrite setd_fs, setd_setd.
  split.
  - apply rep_appended; [done..|eauto|]. split; cbn; [now rewrite Et|done|now intros m [= <-]|].
    unfold stream_ok. cbn. destruct c; cbn; auto.
  - reflexivity.
Qed.

(** A tile that was read and not closed is at the end of its file, so
    replacing its data appends: the file gets twice the length, the next
    [open_file] refuses it, and the [sync_to_file] after that falls off the
    end of the function. *)
Theorem sync_to_file_after_read_doubles s tds blocks i t data :
  ft_rep s tds blocks -> ft_tiles s !! i = Some t -> length data = TCount -> (0 < TCount)%nat ->
  exists recs s' s'', blocks !! i = Some recs
    /\ (sync_from_file t true ;;; set_tile_data t data ;;; sync_to_file t true) s = Ret true s'
    /\ ft_fs s' !! get_file_name (N.of_nat i) = Some (good_file (recs ++ data))
    /\ open_file t s' = Ret false s''
    /\ sync_to_file t true s' = Undef.
Proof.
  intros Hr Ht Hlen Hpos. destruct (rep_lookup _ _ _ _ _ Hr Ht) as (d & recs & Hd & Hb & Hds & Hfs & Hok).
  pose proof (rep_faults _ _ _ Hr) as Hf. pose proof (ok_len _ _ _ Hok) as Hl.
  destruct (sync_from_file_ok i t d recs true s Hf Hds Hok Hfs) as (b & st & E & _).
  rewrite (bind_Ret _ _ _ _ _ E). unfold set_tile_data.
  erewrite upd_bind by (eapply setd_lookup; exact Hds). rewrite setd_setd, take_ge by lia.
  set (d1 := td_with_state _ _). set (s1 := setd t d1 s).
  pose proof (sync_to_file_existing i t d1 recs data true s1 Hf
    (setd_lookup _ _ _ _ Hds) (ok_index _ _ _ Hok) Hl Hfs eq_refl eq_refl eq_refl Hlen
    (or_intror eq_refl)) as E1.
  cbn [opened d1 td_handle td_with_state td_with_fetched synced fh_pos] in E1.
  destruct (Nat.eqb_spec TCount 0) as [|_]; [lia|].
  set (s2 := setd t _ _) in E1.
  assert (ft_fs s2 !! get_file_name (N.of_nat i) = Some (good_file (recs ++ data))) as Hfs2
    by (cbn; apply lookup_insert_eq).
  set (d2 := mkTileDesc (td_index d1) OK (Some data) None (td_sup d1)).
  assert (ft_descs s2 !! t = Some d2) as Hd2 by (eapply setd_lookup, setd_lookup; exact Hds).
  assert (exists s3, open_file t s2 = Ret false s3) as [s3 E3].
  { unfold open_file. erewrite desc_bind by exact Hd2. change (td_handle d2) with (@None FILE). cbv zeta iota.
    change (td_index d2) with (td_index d). rewrite (ok_index _ _ _ Hok).
    unfold check_file2. rewrite bind_assoc, gets_bind, ret_bind, Hfs2. cbn [good_file f_regular f_recs f_odd_bytes negb].
    rewrite length_app, Hl, Hlen. destruct (Nat.eqb_spec (TCount + TCount) TCount); [lia|].
    cbn [andb negb]. rewrite ret_bind. eexists.
    unfold set_handle. erewrite upd_bind by exact Hd2. unfold set_state.
    erewrite upd_bind by (eapply setd_lookup; exact Hd2). reflexivity. }
  exists recs, s2, s3. do 4 (split; [done|]).
  unfold sync_to_file. erewrite desc_bind by exact Hd2. cbn [d2 td_fetched].
  rewrite (bind_Ret _ _ _ _ _ E3). reflexivity.
Qed.

End file_tile.

(** ** Files

    A computation whose new files have names of a kind: every other name it
    leaves in the folder was there before.  [files] is where the state keeps
    the folder. *)

Section adds_only.
Context {W R : Type} (files : W -> gmap string (File R)) (names : string -> Prop).

Definition adds_only {A} (m : M W A) : Prop :=
  forall s a s' p, m s = Ret a s' -> is_Some (files s' !! p) ->
    is_Some (files s !! p) \/ names p.

Lemma adds_only_bind {A C} (m : M W A) (k : A -> M W C) :
  adds_only m -> (forall a, adds_only (k a)) -> adds_only (bind m k).
Proof.
  intros Hm Hk s c s' p H Hp. apply bind_Ret_inv in H as (a & s1 & H1 & H2).
  destruct (Hk _ _ _ _ _ H2 Hp) as [Hp1|Hp1]; [exact (Hm _ _ _ _ H1 Hp1)|now right].
Qed.

(** What does not touch the files. *)
Lemma adds_only_same {A} (m : M W A) :
  (forall s a s', m s = Ret a s' -> files s' = files s) -> adds_only m.
Proof. intros Hm s a s' p H. rewrite (Hm _ _ _ H). now left. Qed.

Lemma adds_only_ret {A} (a : A) : adds_only (ret a).
Proof. apply adds_only_same. now intros s x s' [= _ <-]. Qed.

Lemma adds_only_undef {A} : adds_only (undef (A := A)).
Proof. now apply adds_only_same. Qed.

Lemma adds_only_throw {A} e : adds_only (throw (A := A) e).
Proof. now apply adds_only_same. Qed.

Lemma adds_only_gets {A} (f : W -> A) : adds_only (gets f).
Proof. apply adds_only_same. now intros s x s' [= _ <-]. Qed.

Lemma adds_only_modify f : (forall s, files (f s) = files s) -> adds_only (modify f).
Proof. intros Hf. apply adds_only_same. intros s x s' [= _ <-]. apply Hf. Qed.

Lemma adds_only_for_each {A} (l : list A) (body : A -> M W unit) :
  (forall x, adds_only (body x)) -> adds_only (for_each l body).
Proof.
  intros Hb. induction l as [|x l IH]; cbn [for_each]; [apply adds_only_ret|].
  apply adds_only_bind; [apply Hb|now intros _].
Qed.

Lemma adds_only_fold_each {A C} (l : list A) (body : C -> A -> M W C) : forall acc,
  (forall c x, adds_only (body c x)) -> adds_only (fold_each l acc body).
Proof.
  induction l as [|x l IH]; intros acc Hb; cbn [fold_each]; [apply adds_only_ret|].
  apply adds_only_bind; [apply Hb|intros c; now apply IH].
Qed.

End adds_only.

Create HintDb files discriminated.
#[export] Hint Resolve adds_only_ret adds_only_undef adds_only_throw adds_only_gets : files.
#[export] Hint Extern 1 (adds_only _ _ (modify _)) => apply adds_only_modify; done : files.
Ltac files_auto :=
  repeat first
    [ progress intros
    | progress cbv zeta
    | solve [eauto with files]
    | apply adds_only_bind
    | apply adds_only_for_each
    | apply adds_only_fold_each
    | match goal with |- adds_only _ _ (match ?x with _ => _ end) => destruct x end ].

Section tile_files.
Context {R Sup : Type} (zeroR : R) (zeroSup : Sup) (sup_reset : Sup -> Sup).
Context (TCount : nat) `{FNR : !FileNameResolver}.
Abbreviation FT := (FileTile R Sup).

(** The name of a block file. *)
Definition block_name (p : string) : Prop := exists i, p = get_file_name i.
Abbreviation adds_blocks := (adds_only (W := FT) ft_fs block_name).

Lemma adds_only_fault : adds_blocks next_fault.
Proof. apply adds_only_same. intros s x s' H. unfold next_fault in H. destruct (ft_faults s); now injection H as _ <-. Qed.

Lemma adds_only_desc t : adds_blocks (desc t).
Proof. apply adds_only_same. intros s x s' H. unfold desc in H. destruct (ft_descs s !! t); [now injection H as _ <-|discriminate]. Qed.

Lemma adds_only_create i : adds_blocks (fopen_wb (get_file_name i)).
Proof.
  apply adds_only_bind; [apply adds_only_fault|]. intros [n|]; [apply adds_only_ret|].
  apply adds_only_bind; [|intros _; apply adds_only_ret]. intros s a s' p [= _ <-]. cbn.
  rewrite lookup_insert_is_Some. unfold block_name. intros [<-|[_ H]]; [eauto|now left].
Qed.

(** A file that is there keeps its name when it is written. *)
Lemma adds_only_fwrite h recs : adds_blocks (fwrite zeroR h recs).
Proof.
  unfold fwrite. apply adds_only_bind.
  { unfold live. destruct (fh_live h); [apply adds_only_ret|apply adds_only_undef]. }
  intros _. apply adds_only_bind; [apply adds_only_fault|]. intros f.
  apply adds_only_bind; [|intros _; apply adds_only_ret]. intros s a s' p [= _ <-].
  destruct (ft_fs s !! fh_name h) eqn:E; [|now left]. cbn.
  rewrite lookup_insert_is_Some. intros [<-|[_ H]]; left; eauto.
Qed.

Hint Resolve adds_only_fault adds_only_desc adds_only_create adds_only_fwrite : files.

Lemma adds_only_upd t f : adds_blocks (upd_desc t f).
Proof. unfold upd_desc. files_auto. Qed.
Hint Resolve adds_only_upd : files.

Lemma adds_only_open t : adds_blocks (open_file TCount t).
Proof.
  unfold open_file, set_state, set_handle, check_file2, fopen_rb. files_auto.
Qed.

Lemma adds_only_close t : adds_blocks (close_file t).
Proof. unfold close_file, fclose, live, set_state, set_handle. files_auto. Qed.
Hint Resolve adds_only_open adds_only_close : files.

Lemma adds_only_tile_write t r i c : adds_blocks (tile_write zeroR TCount t r i c).
Proof. unfold tile_write, set_state, set_handle, handle_of, fseek, live. files_auto. Qed.

Lemma adds_only_to_file t c : adds_blocks (sync_to_file zeroR TCount t c).
Proof. unfold sync_to_file, set_state, set_handle, handle_of. files_auto. Qed.

Lemma adds_only_from_file t c : adds_blocks (sync_from_file zeroR TCount t c).
Proof.
  unfold sync_from_file, set_state, set_handle, set_fetched, handle_of, fread, live. files_auto.
Qed.

Lemma adds_only_append_tile : adds_blocks (append_tile zeroSup sup_reset).
Proof. unfold append_tile, create_tile_desc, get_tile_count, set_state. files_auto. Qed.

Lemma adds_only_poke t i r : adds_blocks (poke t i r).
Proof. unfold poke, set_fetched. files_auto. Qed.

Lemma adds_only_get_tile i : adds_blocks (get_tile i).
Proof. unfold get_tile. files_auto. Qed.

Lemma adds_only_tile_data t : adds_blocks (get_tile_data t).
Proof. unfold get_tile_data, set_state. files_auto. Qed.
Hint Resolve adds_only_tile_write adds_only_to_file adds_only_from_file adds_only_append_tile
  adds_only_poke adds_only_get_tile adds_only_tile_data : files.

End tile_files.

#[export] Hint Resolve adds_only_fault adds_only_desc adds_only_create adds_only_fwrite
  adds_only_upd adds_only_open adds_only_close adds_only_tile_write adds_only_to_file
  adds_only_from_file adds_only_append_tile adds_only_poke adds_only_get_tile
  adds_only_tile_data : files.

(** ** A two-record tile, for the witnesses *)

Definition demo_resolver : FileNameResolver := {|
  get_file_name := fun i : N => pretty i;
  get_file_count := fun _ => Some 0%N;
  get_file_name_inj := pretty_N_inj |}.

Definition demo_tiles : FileTile Z unit :=
  mkFileTile (<["0" := mkFile [7; 8]%Z 0 true true true]> ∅) []
    [mkTileDesc 0 OK None None tt] [] [0].

Lemma demo_tiles_rep :
  ft_rep (FNR := demo_resolver) 2 demo_tiles [mkTileDesc 0 OK None None tt] [[7; 8]%Z].
Proof.
  split; cbn; try reflexivity; [repeat constructor; set_solver|set_solver|].
  intros [|i] t d recs Ht Hd Hr; [|destruct i; discriminate]. cbn in *. simplify_eq.
  repeat split; try reflexivity; try discriminate.
Qed.

Lemma sync_from_file_refreshes_witness :
  exists b recs d', [[7; 8]%Z] !! 0 = Some recs
    /\ sync_from_file (FNR := demo_resolver) 0%Z 2 0 true demo_tiles = Ret b (setd 0 d' demo_tiles)
    /\ td_fetched d' = Some recs
    /\ ft_rep (FNR := demo_resolver) 2 (setd 0 d' demo_tiles) [d'] [[7; 8]%Z].
Proof. exact (sync_from_file_refreshes 0%Z 2 (FNR := demo_resolver) _ _ _ 0 0 true demo_tiles_rep eq_refl). Defined.

Lemma tile_write_durable_witness :
  exists recs d' d'', [[7; 8]%Z] !! 0 = Some recs
    /\ tile_write (FNR := demo_resolver) 0%Z 2 0 9%Z 1 false demo_tiles
       = Ret true (setd 0 d' (set_file (FNR := demo_resolver) 0 (<[1 := 9%Z]> recs) demo_tiles))
    /\ ft_rep (FNR := demo_resolver) 2
         (setd 0 d' (set_file (FNR := demo_resolver) 0 (<[1 := 9%Z]> recs) demo_tiles)) [d'] [<[1 := 9%Z]> recs]
    /\ sync_from_file (FNR := demo_resolver) 0%Z 2 0 true
         (setd 0 d' (set_file (FNR := demo_resolver) 0 (<[1 := 9%Z]> recs) demo_tiles))
       = Ret true (setd 0 d'' (set_file (FNR := demo_resolver) 0 (<[1 := 9%Z]> recs) demo_tiles))
    /\ td_fetched d'' = Some (<[1 := 9%Z]> recs).
Proof.
  exact (tile_write_durable 0%Z 2 (FNR := demo_resolver) _ _ _ 0 0 9%Z 1 false true
           demo_tiles_rep eq_refl ltac:(lia)).
Defined.

Lemma append_tile_stored_witness :
  exists s' d',
    (let! t := append_tile tt id in
     set_tile_data 2 t [5; 6]%Z ;;;
     sync_to_file (FNR := demo_resolver) 0%Z 2 t true) demo_tiles = Ret true s'
    /\ ft_rep (FNR := demo_resolver) 2 s' [mkTileDesc 0 OK None None tt; d'] [[7; 8]; [5; 6]]%Z
    /\ td_state d' = OK.
Proof.
  exact (append_tile_stored 0%Z tt id 2 (FNR := demo_resolver) _ _ _ [5; 6]%Z true
           demo_tiles_rep eq_refl ltac:(vm_compute; reflexivity)).
Defined.

Lemma sync_to_file_after_read_doubles_witness :
  exists recs s' s'', [[7; 8]%Z] !! 0 = Some recs
    /\ (sync_from_file (FNR := demo_resolver) 0%Z 2 0 true ;;;
        set_tile_data 2 0 [5; 6]%Z ;;;
        sync_to_file (FNR := demo_resolver) 0%Z 2 0 true) demo_tiles = Ret true s'
    /\ ft_fs s' !! "0" = Some (good_file (recs ++ [5; 6]%Z))
    /\ open_file (FNR := demo_resolver) 2 0 s' = Ret false s''
    /\ sync_to_file (FNR := demo_resolver) 0%Z 2 0 true s' = Undef.
Proof.
  exact (sync_to_file_after_read_doubles 0%Z 2 (FNR := demo_resolver) _ _ _ 0 0 [5; 6]%Z
           demo_tiles_rep eq_refl eq_refl ltac:(lia)).
Defined.
