(* ===== verification/Fnr.v ===== *)
(** * Block file names (blockchain.h, class [Fnr])

    How block files are named and how many are found in the storage folder.
    Names are full paths here, as the tile array uses them.  Poco's path
    handling is the concatenation with ["/"]; the chain's name is matched
    literally. *)

From stdpp Require Import base gmap strings pretty numbers list.
From Stdlib Require Import ZArith Lia Ascii String.
From S2P Require Import Prelude FileTile.
Local Open Scope string_scope.

Record Fnr := mkFnr { fnr_storage_path : string; fnr_name : string }.

Section fnr.
Context (fnr : Fnr).

Definition Fnr_get_file_name (index : N) : string :=
  fnr_storage_path fnr +:+ "/" +:+ fnr_name fnr +:+ "." +:+ pretty index +:+ ".block".

Definition Fnr_get_bad_file_name (ts index : N) : string :=
  fnr_storage_path fnr +:+ "/" +:+ fnr_name fnr +:+ "." +:+ pretty index +:+ "."
    +:+ pretty ts +:+ ".bad".

(** The rest of [s] after the prefix [p]. *)
Fixpoint strip_prefix (p s : string) : option string :=
  match p, s with
  | "", _ => Some s
  | String a p', String b s' => if (a =? b)%char then strip_prefix p' s' else None
  | String _ _, "" => None
  end.

Definition digit (a : ascii) : option N :=
  let n := N_of_ascii a in
  if ((48 <=? n) && (n <=? 57))%N then Some (n - 48)%N else None.

(** [(\d+)]: the longest run of digits and the rest. *)
Fixpoint span_digits (s : string) : string * string :=
  match s with
  | "" => ("", "")
  | String a s' =>
      match digit a with
      | Some _ => let (d, r) := span_digits s' in (String a d, r)
      | None => ("", s)
      end
  end.

(** The value of a run of digits. *)
Fixpoint digits_value (acc : N) (s : string) : N :=
  match s with
  | "" => acc
  | String a s' =>
      match digit a with Some v => digits_value (acc * 10 + v) s' | None => acc end
  end.

(** What the regular expression [^name\.(\d+)\.block$] captures of a file in
    the storage folder. *)
Definition match_block_name (path : string) : option string :=
  match strip_prefix (fnr_storage_path fnr +:+ "/" +:+ fnr_name fnr +:+ ".") path with
  | None => None
  | Some rest =>
      let (d, r) := span_digits rest in
      if (d =? "") then None else if (r =? ".block") then Some d else None
  end.

(** One round of the loop; [None] is an exception. *)
Definition count_file (acc : option N) (path : string) : option N :=
  match acc with
  | None => None
  | Some res =>
      match match_block_name path with
      | None => if (res =? UINT32_MAX)%N then None else Some res
      | Some d =>
          let block_num := digits_value 0 d in
          if (2 ^ 64 <=? block_num)%N then None (* std::stoul: out of range *)
          else if negb (pretty block_num =? d) then None
          else
            let res' := if (res <=? block_num)%N then ((block_num + 1) mod 2 ^ 32)%N else res in
            if (res' =? UINT32_MAX)%N then None else Some res'
      end
  end.

Definition Fnr_get_file_count (paths : list string) : option N := foldl count_file (Some 0%N) paths.

(** ** Names are read back *)

Lemma string_app_cons a p s : String a p +:+ s = String a (p +:+ s).
Proof. reflexivity. Qed.

Lemma strip_prefix_app p s : strip_prefix p (p +:+ s) = Some s.
Proof.
  induction p as [|a p IH]; [done|]. rewrite string_app_cons. cbn [strip_prefix].
  now rewrite Ascii.eqb_refl.
Qed.

Lemma digit_pretty x : digit (pretty_N_char (x mod 10)) = Some (x mod 10)%N.
Proof.
  assert (x mod 10 < 10)%N as H by (apply N.mod_lt; lia). revert H. generalize (x mod 10)%N as d.
  intros d H. destruct d as [|[[[[]|[]|]|[[]|[]|]|]|[[[]|[]|]|[[]|[]|]|]|]]; try lia; reflexivity.
Qed.

Lemma go_value x s : digits_value 0 (pretty_N_go x s) = digits_value x s.
Proof.
  revert s. induction (N.lt_wf_0 x) as [x _ IH]. intros s.
  destruct (decide (0 < x)%N) as [Hx|Hx].
  - rewrite pretty_N_go_step by done. rewrite IH by (apply N.div_lt; lia).
    cbn [digits_value]. rewrite digit_pretty. f_equal.
    pose proof (N.div_mod x 10 ltac:(lia)). lia.
  - replace x with 0%N by lia. now rewrite pretty_N_go_0.
Qed.

Lemma go_span x s s1 s2 :
  span_digits s = (s1, s2) -> span_digits (pretty_N_go x s) = (pretty_N_go x s1, s2).
Proof.
  revert s s1. induction (N.lt_wf_0 x) as [x _ IH]. intros s s1 H.
  destruct (decide (0 < x)%N) as [Hx|Hx].
  - rewrite !(pretty_N_go_step x) by done. apply IH; [apply N.div_lt; lia|].
    cbn [span_digits]. rewrite digit_pretty, H. reflexivity.
  - replace x with 0%N by lia. now rewrite !pretty_N_go_0.
Qed.

Lemma go_app x s t : pretty_N_go x s +:+ t = pretty_N_go x (s +:+ t).
Proof.
  revert s. induction (N.lt_wf_0 x) as [x _ IH]. intros s.
  destruct (decide (0 < x)%N) as [Hx|Hx].
  - rewrite !(pretty_N_go_step x) by done. now rewrite IH by (apply N.div_lt; lia).
  - replace x with 0%N by lia. now rewrite !pretty_N_go_0.
Qed.

Lemma go_nonempty x s : (0 < x)%N -> pretty_N_go x s <> "".
Proof.
  revert s. induction (N.lt_wf_0 x) as [x _ IH]. intros s Hx. rewrite pretty_N_go_step by done.
  destruct (decide (0 < x / 10)%N) as [H|H]; [apply IH; [apply N.div_lt; lia|done]|].
  apply N.nlt_ge, N.le_0_r in H. now rewrite H, pretty_N_go_0.
Qed.

Lemma pretty_value (i : N) : digits_value 0 (pretty i) = i.
Proof.
  unfold pretty, pretty_N. destruct (decide (i = 0)%N) as [->|Hi]; [done|]. now rewrite go_value.
Qed.

Lemma pretty_span (i : N) t s1 : span_digits t = ("", s1) -> span_digits (pretty i +:+ t) = (pretty i, s1).
Proof.
  intros H. unfold pretty, pretty_N. destruct (decide (i = 0)%N) as [->|Hi].
  - change ("0" +:+ t) with (String "0" t). cbn [span_digits]. rewrite H. reflexivity.
  - rewrite go_app. now apply go_span.
Qed.

Lemma pretty_nonempty (i : N) : pretty i <> "".
Proof.
  unfold pretty, pretty_N. destruct (decide (i = 0)%N); [done|]. apply go_nonempty. lia.
Qed.

Lemma string_app_assoc (a b c : string) : (a +:+ b) +:+ c = a +:+ b +:+ c.
Proof. induction a as [|x a IH]; [done|]. now rewrite !string_app_cons, IH. Qed.

Lemma match_own_name i : match_block_name (Fnr_get_file_name i) = Some (pretty i).
Proof.
  unfold match_block_name, Fnr_get_file_name.
  rewrite <- !string_app_assoc, (string_app_assoc _ (pretty i)), strip_prefix_app.
  rewrite (pretty_span _ _ ".block") by reflexivity.
  destruct (String.eqb_spec (pretty i) "") as [E|_]; [now apply pretty_nonempty in E|]. reflexivity.
Qed.

(** The name of a bad block is no name of a block. *)
Lemma match_bad_name ts i : match_block_name (Fnr_get_bad_file_name ts i) = None.
Proof.
  assert (Fnr_get_bad_file_name ts i
    = (fnr_storage_path fnr +:+ "/" +:+ fnr_name fnr +:+ ".") +:+ (pretty i +:+ ("." +:+ pretty ts +:+ ".bad"))) as ->
    by (unfold Fnr_get_bad_file_name; now rewrite !string_app_assoc).
  unfold match_block_name. rewrite strip_prefix_app, (pretty_span _ _ ("." +:+ pretty ts +:+ ".bad")) by reflexivity.
  destruct (pretty i =? ""); [done|].
  destruct (String.eqb_spec ("." +:+ pretty ts +:+ ".bad") ".block") as [E|_]; [|done].
  assert (pretty ts +:+ ".bad" = "block") as E' by (now injection E).
  pose proof (pretty_span ts ".bad" ".bad" eq_refl) as H. rewrite E' in H.
  injection H as H _. symmetry in H. now apply pretty_nonempty in H.
Qed.

(** No two blocks share a file name. *)
Lemma Fnr_get_file_name_inj : Inj (=) (=) Fnr_get_file_name.
Proof.
  intros i j E. assert (Some (pretty i) = Some (pretty j)) as H
    by (rewrite <- !match_own_name; now f_equal).
  injection H as H. now apply (inj pretty).
Qed.

Lemma count_file_own r i :
  (r < UINT32_MAX)%N -> (i + 1 < UINT32_MAX)%N ->
  count_file (Some r) (Fnr_get_file_name i) = Some (N.max r (i + 1))%N.
Proof.
  intros Hr Hi. unfold count_file. rewrite match_own_name, pretty_value. unfold UINT32_MAX in *.
  destruct (N.leb_spec (2 ^ 64) i); [lia|]. rewrite String.eqb_refl. cbn [negb].
  destruct (N.leb_spec r i).
  - rewrite N.mod_small by lia. destruct (N.eqb_spec (i + 1) (2 ^ 32 - 1)); [lia|]. f_equal. lia.
  - destruct (N.eqb_spec r (2 ^ 32 - 1)); [lia|]. f_equal. lia.
Qed.

Lemma count_files paths r n :
  (r <= n)%N -> (n < UINT32_MAX)%N ->
  (forall p, p ∈ paths -> match_block_name p = None \/ exists i, (i < n)%N /\ p = Fnr_get_file_name i) ->
  exists r', foldl count_file (Some r) paths = Some r' /\ (r <= r' <= n)%N
    /\ (forall i, Fnr_get_file_name i ∈ paths -> (i + 1 <= r')%N).
Proof.
  intros Hr Hn. revert r Hr. induction paths as [|p paths IH]; intros r Hr Hp.
  { exists r. split; [done|]. split; [lia|]. intros i Hi. now apply elem_of_nil in Hi. }
  assert (exists r1, count_file (Some r) p = Some r1 /\ (r <= r1 <= n)%N
          /\ forall i, p = Fnr_get_file_name i -> (i + 1 <= r1)%N) as (r1 & E & Hr1 & Hi1).
  { destruct (Hp p) as [Hm|(i & Hi & ->)]; [left| |].
    - exists r. unfold count_file. rewrite Hm. destruct (N.eqb_spec r UINT32_MAX); [lia|].
      split; [done|]. split; [lia|]. intros i ->. now rewrite match_own_name in Hm.
    - exists (N.max r (i + 1)). rewrite count_file_own by lia. split; [done|]. split; [lia|].
      intros j E. apply Fnr_get_file_name_inj in E. lia. }
  destruct (IH r1) as (r' & E' & Hr' & Hi'); [lia|intros q Hq; apply Hp; now right|].
  exists r'. cbn [foldl]. rewrite E. split; [done|]. split; [lia|].
  intros i Hi. apply elem_of_cons in Hi as [Hi|Hi]; [|now apply Hi'].
  specialize (Hi1 i (eq_sym Hi)). lia.
Qed.

(** In a folder that holds the files of blocks 0 to [n-1] and files that
    are not block files, in any order, the file count is [n]. *)
Theorem Fnr_counts_blocks paths n :
  (n < UINT32_MAX)%N ->
  (forall i, (i < n)%N -> Fnr_get_file_name i ∈ paths) ->
  (forall p, p ∈ paths -> match_block_name p = None \/ exists i, (i < n)%N /\ p = Fnr_get_file_name i) ->
  Fnr_get_file_count paths = Some n.
Proof.
  intros Hn Hin Hp. destruct (count_files paths 0 n) as (r & E & Hr & Hi); [lia|done|done|].
  unfold Fnr_get_file_count. rewrite E. f_equal.
  destruct (decide (n = 0)%N) as [|Hne]; [lia|].
  assert (n - 1 < n)%N as Hlt by lia. pose proof (Hi (n - 1)%N (Hin _ Hlt)). lia.
Qed.

End fnr.

Definition Fnr_resolver (fnr : Fnr) : FileNameResolver := {|
  get_file_name := Fnr_get_file_name fnr;
  get_file_count := Fnr_get_file_count fnr;
  get_file_name_inj := Fnr_get_file_name_inj fnr |}.

Lemma Fnr_counts_blocks_witness :
  Fnr_get_file_count (mkFnr "/data" "bc") ["/data/bc.1.block"; "/data/log.txt"; "/data/bc.0.block"]
  = Some 2%N.
Proof.
  apply Fnr_counts_blocks.
  - reflexivity.
  - intros i Hi. assert (i = 0 \/ i = 1)%N as [-> | ->] by lia;
      apply list_elem_of_In; vm_compute; auto.
  - intros p Hp. apply list_elem_of_In in Hp. cbn in Hp.
    destruct Hp as [<-|[<-|[<-|[]]]];
      [right; exists 1%N|left|right; exists 0%N]; repeat split; vm_compute; reflexivity.
Defined.
