(* ===== verification/Blockchain.v ===== *)
(** * The block store (blockchain.h)

    [Blockchain] keeps records in tiles of [RecCount] records.  A block is a
    run of payload records, one checksum record and, in the last block only,
    zeroed records.  The class is modelled over the tile array of
    [FileTile]; the SHA-512 implementation, [std::sort] and the byte image
    of a payload are parameters.  [time(0)] is read from the state. *)

From stdpp Require Import base gmap strings pretty numbers list sorting.
From Stdlib Require Import ZArith Lia.
From S2P Require Import Prelude GradidoDef FileTile Fnr.
Local Open Scope node_scope.
Set Default Proof Using "Type".

(** ** Records (gradido_interfaces.h, [BlockchainTypes<T>]) *)

Inductive RecordType := EMPTY | PAYLOAD | CHECKSUM.
Definition RecordType_code (t : RecordType) : Z :=
  match t with EMPTY => 0 | PAYLOAD => 1 | CHECKSUM => 2 end.

(** The union of a record: zeroed by the constructor, or what was last
    stored in it. *)
Inductive rec_union (T : Type) :=
| UZero
| UPayload (p : T)
| UChecksum (c : bytes).
Arguments UZero {T}.
Arguments UPayload {T} p.
Arguments UChecksum {T} c.

(** [type] is a byte, so that records received from elsewhere may hold any
    value in it. *)
Record Rec (T : Type) := mkRec { rec_type : Z; rec_u : rec_union T }.
Arguments mkRec {T} _ _.
Arguments rec_type {T} _.
Arguments rec_u {T} _.

Definition zero_rec {T} : Rec T := mkRec (RecordType_code EMPTY) UZero.
Definition payload_rec {T} (p : T) : Rec T := mkRec (RecordType_code PAYLOAD) (UPayload p).
Definition checksum_rec {T} (c : bytes) : Rec T := mkRec (RecordType_code CHECKSUM) (UChecksum c).
Definition is_type {T} (t : RecordType) (r : Rec T) : bool := (rec_type r =? RecordType_code t)%Z.

Definition zero_checksum : bytes := replicate BLOCKCHAIN_CHECKSUM_SIZE 0%Z.

Module ExitCode.
Inductive t :=
| OK | NON_EMPTY_RECORD_AFTER_CHECKSUM | EMPTY_RECORD_BEFORE_CHECKSUM
| NO_PAYLOAD | NO_CHECKSUM | EXPECTED_FULL_BLOCK
| ONLY_LAST_BLOCK_MAY_NOT_BE_FULL | BAD_CHECKSUM | WRITE_ERROR | READ_ERROR
| LAST_BLOCK_NOT_FULL | INDEX_TOO_LARGE | BAD_BLOCK_LENGTH.
End ExitCode.
Abbreviation ExitCode := ExitCode.t.

Record TileSup := mkTileSup { sup_checksum : bytes; sup_last_use : N }.
Definition TileSup_reset (s : TileSup) : TileSup := mkTileSup zero_checksum (sup_last_use s).
(** A descriptor is allocated with an indeterminate checksum; every use
    comes after [reset]. *)
Definition TileSup_new : TileSup := mkTileSup zero_checksum 0.

(** A tile index with the time of its last use. *)
Abbreviation SortableTileIndex := (N * N)%type.

Record Blockchain (T : Type) := mkBlockchain
  { bc_tiles : FileTile (Rec T) TileSup;
    bc_checksum_valid_block_count : N;
    bc_next_cache_flush_timestamp : N;
    bc_rec_count : N;
    bc_clock : N }.
Arguments mkBlockchain {T} _ _ _ _ _.
Arguments bc_tiles {T} _.
Arguments bc_checksum_valid_block_count {T} _.
Arguments bc_next_cache_flush_timestamp {T} _.
Arguments bc_rec_count {T} _.
Arguments bc_clock {T} _.

(** Names of the files a bad block is moved to. *)
Class BadFileNames := { get_bad_file_name : N -> N -> string }.

(** [std::sort]: a permutation of its range in which no element is less
    than an earlier one. *)
Class StdSort := {
  std_sort : list SortableTileIndex -> list SortableTileIndex;
  std_sort_perm : forall l, std_sort l ≡ₚ l;
  std_sort_sorted : forall l, StronglySorted (fun x y => (x.2 <= y.2)%N) (std_sort l);
}.

Section blockchain.
Context {T : Type} (payload_bytes : T -> bytes) (sha512 : bytes -> bytes).
Context (RecCount : nat) (optimal_cache_size cache_auto_flush_min_interval_sec : N).
Context `{FNR : !FileNameResolver, BFN : !BadFileNames, SORT : !StdSort}.
Abbreviation BC := (Blockchain T).
Abbreviation FT := (FileTile (Rec T) TileSup).
Implicit Types (s : BC) (r : Rec T).

Definition with_bc_tiles (f : FT) s : BC :=
  mkBlockchain f (bc_checksum_valid_block_count s) (bc_next_cache_flush_timestamp s)
    (bc_rec_count s) (bc_clock s).
Definition with_valid_count (n : N) s : BC :=
  mkBlockchain (bc_tiles s) n (bc_next_cache_flush_timestamp s) (bc_rec_count s) (bc_clock s).
Definition with_next_flush (n : N) s : BC :=
  mkBlockchain (bc_tiles s) (bc_checksum_valid_block_count s) n (bc_rec_count s) (bc_clock s).
Definition with_rec_count (n : N) s : BC :=
  mkBlockchain (bc_tiles s) (bc_checksum_valid_block_count s)
    (bc_next_cache_flush_timestamp s) n (bc_clock s).

(** A call on the [tiles] member. *)
Definition tile {A} (m : M FT A) : M BC A := zoom bc_tiles with_bc_tiles m.

(** The first bytes of the union, read as a checksum. *)
Definition checksum_of r : bytes :=
  match rec_u r with
  | UZero => zero_checksum
  | UPayload p => take BLOCKCHAIN_CHECKSUM_SIZE (payload_bytes p)
  | UChecksum c => c
  end.

(** The image of a record in memory. *)
Definition record_bytes r : bytes :=
  rec_type r :: match rec_u r with
                | UZero => []
                | UPayload p => payload_bytes p
                | UChecksum c => c
                end.

Definition get_prev_checksum (block_index : N) : M BC bytes :=
  if (block_index =? 0)%N then ret zero_checksum
  else
    let! t := tile (get_tile (block_index - 1)) in
    let! st := tile (get_state t) in
    match st with
    | OK => let! sup := tile (get_sup t) in ret (sup_checksum sup)
    | _ => throw "no checksum for block_index"
    end.

(** Renaming a file; an open stream follows the file out of the tile
    array. *)
Definition move_to_bad (block_index : N) : M BC unit :=
  let! ct := gets bc_clock in
  let bfn := get_bad_file_name ct block_index in
  let fn := get_file_name block_index in
  let! f := gets (fun s => ft_fs (bc_tiles s) !! fn) in
  match f with
  | None => throw "file not found"
  | Some f => tile (modify (fun t => with_fs (<[bfn := f]> (delete fn (ft_fs t))) t))
  end.

Definition calc_checksum (prev_checksum : bytes) r : bytes :=
  sha512 (prev_checksum ++ record_bytes r).

(** The scan of [validate_block]: an error, or whether a checksum was found
    and whether an empty record follows it. *)
Fixpoint validate_scan (rs : list (Rec T)) (finished has_empty has_payload : bool)
    : ExitCode + bool * bool :=
  match rs with
  | [] => inr (finished, has_empty)
  | r :: rs' =>
      if finished then
        if negb (is_type EMPTY r) then inl ExitCode.NON_EMPTY_RECORD_AFTER_CHECKSUM
        else validate_scan rs' finished true has_payload
      else if is_type PAYLOAD r then validate_scan rs' finished has_empty true
      else if is_type EMPTY r then inl ExitCode.EMPTY_RECORD_BEFORE_CHECKSUM
      else if is_type CHECKSUM r then
        if negb has_payload then inl ExitCode.NO_PAYLOAD
        else validate_scan rs' true has_empty has_payload
      else validate_scan rs' finished has_empty has_payload
  end.

(** [return EXPECTED_FULL_BLOCK;] and [return ONLY_LAST_...;] convert a
    nonzero enumerator to [true] and leave [ec] as it was. *)
Definition validate_block (block_index : N) (rs : list (Rec T)) (must_be_full : bool)
    (ec : ExitCode) : M BC (bool * ExitCode) :=
  match validate_scan (take RecCount rs) false false false with
  | inl e => ret (false, e)
  | inr (finished, has_empty) =>
      if negb finished then ret (false, ExitCode.NO_CHECKSUM)
      else if must_be_full && has_empty then ret (true, ec)
      else
        let! tc := tile get_tile_count in
        if has_empty && negb (block_index =? u32_pred tc)%N then ret (true, ec)
        else
          let! _ := get_prev_checksum block_index in
          ret (true, ExitCode.OK)
  end.

(** The private [get_rec_count(Record* )]. *)
Fixpoint block_rec_count (rs : list (Rec T)) : N :=
  match rs with
  | [] => 0
  | r :: rs' => if is_type EMPTY r then 0 else 1 + block_rec_count rs'
  end.

Definition flush_cache : M BC unit :=
  let! tc := tile get_tile_count in
  if (0 <? tc)%N then
    let! sti := fold_each (seq 0 (N.to_nat (tc - 1))) [] (fun sti i =>
      let! t := tile (get_tile (N.of_nat i)) in
      let! data := tile (get_tile_data t) in
      let! sti' := (match data with
                    | Some _ => let! ts := tile (get_sup t) in
                                ret (sti ++ [(N.of_nat i, sup_last_use ts)])
                    | None => ret sti
                    end) in
      tile (close_file t) ;;;
      ret sti') in
    (if (optimal_cache_size <? N.of_nat (length sti))%N
     then for_each (take (length sti - N.to_nat optimal_cache_size) (std_sort sti))
            (fun x => let! t := tile (get_tile x.1) in tile (release_fetched_data t))
     else ret tt) ;;;
    let! ct := gets bc_clock in
    modify (with_next_flush (ct + cache_auto_flush_min_interval_sec))
  else ret tt.

Definition maybe_flush_cache : M BC unit :=
  let! ct := gets bc_clock in
  let! next := gets bc_next_cache_flush_timestamp in
  if (next <? ct)%N then flush_cache else ret tt.

Definition incr_rec_count : M BC unit := modify (fun s => with_rec_count (bc_rec_count s + 1) s).

Definition append (rec_payload : T) : M BC (bool * ExitCode) :=
  maybe_flush_cache ;;;
  let! rc := gets bc_rec_count in
  let block_pos := N.to_nat (rc mod N.of_nat RecCount) in
  let rec := payload_rec rec_payload in
  let! tc := tile get_tile_count in
  if (block_pos =? 0)%nat then
    (if (0 <? tc)%N
     then let! t0 := tile (get_tile (tc - 1)) in tile (close_file t0)
     else ret tt) ;;;
    let! prev_checksum := get_prev_checksum tc in
    let cr := checksum_rec (calc_checksum prev_checksum rec) in
    modify (fun s => if (tc =? bc_checksum_valid_block_count s)%N
                     then with_valid_count (bc_checksum_valid_block_count s + 1) s else s) ;;;
    let! t := tile (append_tile TileSup_new TileSup_reset) in
    tile (alloc_tile_data zero_rec RecCount t) ;;;
    tile (poke t 0 rec) ;;;
    tile (poke t 1 cr) ;;;
    incr_rec_count ;;;
    incr_rec_count ;;;
    let! ok := tile (sync_to_file zero_rec RecCount t false) in
    ret (if ok : bool then (true, ExitCode.OK) else (false, ExitCode.WRITE_ERROR))
  else
    let! t := tile (get_tile (u32_pred tc)) in
    let! data := tile (get_tile_data t) in
    match data ≫= (.!! (block_pos - 1)%nat) with
    | None => undef
    | Some r =>
        let cr := checksum_rec (calc_checksum (checksum_of r) rec) in
        let! ok := tile (tile_write zero_rec RecCount t rec (block_pos - 1) false) in
        if negb ok then ret (false, ExitCode.WRITE_ERROR)
        else
          let! ok2 := tile (tile_write zero_rec RecCount t cr block_pos false) in
          if negb ok2 then ret (false, ExitCode.WRITE_ERROR)
          else incr_rec_count ;;; ret (true, ExitCode.OK)
    end.

(** Both branches of [append_block] end with these steps. *)
Definition append_block_data (data : list (Rec T)) (ec : ExitCode) : M BC (bool * ExitCode) :=
  let! tc := tile get_tile_count in
  let! v := validate_block tc data false ec in
  if negb v.1 then ret v
  else
    let! t := tile (append_tile TileSup_new TileSup_reset) in
    tile (set_tile_data RecCount t data) ;;;
    let! ok := tile (sync_to_file zero_rec RecCount t true) in
    ret (if ok : bool then (true, v.2) else (false, ExitCode.WRITE_ERROR)).

Definition append_block (data : list (Rec T)) : M BC (bool * ExitCode) :=
  maybe_flush_cache ;;;
  let! tc := tile get_tile_count in
  if (tc =? 0)%N then append_block_data data ExitCode.OK
  else
    let! t := tile (get_tile (tc - 1)) in
    let! ok := tile (sync_from_file zero_rec RecCount t true) in
    if negb ok then ret (false, ExitCode.READ_ERROR)
    else
      let! m := tile (get_tile_data t) in
      match m ≫= (.!! (RecCount - 1)%nat) with
      | None => undef
      | Some r =>
          if negb (is_type CHECKSUM r) then ret (false, ExitCode.LAST_BLOCK_NOT_FULL)
          else append_block_data data ExitCode.OK
      end.

Definition replace_block (index : N) (data : list (Rec T)) : M BC (bool * ExitCode) :=
  maybe_flush_cache ;;;
  let! tc := tile get_tile_count in
  if (index <? tc)%N then
    let! v := validate_block index data true ExitCode.OK in
    if negb v.1 then ret v
    else
      let! t := tile (get_tile index) in
      tile (set_tile_data RecCount t data) ;;;
      let! ok := tile (sync_to_file zero_rec RecCount t true) in
      ret (if ok : bool then (true, v.2) else (false, ExitCode.WRITE_ERROR))
  else ret (false, ExitCode.INDEX_TOO_LARGE).

Definition validate_next_checksum : M BC (bool * ExitCode) :=
  maybe_flush_cache ;;;
  let! cv := gets bc_checksum_valid_block_count in
  let! tc := tile get_tile_count in
  if (cv <? tc)%N then
    let! t := tile (get_tile cv) in
    let! ok := tile (sync_from_file zero_rec RecCount t true) in
    if (ok : bool) then
      let! m := tile (get_tile_data t) in
      match m with
      | None => undef
      | Some rs =>
          let! v := validate_block cv rs false ExitCode.OK in
          if (v.1 : bool) then
            modify (with_valid_count (cv + 1)) ;;;
            modify (fun s => with_rec_count (bc_rec_count s + block_rec_count rs) s) ;;;
            ret (true, v.2)
          else move_to_bad cv ;;; ret (false, v.2)
      end
    else
      let! st := tile (get_state t) in
      match st with
      | MISSING_FILE => ret (false, ExitCode.OK)
      | BAD_LENGTH => move_to_bad cv ;;; ret (false, ExitCode.BAD_BLOCK_LENGTH)
      | _ => throw "bad block file, cannot recover"
      end
  else ret (false, ExitCode.OK).

Definition get_block_count : M BC N := tile get_tile_count.

(** The records behind the returned pointer; [None] is the null pointer. *)
Definition get_block (index : N) : M BC (option (list (Rec T)) * ExitCode) :=
  maybe_flush_cache ;;;
  let! t := tile (get_tile index) in
  let! _ := tile (sync_from_file zero_rec RecCount t true) in
  let! res := tile (get_tile_data t) in
  match res with
  | Some m => ret (Some m, ExitCode.OK)
  | None =>
      let! ok := tile (sync_from_file zero_rec RecCount t true) in
      if (ok : bool) then
        let! res' := tile (get_tile_data t) in
        match res' with
        | None => undef
        | Some m =>
            let! v := validate_block index m false ExitCode.OK in
            ret (if v.1 then Some m else None, v.2)
        end
      else ret (None, ExitCode.OK)
  end.

(** The record behind the returned pointer; a pointer past the block is
    undefined when used. *)
Definition get_record (index : N) : M BC (option (Rec T) * ExitCode) :=
  let! rc := gets bc_rec_count in
  if (rc <=? index)%N then ret (None, ExitCode.INDEX_TOO_LARGE)
  else
    let block_id := (index / GRADIDO_BLOCK_SIZE)%N in
    let rec_id := N.to_nat (index mod GRADIDO_BLOCK_SIZE)%N in
    let! res := get_block block_id in
    match res.1 with
    | None => ret (None, res.2)
    | Some m => match m !! rec_id with
                | Some r => ret (Some r, ExitCode.OK)
                | None => undef
                end
    end.

Definition is_block_valid (index : N) : M BC bool :=
  gets (fun s => (index <? bc_checksum_valid_block_count s)%N).
Definition get_rec_count : M BC N := gets bc_rec_count.
Definition truncate (first : N) : M BC unit := tile (truncate_tail first).

(** The constructor; [clock] is the time of the first call. *)
Definition Blockchain_init (fs : gmap string (File (Rec T))) (faults : list (option nat)) (clock : N)
    : outcome BC unit :=
  match FileTile_init TileSup_new TileSup_reset RecCount fs faults with
  | Ret _ f =>
      let s := mkBlockchain f 0 0 0 clock in
      if (RecCount <? 2)%nat then Throw "Blockchain: RecCount < 2" s else Ret tt s
  | Throw e f => Throw e (mkBlockchain f 0 0 0 clock)
  | Undef => Undef
  end.

(** ** ValidatedMultipartBlockchain

    Its other members forward to the block store. *)

Definition multipart_append (is_valid : list T -> bool) (recs : list T) (ec : ExitCode)
    : M BC (bool * ExitCode) :=
  if is_valid recs
  then fold_each recs (true, ec) (fun acc p => if acc.1 then append p else ret acc)
  else ret (false, ec).

(** ** Invariant *)

(** A block with payloads [ps] and checksum [c]. *)
Definition mk_block (b : list T * bytes) : list (Rec T) :=
  map payload_rec b.1 ++ [checksum_rec b.2] ++ replicate (RecCount - length b.1 - 1) zero_rec.

Record tiles_ok (f : FT) (tds : list (TileDesc (Rec T) TileSup)) (blocks : list (list (Rec T)))
    : Prop := {
  tk_rep : ft_rep RecCount f tds blocks;
  tk_desc : forall i d, tds !! i = Some d ->
    td_state d = OK /\ sup_checksum (td_sup d) = zero_checksum;
  tk_more : forall n, (length blocks <= n)%nat -> ft_fs f !! get_file_name (N.of_nat n) = None;
}.

Definition tail_fetched (tds : list (TileDesc (Rec T) TileSup)) : Prop :=
  forall d, last tds = Some d -> td_fetched d <> None.

(** The blocks [bs] (payloads and checksum of each) are on disk, all but the
    last are full, and the counters agree with them. *)
Record bc_rep s (tds : list (TileDesc (Rec T) TileSup)) (bs : list (list T * bytes)) : Prop := {
  bc_tiles_ok : tiles_ok (bc_tiles s) tds (map mk_block bs);
  bc_tail : tail_fetched tds;
  bc_sizes : forall i b, bs !! i = Some b -> (1 <= length b.1 <= RecCount - 1)%nat;
  bc_full : forall i b, bs !! i = Some b -> (S i < length bs)%nat -> length b.1 = (RecCount - 1)%nat;
  bc_count : bc_rec_count s = N.of_nat (sum_list_with (fun b => S (length b.1)) bs);
  bc_valid : bc_checksum_valid_block_count s = N.of_nat (length bs);
}.

(** ** Calls on the tiles *)

Lemma tile_bind {A B} (m : M FT A) (k : A -> M BC B) s a f :
  m (bc_tiles s) = Ret a f -> bind (tile m) k s = k a (with_bc_tiles f s).
Proof. apply zoom_bind. Qed.

Lemma tile_pure_bind {A B} (m : M FT A) (k : A -> M BC B) s a :
  m (bc_tiles s) = Ret a (bc_tiles s) -> bind (tile m) k s = k a s.
Proof. intros H. rewrite (tile_bind _ _ _ _ _ H). now destruct s. Qed.

Lemma gets_bind' {A B} (f : BC -> A) (k : A -> M BC B) s : bind (gets f) k s = k (f s) s.
Proof. reflexivity. Qed.

Lemma modify_bind' {B} (f : BC -> BC) (k : unit -> M BC B) s :
  bind (modify f) k s = k tt (f s).
Proof. reflexivity. Qed.

Lemma tile_count_bind {B} (k : N -> M BC B) s tds blocks :
  ft_rep RecCount (bc_tiles s) tds blocks ->
  bind (tile get_tile_count) k s = k (N.of_nat (length blocks)) s.
Proof.
  intros Hr. rewrite (rep_blocks _ _ _ _ Hr). now apply tile_pure_bind.
Qed.

Lemma tk_lookup f tds blocks i t :
  tiles_ok f tds blocks -> ft_tiles f !! i = Some t ->
  exists d recs, tds !! i = Some d /\ blocks !! i = Some recs /\ ft_descs f !! t = Some d
    /\ ft_fs f !! get_file_name (N.of_nat i) = Some (good_file recs)
    /\ desc_ok RecCount i d recs /\ td_state d = OK
    /\ sup_checksum (td_sup d) = zero_checksum.
Proof.
  intros Hk Ht. destruct (rep_lookup _ _ _ _ _ _ (tk_rep _ _ _ Hk) Ht)
    as (d & recs & Hd & Hb & Hds & Hfs & Hok).
  destruct (tk_desc _ _ _ Hk _ _ Hd). exists d, recs. auto 10.
Qed.

Lemma tk_setd f tds blocks i t d recs :
  tiles_ok f tds blocks -> ft_tiles f !! i = Some t -> blocks !! i = Some recs ->
  desc_ok RecCount i d recs -> td_state d = OK -> sup_checksum (td_sup d) = zero_checksum ->
  tiles_ok (setd t d f) (<[i := d]> tds) blocks.
Proof.
  intros Hk Ht Hb Hok Hs Hc. split.
  - eapply rep_setd; eauto using tk_rep.
  - intros j e He. destruct (decide (j = i)) as [->|Hne].
    + rewrite list_lookup_insert_eq in He.
      * now simplify_eq.
      * rewrite (rep_tds _ _ _ _ (tk_rep _ _ _ Hk)). eauto using lookup_lt_Some.
    + rewrite list_lookup_insert_ne in He by done. now apply (tk_desc _ _ _ Hk j).
  - apply Hk.
Qed.

Lemma td_state_id (d : TileDesc (Rec T) TileSup) : td_state d = OK -> td_with_state OK d = d.
Proof. destruct d. cbn. now intros ->. Qed.

Lemma setd_id (f : FT) t d : ft_descs f !! t = Some d -> setd t d f = f.
Proof. intros H. unfold setd, with_descs. rewrite list_insert_id by done. now destruct f. Qed.

Lemma get_tile_data_ok f tds blocks i t d :
  tiles_ok f tds blocks -> ft_tiles f !! i = Some t -> tds !! i = Some d ->
  get_tile_data t f = Ret (td_fetched d) f.
Proof.
  intros Hk Ht Hd. destruct (tk_lookup _ _ _ _ _ Hk Ht) as (d' & recs & ? & _ & Hds & _ & _ & Hs & _).
  simplify_eq. unfold get_tile_data, set_state.
  rewrite (upd_bind _ _ _ _ _ Hds), td_state_id, setd_id by done.
  now rewrite (desc_bind _ _ _ _ Hds).
Qed.

Lemma get_sup_ok f tds blocks i t d :
  tiles_ok f tds blocks -> ft_tiles f !! i = Some t -> tds !! i = Some d ->
  get_sup t f = Ret (td_sup d) f.
Proof.
  intros Hk Ht Hd. destruct (tk_lookup _ _ _ _ _ Hk Ht) as (d' & recs & ? & _ & Hds & _).
  simplify_eq. unfold get_sup. now rewrite (desc_bind _ _ _ _ Hds).
Qed.

Definition closed (d : TileDesc (Rec T) TileSup) : TileDesc (Rec T) TileSup :=
  td_with_state OK (td_with_handle None d).

Lemma close_tile_ok f tds blocks i t d :
  tiles_ok f tds blocks -> ft_tiles f !! i = Some t -> tds !! i = Some d ->
  close_file t f = Ret tt (setd t (closed d) f)
  /\ tiles_ok (setd t (closed d) f) (<[i := closed d]> tds) blocks.
Proof.
  intros Hk Ht Hd.
  destruct (tk_lookup _ _ _ _ _ Hk Ht) as (d' & recs & ? & Hb & Hds & Hfs & Hok & Hs & Hc).
  simplify_eq. split.
  - apply close_file_ok; [apply (tk_rep _ _ _ Hk)|done|].
    intros h Hh. pose proof (ok_stream _ _ _ _ Hok) as Hst. unfold stream_ok in Hst.
    rewrite Hh in Hst. tauto.
  - eapply tk_setd; [done..| |done|done].
    apply desc_ok_closed; [apply Hok|apply Hok|apply Hok].
Qed.

(** ** Flushing the cache *)

Definition same_counts s s' : Prop :=
  bc_checksum_valid_block_count s' = bc_checksum_valid_block_count s
  /\ bc_rec_count s' = bc_rec_count s /\ bc_clock s' = bc_clock s.

(** Tile [j] is not the last one and its file is closed. *)
Definition evictable (tds : list (TileDesc (Rec T) TileSup)) (x : SortableTileIndex) : Prop :=
  exists j d, x.1 = N.of_nat j /\ (S j < length tds)%nat /\ tds !! j = Some d /\ td_handle d = None.

Lemma evictable_insert tds x i d :
  td_handle d = None -> evictable tds x -> evictable (<[i := d]> tds) x.
Proof.
  intros Hh (j & e & Hx & Hj & He & Hhe). exists j. rewrite length_insert.
  destruct (decide (i = j)) as [->|Hne].
  - exists d. rewrite list_lookup_insert_eq by lia. done.
  - exists e. rewrite list_lookup_insert_ne by done. done.
Qed.

Lemma last_insert_ne {A} (l : list A) i x : (S i < length l)%nat -> last (<[i := x]> l) = last l.
Proof.
  intros H. rewrite !last_lookup, length_insert. apply list_lookup_insert_ne. lia.
Qed.

(** Closed tiles stay closed. *)
Definition stay_closed (tds0 tds : list (TileDesc (Rec T) TileSup)) : Prop :=
  forall i d, tds0 !! i = Some d -> td_handle d = None ->
  exists d', tds !! i = Some d' /\ td_handle d' = None.

Lemma stay_closed_insert tds0 tds i d :
  td_handle d = None -> (i < length tds)%nat -> stay_closed tds0 tds ->
  stay_closed tds0 (<[i := d]> tds).
Proof.
  intros Hh Hi Hs j e He Hhe. destruct (decide (i = j)) as [->|Hne].
  - exists d. now rewrite list_lookup_insert_eq.
  - rewrite list_lookup_insert_ne by done. now apply (Hs j e).
Qed.

(** What both loops of [flush_cache] keep. *)
Definition flushing s0 (tds0 : list (TileDesc (Rec T) TileSup)) blocks
    (sti : list SortableTileIndex) s : Prop :=
  exists tds, tiles_ok (bc_tiles s) tds blocks /\ last tds = last tds0
    /\ length tds = length tds0 /\ same_counts s0 s /\ stay_closed tds0 tds
    /\ Forall (evictable tds) sti.

Lemma flush_close_step s0 tds0 blocks sti i s :
  (S i < length blocks)%nat -> flushing s0 tds0 blocks sti s ->
  exists sti' s',
    (let! t := tile (get_tile (N.of_nat i)) in
     let! data := tile (get_tile_data t) in
     let! sti' := (match data with
                   | Some _ => let! ts := tile (get_sup t) in
                               ret (sti ++ [(N.of_nat i, sup_last_use ts)])
                   | None => ret sti
                   end) in
     tile (close_file t) ;;;
     ret sti') s = Ret sti' s'
    /\ flushing s0 tds0 blocks sti' s'.
Proof.
  intros Hi (tds & Hk & Hlast & Hlen & Hsame & Hsc & Hev).
  destruct (get_tile_ok _ _ _ _ i (tk_rep _ _ _ Hk)) as (t & Ht & E); [lia|].
  rewrite (tile_pure_bind _ _ _ _ E).
  destruct (tk_lookup _ _ _ _ _ Hk Ht) as (d & recs & Hd & Hb & _).
  rewrite (tile_pure_bind _ _ _ _ (get_tile_data_ok _ _ _ _ _ _ Hk Ht Hd)).
  destruct (close_tile_ok _ _ _ _ _ _ Hk Ht Hd) as [Ec Hk'].
  assert (length tds = length blocks) as Hlb.
  { now rewrite (rep_tds _ _ _ _ (tk_rep _ _ _ Hk)), (rep_blocks _ _ _ _ (tk_rep _ _ _ Hk)). }
  assert (forall sti', Forall (evictable (<[i := closed d]> tds)) sti' ->
    flushing s0 tds0 blocks sti' (with_bc_tiles (setd t (closed d) (bc_tiles s)) s)) as Hfin.
  { intros sti' Hev'. exists (<[i := closed d]> tds). split; [done|].
    rewrite last_insert_ne, length_insert by lia.
    do 3 (split; [done|]). split; [|done]. apply stay_closed_insert; [done|lia|done]. }
  assert (Forall (evictable (<[i := closed d]> tds)) sti) as Hev'.
  { eapply Forall_impl; [exact Hev|]. intros x. now apply evictable_insert. }
  destruct (td_fetched d).
  - rewrite bind_assoc, (tile_pure_bind _ _ _ _ (get_sup_ok _ _ _ _ _ _ Hk Ht Hd)).
    unfold bind at 1, ret at 1. rewrite (tile_bind _ _ _ _ _ Ec).
    eexists _, _. split; [reflexivity|]. apply Hfin. apply Forall_app_2; [done|].
    constructor; [|constructor]. exists i, (closed d). rewrite length_insert.
    rewrite list_lookup_insert_eq by lia. split; [done|]. split; [lia|done].
  - unfold bind at 1, ret at 1. rewrite (tile_bind _ _ _ _ _ Ec).
    eexists _, _. split; [reflexivity|]. now apply Hfin.
Qed.

Lemma flush_release_step s0 tds0 blocks sti x s :
  x ∈ sti -> flushing s0 tds0 blocks sti s ->
  exists s', (let! t := tile (get_tile x.1) in tile (release_fetched_data t)) s = Ret tt s'
    /\ flushing s0 tds0 blocks sti s'.
Proof.
  intros Hx (tds & Hk & Hlast & Hlen & Hsame & Hsc & Hev).
  destruct (proj1 (Forall_forall _ _) Hev _ Hx) as (i & d & Hx1 & Hi & Hd & Hh). rewrite Hx1.
  assert (length tds = length blocks) as Hlb.
  { now rewrite (rep_tds _ _ _ _ (tk_rep _ _ _ Hk)), (rep_blocks _ _ _ _ (tk_rep _ _ _ Hk)). }
  destruct (get_tile_ok _ _ _ _ i (tk_rep _ _ _ Hk)) as (t & Ht & E); [lia|].
  rewrite (tile_pure_bind _ _ _ _ E).
  destruct (tk_lookup _ _ _ _ _ Hk Ht) as (d' & recs & Hd' & Hb & Hds & _ & Hok & Hst & Hc). simplify_eq.
  unfold tile. erewrite zoom_Ret by (unfold release_fetched_data; apply upd_eq; exact Hds).
  eexists. split; [reflexivity|]. exists (<[i := td_with_state OK (td_with_fetched None d)]> tds). cbn.
  split.
  - eapply tk_setd; [done..| |done|done]. unfold td_with_state, td_with_fetched. rewrite Hh.
    apply desc_ok_closed; [apply Hok|apply Hok|discriminate].
  - rewrite last_insert_ne, length_insert by lia. do 3 (split; [done|]).
    split; [apply stay_closed_insert; [done|lia|done]|].
    eapply Forall_impl; [exact Hev|]. intros y. now apply evictable_insert.
Qed.

Lemma flush_cache_ok s tds blocks :
  tiles_ok (bc_tiles s) tds blocks ->
  exists s' tds', flush_cache s = Ret tt s' /\ tiles_ok (bc_tiles s') tds' blocks
    /\ last tds' = last tds /\ same_counts s s' /\ stay_closed tds tds'.
Proof.
  intros Hk. unfold flush_cache. rewrite (tile_count_bind _ _ _ _ (tk_rep _ _ _ Hk)).
  destruct (N.ltb_spec 0 (N.of_nat (length blocks))) as [Hpos|_].
  2:{ exists s, tds. unfold same_counts, stay_closed. eauto 10. }
  match goal with |- context [fold_each ?l [] ?body] =>
    destruct (fold_each_inv (flushing s tds blocks) l [] body s) as (sti & s1 & E1 & H1) end.
  - exists tds. unfold same_counts, stay_closed. eauto 10.
  - intros i sti s1 Hi Hf. apply elem_of_seq in Hi. apply flush_close_step; [lia|done].
  - rewrite (bind_Ret _ _ _ _ _ E1).
    match goal with |- context [if ?c then for_each ?l ?body else ret tt] =>
      assert (exists s2, (if c then for_each l body else ret tt) s1 = Ret tt s2
                         /\ flushing s tds blocks sti s2) as (s2 & E2 & H2) end.
    { destruct (_ <? _)%N; [|now exists s1]. apply for_each_inv; [done|].
      intros x s2 Hx Hf. apply flush_release_step; [|done].
      apply elem_of_take in Hx as (j & Hx & _). apply list_elem_of_lookup_2 in Hx.
      now rewrite std_sort_perm in Hx. }
    rewrite (bind_Ret _ _ _ _ _ E2). destruct H2 as (tds' & Hk' & Hl & Hn & Hs & Hsc & _).
    eexists _, tds'. split; [reflexivity|]. auto.
Qed.

Lemma maybe_flush_cache_ok s tds blocks :
  tiles_ok (bc_tiles s) tds blocks ->
  exists s' tds', maybe_flush_cache s = Ret tt s' /\ tiles_ok (bc_tiles s') tds' blocks
    /\ last tds' = last tds /\ same_counts s s' /\ stay_closed tds tds'.
Proof.
  intros Hk. unfold maybe_flush_cache. rewrite !gets_bind'.
  destruct (_ <? _)%N; [now apply flush_cache_ok|]. exists s, tds. unfold same_counts, stay_closed. eauto 10.
Qed.

(** ** Appending *)

Lemma get_prev_checksum_ok s tds blocks n :
  tiles_ok (bc_tiles s) tds blocks -> (n <= length blocks)%nat ->
  get_prev_checksum (N.of_nat n) s = Ret zero_checksum s.
Proof.
  intros Hk Hn. unfold get_prev_checksum.
  destruct (N.eqb_spec (N.of_nat n) 0) as [|Hne]; [done|].
  replace (N.of_nat n - 1)%N with (N.of_nat (n - 1)) by lia.
  destruct (get_tile_ok _ _ _ _ (n - 1) (tk_rep _ _ _ Hk)) as (t & Ht & E); [lia|].
  destruct (tk_lookup _ _ _ _ _ Hk Ht) as (d & recs & Hd & Hb & Hds & _ & _ & Hst & Hc).
  rewrite (tile_pure_bind _ _ _ _ E).
  rewrite (tile_pure_bind (get_state t) _ _ (td_state d))
    by (unfold get_state; now rewrite (desc_bind _ _ _ _ Hds)).
  rewrite Hst, (tile_pure_bind _ _ _ _ (get_sup_ok _ _ _ _ _ _ Hk Ht Hd)). unfold ret. now rewrite Hc.
Qed.

(** The first block of a tile: two records, the rest zeroed. *)
Definition first_records r1 r2 : list (Rec T) := r1 :: r2 :: replicate (RecCount - 2) zero_rec.

Lemma tk_appended f tds blocks t d data :
  tiles_ok f tds blocks -> t ∉ ft_tiles f ++ ft_unused_tiles f ->
  (exists d0, ft_descs f !! t = Some d0) -> desc_ok RecCount (length (ft_tiles f)) d data ->
  td_state d = OK -> sup_checksum (td_sup d) = zero_checksum ->
  tiles_ok (setd t d (set_file (length (ft_tiles f)) data (with_tiles (ft_tiles f ++ [t]) f)))
    (tds ++ [d]) (blocks ++ [data]).
Proof.
  intros Hk Ht Hd Hok Hs Hc. pose proof (rep_blocks _ _ _ _ (tk_rep _ _ _ Hk)) as Hl. split.
  - now apply rep_appended; [apply Hk|..].
  - intros i e He. apply lookup_app_Some in He as [He|[_ He]].
    + now apply (tk_desc _ _ _ Hk i).
    + destruct (i - length tds)%nat; [|discriminate]. cbn in He. now simplify_eq.
  - intros n Hn. rewrite length_app in Hn. cbn in Hn. cbn. rewrite lookup_insert_ne.
    + apply (tk_more _ _ _ Hk). lia.
    + intros E. apply get_file_name_inj in E. lia.
Qed.

Lemma new_tile_ok {A} s tds blocks r1 r2 (k : bool -> M BC A) :
  (2 <= RecCount)%nat -> tiles_ok (bc_tiles s) tds blocks ->
  exists f d, tiles_ok f (tds ++ [d]) (blocks ++ [first_records r1 r2])
    /\ td_fetched d = Some (first_records r1 r2)
    /\ bind (tile (append_tile TileSup_new TileSup_reset)) (fun t =>
         tile (alloc_tile_data zero_rec RecCount t) ;;;
         tile (poke t 0 r1) ;;; tile (poke t 1 r2) ;;;
         incr_rec_count ;;; incr_rec_count ;;;
         bind (tile (sync_to_file zero_rec RecCount t false)) k) s
       = k true (with_rec_count (bc_rec_count s + 2) (with_bc_tiles f s)).
Proof.
  intros HR Hk.
  destruct (append_tile_ok TileSup_new TileSup_reset _ _ _ _ (tk_rep _ _ _ Hk))
    as (t & sup & f1 & E & Hr1 & Ht & Hd & Ef & Et).
  assert (tiles_ok f1 tds blocks) as Hk1.
  { split; [done|apply Hk|]. rewrite Ef. apply Hk. }
  set (g := with_tiles (ft_tiles f1 ++ [t]) f1) in *.
  set (D := fun m : list (Rec T) => mkTileDesc (N.of_nat (length (ft_tiles (bc_tiles s)))) OK (Some m) None
                       (TileSup_reset sup)).
  assert (forall m i (r : Rec T), (i < length m)%nat ->
    poke t i r (setd t (D m) g) = Ret tt (setd t (D (<[i := r]> m)) g)) as Hpoke.
  { intros m i r Hi. unfold poke.
    rewrite (desc_bind _ (D m)) by (eapply setd_lookup; exact Hd). cbn [D td_fetched].
    rewrite (proj2 (Nat.ltb_lt _ _) Hi). unfold set_fetched.
    rewrite (upd_eq _ (D m)) by (eapply setd_lookup; exact Hd). now rewrite setd_setd. }
  assert (first_records r1 r2 = <[1%nat := r2]> (<[0%nat := r1]> (replicate RecCount zero_rec))) as Hrecs.
  { unfold first_records. destruct RecCount as [|[|n]]; [lia|lia|]. cbn. now rewrite Nat.sub_0_r. }
  assert (length (first_records r1 r2) = RecCount) as Hlen.
  { rewrite Hrecs. now rewrite !length_insert, length_replicate. }
  pose proof (sync_to_file_new zero_rec RecCount (length (ft_tiles f1)) t
    (D (first_records r1 r2)) (first_records r1 r2) false (setd t (D (first_records r1 r2)) g)
    (rep_faults _ _ _ _ Hr1) (setd_lookup _ _ _ g Hd)) as Es.
  set (d := mkTileDesc (N.of_nat (length (ft_tiles (bc_tiles s)))) OK (Some (first_records r1 r2))
              (Some (mkFILE (get_file_name (N.of_nat (length (ft_tiles f1)))) RecCount true))
              (TileSup_reset sup)).
  exists (setd t d (set_file (length (ft_tiles f1)) (first_records r1 r2) g)), d.
  split; [|split].
  - eapply (tk_appended f1 tds blocks t _ (first_records r1 r2) Hk1 Ht);
      [eexists; exact Hd| |reflexivity|reflexivity].
    split; [cbn; now rewrite Et|exact Hlen|cbn; now intros m [= <-]|].
    unfold stream_ok. cbn. auto.
  - reflexivity.
  - rewrite (tile_bind _ _ _ _ _ E).
    rewrite (tile_bind (alloc_tile_data _ _ _) _ _ tt (setd t (D (replicate RecCount zero_rec)) g))
      by (exact (upd_eq t _ _ g Hd)).
    erewrite tile_bind by (apply (Hpoke (replicate RecCount zero_rec) 0%nat r1);
                           rewrite length_replicate; lia).
    erewrite tile_bind by (apply (Hpoke (<[0%nat := r1]> (replicate RecCount zero_rec)) 1%nat r2);
                           rewrite length_insert, length_replicate; lia).
    rewrite <- Hrecs. unfold incr_rec_count. rewrite !modify_bind'.
    erewrite tile_bind.
    2:{ apply Es; cbn; rewrite ?Et; try done. rewrite Ef. apply (tk_more _ _ _ Hk).
        rewrite (rep_blocks _ _ _ _ (tk_rep _ _ _ Hk)). lia. }
    unfold set_file. rewrite setd_fs, setd_setd. f_equal.
    unfold with_rec_count, with_bc_tiles. cbn. f_equal. lia.
Qed.

Lemma mk_block_one p c :
  mk_block ([p], c) = first_records (payload_rec p) (checksum_rec c).
Proof.
  unfold mk_block, first_records. cbn [fst snd].
  now replace (RecCount - length [p] - 1)%nat with (RecCount - 2)%nat by (cbn; lia).
Qed.

Lemma mk_block_length b :
  (1 <= length b.1 <= RecCount - 1)%nat -> length (mk_block b) = RecCount.
Proof. intros H. unfold mk_block. cbn. autorewrite with node. rewrite length_map. cbn. autorewrite with node. lia. Qed.

(** The records in a list of blocks of which only the last may not be full. *)
Definition rec_total (bs : list (list T * bytes)) : nat := sum_list_with (fun b => S (length b.1)) bs.

Lemma rec_total_app bs1 bs2 : rec_total (bs1 ++ bs2) = (rec_total bs1 + rec_total bs2)%nat.
Proof. apply sum_list_with_app. Qed.

Lemma rec_total_full bs :
  (2 <= RecCount)%nat -> (forall i b, bs !! i = Some b -> length b.1 = (RecCount - 1)%nat) ->
  rec_total bs = (length bs * RecCount)%nat.
Proof.
  intros HR. induction bs as [|b bs IH]; intros H; [done|]. cbn.
  rewrite (H 0%nat b eq_refl). unfold rec_total in IH. rewrite IH; [lia|].
  intros i b' Hb. exact (H (S i) b' Hb).
Qed.

(** All blocks but the last are full. *)
Lemma bc_rep_snoc s tds bs0 b :
  (2 <= RecCount)%nat -> bc_rep s tds (bs0 ++ [b]) ->
  bc_rec_count s = N.of_nat (length bs0 * RecCount + S (length b.1))
  /\ (1 <= length b.1 <= RecCount - 1)%nat
  /\ (forall i b', bs0 !! i = Some b' -> length b'.1 = (RecCount - 1)%nat).
Proof.
  intros HR Hrep.
  assert (forall i b', bs0 !! i = Some b' -> length b'.1 = (RecCount - 1)%nat) as Hfull.
  { intros i b' Hb. apply lookup_lt_Some in Hb as Hi. apply (bc_full _ _ _ Hrep i).
    - now rewrite lookup_app_l by done.
    - rewrite length_app. cbn. lia. }
  split; [|split; [|done]].
  - rewrite (bc_count _ _ _ Hrep). fold (rec_total (bs0 ++ [b])).
    rewrite rec_total_app, rec_total_full by done. cbn. lia.
  - apply (bc_sizes _ _ _ Hrep (length bs0)). now rewrite list_lookup_middle.
Qed.

Lemma snoc_cases {A} (l : list A) : l = [] \/ exists l' x, l = l' ++ [x].
Proof. destruct l as [|x l'] using rev_ind; eauto. Qed.

(** When the record count is a multiple of the block size, every block is
    full. *)
Lemma bc_all_full s tds bs :
  (2 <= RecCount)%nat -> bc_rep s tds bs -> (bc_rec_count s mod N.of_nat RecCount = 0)%N ->
  forall i b, bs !! i = Some b -> length b.1 = (RecCount - 1)%nat.
Proof.
  intros HR Hrep Hmod i b Hb. destruct (snoc_cases bs) as [->|(bs0 & b0 & ->)]; [done|].
  destruct (bc_rep_snoc _ _ _ _ HR Hrep) as (Hc & Hsz & Hfull).
  assert (length b0.1 = (RecCount - 1)%nat) as Hb0.
  { rewrite Hc in Hmod. apply N.Div0.mod_divides in Hmod as [q Hq].
    assert (N.of_nat (length b0.1) + 1 = N.of_nat RecCount * (q - N.of_nat (length bs0)))%N by nia.
    destruct (decide (q - N.of_nat (length bs0) = 1)%N) as [E|E]; [rewrite E in *; lia|].
    destruct (decide (q - N.of_nat (length bs0) = 0)%N) as [E0|E0]; [rewrite E0 in *; lia|nia]. }
  apply lookup_app_Some in Hb as [Hb|[Hi Hb]]; [now apply (Hfull i)|].
  apply list_lookup_singleton_Some in Hb as [_ <-]. done.
Qed.

(** [append] at the start of a block, for tiles of any contents. *)
Lemma append_new_tile s tds blocks p :
  (2 <= RecCount)%nat -> tiles_ok (bc_tiles s) tds blocks -> (bc_rec_count s mod N.of_nat RecCount = 0)%N ->
  let c := calc_checksum zero_checksum (payload_rec p) in
  exists s' tds' d, append p s = Ret (true, ExitCode.OK) s'
    /\ tiles_ok (bc_tiles s') (tds' ++ [d]) (blocks ++ [mk_block ([p], c)])
    /\ td_fetched d = Some (mk_block ([p], c)) /\ bc_rec_count s' = (bc_rec_count s + 2)%N
    /\ bc_checksum_valid_block_count s'
       = (let n := bc_checksum_valid_block_count s in if (N.of_nat (length blocks) =? n)%N then n + 1 else n)%N.
Proof.
  intros HR Hrep Hmod c. unfold append.
  destruct (maybe_flush_cache_ok _ _ _ Hrep) as (s1 & tds1 & E & Hk & _ & Hs & _).
  rewrite (bind_Ret _ _ _ _ _ E), gets_bind'. destruct Hs as (Hv & Hc & _).
  rewrite Hc, Hmod. cbv zeta. change (N.to_nat 0 =? 0)%nat with true. cbv iota.
  rewrite (tile_count_bind _ _ _ _ (tk_rep _ _ _ Hk)).
  match goal with |- context [bind (if ?c then ?x else ret tt) _ s1] =>
    assert (exists s2 tds2, (if c then x else ret tt) s1 = Ret tt s2
      /\ tiles_ok (bc_tiles s2) tds2 blocks /\ same_counts s1 s2)
      as (s2 & tds2 & E2 & Hk2 & Hs2) end.
  { destruct (N.ltb_spec 0 (N.of_nat (length blocks))) as [Hpos|_].
    2:{ exists s1, tds1. unfold same_counts, stay_closed. eauto 10. }
    replace (N.of_nat (length blocks) - 1)%N with (N.of_nat (length blocks - 1)) by lia.
    destruct (get_tile_ok _ _ _ _ (length blocks - 1) (tk_rep _ _ _ Hk)) as (t & Ht & Et); [lia|].
    destruct (tk_lookup _ _ _ _ _ Hk Ht) as (d & recs & Hd & _).
    destruct (close_tile_ok _ _ _ _ _ _ Hk Ht Hd) as [Ec Hk'].
    rewrite (tile_pure_bind _ _ _ _ Et). unfold tile. rewrite (zoom_Ret _ _ _ _ _ _ Ec).
    eexists _, _. split; [reflexivity|]. split; [exact Hk'|]. unfold same_counts. auto. }
  rewrite (bind_Ret _ _ _ _ _ E2).
  rewrite (bind_Ret _ _ _ _ _ (get_prev_checksum_ok _ _ _ (length blocks) Hk2 ltac:(lia))).
  rewrite modify_bind'. destruct Hs2 as (Hv2 & Hc2 & _).
  fold c. match goal with |- context [bind _ _ ?x] => set (s3 := x) end.
  assert (tiles_ok (bc_tiles s3) tds2 blocks) as Hk3 by (unfold s3; now destruct (_ =? _)%N).
  match goal with |- context [bind (tile (sync_to_file _ _ _ _)) ?k] =>
    destruct (new_tile_ok s3 tds2 blocks (payload_rec p) (checksum_rec c) k HR Hk3)
      as (f & d & Hkf & Hfd & Ef) end.
  rewrite Ef. eexists _, tds2, d. split; [reflexivity|]. rewrite <- mk_block_one in *.
  split; [exact Hkf|]. split; [done|]. cbn. unfold s3. rewrite <- Hv, <- Hv2, <- Hc, <- Hc2.
  now destruct (_ =? _)%N.
Qed.

Lemma append_new_block s tds bs p :
  (2 <= RecCount)%nat -> bc_rep s tds bs -> (bc_rec_count s mod N.of_nat RecCount = 0)%N ->
  exists s' tds' d, append p s = Ret (true, ExitCode.OK) s'
    /\ bc_rep s' (tds' ++ [d])
         (bs ++ [([p], calc_checksum zero_checksum (payload_rec p))])
    /\ td_fetched d = Some (mk_block ([p], calc_checksum zero_checksum (payload_rec p))).
Proof.
  intros HR Hrep Hmod. pose proof (bc_all_full _ _ _ HR Hrep Hmod) as Hfull.
  destruct (append_new_tile _ _ _ p HR (bc_tiles_ok _ _ _ Hrep) Hmod) as (s' & tds' & d & E & Hkf & Hfd & Hc & Hv).
  exists s', tds', d. split; [exact E|]. split; [|done]. split.
  - rewrite map_app. exact Hkf.
  - intros e He. rewrite last_snoc in He. injection He as <-. rewrite Hfd. discriminate.
  - intros i b Hb. apply lookup_app_Some in Hb as [Hb|[_ Hb]]; [eapply (bc_sizes _ _ _ Hrep); exact Hb|].
    apply list_lookup_singleton_Some in Hb as [_ <-]. cbn. lia.
  - intros i b Hb Hi. rewrite length_app in Hi. cbn in Hi.
    rewrite lookup_app_l in Hb by lia. now apply (Hfull i).
  - rewrite Hc, (bc_count _ _ _ Hrep). rewrite sum_list_with_app. cbn. lia.
  - cbv zeta in Hv. rewrite Hv, (bc_valid _ _ _ Hrep), length_map, N.eqb_refl, length_app. cbn. lia.
Qed.

Lemma tk_update f tds blocks i t d recs :
  tiles_ok f tds blocks -> ft_tiles f !! i = Some t -> desc_ok RecCount i d recs ->
  td_state d = OK -> sup_checksum (td_sup d) = zero_checksum ->
  tiles_ok (setd t d (set_file i recs f)) (<[i := d]> tds) (<[i := recs]> blocks).
Proof.
  intros Hk Ht Hok Hs Hc. pose proof (rep_blocks _ _ _ _ (tk_rep _ _ _ Hk)) as Hl.
  apply lookup_lt_Some in Ht as Hi. split.
  - apply rep_update; [apply Hk|done..].
  - intros j e He. destruct (decide (j = i)) as [->|Hne].
    + rewrite list_lookup_insert_eq in He.
      * now simplify_eq.
      * rewrite (rep_tds _ _ _ _ (tk_rep _ _ _ Hk)). eauto using lookup_lt_Some.
    + rewrite list_lookup_insert_ne in He by done. now apply (tk_desc _ _ _ Hk j).
  - intros n Hn. rewrite length_insert in Hn. cbn. rewrite lookup_insert_ne.
    + apply (tk_more _ _ _ Hk). lia.
    + intros E. apply get_file_name_inj in E. lia.
Qed.

(** The descriptor after a record was written and the stream rewound. *)
Definition rewound (i : nat) (d : TileDesc (Rec T) TileSup) : TileDesc (Rec T) TileSup :=
  mkTileDesc (td_index d) OK (td_fetched d)
    (Some (mkFILE (get_file_name (N.of_nat i)) 0 true)) (td_sup d).

Lemma write_tile_ok f tds blocks i t d recs r j :
  tiles_ok f tds blocks -> ft_tiles f !! i = Some t -> tds !! i = Some d ->
  blocks !! i = Some recs -> (j < RecCount)%nat ->
  exists f', tile_write zero_rec RecCount t r j false f = Ret true f'
    /\ tiles_ok f' (<[i := rewound i d]> tds) (<[i := <[j := r]> recs]> blocks)
    /\ ft_tiles f' = ft_tiles f.
Proof.
  intros Hk Ht Hd Hb Hj.
  destruct (tk_lookup _ _ _ _ _ Hk Ht) as (d' & recs' & ? & ? & Hds & Hfs & Hok & Hst & Hc).
  simplify_eq. eexists. split.
  - apply (tile_write_ok zero_rec RecCount i t d recs); try done. apply (tk_rep _ _ _ Hk).
  - split; [|done]. apply tk_update; try done. destruct Hok as [H1 H2 H3 H4].
    split; cbn; rewrite ?length_insert; try done. unfold stream_ok. cbn. auto.
Qed.

Lemma mk_block_extend ps c p c' :
  (length ps + 1 < RecCount)%nat ->
  <[(length ps + 1)%nat := checksum_rec c']> (<[length ps := payload_rec p]> (mk_block (ps, c)))
  = mk_block (ps ++ [p], c').
Proof.
  intros H. unfold mk_block. cbn [fst snd]. rewrite map_app, length_app.
  replace (RecCount - length ps - 1)%nat with (S (RecCount - (length ps + 1) - 1)) by lia.
  replace (length ps) with (length (map payload_rec ps) + 0)%nat at 2 by (rewrite length_map; lia).
  rewrite insert_app_r. cbn [app insert list_insert replicate map].
  replace (length ps + 1)%nat with (length (map payload_rec ps) + 1)%nat at 1 by (rewrite length_map; lia).
  rewrite insert_app_r. cbn [app insert list_insert]. cbn [length].
  rewrite <- (assoc_L (++)). reflexivity.
Qed.

(** Where the next record goes in a last block that has room. *)
Lemma room_in_block s tds bs0 ps c :
  (2 <= RecCount)%nat -> bc_rep s tds (bs0 ++ [(ps, c)]) ->
  (bc_rec_count s mod N.of_nat RecCount <> 0)%N ->
  (length ps + 1 < RecCount)%nat /\ N.to_nat (bc_rec_count s mod N.of_nat RecCount) = (length ps + 1)%nat.
Proof.
  intros HR Hrep Hmod. destruct (bc_rep_snoc _ _ _ _ HR Hrep) as (Hcnt & Hsz & _). cbn in Hcnt, Hsz.
  assert (length ps + 1 < RecCount)%nat as Hps.
  { destruct (decide (S (length ps) = RecCount)) as [E|]; [|lia]. exfalso. apply Hmod.
    rewrite Hcnt, E. replace (N.of_nat _) with ((N.of_nat (length bs0) + 1) * N.of_nat RecCount)%N by lia.
    apply N.Div0.mod_mul. }
  split; [done|]. rewrite Hcnt.
  replace (N.of_nat _) with (N.of_nat (length ps + 1) + N.of_nat (length bs0) * N.of_nat RecCount)%N by lia.
  rewrite N.Div0.mod_add, N.mod_small by lia. lia.
Qed.

(** One more record in the last block keeps the invariant. *)
Lemma last_block_extended s s' tds tds' d bs0 ps c p c' :
  (2 <= RecCount)%nat -> bc_rep s tds (bs0 ++ [(ps, c)]) -> (length ps + 1 < RecCount)%nat ->
  tiles_ok (bc_tiles s') (tds' ++ [d]) (map mk_block (bs0 ++ [(ps ++ [p], c')])) ->
  td_fetched d <> None -> bc_rec_count s' = (bc_rec_count s + 1)%N ->
  bc_checksum_valid_block_count s' = bc_checksum_valid_block_count s ->
  bc_rep s' (tds' ++ [d]) (bs0 ++ [(ps ++ [p], c')]).
Proof.
  intros HR Hrep Hps Hk Hd Hc Hv. destruct (bc_rep_snoc _ _ _ _ HR Hrep) as (_ & _ & Hfull). split.
  - exact Hk.
  - intros e He. rewrite last_snoc in He. now injection He as <-.
  - intros i b Hb. apply lookup_app_Some in Hb as [Hb|[_ Hb]].
    + apply (bc_sizes _ _ _ Hrep i). rewrite lookup_app_l; [done|]. eauto using lookup_lt_Some.
    + apply list_lookup_singleton_Some in Hb as [_ <-]. cbn. rewrite length_app. cbn. lia.
  - intros i b Hb Hi. rewrite length_app in Hi. cbn in Hi. rewrite lookup_app_l in Hb by lia.
    now apply (Hfull i).
  - rewrite Hc, (bc_count _ _ _ Hrep), !sum_list_with_app. cbn. rewrite length_app. cbn. lia.
  - rewrite Hv, (bc_valid _ _ _ Hrep), !length_app. done.
Qed.

(** [append] inside the last block, for tiles of any contents before it. *)
Lemma append_same_tile s tds blocks ps c p :
  tiles_ok (bc_tiles s) tds (blocks ++ [mk_block (ps, c)]) -> tail_fetched tds ->
  (length ps + 1 < RecCount)%nat -> N.to_nat (bc_rec_count s mod N.of_nat RecCount) = (length ps + 1)%nat ->
  exists d m r s' tds',
    last tds = Some d /\ td_fetched d = Some m /\ m !! length ps = Some r
    /\ append p s = Ret (true, ExitCode.OK) s'
    /\ tiles_ok (bc_tiles s') (tds' ++ [rewound (length blocks) d])
         (blocks ++ [mk_block (ps ++ [p], calc_checksum (checksum_of r) (payload_rec p))])
    /\ bc_rec_count s' = (bc_rec_count s + 1)%N
    /\ bc_checksum_valid_block_count s' = bc_checksum_valid_block_count s.
Proof.
  intros Hrep Htail Hps Hpos. unfold append.
  destruct (maybe_flush_cache_ok _ _ _ Hrep) as (s1 & tds1 & E & Hk & Hlast & Hs & _).
  rewrite (bind_Ret _ _ _ _ _ E), gets_bind'. destruct Hs as (Hv & Hc & _).
  rewrite Hc. cbv zeta.
  rewrite Hpos, (tile_count_bind _ _ _ _ (tk_rep _ _ _ Hk)).
  destruct (Nat.eqb_spec (length ps + 1) 0) as [|_]; [lia|].
  rewrite length_app. cbn [length]. rewrite u32_pred_pos by lia.
  replace (N.of_nat (length blocks + 1) - 1)%N with (N.of_nat (length blocks)) by lia.
  destruct (get_tile_ok _ _ _ _ (length blocks) (tk_rep _ _ _ Hk)) as (t & Ht & Et);
    [rewrite length_app; cbn; lia|].
  rewrite (tile_pure_bind _ _ _ _ Et).
  destruct (tk_lookup _ _ _ _ _ Hk Ht) as (d & recs & Hd & Hb & _ & _ & Hok & _).
  rewrite list_lookup_middle in Hb by done. injection Hb as <-.
  set (n := length blocks) in *.
  assert (length tds1 = S n) as Hl1.
  { rewrite (rep_tds _ _ _ _ (tk_rep _ _ _ Hk)), <- (rep_blocks _ _ _ _ (tk_rep _ _ _ Hk)).
    rewrite length_app. cbn. lia. }
  assert (last tds1 = Some d) as Hld.
  { rewrite last_lookup, Hl1. exact Hd. }
  destruct (td_fetched d) as [m|] eqn:Em.
  2:{ exfalso. apply (Htail d); [congruence|done]. }
  pose proof (ok_mem _ _ _ _ Hok m Em) as Hlm. pose proof (ok_len _ _ _ _ Hok) as Hlb.
  destruct (lookup_lt_is_Some_2 m (length ps)) as [r Hr]; [lia|].
  rewrite (tile_pure_bind _ _ _ _ (get_tile_data_ok _ _ _ _ _ _ Hk Ht Hd)), Em.
  replace (length ps + 1 - 1)%nat with (length ps) by lia. cbn [mbind option_bind]. rewrite Hr.
  set (c' := calc_checksum _ _).
  destruct (write_tile_ok _ _ _ n t d _ (payload_rec p) (length ps) Hk Ht Hd
    ltac:(now apply list_lookup_middle) ltac:(lia)) as (f1 & Ew1 & Hk1 & Ht1).
  rewrite (tile_bind _ _ _ _ _ Ew1). cbn [negb].
  destruct (write_tile_ok f1 _ _ n t (rewound n d) (<[length ps := payload_rec p]> (mk_block (ps, c)))
    (checksum_rec c') (length ps + 1) Hk1) as (f2 & Ew2 & Hk2 & Ht2); [congruence| | |lia|].
  { apply list_lookup_insert_eq. lia. }
  { apply list_lookup_insert_eq. rewrite length_app. cbn. lia. }
  erewrite tile_bind by exact Ew2. cbn [negb]. unfold incr_rec_count. rewrite modify_bind'.
  rewrite mk_block_extend, !list_insert_insert_eq in Hk2 by done.
  exists d, m, r. eexists _, (take n tds1). split; [congruence|]. do 2 (split; [done|]).
  split; [reflexivity|].
  assert (<[n := rewound n (rewound n d)]> tds1 = take n tds1 ++ [rewound n d]) as Htds.
  { rewrite insert_take_drop by lia. rewrite drop_ge by lia. reflexivity. }
  rewrite Htds in Hk2.
  assert (<[n := mk_block (ps ++ [p], c')]> (blocks ++ [mk_block (ps, c)]) = blocks ++ [mk_block (ps ++ [p], c')]) as Hbs.
  { replace n with (length blocks + 0)%nat by (unfold n; lia). rewrite insert_app_r. reflexivity. }
  rewrite Hbs in Hk2. split; [exact Hk2|]. cbn. split; congruence.
Qed.

Lemma append_same_block s tds bs0 ps c p :
  (2 <= RecCount)%nat -> bc_rep s tds (bs0 ++ [(ps, c)]) ->
  (bc_rec_count s mod N.of_nat RecCount <> 0)%N ->
  exists d m r s' tds',
    last tds = Some d /\ td_fetched d = Some m /\ m !! length ps = Some r
    /\ append p s = Ret (true, ExitCode.OK) s'
    /\ bc_rep s' (tds' ++ [rewound (length bs0) d])
         (bs0 ++ [(ps ++ [p], calc_checksum (checksum_of r) (payload_rec p))]).
Proof.
  intros HR Hrep Hmod. destruct (room_in_block _ _ _ _ _ HR Hrep Hmod) as [Hps Hpos].
  pose proof (bc_tiles_ok _ _ _ Hrep) as Hk. rewrite map_app in Hk.
  destruct (append_same_tile _ _ _ _ _ p Hk (bc_tail _ _ _ Hrep) Hps Hpos)
    as (d & m & r & s' & tds' & Hl & Hf & Hr & E & Hk' & Hc & Hv).
  rewrite length_map in Hk'. exists d, m, r, s', tds'. do 4 (split; [done|]).
  apply (last_block_extended s _ tds _ _ bs0 ps c); try done.
  - now rewrite map_app.
  - cbn. now rewrite Hf.
Qed.

(** ** Reading *)

Lemma read_tile_ok {A} f tds blocks i t d recs s (k : option (list (Rec T)) -> M BC A) :
  bc_tiles s = f -> tiles_ok f tds blocks -> ft_tiles f !! i = Some t -> tds !! i = Some d ->
  blocks !! i = Some recs ->
  exists f', bind (tile (sync_from_file zero_rec RecCount t true)) (fun _ =>
               bind (tile (get_tile_data t)) k) s
             = k (Some recs) (with_bc_tiles f' s)
    /\ tiles_ok f' (<[i := synced RecCount i recs OK d]> tds) blocks.
Proof.
  intros <- Hk Ht Hd Hb.
  destruct (tk_lookup _ _ _ _ _ Hk Ht) as (d' & recs' & ? & ? & Hds & Hfs & Hok & Hst & Hc).
  simplify_eq.
  destruct (sync_from_file_ok zero_rec RecCount i t d recs true (bc_tiles s)
    (rep_faults _ _ _ _ (tk_rep _ _ _ Hk)) Hds Hok Hfs) as (b & st & E & _).
  rewrite (tile_bind _ _ _ _ _ E).
  exists (setd t (synced RecCount i recs OK d) (bc_tiles s)). split.
  - erewrite tile_bind; [reflexivity|]. unfold get_tile_data, set_state. cbn [bc_tiles with_bc_tiles].
    rewrite (upd_bind _ (synced RecCount i recs st d)) by (eapply setd_lookup; exact Hds).
    rewrite setd_setd. rewrite (desc_bind _ (synced RecCount i recs OK d)); [reflexivity|].
    eapply setd_lookup; exact Hds.
  - eapply tk_setd; try done. destruct Hok as [H1 H2 H3 H4]. split; cbn; [done..|now intros m [= <-]|].
    unfold stream_ok. cbn. auto.
Qed.

Lemma get_block_ok s tds bs i b :
  bc_rep s tds bs -> bs !! i = Some b ->
  exists s' tds' d, get_block (N.of_nat i) s = Ret (Some (mk_block b), ExitCode.OK) s'
    /\ bc_rep s' tds' bs /\ tds' !! i = Some d /\ td_fetched d = Some (mk_block b).
Proof.
  intros Hrep Hb. unfold get_block.
  destruct (maybe_flush_cache_ok _ _ _ (bc_tiles_ok _ _ _ Hrep)) as (s1 & tds1 & E & Hk & Hlast & Hs & _).
  rewrite (bind_Ret _ _ _ _ _ E). apply lookup_lt_Some in Hb as Hi.
  destruct (get_tile_ok _ _ _ _ i (tk_rep _ _ _ Hk)) as (t & Ht & Et); [now rewrite length_map|].
  rewrite (tile_pure_bind _ _ _ _ Et).
  destruct (tk_lookup _ _ _ _ _ Hk Ht) as (d & recs & Hd & Hb' & _).
  rewrite list_lookup_fmap, Hb in Hb'. injection Hb' as <-.
  match goal with |- context [bind (tile (get_tile_data t)) ?k] =>
    destruct (read_tile_ok _ _ _ i t d (mk_block b) s1 k eq_refl Hk Ht Hd) as (f & Ef & Hkf) end.
  { now rewrite list_lookup_fmap, Hb. }
  rewrite Ef. eexists _, _, (synced RecCount i (mk_block b) OK d).
  split; [reflexivity|]. destruct Hs as (Hv & Hc & _).
  split; [|split; [apply list_lookup_insert_eq; eauto using lookup_lt_Some|reflexivity]].
  destruct Hrep as [H1 H2 H3 H4 H5 H6]. split; cbn; try congruence; [|exact H3|exact H4].
  intros e He. rewrite last_lookup, length_insert in He.
  apply list_lookup_insert_Some in He as [(_ & <- & _)|[_ He]]; [discriminate|].
  apply H2. rewrite <- Hlast, last_lookup. exact He.
Qed.

(** The records of all blocks, one after the other. *)
Definition all_records (bs : list (list T * bytes)) : list (Rec T) := concat (map mk_block bs).

Lemma concat_lookup_div (l : list (list (Rec T))) n i :
  (forall x, x ∈ l -> length x = n) -> (0 < n)%nat ->
  concat l !! i = (l !! (i / n)%nat) ≫= (.!! (i mod n)%nat).
Proof.
  intros Hl Hn. revert i. induction l as [|x l IH]; intros i; [done|].
  assert (length x = n) as Hx by (apply Hl; now left). cbn [concat].
  destruct (decide (i < n)%nat) as [Hi|Hi].
  - rewrite lookup_app_l by lia. rewrite Nat.div_small, Nat.mod_small by lia. reflexivity.
  - rewrite lookup_app_r by lia. rewrite IH by (intros y Hy; apply Hl; now right). rewrite Hx.
    replace i with ((i - n) + 1 * n)%nat at 3 4 by lia.
    rewrite Nat.div_add, Nat.Div0.mod_add by lia. now rewrite Nat.add_1_r.
Qed.

Lemma bc_block_length s tds bs x :
  bc_rep s tds bs -> x ∈ map mk_block bs -> length x = RecCount.
Proof.
  intros Hrep Hx. apply list_elem_of_fmap in Hx as (b & -> & Hb).
  apply list_elem_of_lookup in Hb as [i Hb]. apply mk_block_length. exact (bc_sizes _ _ _ Hrep i b Hb).
Qed.

(** Every index below the record count is a payload or checksum record of
    some block. *)
Lemma bc_index_block s tds bs i :
  (2 <= RecCount)%nat -> bc_rep s tds bs -> (N.of_nat i < bc_rec_count s)%N ->
  (i / RecCount < length bs)%nat.
Proof.
  intros HR Hrep Hi. destruct (snoc_cases bs) as [->|(bs0 & b & ->)].
  - rewrite (bc_count _ _ _ Hrep) in Hi. cbn in Hi. lia.
  - destruct (bc_rep_snoc _ _ _ _ HR Hrep) as (Hc & Hsz & _). rewrite length_app. cbn.
    apply Nat.Div0.div_lt_upper_bound. lia.
Qed.

Lemma get_record_ok s tds bs i :
  (2 <= RecCount)%nat -> N.of_nat RecCount = GRADIDO_BLOCK_SIZE ->
  bc_rep s tds bs -> (N.of_nat i < bc_rec_count s)%N ->
  exists r s' tds', get_record (N.of_nat i) s = Ret (Some r, ExitCode.OK) s'
    /\ all_records bs !! i = Some r /\ bc_rep s' tds' bs.
Proof.
  intros HR HG Hrep Hi. unfold get_record. rewrite gets_bind'.
  destruct (N.leb_spec (bc_rec_count s) (N.of_nat i)) as [|_]; [lia|]. cbv zeta.
  rewrite <- HG, <- Nat2N.inj_div, <- Nat2N.inj_mod, Nat2N.id.
  pose proof (bc_index_block _ _ _ _ HR Hrep Hi) as Hlt.
  destruct (lookup_lt_is_Some_2 _ _ Hlt) as [b Hb].
  destruct (get_block_ok _ _ _ _ _ Hrep Hb) as (s' & tds' & d & E & Hrep' & _).
  rewrite (bind_Ret _ _ _ _ _ E). cbn [fst snd].
  pose proof (mk_block_length b (bc_sizes _ _ _ Hrep _ _ Hb)) as Hlen.
  destruct (lookup_lt_is_Some_2 (mk_block b) (i mod RecCount)%nat) as [r Hr].
  { rewrite Hlen. apply Nat.mod_upper_bound. lia. }
  rewrite Hr. exists r, s', tds'. split; [reflexivity|]. split; [|done].
  unfold all_records. rewrite (concat_lookup_div _ RecCount); [|intros x Hx; eapply bc_block_length; eauto|lia].
  rewrite list_lookup_fmap, Hb. exact Hr.
Qed.

(** ** Validating what is on disk *)

Lemma validate_scan_payloads ps rs he hp :
  validate_scan (map payload_rec ps ++ rs) false he hp
  = validate_scan rs false he (hp || negb (length ps =? 0)%nat).
Proof.
  revert hp. induction ps as [|p ps IH]; intros hp; cbn; [now rewrite orb_false_r|].
  rewrite IH. now rewrite orb_true_r.
Qed.

Lemma validate_scan_empties n he hp :
  validate_scan (replicate n zero_rec) true he hp = inr (true, he || negb (n =? 0)%nat).
Proof.
  revert he. induction n as [|n IH]; intros he; cbn; [now rewrite orb_false_r|].
  rewrite IH. now rewrite orb_true_r.
Qed.

Lemma validate_scan_block b :
  (1 <= length b.1 <= RecCount - 1)%nat ->
  validate_scan (take RecCount (mk_block b)) false false false
  = inr (true, negb (length b.1 =? RecCount - 1)%nat).
Proof.
  intros H. rewrite take_ge by (rewrite mk_block_length by done; lia).
  unfold mk_block. rewrite validate_scan_payloads. cbn [orb].
  destruct (Nat.eqb_spec (length b.1) 0) as [|_]; [lia|]. cbn.
  rewrite validate_scan_empties. cbn [orb].
  destruct (Nat.eqb_spec (RecCount - length b.1 - 1) 0), (Nat.eqb_spec (length b.1) (RecCount - 1));
    try lia; done.
Qed.

Lemma block_rec_count_payloads ps rs :
  block_rec_count (map payload_rec ps ++ rs) = (N.of_nat (length ps) + block_rec_count rs)%N.
Proof.
  induction ps as [|p ps IH]; [done|]. cbn [map app block_rec_count length].
  rewrite IH. change (is_type EMPTY (payload_rec p)) with false. cbv iota. lia.
Qed.

Lemma block_rec_count_block b : block_rec_count (mk_block b) = N.of_nat (S (length b.1)).
Proof.
  unfold mk_block. rewrite block_rec_count_payloads. cbn [app block_rec_count].
  change (is_type EMPTY (checksum_rec b.2)) with false. cbv iota.
  destruct (RecCount - length b.1 - 1)%nat; cbn [replicate block_rec_count];
    [|change (is_type EMPTY zero_rec) with true; cbv iota]; lia.
Qed.

(** The blocks [bs] are on disk and the first [k] have been validated since
    the start. *)
Record recovering s (tds : list (TileDesc (Rec T) TileSup)) (bs : list (list T * bytes)) (k : nat)
    : Prop := {
  rv_tiles : tiles_ok (bc_tiles s) tds (map mk_block bs);
  rv_closed : forall i d, tds !! i = Some d -> (k <= i)%nat -> td_handle d = None;
  rv_tail : k = length bs -> tail_fetched tds;
  rv_sizes : forall i b, bs !! i = Some b -> (1 <= length b.1 <= RecCount - 1)%nat;
  rv_full : forall i b, bs !! i = Some b -> (S i < length bs)%nat -> length b.1 = (RecCount - 1)%nat;
  rv_count : bc_rec_count s = N.of_nat (rec_total (take k bs));
  rv_valid : bc_checksum_valid_block_count s = N.of_nat k;
}.

Lemma validate_block_ok s tds bs k b :
  tiles_ok (bc_tiles s) tds (map mk_block bs) -> bs !! k = Some b ->
  (1 <= length b.1 <= RecCount - 1)%nat ->
  ((S k < length bs)%nat -> length b.1 = (RecCount - 1)%nat) ->
  validate_block (N.of_nat k) (mk_block b) false ExitCode.OK s = Ret (true, ExitCode.OK) s.
Proof.
  intros Hk Hb Hsz Hfull. unfold validate_block. rewrite validate_scan_block by done. cbn [negb andb].
  rewrite (tile_count_bind _ _ _ _ (tk_rep _ _ _ Hk)), length_map.
  apply lookup_lt_Some in Hb as Hlt. rewrite u32_pred_pos by lia.
  assert (negb (length b.1 =? RecCount - 1)%nat && negb (N.of_nat k =? N.of_nat (length bs) - 1)%N
          = false) as ->.
  { destruct (Nat.eqb_spec (length b.1) (RecCount - 1)); [done|].
    destruct (N.eqb_spec (N.of_nat k) (N.of_nat (length bs) - 1)); [done|].
    rewrite Hfull in *; lia. }
  now rewrite (bind_Ret _ _ _ _ _ (get_prev_checksum_ok _ _ _ k Hk ltac:(rewrite length_map; lia))).
Qed.

Lemma validate_next_step s tds bs k :
  recovering s tds bs k -> (k < length bs)%nat ->
  exists s' tds', validate_next_checksum s = Ret (true, ExitCode.OK) s'
    /\ recovering s' tds' bs (S k).
Proof.
  intros [H1 H2 H3 H4 H5 H6 H7] Hlt. unfold validate_next_checksum.
  destruct (maybe_flush_cache_ok _ _ _ H1) as (s1 & tds1 & E & Hk & Hlast & (Hv & Hc & _) & Hsc).
  rewrite (bind_Ret _ _ _ _ _ E), gets_bind', (tile_count_bind _ _ _ _ (tk_rep _ _ _ Hk)).
  rewrite length_map, Hv, H7. destruct (N.ltb_spec (N.of_nat k) (N.of_nat (length bs))) as [_|]; [|lia].
  assert (forall i d, tds1 !! i = Some d -> (k <= i)%nat -> td_handle d = None) as Hcl.
  { intros i d Hd Hi. destruct (lookup_lt_is_Some_2 tds i) as [d0 Hd0].
    - rewrite (rep_tds _ _ _ _ (tk_rep _ _ _ H1)), <- (rep_blocks _ _ _ _ (tk_rep _ _ _ H1)).
      rewrite (rep_blocks _ _ _ _ (tk_rep _ _ _ Hk)), <- (rep_tds _ _ _ _ (tk_rep _ _ _ Hk)).
      eauto using lookup_lt_Some.
    - destruct (Hsc i d0 Hd0 (H2 i d0 Hd0 Hi)) as (d' & ? & ?). congruence. }
  destruct (get_tile_ok _ _ _ _ k (tk_rep _ _ _ Hk)) as (t & Ht & Et); [now rewrite length_map|].
  rewrite (tile_pure_bind _ _ _ _ Et).
  destruct (lookup_lt_is_Some_2 _ _ Hlt) as [b Hb].
  destruct (tk_lookup _ _ _ _ _ Hk Ht) as (d & recs & Hd & Hb' & Hds & Hfs & Hok & _ & Hsup).
  rewrite list_lookup_fmap, Hb in Hb'. injection Hb' as <-.
  assert (td_handle d = None) as Hh.
  { apply (Hcl k d Hd). lia. }
  destruct (sync_from_file_ok zero_rec RecCount k t d (mk_block b) true (bc_tiles s1)
    (rep_faults _ _ _ _ (tk_rep _ _ _ Hk)) Hds Hok Hfs) as (ok & st & Es & Hok0).
  destruct Hok0 as [-> ->]; [unfold opened; now rewrite Hh|].
  rewrite (tile_bind _ _ _ _ _ Es).
  assert (tiles_ok (setd t (synced RecCount k (mk_block b) OK d) (bc_tiles s1))
            (<[k := synced RecCount k (mk_block b) OK d]> tds1) (map mk_block bs)) as Hk2.
  { eapply tk_setd; try done; [now rewrite list_lookup_fmap, Hb|].
    destruct Hok as [? ? ? ?]. split; cbn; [done..|now intros m [= <-]|].
    unfold stream_ok. cbn. auto. }
  assert ((<[k := synced RecCount k (mk_block b) OK d]> tds1) !! k
          = Some (synced RecCount k (mk_block b) OK d)) as Hd2
    by (apply list_lookup_insert_eq; eauto using lookup_lt_Some).
  erewrite tile_pure_bind by (exact (get_tile_data_ok _ _ _ _ _ _ Hk2 Ht Hd2)).
  cbn [synced td_fetched].
  erewrite bind_Ret by (eapply validate_block_ok; [exact Hk2|exact Hb|eauto..]).
  cbn [fst snd]. rewrite !modify_bind'. eexists _, _. split; [reflexivity|].
  assert (length tds1 = length bs) as Hl.
  { rewrite (rep_tds _ _ _ _ (tk_rep _ _ _ Hk)), <- (rep_blocks _ _ _ _ (tk_rep _ _ _ Hk)).
    apply length_map. }
  split; cbn.
  - exact Hk2.
  - intros i e He Hi. rewrite list_lookup_insert_ne in He by lia. apply (Hcl i e He). lia.
  - intros HS e He. rewrite last_lookup, length_insert, Hl, <- HS in He. cbn in He.
    rewrite Hd2 in He. injection He as <-. discriminate.
  - exact H4.
  - exact H5.
  - rewrite Hc, H6, block_rec_count_block, (take_S_r _ _ _ Hb), rec_total_app. cbn. lia.
  - lia.
Qed.

(** A tile as the constructor leaves it. *)
Definition fresh_desc (i : nat) (d : TileDesc (Rec T) TileSup) : Prop :=
  exists sup, d = mkTileDesc (N.of_nat i) OK None None (TileSup_reset sup).

Lemma init_loop (blocks : list (list (Rec T))) m : forall j (f : FT) tds,
  (forall x, x ∈ blocks -> length x = RecCount) ->
  (forall i recs, blocks !! i = Some recs ->
     ft_fs f !! get_file_name (N.of_nat i) = Some (good_file recs)) ->
  (j + m = length blocks)%nat -> ft_rep RecCount f tds (take j blocks) ->
  (forall i d, tds !! i = Some d -> fresh_desc i d) ->
  exists f' tds', for_each (seq j m) (fun i =>
      let! t := create_tile_desc TileSup_new TileSup_reset (N.of_nat i) in
      let! st := check_file2 RecCount (get_file_name (N.of_nat i)) in
      set_state t st ;;;
      modify (fun g => with_tiles (ft_tiles g ++ [t]) g)) f = Ret tt f'
    /\ ft_rep RecCount f' tds' blocks /\ ft_fs f' = ft_fs f
    /\ (forall i d, tds' !! i = Some d -> fresh_desc i d).
Proof.
  induction m as [|m IH]; intros j f tds Hlen Hfs Hj Hr Hfresh; cbn [seq for_each].
  { exists f, tds. rewrite take_ge in Hr by lia. auto. }
  destruct (lookup_lt_is_Some_2 blocks j) as [recs Hrecs]; [lia|].
  destruct (create_tile_desc_ok TileSup_new TileSup_reset RecCount (N.of_nat j) f tds _ Hr)
    as (t & sup & f1 & E & Hr1 & Ht & Hd & Ef & Et).
  rewrite bind_assoc, (bind_Ret _ _ _ _ _ E), bind_assoc.
  assert (length recs = RecCount) as Hlr by (apply Hlen; eauto using list_elem_of_lookup_2).
  rewrite (bind_Ret _ _ _ _ _ (check_good RecCount recs f1 j Hlr ltac:(rewrite Ef; eauto))).
  rewrite bind_assoc. unfold set_state. rewrite (upd_bind _ _ _ _ _ Hd), modify_bind.
  set (d := td_with_state _ _). set (f2 := with_tiles _ _).
  assert (length (ft_tiles f1) = j) as Hlt.
  { rewrite <- (rep_blocks _ _ _ _ Hr1), length_take. lia. }
  assert (length tds = j) as Hltd by (now rewrite (rep_tds _ _ _ _ Hr1)).
  destruct (IH (S j) f2 (tds ++ [d])) as (f' & tds' & E' & Hr' & Ef' & Hfr'); try done.
  - intros i r Hi. cbn. rewrite Ef. eauto.
  - lia.
  - rewrite (take_S_r _ _ _ Hrecs).
    change f2 with (with_tiles (ft_tiles (setd t d f1) ++ [t]) (setd t d f1)).
    apply rep_snoc; [apply rep_fresh; [done|]|done|eapply setd_lookup; exact Hd| |].
    + intros Hin. apply Ht, elem_of_app. now left.
    + cbn. rewrite Ef, Hlt. eauto.
    + cbn. rewrite Hlt. now apply desc_ok_closed.
  - intros i e He. apply lookup_app_Some in He as [He|[Hi He]]; [eauto|].
    apply list_lookup_singleton_Some in He as [Hi0 <-]. exists sup. unfold d, td_with_state. cbn.
    repeat f_equal. lia.
  - exists f', tds'. split; [exact E'|]. split; [done|]. split; [now rewrite Ef'|done].
Qed.

Lemma init_ok fs bs clock :
  (2 <= RecCount)%nat ->
  (forall i b, bs !! i = Some b -> (1 <= length b.1 <= RecCount - 1)%nat) ->
  (forall i b, bs !! i = Some b -> (S i < length bs)%nat -> length b.1 = (RecCount - 1)%nat) ->
  (forall i b, bs !! i = Some b ->
     fs !! get_file_name (N.of_nat i) = Some (good_file (mk_block b))) ->
  (forall n, (length bs <= n)%nat -> fs !! get_file_name (N.of_nat n) = None) ->
  get_file_count (regular_files fs) = Some (N.of_nat (length bs)) ->
  exists s tds, Blockchain_init fs [] clock = Ret tt s /\ recovering s tds bs 0 /\ ft_fs (bc_tiles s) = fs.
Proof.
  intros HR Hsz Hfull Hfs Hmore Hcount. unfold Blockchain_init, FileTile_init.
  rewrite Hcount, Nat2N.id.
  destruct (init_loop (map mk_block bs) (length bs) 0 (mkFileTile fs [] [] [] []) [])
    as (f' & tds' & E & Hr & Ef & Hfresh).
  - intros x Hx. apply list_elem_of_fmap in Hx as (b & -> & Hb).
    apply list_elem_of_lookup in Hb as [i Hb]. apply mk_block_length. eauto.
  - intros i recs Hi. apply list_lookup_fmap_Some in Hi as (b & -> & Hb). cbn. eauto.
  - now rewrite length_map.
  - split; cbn; try done; [apply NoDup_nil_2|set_solver].
  - done.
  - rewrite E. destruct (Nat.ltb_spec RecCount 2) as [|_]; [lia|].
    eexists _, tds'. split; [reflexivity|]. split; [|exact Ef].
    split; cbn; try done.
    + split; [done| |].
      * intros i d Hd. destruct (Hfresh i d Hd) as [sup ->]. done.
      * intros n Hn. rewrite length_map in Hn. rewrite Ef. apply Hmore. lia.
    + intros i d Hd _. destruct (Hfresh i d Hd) as [sup ->]. done.
    + intros Hn d Hd. apply symmetry, nil_length_inv in Hn. subst bs.
      assert (length tds' = 0%nat) as H0 by (now rewrite (rep_tds _ _ _ _ Hr), <- (rep_blocks _ _ _ _ Hr)).
      apply nil_length_inv in H0. now subst.
Qed.

(** Validating as long as there is a block that was not. *)
Definition validate_all (n : nat) : M BC unit :=
  for_each (seq 0 n) (fun _ => let! _ := validate_next_checksum in ret tt).

Lemma validate_all_ok bs m : forall s tds k j,
  recovering s tds bs k -> (k + m = length bs)%nat ->
  exists s' tds', for_each (seq j m) (fun _ => let! _ := validate_next_checksum in ret tt) s = Ret tt s'
    /\ recovering s' tds' bs (length bs).
Proof.
  induction m as [|m IH]; intros s tds k j Hrv Hm; cbn [seq for_each].
  - exists s, tds. split; [done|]. now replace (length bs) with k by lia.
  - destruct (validate_next_step _ _ _ _ Hrv) as (s1 & tds1 & E & Hrv1); [lia|].
    rewrite bind_assoc, (bind_Ret _ _ _ _ _ E).
    destruct (IH s1 tds1 (S k) (S j) Hrv1) as (s' & tds' & E' & Hrv'); [lia|]. eauto.
Qed.

Lemma recovered s tds bs : recovering s tds bs (length bs) -> bc_rep s tds bs.
Proof.
  intros [H1 H2 H3 H4 H5 H6 H7]. rewrite take_ge in H6 by lia. split; auto.
Qed.

(** ** Theorems *)

(** The payloads of a chain, oldest first: what the chain is a log of. *)
Definition bc_log (bs : list (list T * bytes)) : list T := concat (map fst bs).

Lemma bc_log_snoc bs b : bc_log (bs ++ [b]) = bc_log bs ++ b.1.
Proof. unfold bc_log. rewrite map_app, concat_app. cbn. now rewrite app_nil_r. Qed.

Lemma append_step s tds bs p :
  (2 <= RecCount)%nat -> bc_rep s tds bs ->
  exists s' tds' bs', append p s = Ret (true, ExitCode.OK) s' /\ bc_rep s' tds' bs'
    /\ bc_log bs' = bc_log bs ++ [p].
Proof.
  intros HR Hrep. destruct (decide (bc_rec_count s mod N.of_nat RecCount = 0)%N) as [Hm|Hm].
  - destruct (append_new_block _ _ _ p HR Hrep Hm) as (s' & tds' & d & E & Hrep' & _).
    eexists _, _, _. split; [exact E|]. split; [exact Hrep'|]. apply bc_log_snoc.
  - destruct (snoc_cases bs) as [->|(bs0 & [ps c] & ->)].
    { rewrite (bc_count _ _ _ Hrep) in Hm. now destruct Hm. }
    destruct (append_same_block _ _ _ _ _ p HR Hrep Hm) as (d & m & r & s' & tds' & _ & _ & _ & E & Hrep').
    eexists _, _, _. split; [exact E|]. split; [exact Hrep'|].
    rewrite !bc_log_snoc. cbn. apply (assoc_L (++)).
Qed.

(** C2: [append] on a well-formed chain returns success and adds exactly the
    new payload at the end of the log; the blocks on disk keep their shape
    and the counters stay right. *)
Theorem append_adds_payload s tds bs p :
  (2 <= RecCount)%nat -> bc_rep s tds bs ->
  exists s' tds' bs', append p s = Ret (true, ExitCode.OK) s' /\ bc_rep s' tds' bs'
    /\ bc_log bs' = bc_log bs ++ [p].
Proof. apply append_step. Qed.

Lemma multipart_append_ok is_valid recs ec s tds bs :
  (2 <= RecCount)%nat -> bc_rep s tds bs -> is_valid recs = true -> recs <> [] ->
  exists s' tds' bs', multipart_append is_valid recs ec s = Ret (true, ExitCode.OK) s'
    /\ bc_rep s' tds' bs' /\ bc_log bs' = bc_log bs ++ recs.
Proof.
  intros HR Hrep Hv Hne. unfold multipart_append. rewrite Hv. clear Hv.
  destruct recs as [|p recs]; [done|]. clear Hne.
  cbn [fold_each]. cbn [fst]. revert p s tds bs Hrep.
  induction recs as [|q recs IH]; intros p s tds bs Hrep;
    destruct (append_step _ _ _ p HR Hrep) as (s1 & tds1 & bs1 & E & Hrep1 & Hl1);
    rewrite (bind_Ret _ _ _ _ _ E); cbn [fold_each].
  - exists s1, tds1, bs1. done.
  - destruct (IH q s1 tds1 bs1 Hrep1) as (s' & tds' & bs' & E' & Hrep' & Hl').
    exists s', tds', bs'. split; [exact E'|]. split; [done|].
    rewrite Hl', Hl1, <- (assoc_L (++)). reflexivity.
Qed.

(** A multipart append of records the validator accepts appends all of
    them, in order. *)
Theorem multipart_append_adds_all is_valid recs ec s tds bs :
  (2 <= RecCount)%nat -> bc_rep s tds bs -> is_valid recs = true -> recs <> [] ->
  exists s' tds' bs', multipart_append is_valid recs ec s = Ret (true, ExitCode.OK) s'
    /\ bc_rep s' tds' bs' /\ bc_log bs' = bc_log bs ++ recs.
Proof. apply multipart_append_ok. Qed.

(** [get_block] returns the block's records as they are on disk, for every
    block of the chain, and leaves the chain as it is. *)
Theorem get_block_returns_block s tds bs i b :
  bc_rep s tds bs -> bs !! i = Some b ->
  exists s' tds', get_block (N.of_nat i) s = Ret (Some (mk_block b), ExitCode.OK) s'
    /\ bc_rep s' tds' bs.
Proof.
  intros Hrep Hb. destruct (get_block_ok _ _ _ _ _ Hrep Hb) as (s' & tds' & d & E & Hrep' & _). eauto.
Qed.

(** With the block size of the program, [get_record] returns the record at
    that position of the chain, counting payload and checksum records of all
    blocks, for every index below the record count. *)
Theorem get_record_returns_record s tds bs i :
  (2 <= RecCount)%nat -> N.of_nat RecCount = GRADIDO_BLOCK_SIZE ->
  bc_rep s tds bs -> (N.of_nat i < bc_rec_count s)%N ->
  exists r s' tds', get_record (N.of_nat i) s = Ret (Some r, ExitCode.OK) s'
    /\ all_records bs !! i = Some r /\ bc_rep s' tds' bs.
Proof. apply get_record_ok. Qed.

(** A chain survives a restart: constructing the object over the files of
    a well-formed chain and validating its blocks one after the other ends in
    a well-formed chain with the same blocks. *)
Theorem restart_recovers s tds bs clock :
  (2 <= RecCount)%nat -> bc_rep s tds bs ->
  get_file_count (regular_files (ft_fs (bc_tiles s))) = Some (N.of_nat (length bs)) ->
  exists s0 s' tds', Blockchain_init (ft_fs (bc_tiles s)) [] clock = Ret tt s0
    /\ validate_all (length bs) s0 = Ret tt s' /\ bc_rep s' tds' bs.
Proof.
  intros HR Hrep Hcount. pose proof (bc_tiles_ok _ _ _ Hrep) as Hk.
  destruct (init_ok (ft_fs (bc_tiles s)) bs clock HR (bc_sizes _ _ _ Hrep) (bc_full _ _ _ Hrep))
    as (s0 & tds0 & E0 & Hrv & _); [| |done|].
  - intros i b Hb. destruct (lookup_lt_is_Some_2 (ft_tiles (bc_tiles s)) i) as [t Ht].
    { rewrite <- (rep_blocks _ _ _ _ (tk_rep _ _ _ Hk)), length_map. eauto using lookup_lt_Some. }
    destruct (tk_lookup _ _ _ _ _ Hk Ht) as (d & recs & _ & Hr & _ & Hfs & _).
    rewrite list_lookup_fmap, Hb in Hr. now injection Hr as <-.
  - intros n Hn. apply (tk_more _ _ _ Hk). now rewrite length_map.
  - destruct (validate_all_ok bs (length bs) s0 tds0 0 0 Hrv eq_refl) as (s' & tds' & E' & Hrv').
    exists s0, s', tds'. auto using recovered.
Qed.

(** ** The folder

    The block store makes block files and moves bad ones away; it makes no
    others. *)

Definition store_name (p : string) : Prop := block_name p \/ exists t i, p = get_bad_file_name t i.
Abbreviation adds_own := (adds_only (W := BC) (fun s => ft_fs (bc_tiles s)) store_name).

Lemma adds_own_tile {A} (m : M FT A) : adds_only ft_fs block_name m -> adds_own (tile m).
Proof.
  intros Hm s a s' p H Hp. unfold tile, zoom in H. destruct (m (bc_tiles s)) as [x f|e f|] eqn:E; [|discriminate..].
  injection H as <- <-. destruct (Hm _ _ _ _ E Hp) as [H|H]; [now left|right; now left].
Qed.

Lemma adds_own_bad n : adds_own (move_to_bad n).
Proof.
  unfold move_to_bad. apply adds_only_bind; [auto with files|]. intros ct. cbv zeta.
  apply adds_only_bind; [auto with files|]. intros [f|]; [|auto with files].
  intros s a s' p [= _ <-]. cbn. rewrite lookup_insert_is_Some. intros [<-|[_ H]].
  - right. right. eauto.
  - rewrite lookup_delete_is_Some in H. now left.
Qed.
Hint Resolve adds_own_bad : files.
Hint Extern 1 (adds_only _ _ (tile _)) => apply adds_own_tile; eauto 3 with files : files.

Lemma adds_own_flush : adds_own maybe_flush_cache.
Proof.
  unfold maybe_flush_cache, flush_cache, get_tile_count, get_sup, release_fetched_data. files_auto.
  all: apply adds_own_tile; files_auto.
Qed.
Hint Resolve adds_own_flush : files.

Lemma adds_own_append p : adds_own (append p).
Proof.
  unfold append, get_prev_checksum, get_tile_count, get_state, get_sup, alloc_tile_data, incr_rec_count. files_auto.
  all: try (apply adds_own_tile; files_auto).
  apply adds_only_modify. intros s. now destruct (_ =? bc_checksum_valid_block_count s)%N.
Qed.

Lemma adds_own_validate : adds_own validate_next_checksum.
Proof.
  unfold validate_next_checksum, validate_block, get_prev_checksum, get_tile_count, get_state, get_sup. files_auto.
  all: try (apply adds_own_tile; files_auto).
Qed.

Lemma mk_block_checksum ps c : mk_block (ps, c) !! length ps = Some (checksum_rec c).
Proof. unfold mk_block. apply list_lookup_middle. now rewrite length_map. Qed.

Lemma last_insert_last {A} (l : list A) x y : last l = Some y -> last (<[(length l - 1)%nat := x]> l) = Some x.
Proof.
  intros H. rewrite last_lookup, length_insert.
  rewrite last_lookup in H. apply lookup_lt_Some in H. replace (Nat.pred (length l)) with (length l - 1)%nat by lia.
  apply list_lookup_insert_eq. lia.
Qed.

Lemma read_then_append s tds bs0 ps c p :
  (2 <= RecCount)%nat -> bc_rep s tds (bs0 ++ [(ps, c)]) ->
  (bc_rec_count s mod N.of_nat RecCount <> 0)%N ->
  exists s' tds' d, (get_block (N.of_nat (length bs0)) ;;; append p) s = Ret (true, ExitCode.OK) s'
    /\ bc_rep s' (tds' ++ [d]) (bs0 ++ [(ps ++ [p], calc_checksum c (payload_rec p))])
    /\ td_fetched d = Some (mk_block (ps, c)).
Proof.
  intros HR Hrep Hm.
  destruct (get_block_ok _ _ _ (length bs0) (ps, c) Hrep) as (s1 & tds1 & d & E & Hrep1 & Hd & Hf).
  { now apply list_lookup_middle. }
  rewrite (bind_Ret _ _ _ _ _ E).
  assert (bc_rec_count s1 = bc_rec_count s) as Hc
    by (now rewrite (bc_count _ _ _ Hrep), (bc_count _ _ _ Hrep1)).
  destruct (append_same_block _ _ _ _ _ p HR Hrep1) as (d' & m & r & s' & tds' & Hl & Hf' & Hr & E' & Hrep');
    [now rewrite Hc|].
  assert (d' = d) as ->.
  { rewrite last_lookup in Hl. pose proof (tk_rep _ _ _ (bc_tiles_ok _ _ _ Hrep1)) as Hft.
    rewrite (rep_tds _ _ _ _ Hft), <- (rep_blocks _ _ _ _ Hft), length_map, length_app in Hl.
    cbn in Hl. rewrite Nat.add_1_r in Hl. cbn in Hl. congruence. }
  assert (m = mk_block (ps, c)) as -> by congruence.
  rewrite mk_block_checksum in Hr. injection Hr as <-. cbn [checksum_of rec_u checksum_rec] in Hrep'.
  exists s', tds', (rewound (length bs0) d). done.
Qed.

(** When the last block is read before the append, as the program does,
    the new checksum is computed from the previous one and the new record. *)
Theorem append_after_read_chains s tds bs0 ps c p :
  (2 <= RecCount)%nat -> bc_rep s tds (bs0 ++ [(ps, c)]) ->
  (bc_rec_count s mod N.of_nat RecCount <> 0)%N ->
  exists s' tds', (get_block (N.of_nat (length bs0)) ;;; append p) s = Ret (true, ExitCode.OK) s'
    /\ bc_rep s' tds' (bs0 ++ [(ps ++ [p], calc_checksum c (payload_rec p))]).
Proof.
  intros HR Hrep Hm. destruct (read_then_append _ _ _ _ _ p HR Hrep Hm) as (s' & tds' & d & E & Hr & _). eauto.
Qed.

(** C11: a second append without reading the block in between takes the
    previous checksum from the stale copy in memory, where it is zero: the
    new checksum covers only the new record. *)
Theorem append_twice_drops_chain s tds bs0 ps c p1 p2 :
  (2 <= RecCount)%nat -> bc_rep s tds (bs0 ++ [(ps, c)]) -> (length ps + 3 <= RecCount)%nat ->
  exists s' tds',
    (get_block (N.of_nat (length bs0)) ;;; append p1 ;;; append p2) s = Ret (true, ExitCode.OK) s'
    /\ bc_rep s' tds'
         (bs0 ++ [(ps ++ [p1; p2], calc_checksum zero_checksum (payload_rec p2))]).
Proof.
  intros HR Hrep Hps.
  assert (forall s' tds' ps' c', bc_rep s' tds' (bs0 ++ [(ps', c')]) -> (length ps' + 2 <= RecCount)%nat ->
    (bc_rec_count s' mod N.of_nat RecCount <> 0)%N) as Hmod.
  { intros s' tds' ps' c' Hrep' Hl. destruct (bc_rep_snoc _ _ _ _ HR Hrep') as (Hc & _). cbn in Hc.
    rewrite Hc. replace (N.of_nat _) with (N.of_nat (length ps' + 1) + N.of_nat (length bs0) * N.of_nat RecCount)%N by lia.
    rewrite N.Div0.mod_add, N.mod_small by lia. lia. }
  destruct (read_then_append _ _ _ _ _ p1 HR Hrep (Hmod _ _ _ _ Hrep ltac:(lia)))
    as (s1 & tds1 & d & E & Hrep1 & Hf).
  assert ((get_block (N.of_nat (length bs0)) ;;; append p1 ;;; append p2) s = append p2 s1) as ->.
  { rewrite <- bind_assoc. now rewrite (bind_Ret _ _ _ _ _ E). }
  destruct (append_same_block _ _ _ _ _ p2 HR Hrep1) as (d' & m & r & s' & tds' & Hl & Hf' & Hr & E' & Hrep').
  { eapply Hmod; [exact Hrep1|]. rewrite length_app. cbn. lia. }
  rewrite last_snoc in Hl. injection Hl as <-. assert (m = mk_block (ps, c)) as -> by congruence.
  assert (r = zero_rec) as ->.
  { unfold mk_block in Hr. cbn [fst snd] in Hr.
    rewrite lookup_app_r in Hr by (rewrite length_map, length_app; cbn; lia).
    rewrite length_app, length_map in Hr. cbn [length] in Hr.
    replace (length ps + 1 - length ps)%nat with 1%nat in Hr by lia. cbn [app lookup list_lookup] in Hr.
    destruct (RecCount - length ps - 1)%nat as [|n]; [discriminate|]. now injection Hr. }
  exists s', (tds' ++ [rewound (length bs0) d]). split; [exact E'|].
  rewrite <- (assoc_L (++)) in Hrep'. exact Hrep'.
Qed.

(** The first checksum of a new block does not depend on the blocks before
    it: the previous checksum it starts from is always zero. *)
Theorem new_block_starts_from_zero s tds bs p :
  (2 <= RecCount)%nat -> bc_rep s tds bs -> (bc_rec_count s mod N.of_nat RecCount = 0)%N ->
  exists s' tds', append p s = Ret (true, ExitCode.OK) s'
    /\ bc_rep s' tds' (bs ++ [([p], calc_checksum zero_checksum (payload_rec p))]).
Proof.
  intros HR Hrep Hm. destruct (append_new_block _ _ _ p HR Hrep Hm) as (s' & tds' & d & E & Hr & _). eauto.
Qed.

(** The shape [validate_block] accepts: records that are neither empty nor
    checksums, at least one of them a payload, then a checksum, then empty
    records. *)
Definition block_shape (rs : list (Rec T)) (has_empty : bool) : Prop :=
  exists pre c post, rs = pre ++ c :: post
    /\ Forall (fun r => is_type EMPTY r = false /\ is_type CHECKSUM r = false) pre
    /\ Exists (fun r => is_type PAYLOAD r = true) pre
    /\ is_type CHECKSUM c = true
    /\ Forall (fun r => is_type EMPTY r = true) post
    /\ has_empty = negb (length post =? 0)%nat.

Lemma scan_finished rs he hp b he' :
  validate_scan rs true he hp = inr (b, he') <->
  b = true /\ Forall (fun r => is_type EMPTY r = true) rs /\ he' = he || negb (length rs =? 0)%nat.
Proof.
  revert he. induction rs as [|r rs IH]; intros he; cbn.
  - rewrite orb_false_r. split; [intros [= <- <-]; auto|intros (-> & _ & ->); done].
  - destruct (is_type EMPTY r) eqn:E; cbn.
    + rewrite IH, orb_true_r. split; intros (-> & H & ->); repeat split; auto.
      now inversion_clear H.
    + split; [discriminate|]. intros (_ & H & _). inversion H. congruence.
Qed.

Lemma scan_shape rs hp he :
  validate_scan rs false false hp = inr (true, he) <->
  exists pre c post, rs = pre ++ c :: post
    /\ Forall (fun r => is_type EMPTY r = false /\ is_type CHECKSUM r = false) pre
    /\ (hp = true \/ Exists (fun r => is_type PAYLOAD r = true) pre)
    /\ is_type CHECKSUM c = true
    /\ Forall (fun r => is_type EMPTY r = true) post
    /\ he = negb (length post =? 0)%nat.
Proof.
  revert hp. induction rs as [|r rs IH]; intros hp; cbn.
  { split; [discriminate|]. intros (pre & c & post & H & _). now destruct pre. }
  assert (is_type PAYLOAD r = true -> is_type EMPTY r = false /\ is_type CHECKSUM r = false) as HP.
  { unfold is_type. cbn. intros H. destruct_bool_eqns. rewrite H. done. }
  assert (is_type CHECKSUM r = true -> is_type EMPTY r = false /\ is_type PAYLOAD r = false) as HC.
  { unfold is_type. cbn. intros H. destruct_bool_eqns. rewrite H. done. }
  destruct (is_type PAYLOAD r) eqn:EP; [|destruct (is_type EMPTY r) eqn:EE; [|destruct (is_type CHECKSUM r) eqn:EC]].
  - rewrite IH. split; intros (pre & c & post & Hrs & Hpre & Hp & Hc & Hpost & Hhe).
    + exists (r :: pre), c, post. subst rs. split; [done|]. split; [constructor; [now apply HP|done]|].
      split; [right; now left|]. auto 10.
    + destruct pre as [|x pre]; cbn in Hrs; injection Hrs as -> Hrs.
      { destruct HP; [done|congruence]. }
      exists pre, c, post. inversion_clear Hpre. auto 10.
  - split; [discriminate|]. intros (pre & c & post & Hrs & Hpre & Hp & Hc & _).
    destruct pre as [|x pre]; cbn in Hrs; injection Hrs as -> Hrs.
    + destruct (HC Hc). congruence.
    + inversion_clear Hpre. destruct H. congruence.
  - destruct hp; cbn.
    + rewrite scan_finished. split.
      * intros (_ & Hpost & ->). exists [], r, rs. auto 10.
      * intros (pre & c & post & Hrs & Hpre & Hp & Hc & Hpost & Hhe).
        destruct pre as [|x pre]; cbn in Hrs; injection Hrs as -> Hrs; [now subst|].
        inversion_clear Hpre. destruct H. congruence.
    + split; [discriminate|]. intros (pre & c & post & Hrs & Hpre & Hp & Hc & Hpost & Hhe).
      destruct pre as [|x pre]; cbn in Hrs; injection Hrs as -> Hrs.
      * destruct Hp as [|Hp]; [done|inversion Hp].
      * inversion_clear Hpre. destruct H. congruence.
  - rewrite IH. split; intros (pre & c & post & Hrs & Hpre & Hp & Hc & Hpost & Hhe).
    + exists (r :: pre), c, post. subst rs. split; [done|]. split; [constructor; done|].
      split; [destruct Hp; [now left|right; now right]|]. auto 10.
    + destruct pre as [|x pre]; cbn in Hrs; injection Hrs as -> Hrs; [congruence|].
      exists pre, c, post. inversion_clear Hpre. split; [done|]. split; [done|].
      split; [|auto]. destruct Hp as [|Hp]; [now left|]. inversion Hp; [congruence|now right].
Qed.

(** C15: [validate_block] accepts exactly the blocks of that shape; of the
    reasons it names for a refusal, "not full" and "bad checksum" are never
    given: a partial block is accepted wherever it is, and the records are
    not compared with their checksum. *)
Theorem validate_block_accepts_shape s tds blocks n rs must_be_full :
  tiles_ok (bc_tiles s) tds blocks -> (n <= length blocks)%nat ->
  (exists ok ec, validate_block (N.of_nat n) rs must_be_full ExitCode.OK s = Ret (ok, ec) s
     /\ (ok = true <-> exists he, block_shape (take RecCount rs) he)
     /\ (ok = true -> ec = ExitCode.OK)
     /\ (ok = false -> ec = ExitCode.NON_EMPTY_RECORD_AFTER_CHECKSUM
                       \/ ec = ExitCode.EMPTY_RECORD_BEFORE_CHECKSUM
                       \/ ec = ExitCode.NO_PAYLOAD \/ ec = ExitCode.NO_CHECKSUM)).
Proof.
  intros Hk Hn. unfold validate_block.
  assert (forall he, validate_scan (take RecCount rs) false false false = inr (true, he)
                     <-> block_shape (take RecCount rs) he) as Hshape.
  { intros he. rewrite scan_shape. unfold block_shape. split.
    - intros (pre & c & post & ? & ? & [Hp|Hp] & ?); [done|]. exists pre, c, post. auto.
    - intros (pre & c & post & ? & ? & Hp & ?). exists pre, c, post. auto. }
  assert (forall l f he hp e, validate_scan l f he hp = inl e ->
    e = ExitCode.NON_EMPTY_RECORD_AFTER_CHECKSUM \/ e = ExitCode.EMPTY_RECORD_BEFORE_CHECKSUM
    \/ e = ExitCode.NO_PAYLOAD \/ e = ExitCode.NO_CHECKSUM) as Herr.
  { induction l as [|r l IH]; cbn; [discriminate|]. intros f he hp e H.
    repeat (match type of H with context [if ?b then _ else _] => destruct b end);
      try (injection H as <-; auto); eauto. }
  destruct (validate_scan (take RecCount rs) false false false) as [e|[fin he]] eqn:E.
  { exists false, e. split; [done|]. split; [|split; [discriminate|eauto]].
    split; [discriminate|]. intros [he Hs]. apply Hshape in Hs. discriminate. }
  destruct fin; cbn [negb].
  2:{ exists false, ExitCode.NO_CHECKSUM. split; [done|]. split; [|split; [discriminate|auto]].
      split; [discriminate|]. intros [he' Hs]. apply Hshape in Hs. discriminate. }
  exists true, ExitCode.OK. split; [|split; [|split; [done|discriminate]]].
  - destruct (must_be_full && he); [done|]. rewrite (tile_count_bind _ _ _ _ (tk_rep _ _ _ Hk)).
    destruct (he && _); [done|]. now rewrite (bind_Ret _ _ _ _ _ (get_prev_checksum_ok _ _ _ n Hk Hn)).
  - split; [|done]. intros _. exists he. now apply Hshape.
Qed.

Lemma maybe_flush_empty s : ft_tiles (bc_tiles s) = [] -> maybe_flush_cache s = Ret tt s.
Proof.
  intros H. unfold maybe_flush_cache. rewrite !gets_bind'. destruct (_ <? _)%N; [|done].
  unfold flush_cache. erewrite tile_pure_bind by (unfold get_tile_count, gets; now rewrite H). reflexivity.
Qed.

Lemma truncate_zero_ok (f : FT) tds blocks :
  ft_rep RecCount f tds blocks -> exists f', truncate_tail 0 f = Ret tt f' /\ ft_tiles f' = [].
Proof.
  intros Hr. unfold truncate_tail. rewrite gets_bind. cbn [N.to_nat]. rewrite drop_0, take_0.
  destruct (N.leb_spec (N.of_nat (length (ft_tiles f))) 0) as [H0|H0].
  - exists f. split; [done|]. apply nil_length_inv. lia.
  - match goal with |- context [for_each ?l ?body] =>
      destruct (for_each_inv (fun g : FT => length (ft_descs g) = length (ft_descs f))
        l body f) as (g & E & _) end; [done| |].
    + intros t g Ht Hl. apply list_elem_of_lookup in Ht as [i Ht].
      destruct (rep_lookup _ _ _ _ _ _ Hr Ht) as (d & _ & _ & _ & Hd & _).
      destruct (lookup_lt_is_Some_2 (ft_descs g) t) as [d' Hd'].
      { rewrite Hl. eauto using lookup_lt_Some. }
      unfold set_state. rewrite (upd_bind _ _ _ _ _ Hd'). eexists. split; [reflexivity|].
      cbn. now rewrite length_insert.
    + rewrite (bind_Ret _ _ _ _ _ E). eexists. split; reflexivity.
Qed.

(** [truncate(0)] empties the tile list and keeps the record count, so
    that the next [append] looks for the block before the first one and
    throws, whenever the last block was not full. *)
Theorem append_after_truncate_throws s tds bs p :
  (2 <= RecCount)%nat -> bc_rep s tds bs -> (bc_rec_count s mod N.of_nat RecCount <> 0)%N ->
  exists s', (truncate 0 ;;; append p) s = Throw "TileFile: index too large" s'.
Proof.
  intros HR Hrep Hm. unfold truncate.
  destruct (truncate_zero_ok _ _ _ (tk_rep _ _ _ (bc_tiles_ok _ _ _ Hrep))) as (f & E & Hf).
  rewrite (tile_bind _ _ _ _ _ E).
  unfold append. set (s1 := with_bc_tiles f s).
  rewrite (bind_Ret _ _ _ _ _ (maybe_flush_empty s1 Hf)), gets_bind'. cbv zeta. cbn [s1 bc_rec_count with_bc_tiles].
  destruct (Nat.eqb_spec (N.to_nat (bc_rec_count s mod N.of_nat RecCount)) 0) as [|_]; [lia|].
  erewrite tile_pure_bind by (unfold get_tile_count, gets; cbn; now rewrite Hf). cbn [length N.of_nat].
  exists s1. unfold bind at 1, tile, zoom, get_tile. rewrite gets_bind. cbn [bc_tiles with_bc_tiles s1].
  rewrite Hf. cbn. now destruct s.
Qed.

(** A block file of the wrong length is not moved aside: opening it fails,
    the failure hides the reason, and validation throws. *)
Theorem validate_bad_length_throws s t d f :
  (bc_clock s <= bc_next_cache_flush_timestamp s)%N ->
  ft_tiles (bc_tiles s) !! N.to_nat (bc_checksum_valid_block_count s) = Some t ->
  ft_descs (bc_tiles s) !! t = Some d -> td_handle d = None ->
  ft_fs (bc_tiles s) !! get_file_name (td_index d) = Some f -> f_regular f = true ->
  length (f_recs f) <> RecCount ->
  exists s', validate_next_checksum s = Throw "bad block file, cannot recover" s'.
Proof.
  intros Hclk Ht Hd Hh Hf Hreg Hlen. unfold validate_next_checksum, maybe_flush_cache.
  rewrite bind_assoc, gets_bind', bind_assoc, gets_bind'.
  destruct (N.ltb_spec (bc_next_cache_flush_timestamp s) (bc_clock s)) as [|_]; [lia|].
  change (bind (ret tt) ?k s) with (k tt s). cbv beta. rewrite gets_bind'.
  rewrite (tile_pure_bind get_tile_count _ s (N.of_nat (length (ft_tiles (bc_tiles s)))) eq_refl).
  apply lookup_lt_Some in Ht as Hlt.
  destruct (N.ltb_spec (bc_checksum_valid_block_count s) (N.of_nat (length (ft_tiles (bc_tiles s)))))
    as [Hlt'|]; [|lia].
  assert (get_tile (bc_checksum_valid_block_count s) (bc_tiles s) = Ret t (bc_tiles s)) as Eg.
  { unfold get_tile. rewrite gets_bind.
    destruct (N.leb_spec (N.of_nat (length (ft_tiles (bc_tiles s)))) (bc_checksum_valid_block_count s)); [lia|].
    now rewrite Ht. }
  rewrite (tile_pure_bind _ _ _ _ Eg).
  set (d1 := td_with_state CANNOT_OPEN_FILE (td_with_handle None d)).
  assert (sync_from_file zero_rec RecCount t true (bc_tiles s) = Ret false (setd t d1 (bc_tiles s))) as Es.
  { unfold sync_from_file, open_file. rewrite bind_assoc. erewrite desc_bind by exact Hd. rewrite Hh. cbv zeta.
    unfold check_file2. rewrite !bind_assoc, gets_bind, ret_bind, Hf, Hreg. cbn [negb].
    destruct (Nat.eqb_spec (length (f_recs f)) RecCount) as [|_]; [done|]. cbn [andb negb].
    rewrite bind_assoc, ret_bind, bind_assoc. unfold set_handle. erewrite upd_bind by exact Hd.
    rewrite bind_assoc. unfold set_state. erewrite upd_bind by (eapply setd_lookup; exact Hd).
    rewrite setd_setd. reflexivity. }
  rewrite (tile_bind _ _ _ _ _ Es).
  assert (get_state t (setd t d1 (bc_tiles s)) = Ret CANNOT_OPEN_FILE (setd t d1 (bc_tiles s))) as Est.
  { unfold get_state. erewrite desc_bind by (eapply setd_lookup; exact Hd). reflexivity. }
  erewrite tile_bind by exact Est. eexists. reflexivity.
Qed.

End blockchain.

(** ** One-block chains, for the witnesses *)

Definition later_use (x y : SortableTileIndex) : Prop := (x.2 <= y.2)%N.
#[export] Instance later_use_dec : RelDecision later_use.
Proof. intros x y. unfold later_use. apply _. Defined.
#[export] Instance later_use_trans : Transitive later_use.
Proof. intros x y z. unfold later_use. lia. Qed.
#[export] Instance later_use_total : Total later_use.
Proof. intros x y. unfold later_use. lia. Qed.

Definition demo_sort : StdSort := {|
  std_sort := merge_sort later_use;
  std_sort_perm := merge_sort_Permutation later_use;
  std_sort_sorted := StronglySorted_merge_sort later_use |}.

Definition demo_fnr : Fnr := mkFnr "/data" "bc".
Definition demo_bad : BadFileNames := {| get_bad_file_name := Fnr_get_bad_file_name demo_fnr |}.
Definition demo_bytes (p : Z) : bytes := [p].
Definition demo_sha (l : bytes) : bytes := take 64 (l ++ zero_checksum).
Definition demo_block : list Z * bytes := ([7%Z], [1%Z]).

(** A chain with the one block [b], of [RecCount] records. *)
Definition one_desc {T} (RecCount : nat) (b : list T * bytes) : TileDesc (Rec T) TileSup :=
  mkTileDesc 0 OK (Some (mk_block RecCount b)) None TileSup_new.

Definition one_block_chain {T} (RecCount : nat) (b : list T * bytes) : Blockchain T :=
  mkBlockchain
    (mkFileTile (<["/data/bc.0.block" := good_file (mk_block RecCount b)]> ∅) []
       [one_desc RecCount b] [] [0%nat])
    1 0 (N.of_nat (S (length b.1))) 0.

Definition demo_chain (RecCount : nat) : Blockchain Z := one_block_chain RecCount demo_block.

(** A chain without blocks. *)
Definition empty_chain {T} : Blockchain T := mkBlockchain (mkFileTile ∅ [] [] [] []) 0 0 0 0.

#[local] Existing Instances demo_sort demo_bad.
Definition demo_names : FileNameResolver := Fnr_resolver demo_fnr.
#[local] Existing Instance demo_names.

Lemma one_block_rep {T} RecCount (b : list T * bytes) :
  (2 <= RecCount)%nat -> (1 <= length b.1 <= RecCount - 1)%nat ->
  bc_rep RecCount (one_block_chain RecCount b) [one_desc RecCount b] [b].
Proof.
  intros HR Hb. assert (length (mk_block RecCount b) = RecCount) as Hlen by (now apply mk_block_length).
  split; cbn [bc_tiles one_block_chain bc_rec_count bc_checksum_valid_block_count]; try reflexivity.
  - split.
    + split; cbn; try reflexivity; [repeat constructor; set_solver|set_solver|].
      intros [|i] t d recs Ht Hd Hr; [|destruct i; discriminate]. cbn in *. simplify_eq.
      split; [done|]. split; [reflexivity|].
      split; cbn; [done|exact Hlen|now intros m [= <-]|exact I].
    + intros [|i] d Hd; [|destruct i; discriminate]. cbn in Hd. now simplify_eq.
    + intros n Hn. cbn in Hn. cbn [ft_fs]. rewrite lookup_insert_ne; [apply lookup_empty|].
      change "/data/bc.0.block" with (get_file_name (N.of_nat 0)).
      intros E. apply get_file_name_inj in E. lia.
  - intros d Hd. cbn in Hd. now simplify_eq.
  - intros [|i] x Hx; [|destruct i; discriminate]. cbn in Hx. now simplify_eq.
  - intros [|i] x Hx Hi; [|destruct i; discriminate]. cbn in Hi. lia.
  - cbn. f_equal. lia.
Qed.

Lemma empty_chain_rep {T} RecCount : bc_rep RecCount (empty_chain (T := T)) [] [].
Proof.
  split; try done. split.
  - split; cbn; try done; [apply NoDup_nil_2|set_solver].
  - done.
  - intros n _. apply lookup_empty.
Qed.

Lemma demo_chain_rep RecCount :
  (2 <= RecCount)%nat ->
  bc_rep RecCount (demo_chain RecCount) [one_desc RecCount demo_block] [demo_block].
Proof. intros HR. apply one_block_rep; [done|]. cbn. lia. Qed.

Lemma append_adds_payload_witness :
  exists s' tds' bs', append demo_bytes demo_sha 4 10 60 9%Z (demo_chain 4) = Ret (true, ExitCode.OK) s'
    /\ bc_rep 4 s' tds' bs' /\ bc_log bs' = [7; 9]%Z.
Proof. exact (append_adds_payload demo_bytes demo_sha 4 10 60 _ _ _ 9%Z ltac:(lia) (demo_chain_rep 4 ltac:(lia))). Defined.

Lemma multipart_append_adds_all_witness :
  exists s' tds' bs',
    multipart_append demo_bytes demo_sha 4 10 60 (fun l => (length l <? 3)%nat) [9; 8]%Z
      ExitCode.BAD_CHECKSUM (demo_chain 4) = Ret (true, ExitCode.OK) s'
    /\ bc_rep 4 s' tds' bs' /\ bc_log bs' = [7; 9; 8]%Z.
Proof.
  exact (multipart_append_adds_all demo_bytes demo_sha 4 10 60 (fun l => (length l <? 3)%nat) [9; 8]%Z
    ExitCode.BAD_CHECKSUM _ _ _ ltac:(lia) (demo_chain_rep 4 ltac:(lia)) eq_refl ltac:(discriminate)).
Defined.

Lemma get_block_returns_block_witness :
  exists s' tds', get_block 4 10 60 0 (demo_chain 4) = Ret (Some (mk_block 4 demo_block), ExitCode.OK) s'
    /\ bc_rep 4 s' tds' [demo_block].
Proof. exact (get_block_returns_block 4 10 60 _ _ _ 0 demo_block (demo_chain_rep 4 ltac:(lia)) eq_refl). Defined.

Lemma get_record_returns_record_witness :
  exists r s' tds', get_record 1000 10 60 1 (demo_chain 1000) = Ret (Some r, ExitCode.OK) s'
    /\ all_records 1000 [demo_block] !! 1%nat = Some r /\ bc_rep 1000 s' tds' [demo_block].
Proof.
  exact (get_record_returns_record 1000 10 60 _ _ _ 1 ltac:(lia) eq_refl
           (demo_chain_rep 1000 ltac:(lia)) eq_refl).
Defined.

Lemma restart_recovers_witness :
  exists s0 s' tds',
    Blockchain_init 4 (ft_fs (bc_tiles (demo_chain 4))) [] 5 = Ret tt s0
    /\ validate_all 4 10 60 1 s0 = Ret tt s' /\ bc_rep 4 s' tds' [demo_block].
Proof.
  exact (restart_recovers 4 10 60 _ _ _ 5 ltac:(lia) (demo_chain_rep 4 ltac:(lia))
           ltac:(vm_compute; reflexivity)).
Defined.

Lemma append_after_read_chains_witness :
  exists s' tds',
    (get_block 4 10 60 0 ;;; append demo_bytes demo_sha 4 10 60 9%Z) (demo_chain 4)
    = Ret (true, ExitCode.OK) s'
    /\ bc_rep 4 s' tds' [([7; 9]%Z, calc_checksum demo_bytes demo_sha [1%Z] (payload_rec 9%Z))].
Proof.
  exact (append_after_read_chains demo_bytes demo_sha 4 10 60 _ _ [] [7%Z] [1%Z] 9%Z ltac:(lia)
           (demo_chain_rep 4 ltac:(lia)) ltac:(vm_compute; discriminate)).
Defined.

Lemma append_twice_drops_chain_witness :
  exists s' tds',
    (get_block 4 10 60 0 ;;; append demo_bytes demo_sha 4 10 60 9%Z ;;;
     append demo_bytes demo_sha 4 10 60 8%Z) (demo_chain 4)
    = Ret (true, ExitCode.OK) s'
    /\ bc_rep 4 s' tds'
         [([7; 9; 8]%Z, calc_checksum demo_bytes demo_sha zero_checksum (payload_rec 8%Z))].
Proof.
  exact (append_twice_drops_chain demo_bytes demo_sha 4 10 60 _ _ [] [7%Z] [1%Z] 9%Z 8%Z ltac:(lia)
           (demo_chain_rep 4 ltac:(lia)) ltac:(cbn; lia)).
Defined.

Lemma new_block_starts_from_zero_witness :
  exists s' tds',
    append demo_bytes demo_sha 2 10 60 9%Z (demo_chain 2) = Ret (true, ExitCode.OK) s'
    /\ bc_rep 2 s' tds'
         [demo_block; ([9%Z], calc_checksum demo_bytes demo_sha zero_checksum (payload_rec 9%Z))].
Proof.
  exact (new_block_starts_from_zero demo_bytes demo_sha 2 10 60 _ _ _ 9%Z ltac:(lia)
           (demo_chain_rep 2 ltac:(lia)) ltac:(vm_compute; reflexivity)).
Defined.

Lemma validate_block_accepts_shape_witness :
  exists ok ec,
    validate_block 4 (N.of_nat 0) (mk_block 4 demo_block) true ExitCode.OK (demo_chain 4)
    = Ret (ok, ec) (demo_chain 4)
    /\ (ok = true <-> exists he, block_shape (take 4 (mk_block 4 demo_block)) he)
    /\ (ok = true -> ec = ExitCode.OK)
    /\ (ok = false -> ec = ExitCode.NON_EMPTY_RECORD_AFTER_CHECKSUM
                      \/ ec = ExitCode.EMPTY_RECORD_BEFORE_CHECKSUM
                      \/ ec = ExitCode.NO_PAYLOAD \/ ec = ExitCode.NO_CHECKSUM).
Proof.
  exact (validate_block_accepts_shape 4 _ _ _ 0 (mk_block 4 demo_block) true
           (bc_tiles_ok _ _ _ _ (demo_chain_rep 4 ltac:(lia))) ltac:(cbn; lia)).
Defined.

Lemma append_after_truncate_throws_witness :
  exists s', (truncate 0 ;;; append demo_bytes demo_sha 4 10 60 9%Z) (demo_chain 4)
             = Throw "TileFile: index too large" s'.
Proof.
  exact (append_after_truncate_throws demo_bytes demo_sha 4 10 60 _ _ _ 9%Z ltac:(lia)
           (demo_chain_rep 4 ltac:(lia)) ltac:(vm_compute; discriminate)).
Defined.

(** The same chain opened with another record count. *)
Definition demo_short : Blockchain Z :=
  mkBlockchain
    (mkFileTile (<["/data/bc.0.block" := good_file (mk_block 4 demo_block)]> ∅) []
       [mkTileDesc 0 BAD_LENGTH None None TileSup_new] [] [0%nat])
    0 0 0 0.

Lemma validate_bad_length_throws_witness :
  exists s', validate_next_checksum 5 10 60 demo_short = Throw "bad block file, cannot recover" s'.
Proof.
  apply (validate_bad_length_throws 5 10 60 demo_short 0
           (mkTileDesc 0 BAD_LENGTH None None TileSup_new) (good_file (mk_block 4 demo_block)));
    try reflexivity; vm_compute; discriminate.
Defined.
