(* ===== verification/BlockchainBase.v ===== *)
(** * What all blockchains share (blockchain_base_deprecated.h, blockchain_base.h)

    A blockchain object fetches its blocks from a sibling or validates the
    ones it has, and then appends incoming transactions in order of their
    sequence number.  It is a state machine driven by tasks and by answers
    of other nodes; calls to the facade and the communication layer are
    recorded as effects.  The block store it sits on is reached through the
    interface [Storage]; the laws clients rely on are in [StorageLaws] and
    proved of [Blockchain].  What a concrete blockchain adds is the class
    [Child] (the pure virtual methods). *)

From stdpp Require Import base gmap strings numbers list.
From Stdlib Require Import ZArith Lia.
From S2P Require Import Prelude GradidoDef FileTile Fnr Blockchain.
Local Open Scope node_scope.
Set Default Proof Using "Type".

(** ** The block store as its clients see it *)

Class Storage (T St : Type) := {
  st_append : (list T -> bool) -> list T -> M St (bool * ExitCode);
  st_truncate : N -> M St unit;
  st_validate_next_checksum : M St (bool * ExitCode);
  st_get_block_count : M St N;
  st_get_checksum_valid_block_count : M St N;
  st_get_rec_count : M St N;
  st_get_block : N -> M St (option (list (Rec T)) * ExitCode);
  st_get_record : N -> M St (option (Rec T) * ExitCode);
}.

Abbreviation BLOCK := (N.to_nat GRADIDO_BLOCK_SIZE).

(** [rep s bs]: the store holds the blocks [bs]. *)
Class StorageLaws {T St : Type} `{!Storage T St} (rep : St -> list (list T * bytes) -> Prop) := {
  law_sizes : forall s bs i b, rep s bs -> bs !! i = Some b ->
    (1 <= length b.1 <= BLOCK - 1)%nat;
  law_full : forall s bs i b, rep s bs -> bs !! i = Some b -> (S i < length bs)%nat ->
    length b.1 = (BLOCK - 1)%nat;
  law_append : forall s bs valid recs, rep s bs -> recs <> [] -> valid recs = true ->
    exists s' bs', st_append valid recs s = Ret (true, ExitCode.OK) s' /\ rep s' bs'
      /\ bc_log bs' = bc_log bs ++ recs;
  law_block_count : forall s bs, rep s bs ->
    st_get_block_count s = Ret (N.of_nat (length bs)) s;
  law_valid_count : forall s bs, rep s bs ->
    st_get_checksum_valid_block_count s = Ret (N.of_nat (length bs)) s;
  law_rec_count : forall s bs, rep s bs ->
    st_get_rec_count s = Ret (N.of_nat (rec_total bs)) s;
  law_get_block : forall s bs i b, rep s bs -> bs !! i = Some b ->
    exists s', st_get_block (N.of_nat i) s = Ret (Some (mk_block BLOCK b), ExitCode.OK) s'
      /\ rep s' bs;
  law_get_record : forall s bs i, rep s bs -> (i < rec_total bs)%nat ->
    exists r s', st_get_record (N.of_nat i) s = Ret (Some r, ExitCode.OK) s'
      /\ all_records BLOCK bs !! i = Some r /\ rep s' bs;
  law_truncate : forall s bs, rep s bs -> exists s', st_truncate 0 s = Ret tt s';
}.

(** [ValidatedMultipartBlockchain] forwards to the block store. *)
Section blockchain_storage.
Context {T : Type} (payload_bytes : T -> bytes) (sha512 : bytes -> bytes).
Context (optimal_cache_size interval : N).
Context `{FNR : !FileNameResolver, BFN : !BadFileNames, SORT : !StdSort}.

#[local] Instance Blockchain_Storage : Storage T (Blockchain T) := {|
  st_append is_valid recs :=
    multipart_append payload_bytes sha512 BLOCK optimal_cache_size interval is_valid recs ExitCode.OK;
  st_truncate := truncate;
  st_validate_next_checksum := validate_next_checksum BLOCK optimal_cache_size interval;
  st_get_block_count := get_block_count;
  st_get_checksum_valid_block_count := gets bc_checksum_valid_block_count;
  st_get_rec_count := get_rec_count;
  st_get_block := get_block BLOCK optimal_cache_size interval;
  st_get_record := get_record BLOCK optimal_cache_size interval |}.

Definition Blockchain_rep (s : Blockchain T) (bs : list (list T * bytes)) : Prop :=
  exists tds, bc_rep BLOCK s tds bs.

#[local] Instance Blockchain_laws : StorageLaws Blockchain_rep.
Proof.
  assert (2 <= BLOCK)%nat as HR by (vm_compute; lia).
  split.
  - intros s bs i b [tds H]. exact (bc_sizes _ _ _ _ H i b).
  - intros s bs i b [tds H]. exact (bc_full _ _ _ _ H i b).
  - intros s bs valid recs [tds H] Hne Hv.
    destruct (multipart_append_ok payload_bytes sha512 BLOCK optimal_cache_size interval
      valid recs ExitCode.OK s tds bs HR H Hv Hne) as (s' & tds' & bs' & E & H' & Hl).
    exists s', bs'. split; [exact E|]. split; [now exists tds'|done].
  - intros s bs [tds H]. cbn. unfold get_block_count, tile, zoom.
    pose proof (rep_blocks _ _ _ _ (tk_rep _ _ _ _ (bc_tiles_ok _ _ _ _ H))) as Hl.
    rewrite length_map in Hl. unfold get_tile_count, gets. rewrite <- Hl. now destruct s.
  - intros s bs [tds H]. cbn. unfold gets. now rewrite (bc_valid _ _ _ _ H).
  - intros s bs [tds H]. cbn. unfold get_rec_count, gets. now rewrite (bc_count _ _ _ _ H).
  - intros s bs i b [tds H] Hb.
    destruct (get_block_ok BLOCK optimal_cache_size interval s tds bs i b H Hb) as (s' & tds' & d & E & H' & _).
    exists s'. split; [exact E|now exists tds'].
  - intros s bs i [tds H] Hi.
    destruct (get_record_ok BLOCK optimal_cache_size interval s tds bs i HR eq_refl H) as (r & s' & tds' & E & Hr & H').
    { rewrite (bc_count _ _ _ _ H). unfold rec_total in Hi. lia. }
    exists r, s'. split; [exact E|]. split; [done|now exists tds'].
  - intros s bs [tds H].
    destruct (truncate_zero_ok _ _ _ _ (tk_rep _ _ _ _ (bc_tiles_ok _ _ _ _ H))) as (f & E & _).
    eexists. cbn. unfold truncate, tile. exact (zoom_Ret _ _ _ _ _ _ E).
Qed.
End blockchain_storage.

(** C7: the block store keeps what its interface promises: appended records
    are added to the log in order, counters and reads agree with the blocks
    held. *)
Theorem Blockchain_implements_storage {T} (payload_bytes : T -> bytes) sha512 cache interval
    `{!FileNameResolver, !BadFileNames, !StdSort} :
  @StorageLaws T (Blockchain T) (Blockchain_Storage payload_bytes sha512 cache interval) Blockchain_rep.
Proof. apply Blockchain_laws. Qed.

(** ** Messages, batches and effects *)

Record Batch (T : Type) := mkBatch { buff : list T; reset_blockchain : bool }.
Arguments mkBatch {T} _ _.
Arguments buff {T} _.
Arguments reset_blockchain {T} _.

(** [grpr::BlockChecksum]; [grpr::BlockRecord], with the record its bytes
    are copied into; [BlockInfo]. *)
Record BlockChecksum := mkBlockChecksum
  { bcs_success : bool; bcs_block_size : N; bcs_checksum : bytes }.
Record BlockRecord (T : Type) := mkBlockRecord { br_success : bool; br_record : T }.
Arguments mkBlockRecord {T} _ _.
Arguments br_success {T} _.
Arguments br_record {T} _.
Record BlockInfo := mkBlockInfo { bi_size : N; bi_checksum : bytes }.

Definition BLOCKCHAIN_RESET_TIMEOUT_SECONDS : N := 5.

Inductive Effect :=
| PushContinueValidation (after_seconds : N)
| PushContinueTransactions
| PushContinueFacadeInit
| PushContinueFacadeInitAfterSbDone
| PushNotifier
| RequireBlockChecksums (endpoint name : string)
| RequireBlockData (endpoint name : string) (block_id : N)
| ExecOncePairedTransactionDone (group : bytes) (id : HederaTimestamp).

Inductive State := INITIAL | FETCHING_CHECKSUMS | FETCHING_BLOCKS | VALIDATING | READY.
#[export] Instance State_eq_dec : EqDecision State.
Proof. solve_decision. Defined.

(** The object: [X] is what the concrete blockchain keeps besides. *)
Record Base (T St X : Type) := mkBase
  { b_state : State;
    b_storage : St;
    b_fetch_endpoint : string;
    b_fetched_checksums : list bytes;
    b_fetched_record_count : N;
    b_expecting_last : bool;
    b_block_to_fetch : N;
    b_fetched_data_count : N;
    b_indexed_blocks : N;
    b_inbound : list (Batch T);
    b_child : X;
    b_effects : list Effect }.
Arguments mkBase {T St X} _ _ _ _ _ _ _ _ _ _ _ _.
Arguments b_state {T St X} _.
Arguments b_storage {T St X} _.
Arguments b_fetch_endpoint {T St X} _.
Arguments b_fetched_checksums {T St X} _.
Arguments b_fetched_record_count {T St X} _.
Arguments b_expecting_last {T St X} _.
Arguments b_block_to_fetch {T St X} _.
Arguments b_fetched_data_count {T St X} _.
Arguments b_indexed_blocks {T St X} _.
Arguments b_inbound {T St X} _.
Arguments b_child {T St X} _.
Arguments b_effects {T St X} _.

Section setters.
Context {T St X : Type}.
Implicit Types (b : Base T St X).
Definition set_b_state (v : State) b : Base T St X :=
  mkBase v (b_storage b) (b_fetch_endpoint b) (b_fetched_checksums b) (b_fetched_record_count b)
    (b_expecting_last b) (b_block_to_fetch b) (b_fetched_data_count b) (b_indexed_blocks b)
    (b_inbound b) (b_child b) (b_effects b).
Definition set_b_storage (v : St) b : Base T St X :=
  mkBase (b_state b) v (b_fetch_endpoint b) (b_fetched_checksums b) (b_fetched_record_count b)
    (b_expecting_last b) (b_block_to_fetch b) (b_fetched_data_count b) (b_indexed_blocks b)
    (b_inbound b) (b_child b) (b_effects b).
(** Starting to fetch: the endpoint, and the checksum data cleared. *)
Definition set_b_fetch (ep : string) b : Base T St X :=
  mkBase (b_state b) (b_storage b) ep [] 0 false (b_block_to_fetch b) (b_fetched_data_count b)
    (b_indexed_blocks b) (b_inbound b) (b_child b) (b_effects b).
Definition set_b_checksums (cs : list bytes) (rc : N) (el : bool) b : Base T St X :=
  mkBase (b_state b) (b_storage b) (b_fetch_endpoint b) cs rc el (b_block_to_fetch b)
    (b_fetched_data_count b) (b_indexed_blocks b) (b_inbound b) (b_child b) (b_effects b).
Definition set_b_blocks (tofetch dc : N) b : Base T St X :=
  mkBase (b_state b) (b_storage b) (b_fetch_endpoint b) (b_fetched_checksums b)
    (b_fetched_record_count b) (b_expecting_last b) tofetch dc (b_indexed_blocks b)
    (b_inbound b) (b_child b) (b_effects b).
Definition set_b_indexed_blocks (v : N) b : Base T St X :=
  mkBase (b_state b) (b_storage b) (b_fetch_endpoint b) (b_fetched_checksums b)
    (b_fetched_record_count b) (b_expecting_last b) (b_block_to_fetch b) (b_fetched_data_count b)
    v (b_inbound b) (b_child b) (b_effects b).
Definition set_b_inbound (v : list (Batch T)) b : Base T St X :=
  mkBase (b_state b) (b_storage b) (b_fetch_endpoint b) (b_fetched_checksums b)
    (b_fetched_record_count b) (b_expecting_last b) (b_block_to_fetch b) (b_fetched_data_count b)
    (b_indexed_blocks b) v (b_child b) (b_effects b).
Definition set_b_child (v : X) b : Base T St X :=
  mkBase (b_state b) (b_storage b) (b_fetch_endpoint b) (b_fetched_checksums b)
    (b_fetched_record_count b) (b_expecting_last b) (b_block_to_fetch b) (b_fetched_data_count b)
    (b_indexed_blocks b) (b_inbound b) v (b_effects b).
Definition add_effect (e : Effect) b : Base T St X :=
  mkBase (b_state b) (b_storage b) (b_fetch_endpoint b) (b_fetched_checksums b)
    (b_fetched_record_count b) (b_expecting_last b) (b_block_to_fetch b) (b_fetched_data_count b)
    (b_indexed_blocks b) (b_inbound b) (b_child b) (b_effects b ++ [e]).
Definition emit (e : Effect) : M (Base T St X) unit := modify (add_effect e).
Definition stor {A} (m : M St A) : M (Base T St X) A := zoom b_storage set_b_storage m.
End setters.

(** The pure virtual methods of a concrete blockchain.  [ch_seq] is the
    sequence number of a batch's first record, which [get_transaction_id]
    returns and the comparator of the inbound queue compares. *)
Class Child (T St X : Type) := {
  ch_is_valid : list T -> bool;
  ch_seq : T -> N;
  ch_get_latest_transaction_id : M (Base T St X) (option N);
  ch_calc_fields_and_update_indexes_for : list T -> M (Base T St X) (bool * list T);
  ch_clear_indexes : M (Base T St X) unit;
  ch_add_index_data : M (Base T St X) bool;
  ch_on_blockchain_ready : M (Base T St X) unit;
}.

(** The two headers differ in how the first transaction is treated and in
    the reset batches only the deprecated one knows. *)
Inductive BaseKind := Deprecated (topic_reset_allowed : bool) | Current.

Section base.
Context {T St X : Type} (payload_bytes : T -> bytes).
Context `{STO : !Storage T St, CH : !Child T St X}.
Context (kind : BaseKind) (name : string) (batch_size : nat).
Abbreviation B := (Base T St X).
Implicit Types (b : B).

(** ** The inbound queue

    [std::priority_queue] gives the batch whose sequence number is not less
    than any other's.  Comparing a batch without a buffer dereferences a
    null pointer; which batches of the heap are compared is not modelled,
    any such batch beside another one counts. *)

Definition batch_seq (x : Batch T) : option N := ch_seq <$> head (buff x).

Definition pq_push (x : Batch T) (q : list (Batch T)) : option (list (Batch T)) :=
  match q with
  | [] => Some [x]
  | _ => if forallb (fun y => negb (length (buff y) =? 0)%nat) (x :: q) then Some (x :: q) else None
  end.

(** The first batch of maximal number, and the others. *)
Fixpoint pq_pop (q : list (Batch T)) : option (Batch T * list (Batch T)) :=
  match q with
  | [] => None
  | x :: q' =>
      match pq_pop q' with
      | None => Some (x, [])
      | Some (y, rest) =>
          if (default 0 (batch_seq x) <? default 0 (batch_seq y))%N
          then Some (y, x :: rest) else Some (x, y :: rest)
      end
  end.

Definition inbound_push (x : Batch T) : M B unit :=
  let! q := gets b_inbound in
  match pq_push x q with Some q' => modify (set_b_inbound q') | None => undef end.

(** ** Fetching and validating *)

Definition fetch_next_block : M B unit :=
  let! ep := gets b_fetch_endpoint in
  let! i := gets b_block_to_fetch in
  emit (RequireBlockData ep name i).

Definition reset_validation : M B unit :=
  modify (set_b_state INITIAL) ;;;
  stor (st_truncate 0) ;;;
  ch_clear_indexes ;;;
  modify (set_b_indexed_blocks 0) ;;;
  emit (PushContinueValidation BLOCKCHAIN_RESET_TIMEOUT_SECONDS).

(** Entering validation, from the start or after fetching. *)
Definition start_validating : M B unit :=
  modify (set_b_state VALIDATING) ;;;
  ch_clear_indexes ;;;
  modify (set_b_indexed_blocks 0) ;;;
  emit (PushContinueValidation 0).

Definition validate_next_batch : M B unit :=
  let! vc := stor st_get_checksum_valid_block_count in
  let! tc := stor st_get_block_count in
  if (vc =? tc)%N then
    modify (set_b_state READY) ;;;
    let! ok := ch_add_index_data in
    if (ok : bool) then ch_on_blockchain_ready else reset_validation
  else
    let! res := stor st_validate_next_checksum in
    if negb res.1 then reset_validation
    else
      let! ok := ch_add_index_data in
      if (ok : bool)
      then emit (PushContinueValidation 0) ;;;
           modify (fun b => set_b_indexed_blocks (b_indexed_blocks b + 1) b)
      else reset_validation.

Definition on_block_record (br : BlockRecord T) : M B unit :=
  let! st := gets b_state in
  if negb (bool_decide (st = FETCHING_BLOCKS)) then throw "on_block_record(): wrong state"
  else
    let! dc := gets b_fetched_data_count in
    let! rc := gets b_fetched_record_count in
    if negb (br_success br) then
      let! tofetch := gets b_block_to_fetch in
      let! nchecks := gets (fun b => N.of_nat (length (b_fetched_checksums b))) in
      if (tofetch =? nchecks)%N then
        if negb (dc =? rc)%N then reset_validation else start_validating
      else
        if negb (dc =? rc)%N then reset_validation
        else modify (set_b_blocks (tofetch + 1) dc) ;;; fetch_next_block
    else
      (if (dc mod GRADIDO_BLOCK_SIZE <? GRADIDO_BLOCK_SIZE - 1)%N && (dc + 1 <? rc)%N
       then let! _ := stor (st_append ch_is_valid [br_record br]) in ret tt
       else ret tt) ;;;
      let! tofetch := gets b_block_to_fetch in
      modify (set_b_blocks tofetch (dc + 1)).

Definition on_block_checksum (bc : BlockChecksum) : M B unit :=
  let! st := gets b_state in
  if negb (bool_decide (st = FETCHING_CHECKSUMS)) then throw "on_block_checksum(): wrong state"
  else if negb (bcs_success bc) then
    modify (set_b_state FETCHING_BLOCKS) ;;;
    modify (set_b_blocks 0 0) ;;;
    fetch_next_block
  else
    let! el := gets b_expecting_last in
    if (el : bool) then reset_validation
    else modify (fun b =>
           set_b_checksums (b_fetched_checksums b ++ [bcs_checksum bc])
             (b_fetched_record_count b + bcs_block_size bc)
             ((bcs_block_size bc <? GRADIDO_BLOCK_SIZE)%N || el) b).

(** [sibling]: the endpoint [get_random_sibling_endpoint] (or
    [get_fetch_endpoint]) yields, if any. *)
Definition continue_validation (sibling : option string) : M B unit :=
  let! st := gets b_state in
  match st with
  | INITIAL =>
      let! tc := stor st_get_block_count in
      if (0 <? tc)%N then start_validating
      else
        match sibling with
        | Some ep =>
            modify (set_b_state FETCHING_CHECKSUMS) ;;;
            modify (set_b_fetch ep) ;;;
            emit (RequireBlockChecksums ep name)
        | None =>
            modify (set_b_state READY) ;;;
            ch_on_blockchain_ready ;;;
            emit PushContinueTransactions
        end
  | VALIDATING => validate_next_batch
  | FETCHING_CHECKSUMS | FETCHING_BLOCKS | READY => throw "continue_validation(): wrong state"
  end.

(** ** Transactions *)

(** A batch with transactions; [true] to go on with the loop, [false] to
    return. *)
Definition process_transactions (batch : Batch T) : M B bool :=
  match batch_seq batch with
  | None => throw "empty batch"
  | Some curr_seq_num =>
      let! latest := ch_get_latest_transaction_id in
      let fits :=
        match latest, kind with
        | Some seq_num, _ => (curr_seq_num =? (seq_num + 1) mod 2 ^ 64)%N
        | None, Deprecated allowed => allowed || (curr_seq_num =? 1)%N
        | None, Current => false
        end in
      if fits then
        let! r := ch_calc_fields_and_update_indexes_for (buff batch) in
        if (r.1 : bool)
        then let! _ := stor (st_append ch_is_valid r.2) in ret true
        else inbound_push (mkBatch r.2 (reset_blockchain batch)) ;;; ret false
      else if match latest with Some seq_num => (curr_seq_num <=? seq_num)%N | None => false end
      then ret true (* omitting *)
      else inbound_push batch ;;; reset_validation ;;; ret false
  end.

(** One round of the loop. *)
Definition process_batch (batch : Batch T) : M B bool :=
  match kind, reset_blockchain batch with
  | Deprecated allowed, true =>
      if negb allowed then throw "cannot reset topic"
      else stor (st_truncate 0) ;;; modify (set_b_indexed_blocks 0) ;;; ch_clear_indexes ;;; ret true
  | _, _ => process_transactions batch
  end.

Fixpoint transaction_loop (n : nat) : M B bool :=
  match n with
  | O => ret true
  | S n' =>
      let! q := gets b_inbound in
      match pq_pop q with
      | None => ret true
      | Some (batch, q') =>
          modify (set_b_inbound q') ;;;
          let! go := process_batch batch in
          if (go : bool) then transaction_loop n' else ret false
      end
  end.

Definition continue_with_transactions : M B unit :=
  let! st := gets b_state in
  if negb (bool_decide (st = READY)) then ret tt
  else
    let! go := transaction_loop batch_size in
    if negb go then ret tt
    else
      let! q := gets b_inbound in
      if (0 <? length q)%nat then emit PushContinueTransactions else ret tt.

Definition add_transaction (rec : Batch T) : M B unit :=
  inbound_push rec ;;; continue_with_transactions.

(** ** Queries *)

Definition get_transaction_count : M B N :=
  let! st := gets b_state in
  if negb (bool_decide (st = READY)) then ret 0%N
  else
    let! rc := stor st_get_rec_count in
    if (rc =? 0)%N then ret 0%N
    else let! tc := stor st_get_block_count in ret (u64_sub rc tc).

Definition get_transaction2 (seq_num : N) : M B (option (Rec T)) :=
  let! rc := stor st_get_rec_count in
  if (rc <=? seq_num)%N then ret None
  else
    let! r := stor (st_get_record seq_num) in
    match r.1 with Some x => ret (Some x) | None => undef end.

Definition base_get_block_count : M B N := stor st_get_block_count.

(** [strcpy] into a zeroed checksum buffer: what follows the first null is
    lost; without a null it runs off both arrays. *)
Definition strcpy_checksum (c : bytes) : option bytes :=
  let s := cstr c in
  if (length s <? length c)%nat
  then Some (s ++ replicate (BLOCKCHAIN_CHECKSUM_SIZE - length s) 0%Z) else None.

(** The scan of the last block: [rec2[j]] with [rec2 = rec + j]. *)
Fixpoint last_block_info (block : list (Rec T)) (j : nat) (rest : list (Rec T)) : option (option BlockInfo) :=
  match rest with
  | [] => Some None
  | r :: rest' =>
      if is_type CHECKSUM r then
        match block !! (2 * j)%nat with
        | None => None
        | Some r2 =>
            match strcpy_checksum (checksum_of payload_bytes r2) with
            | Some c => Some (Some (mkBlockInfo (N.of_nat (j + 1)) c))
            | None => None
            end
        end
      else last_block_info block (S j) rest'
  end.

Definition get_checksums : M B (list BlockInfo) :=
  let! tc := stor st_get_block_count in
  fold_each (seq 0 (N.to_nat tc)) [] (fun res i =>
    let! r := stor (st_get_block (N.of_nat i)) in
    match r.1 with
    | None => undef
    | Some block =>
        if (N.of_nat i =? tc - 1)%N then
          match last_block_info block 0 (take BLOCK block) with
          | None => undef
          | Some (Some bi) => ret (res ++ [bi])
          | Some None => ret res
          end
        else
          match block !! (BLOCK - 1)%nat with
          | None => undef
          | Some r2 =>
              match strcpy_checksum (checksum_of payload_bytes r2) with
              | Some c => ret (res ++ [mkBlockInfo GRADIDO_BLOCK_SIZE c])
              | None => undef
              end
          end
    end).

(** Both overloads; the record's bytes are put in the answer. *)
Definition get_block_record (seq_num : N) : M B (option (Rec T)) :=
  let block_num := ((seq_num / GRADIDO_BLOCK_SIZE) mod 2 ^ 32)%N in
  let! tc := stor st_get_block_count in
  if (tc <=? block_num)%N then ret None
  else
    let seq_index := N.to_nat (seq_num mod GRADIDO_BLOCK_SIZE) in
    let! r := stor (st_get_block block_num) in
    match r.1 ≫= (.!! seq_index) with
    | None => undef
    | Some rec => ret (if is_type EMPTY rec then None else Some rec)
    end.

(** ** Tasks

    How many continue-validation tasks a run has pushed. *)

Definition is_cv (e : Effect) : bool :=
  match e with PushContinueValidation _ => true | _ => false end.
Definition cv_pushed b : nat := length (List.filter is_cv (b_effects b)).

(** A computation that neither changes the state nor pushes such a task. *)
Definition keeps {A} (m : M B A) : Prop :=
  forall b a b', m b = Ret a b' -> b_state b' = b_state b /\ cv_pushed b' = cv_pushed b.

(** A computation that leaves a given state and pushes [n] such tasks. *)
Definition moves {A} (m : M B A) (st : State) (n : nat) : Prop :=
  forall b a b', m b = Ret a b' -> b_state b' = st /\ cv_pushed b' = (cv_pushed b + n)%nat.

(** What a concrete blockchain's methods must not do: they leave the state
    machine alone. *)
Class ChildLaws := {
  cl_latest : keeps ch_get_latest_transaction_id;
  cl_calc : forall l, keeps (ch_calc_fields_and_update_indexes_for l);
  cl_index : keeps ch_add_index_data;
  cl_ready : keeps ch_on_blockchain_ready;
  cl_clear : forall b, exists x, ch_clear_indexes b = Ret tt (set_b_child x b);
  cl_valid : forall l, ch_is_valid l = true;
}.

Definition step_event : Type := option string + BlockRecord T + BlockChecksum + unit + Batch T.

(** A run of the object: tasks and answers in any order.  A configuration
    is the object and the number of continue-validation tasks executed; the
    first such task comes from the start-up of the node. *)
Inductive step : B * nat -> B * nat -> Prop :=
| step_continue_validation b n sibling b' :
    (n < 1 + cv_pushed b)%nat -> continue_validation sibling b = Ret tt b' -> step (b, n) (b', S n)
| step_block_record b n br b' : on_block_record br b = Ret tt b' -> step (b, n) (b', n)
| step_block_checksum b n bc b' : on_block_checksum bc b = Ret tt b' -> step (b, n) (b', n)
| step_continue_transactions b n b' : continue_with_transactions b = Ret tt b' -> step (b, n) (b', n)
| step_add_transaction b n x b' : add_transaction x b = Ret tt b' -> step (b, n) (b', n).

Definition initial b : Prop := b_state b = INITIAL /\ b_effects b = [].
Definition reachable (c : B * nat) : Prop := exists b, initial b /\ rtc step (b, 0%nat) c.

Create HintDb keeps discriminated.

Definition waits_for_task (st : State) : nat :=
  match st with INITIAL | VALIDATING => 1 | _ => 0 end.

(** The number of pending tasks is one exactly in the states that wait for
    one. *)
Definition one_task (c : B * nat) : Prop :=
  (1 + cv_pushed c.1 = c.2 + waits_for_task (b_state c.1))%nat.


Lemma keeps_ret {A} (a : A) : keeps (ret a).
Proof. intros b a' b' [= <- <-]. done. Qed.

Lemma keeps_gets {A} (f : B -> A) : keeps (gets f).
Proof. intros b a' b' [= <- <-]. done. Qed.

Lemma keeps_throw {A} msg : keeps (throw (A := A) msg).
Proof. intros b a b' H. discriminate. Qed.

Lemma keeps_undef {A} : keeps (undef (A := A)).
Proof. intros b a b' H. discriminate. Qed.

Lemma keeps_bind {A C} (m : M B A) (k : A -> M B C) :
  keeps m -> (forall a, keeps (k a)) -> keeps (bind m k).
Proof.
  intros Hm Hk b c b' H. apply bind_Ret_inv in H as (a & b1 & E1 & E2).
  apply Hm in E1 as [? ?]. apply Hk in E2 as [? ?]. split; congruence.
Qed.

Lemma keeps_for_each {A} (l : list A) (body : A -> M B unit) :
  (forall x, keeps (body x)) -> keeps (for_each l body).
Proof.
  intros Hb. induction l as [|x l IH]; cbn [for_each]; [apply keeps_ret|].
  apply keeps_bind; [apply Hb|intros _; exact IH].
Qed.

Lemma keeps_stor {A} (m : M St A) : keeps (stor m).
Proof.
  intros b a b' H. unfold stor, zoom in H. destruct (m (b_storage b)); try discriminate.
  injection H as <- <-. done.
Qed.

Lemma keeps_modify (f : B -> B) :
  (forall b, b_state (f b) = b_state b /\ b_effects (f b) = b_effects b) -> keeps (modify f).
Proof.
  intros Hf b a b' [= <- <-]. destruct (Hf b) as [H1 H2]. split; [done|]. unfold cv_pushed. now rewrite H2.
Qed.

Lemma keeps_emit e : is_cv e = false -> keeps (emit e).
Proof.
  intros He b a b' [= <- <-]. split; [done|]. unfold cv_pushed. cbn.
  rewrite List.filter_app, length_app. cbn. rewrite He. cbn. lia.
Qed.

Lemma keeps_inbound_push x : keeps (inbound_push x).
Proof.
  apply keeps_bind; [apply keeps_gets|]. intros q. destruct (pq_push x q); [|apply keeps_undef].
  apply keeps_modify. done.
Qed.

Lemma moves_bind_l {A C} (m : M B A) (k : A -> M B C) st n :
  keeps m -> (forall a, moves (k a) st n) -> moves (bind m k) st n.
Proof.
  intros Hm Hk b c b' H. apply bind_Ret_inv in H as (a & b1 & E1 & E2).
  apply Hm in E1 as [? ?]. apply Hk in E2 as [? ?]. split; congruence.
Qed.

(** The state is kept and [n] tasks are pushed. *)
Definition pushes {A} (m : M B A) (n : nat) : Prop :=
  forall b a b', m b = Ret a b' -> b_state b' = b_state b /\ cv_pushed b' = (cv_pushed b + n)%nat.

Lemma pushes_keeps {A} (m : M B A) : keeps m -> pushes m 0.
Proof. intros H b a b' E. apply H in E as [? ?]. split; [done|lia]. Qed.

Lemma pushes_bind {A C} (m : M B A) (k : A -> M B C) n :
  keeps m -> (forall a, pushes (k a) n) -> pushes (bind m k) n.
Proof.
  intros Hm Hk b c b' H. apply bind_Ret_inv in H as (a & b1 & E1 & E2).
  apply Hm in E1 as [? ?]. apply Hk in E2 as [? ?]. split; congruence.
Qed.

Lemma pushes_emit s : pushes (emit (PushContinueValidation s)) 1.
Proof.
  intros b a b' [= <- <-]. split; [done|]. unfold cv_pushed. cbn.
  rewrite List.filter_app, length_app. cbn. lia.
Qed.

Lemma moves_bind_r {A C} (m : M B A) (k : A -> M B C) st n n' :
  moves m st n -> (forall a, pushes (k a) n') -> moves (bind m k) st (n + n').
Proof.
  intros Hm Hk b c b' H. apply bind_Ret_inv in H as (a & b1 & E1 & E2).
  apply Hm in E1 as [? ?]. apply Hk in E2 as [? ?]. split; [congruence|lia].
Qed.

Lemma moves_set_state st : moves (modify (set_b_state st)) st 0.
Proof. intros b a b' [= <- <-]. split; [done|]. unfold cv_pushed. cbn. lia. Qed.

Section keeps_lemmas.
Context `{CL : !ChildLaws}.
#[local] Set Default Proof Using "Type CL".

Lemma keeps_clear : keeps ch_clear_indexes.
Proof. intros b a b' H. destruct (cl_clear b) as [x E]. rewrite E in H. injection H as <- <-. done. Qed.

Hint Resolve keeps_ret keeps_gets keeps_throw keeps_undef keeps_stor keeps_clear keeps_inbound_push
  cl_latest cl_calc cl_index cl_ready : keeps.
Hint Extern 1 (keeps (modify _)) => apply keeps_modify; done : keeps.
Hint Extern 1 (keeps (emit _)) => apply keeps_emit; done : keeps.
Hint Extern 2 (keeps (bind _ _)) => apply keeps_bind; [|intros ?] : keeps.
Hint Extern 2 (pushes (bind _ _) 1) => apply pushes_bind; [|intros ?] : keeps.
Hint Resolve pushes_emit : keeps.
Ltac keeps_auto := eauto 20 with keeps.

Lemma moves_reset : moves reset_validation INITIAL 1.
Proof.
  unfold reset_validation. apply (moves_bind_r _ _ INITIAL 0 1); [apply moves_set_state|].
  intros _. keeps_auto.
Qed.

Lemma moves_start : moves start_validating VALIDATING 1.
Proof.
  unfold start_validating. apply (moves_bind_r _ _ VALIDATING 0 1); [apply moves_set_state|].
  intros _. keeps_auto.
Qed.

(** The result of a computation that either keeps the state machine or ends
    in a reset. *)
Definition kept_or_reset b b' : Prop :=
  (b_state b' = b_state b /\ cv_pushed b' = cv_pushed b)
  \/ (b_state b' = INITIAL /\ cv_pushed b' = S (cv_pushed b)).

Lemma keeps_bind_inv {A C} (m : M B A) (k : A -> M B C) b c b' :
  bind m k b = Ret c b' -> keeps m ->
  exists a b1, k a b1 = Ret c b' /\ b_state b1 = b_state b /\ cv_pushed b1 = cv_pushed b.
Proof.
  intros H Hm. apply bind_Ret_inv in H as (a & b1 & E1 & E2). apply Hm in E1 as [? ?]. eauto.
Qed.

Lemma process_transactions_inv batch b go b' :
  process_transactions batch b = Ret go b' ->
  kept_or_reset b b' /\ (go = true -> b_state b' = b_state b /\ cv_pushed b' = cv_pushed b).
Proof.
  unfold process_transactions. intros H. destruct (batch_seq batch) as [cs|]; [|discriminate].
  apply keeps_bind_inv in H as (latest & b1 & H & Hs1 & Hc1); [|keeps_auto].
  unfold kept_or_reset. rewrite <- Hs1, <- Hc1. cbv zeta in H.
  destruct (match latest, kind with Some _, _ => _ | _, _ => _ end).
  - apply keeps_bind_inv in H as (r & b2 & H & Hs2 & Hc2); [|keeps_auto].
    rewrite <- Hs2, <- Hc2.
    assert (keeps (if r.1 then let! _ := stor (st_append ch_is_valid r.2) in ret true
                   else inbound_push (mkBatch r.2 (reset_blockchain batch)) ;;; ret false)) as Hk
      by (destruct r.1; keeps_auto).
    apply Hk in H. split; [now left|done].
  - destruct (match latest with Some _ => _ | None => _ end).
    + injection H as <- <-. split; [now left|done].
    + apply keeps_bind_inv in H as (u & b2 & H & Hs2 & Hc2); [|keeps_auto].
      apply bind_Ret_inv in H as (v & b3 & E & H). injection H as <- <-.
      apply moves_reset in E as [E1 E2]. split; [right|done]. split; [done|]. lia.
Qed.

Lemma process_batch_inv batch b go b' :
  process_batch batch b = Ret go b' ->
  kept_or_reset b b' /\ (go = true -> b_state b' = b_state b /\ cv_pushed b' = cv_pushed b).
Proof.
  unfold process_batch. intros H.
  destruct kind as [allowed|], (reset_blockchain batch); try now apply process_transactions_inv in H.
  destruct (negb allowed); [discriminate|].
  assert (keeps (stor (st_truncate 0) ;;; modify (set_b_indexed_blocks 0) ;;;
                 ch_clear_indexes ;;; ret true)) as Hk by keeps_auto.
  apply Hk in H. split; [now left|done].
Qed.

Lemma transaction_loop_inv n b go b' : transaction_loop n b = Ret go b' -> kept_or_reset b b'.
Proof.
  revert b. induction n as [|n IH]; intros b H; cbn [transaction_loop] in H.
  { injection H as _ <-. now left. }
  apply keeps_bind_inv in H as (q & b1 & H & Hs1 & Hc1); [|keeps_auto].
  unfold kept_or_reset. rewrite <- Hs1, <- Hc1.
  destruct (pq_pop q) as [[batch q']|]; [|injection H as _ <-; now left].
  apply keeps_bind_inv in H as (u & b2 & H & Hs2 & Hc2); [|keeps_auto].
  rewrite <- Hs2, <- Hc2. apply bind_Ret_inv in H as (g & b3 & E & H).
  apply process_batch_inv in E as [Hor Hgo]. destruct g.
  - destruct (Hgo eq_refl) as [<- <-]. now apply IH.
  - injection H as _ <-. exact Hor.
Qed.

Lemma continue_transactions_inv b b' :
  continue_with_transactions b = Ret tt b' ->
  (b_state b' = b_state b /\ cv_pushed b' = cv_pushed b)
  \/ (b_state b = READY /\ b_state b' = INITIAL /\ cv_pushed b' = S (cv_pushed b)).
Proof.
  unfold continue_with_transactions. intros H.
  apply bind_Ret_inv in H as (st & b1 & E & H). injection E as <- <-.
  destruct (decide (b_state b = READY)) as [Hst|Hst].
  2:{ rewrite bool_decide_eq_false_2 in H by done. injection H as <-. now left. }
  rewrite bool_decide_eq_true_2 in H by done. cbn [negb] in H.
  apply bind_Ret_inv in H as (go & b1 & E & H). apply transaction_loop_inv in E.
  assert (keeps (if negb go then ret tt else
    let! q := gets b_inbound in
    if (0 <? length q)%nat then emit PushContinueTransactions else ret tt)) as Hk.
  { destruct go; cbn [negb]; [|keeps_auto]. apply keeps_bind; [keeps_auto|]. intros q.
    destruct (0 <? length q)%nat; keeps_auto. }
  apply Hk in H as [Hs Hc]. rewrite Hs, Hc. destruct E as [[? ?]|[? ?]]; [left|right]; auto.
Qed.

Lemma validate_next_batch_inv b b' :
  validate_next_batch b = Ret tt b' ->
  (b_state b' = READY /\ cv_pushed b' = cv_pushed b)
  \/ (b_state b' = b_state b /\ cv_pushed b' = S (cv_pushed b))
  \/ (b_state b' = INITIAL /\ cv_pushed b' = S (cv_pushed b)).
Proof.
  unfold validate_next_batch. intros H.
  apply keeps_bind_inv in H as (vc & b1 & H & Hs1 & Hc1); [|keeps_auto].
  apply keeps_bind_inv in H as (tc & b2 & H & Hs2 & Hc2); [|keeps_auto].
  rewrite <- Hs1, <- Hs2, <- Hc1, <- Hc2. destruct (vc =? tc)%N.
  - apply bind_Ret_inv in H as (u & b3 & E3 & H). injection E3 as <- <-.
    apply keeps_bind_inv in H as (ok & b4 & H & Hs4 & Hc4); [|keeps_auto].
    destruct ok.
    + left. apply cl_ready in H as [-> ->]. rewrite Hs4, Hc4. done.
    + right. right. apply moves_reset in H as [-> ->]. rewrite Hc4. unfold cv_pushed. cbn. split; [done|lia].
  - apply keeps_bind_inv in H as (res & b3 & H & Hs3 & Hc3); [|keeps_auto].
    rewrite <- Hs3, <- Hc3. destruct (negb res.1).
    { right. right. apply moves_reset in H as [-> ->]. split; [done|lia]. }
    apply keeps_bind_inv in H as (ok & b4 & H & Hs4 & Hc4); [|keeps_auto].
    rewrite <- Hs4, <- Hc4. destruct ok.
    + right. left. apply bind_Ret_inv in H as (u & b5 & E5 & H). injection H as <-.
      apply pushes_emit in E5 as [? ?]. cbn. split; [done|]. unfold cv_pushed in *. cbn. lia.
    + right. right. apply moves_reset in H as [-> ->]. split; [done|lia].
Qed.

Lemma continue_validation_inv sibling b b' :
  continue_validation sibling b = Ret tt b' ->
  (b_state b = INITIAL \/ b_state b = VALIDATING)
  /\ cv_pushed b' = (cv_pushed b + waits_for_task (b_state b'))%nat.
Proof.
  unfold continue_validation. intros H. apply bind_Ret_inv in H as (st & b1 & E & H).
  injection E as <- <-. destruct (b_state b) eqn:Est; try discriminate.
  - split; [now left|]. apply keeps_bind_inv in H as (tc & b1 & H & Hs1 & <-); [|keeps_auto].
    destruct (0 <? tc)%N.
    { apply moves_start in H as [-> ->]. done. }
    destruct sibling as [ep|].
    + apply (moves_bind_r _ _ FETCHING_CHECKSUMS 0 0 (moves_set_state _)) in H as [-> ->]; [done|].
      intros _. apply pushes_keeps. keeps_auto.
    + apply (moves_bind_r _ _ READY 0 0 (moves_set_state _)) in H as [-> ->]; [done|].
      intros _. apply pushes_keeps. keeps_auto.
  - split; [now right|]. apply validate_next_batch_inv in H as [[-> ->]|[[-> ->]|[-> ->]]];
      rewrite ?Est; cbn; lia.
Qed.

Lemma on_block_record_inv br b b' :
  on_block_record br b = Ret tt b' ->
  b_state b = FETCHING_BLOCKS /\ cv_pushed b' = (cv_pushed b + waits_for_task (b_state b'))%nat.
Proof.
  unfold on_block_record. intros H. apply bind_Ret_inv in H as (st & b1 & E & H).
  injection E as <- <-. destruct (decide (b_state b = FETCHING_BLOCKS)) as [Hst|Hst].
  2:{ rewrite bool_decide_eq_false_2 in H by done. discriminate. }
  rewrite bool_decide_eq_true_2 in H by done. cbn [negb] in H. split; [done|].
  apply keeps_bind_inv in H as (dc & b1 & H & Hs1 & <-); [|keeps_auto].
  apply keeps_bind_inv in H as (rc & b2 & H & Hs2 & <-); [|keeps_auto].
  assert (b_state b2 = FETCHING_BLOCKS) as Hst2 by congruence.
  destruct (negb (br_success br)).
  - apply keeps_bind_inv in H as (tofetch & b3 & H & Hs3 & <-); [|keeps_auto].
    apply keeps_bind_inv in H as (nchecks & b4 & H & Hs4 & <-); [|keeps_auto].
    destruct (tofetch =? nchecks)%N, (negb (dc =? rc)%N);
      try (apply moves_reset in H as [-> ->]; done); try (apply moves_start in H as [-> ->]; done).
    assert (keeps (modify (set_b_blocks (tofetch + 1) dc) ;;; fetch_next_block)) as Hk
      by (unfold fetch_next_block; keeps_auto).
    apply Hk in H as [-> ->]. rewrite Hs4, Hs3, Hst2. cbn. lia.
  - apply keeps_bind_inv in H as (u & b3 & H & Hs3 & <-); [|destruct (_ && _); keeps_auto].
    apply keeps_bind_inv in H as (tofetch & b4 & H & Hs4 & <-); [|keeps_auto].
    injection H as <-. cbn. rewrite Hs4, Hs3, Hst2. unfold cv_pushed. cbn. lia.
Qed.

Lemma on_block_checksum_inv bc b b' :
  on_block_checksum bc b = Ret tt b' ->
  b_state b = FETCHING_CHECKSUMS /\ cv_pushed b' = (cv_pushed b + waits_for_task (b_state b'))%nat.
Proof.
  unfold on_block_checksum. intros H. apply bind_Ret_inv in H as (st & b1 & E & H).
  injection E as <- <-. destruct (decide (b_state b = FETCHING_CHECKSUMS)) as [Hst|Hst].
  2:{ rewrite bool_decide_eq_false_2 in H by done. discriminate. }
  rewrite bool_decide_eq_true_2 in H by done. cbn [negb] in H. split; [done|].
  destruct (negb (bcs_success bc)).
  - apply (moves_bind_r _ _ FETCHING_BLOCKS 0 0 (moves_set_state _)) in H as [-> ->]; [done|].
    intros _. apply pushes_keeps. unfold fetch_next_block. keeps_auto.
  - apply keeps_bind_inv in H as (el & b1 & H & Hs1 & <-); [|keeps_auto]. destruct el.
    + apply moves_reset in H as [-> ->]. done.
    + injection H as <-. cbn. rewrite Hs1, Hst. unfold cv_pushed. cbn. lia.
Qed.

Lemma step_one_task c c' : one_task c -> step c c' -> one_task c'.
Proof.
  unfold one_task. intros Hi Hs. destruct Hs as
    [b n sib b' _ E|b n br b' E|b n bc b' E|b n b' E|b n x b' E]; cbn [fst snd] in *.
  - apply continue_validation_inv in E as [[Hst|Hst] ->]; rewrite Hst in Hi; cbn in Hi; lia.
  - apply on_block_record_inv in E as [Hst ->]. rewrite Hst in Hi. cbn in Hi. lia.
  - apply on_block_checksum_inv in E as [Hst ->]. rewrite Hst in Hi. cbn in Hi. lia.
  - apply continue_transactions_inv in E as [[-> ->]|(Hst & -> & ->)]; [done|].
    rewrite Hst in Hi. cbn in *. lia.
  - unfold add_transaction in E. apply keeps_bind_inv in E as (u & b1 & E & Hs1 & Hc1); [|keeps_auto].
    rewrite <- Hs1, <- Hc1 in Hi.
    apply continue_transactions_inv in E as [[-> ->]|(Hst & -> & ->)]; [done|].
    rewrite Hst in Hi. cbn in *. lia.
Qed.

(** C4: in every run, whatever the order of tasks, answers and transactions, a
    continue-validation task is pending exactly in the states that wait for
    one, and never more than one: executing it never finds the object in a
    state where [continue_validation] throws. *)
Theorem continue_validation_task_fits b n :
  reachable (b, n) ->
  (1 + cv_pushed b = n + waits_for_task (b_state b))%nat
  /\ ((n < 1 + cv_pushed b)%nat -> b_state b = INITIAL \/ b_state b = VALIDATING).
Proof.
  intros (b0 & [Hst He] & Hrun).
  assert (one_task (b0, 0%nat)) as H0.
  { unfold one_task. cbn. rewrite Hst. unfold cv_pushed. now rewrite He. }
  assert (one_task (b, n)) as Hi.
  { remember (b0, 0%nat) as c0. remember (b, n) as c. clear Heqc0 Heqc.
    induction Hrun as [|c1 c2 c3 Hs Hrun IH]; [done|]. apply IH. eapply step_one_task; eauto. }
  unfold one_task in Hi. cbn in Hi. split; [done|]. intros Hn. destruct (b_state b); cbn in Hi; auto; lia.
Qed.

End keeps_lemmas.

Lemma stor_bind {A C} (m : M St A) (k : A -> M B C) b a s :
  m (b_storage b) = Ret a s -> bind (stor m) k b = k a (set_b_storage s b).
Proof. apply zoom_bind. Qed.

Lemma stor_pure_bind {A C} (m : M St A) (k : A -> M B C) b a :
  m (b_storage b) = Ret a (b_storage b) -> bind (stor m) k b = k a b.
Proof. intros H. rewrite (stor_bind _ _ _ _ _ H). now destruct b. Qed.

Lemma b_gets {A C} (f : B -> A) (k : A -> M B C) b : bind (gets f) k b = k (f b) b.
Proof. reflexivity. Qed.

Lemma b_modify {C} (f : B -> B) (k : unit -> M B C) b : bind (modify f) k b = k tt (f b).
Proof. reflexivity. Qed.

(** A batch that arrives when nothing else is waiting is processed at once. *)
Lemma add_when_idle x b b1 :
  b_state b = READY -> b_inbound b = [] -> (0 < batch_size)%nat ->
  process_batch x b = Ret true b1 -> b_inbound b1 = [] -> add_transaction x b = Ret tt b1.
Proof.
  intros Hst Hq Hbs E Hq1. unfold add_transaction, inbound_push. rewrite bind_assoc, b_gets, Hq.
  cbn [pq_push]. rewrite b_modify. unfold continue_with_transactions. rewrite b_gets.
  cbn [b_state set_b_inbound]. rewrite Hst, bool_decide_eq_true_2 by done. cbn [negb].
  destruct batch_size as [|n]; [lia|]. cbn [transaction_loop]. rewrite bind_assoc, b_gets.
  cbn [b_inbound set_b_inbound pq_pop]. rewrite bind_assoc, b_modify.
  assert (set_b_inbound [] (set_b_inbound [x] b) = b) as -> by (destruct b; cbn in *; now subst).
  rewrite bind_assoc, (bind_Ret _ _ _ _ _ E).
  assert (transaction_loop n b1 = Ret true b1) as El.
  { destruct n as [|n]; cbn [transaction_loop]; [done|]. rewrite b_gets. now rewrite Hq1. }
  rewrite (bind_Ret _ _ _ _ _ El). cbn [negb]. rewrite b_gets. now rewrite Hq1.
Qed.

(** A single batch that ends the loop. *)
Lemma continue_stops x b b' :
  b_state b = READY -> b_inbound b = [x] -> (0 < batch_size)%nat ->
  process_batch x (set_b_inbound [] b) = Ret false b' -> continue_with_transactions b = Ret tt b'.
Proof.
  intros Hst Hq Hbs E. unfold continue_with_transactions. rewrite b_gets, Hst, bool_decide_eq_true_2 by done. cbn [negb].
  destruct batch_size as [|n]; [lia|]. cbn [transaction_loop]. rewrite bind_assoc, b_gets, Hq. cbn [pq_pop].
  now rewrite bind_assoc, b_modify, bind_assoc, (bind_Ret _ _ _ _ _ E).
Qed.

(** The first round of [continue_with_transactions] when two batches wait. *)
Lemma continue_pair x1 x2 c1 c2 b n :
  b_state b = READY -> b_inbound b = [x1; x2] \/ b_inbound b = [x2; x1] -> batch_size = S n ->
  batch_seq x1 = Some c1 -> batch_seq x2 = Some c2 -> (c1 < c2)%N ->
  continue_with_transactions b
  = (let! go := (let! go := process_batch x2 in if (go : bool) then transaction_loop n else ret false) in
     if negb go then ret tt
     else let! q := gets b_inbound in
          if (0 <? length q)%nat then emit PushContinueTransactions else ret tt) (set_b_inbound [x1] b).
Proof.
  intros Hst Hq Hbs H1 H2 Hlt. unfold continue_with_transactions. rewrite b_gets, Hst.
  rewrite bool_decide_eq_true_2 by done. cbn [negb]. rewrite Hbs. cbn [transaction_loop].
  rewrite bind_assoc, b_gets.
  assert (pq_pop (b_inbound b) = Some (x2, [x1])) as ->.
  { destruct Hq as [-> | ->]; cbn [pq_pop]; rewrite H1, H2; cbn -[N.ltb].
    - now rewrite (proj2 (N.ltb_lt _ _) Hlt).
    - destruct (N.ltb_spec c2 c1); [lia|done]. }
  rewrite bind_assoc, b_modify. reflexivity.
Qed.

(** ** Behaviour over a store that keeps its promises *)

Section behaviour.
Context (rep : St -> list (list T * bytes) -> Prop) `{SL : !StorageLaws rep, CL : !ChildLaws}.
#[local] Set Default Proof Using "Type SL CL".

Lemma log_length bs : (length (bc_log bs) + length bs)%nat = rec_total (T := T) bs.
Proof using.
  induction bs as [|x bs IH]; [done|]. unfold bc_log, rec_total in *. cbn. rewrite length_app. lia.
Qed.

(** When the blockchain is ready, the transaction count it reports is the
    number of payload records in the store. *)
Theorem get_transaction_count_correct b bs :
  b_state b = READY -> rep (b_storage b) bs ->
  get_transaction_count b = Ret (N.of_nat (length (bc_log bs))) b.
Proof using SL.
  intros Hst Hrep. unfold get_transaction_count. rewrite b_gets, Hst.
  rewrite bool_decide_eq_true_2 by done. cbn [negb].
  rewrite (stor_pure_bind _ _ _ _ (law_rec_count _ _ Hrep)).
  pose proof (log_length bs) as Hl.
  destruct (N.eqb_spec (N.of_nat (rec_total bs)) 0) as [H0|H0].
  - unfold ret. repeat f_equal. lia.
  - rewrite (stor_pure_bind _ _ _ _ (law_block_count _ _ Hrep)). unfold ret, u64_sub. f_equal.
    destruct (N.ltb_spec (N.of_nat (rec_total bs)) (N.of_nat (length bs))); lia.
Qed.

(** A sibling asking for a record gets the record at that position of the
    chain, and a refusal at the empty positions and behind the last block. *)
Theorem get_block_record_correct b bs i :
  rep (b_storage b) bs -> (N.of_nat i / GRADIDO_BLOCK_SIZE < 2 ^ 32)%N ->
  exists s', get_block_record (N.of_nat i) b
    = Ret (match all_records BLOCK bs !! i with
           | Some r => if is_type EMPTY r then None else Some r
           | None => None
           end) (set_b_storage s' b) /\ rep s' bs.
Proof using SL.
  intros Hrep Hi. unfold get_block_record. cbv zeta. rewrite (N.mod_small _ _ Hi).
  rewrite (stor_pure_bind _ _ _ _ (law_block_count _ _ Hrep)).
  assert (N.of_nat i / GRADIDO_BLOCK_SIZE = N.of_nat (i / BLOCK))%N as Hd
    by (rewrite Nat2N.inj_div; now rewrite N2Nat.id).
  assert (N.to_nat (N.of_nat i mod GRADIDO_BLOCK_SIZE) = (i mod BLOCK)%nat) as Hm
    by (rewrite <- (N2Nat.id GRADIDO_BLOCK_SIZE), <- Nat2N.inj_mod, Nat2N.id; now rewrite N2Nat.id).
  assert (all_records BLOCK bs !! i = map (mk_block BLOCK) bs !! (i / BLOCK)%nat ≫= (.!! (i mod BLOCK)%nat)) as Ha.
  { apply concat_lookup_div; [|vm_compute; lia]. intros x Hx. apply list_elem_of_fmap in Hx as (y & -> & Hy).
    apply list_elem_of_lookup in Hy as [k Hk]. apply mk_block_length. eapply law_sizes; eauto. }
  rewrite Hd, Hm, Ha. destruct (N.leb_spec (N.of_nat (length bs)) (N.of_nat (i / BLOCK))) as [Hge|Hlt].
  - exists (b_storage b). rewrite list_lookup_fmap, lookup_ge_None_2 by lia. split; [now destruct b|done].
  - destruct (lookup_lt_is_Some_2 bs (i / BLOCK)%nat) as [x Hx]; [lia|].
    destruct (law_get_block _ _ _ _ Hrep Hx) as (s' & E & Hrep'). exists s'. split; [|done].
    rewrite (stor_bind _ _ _ _ _ E), list_lookup_fmap, Hx. cbn [fmap option_fmap option_map fst mbind option_bind].
    destruct (lookup_lt_is_Some_2 (mk_block BLOCK x) (i mod BLOCK)%nat) as [r Hr].
    { rewrite mk_block_length by (eapply law_sizes; eauto). apply Nat.mod_upper_bound. vm_compute; lia. }
    now rewrite Hr.
Qed.

(** A chain that is not empty: full blocks, and the last one. *)
Lemma chain_shape s bs :
  rep s bs -> bs <> [] ->
  exists bs0 x, bs = bs0 ++ [x] /\ (1 <= length x.1 <= BLOCK - 1)%nat
    /\ all_records BLOCK bs = all_records BLOCK bs0 ++ mk_block BLOCK x
    /\ length (all_records BLOCK bs0) = (length bs0 * BLOCK)%nat
    /\ rec_total bs = (length bs0 * BLOCK + S (length x.1))%nat.
Proof using SL.
  intros Hrep Hne. destruct (exists_last Hne) as (bs0 & x & ->). exists bs0, x. split; [done|].
  split; [exact (law_sizes _ _ (length bs0) x Hrep ltac:(now apply list_lookup_middle))|].
  assert (forall i y, bs0 !! i = Some y -> length y.1 = (BLOCK - 1)%nat) as Hfull.
  { intros i y Hy. apply lookup_lt_Some in Hy as Hi. eapply (law_full _ _ i y Hrep).
    - now rewrite lookup_app_l by done.
    - rewrite length_app. cbn. lia. }
  assert (2 <= BLOCK)%nat as HB by (vm_compute; lia).
  split; [|split].
  - unfold all_records. rewrite map_app, concat_app. cbn [map concat]. now rewrite app_nil_r.
  - clear Hne Hrep. unfold all_records. induction bs0 as [|y bs0 IH]; [done|].
    cbn [map concat]. rewrite length_app, IH by (intros i z Hz; exact (Hfull (S i) z Hz)).
    rewrite mk_block_length; [cbn [length]; lia|]. rewrite (Hfull 0%nat y eq_refl). lia.
  - rewrite rec_total_app, (rec_total_full BLOCK bs0 HB Hfull). unfold rec_total. cbn [sum_list_with]. lia.
Qed.

(** Before the last record, which is the checksum, come all the others. *)
Lemma last_checksum s bs :
  rep s bs -> bs <> [] ->
  exists bs0 x, bs = bs0 ++ [x]
    /\ take (rec_total bs - 1) (all_records BLOCK bs) = all_records BLOCK bs0 ++ map payload_rec x.1
    /\ all_records BLOCK bs !! (rec_total bs - 1)%nat = Some (checksum_rec x.2).
Proof using SL.
  intros Hrep Hne. destruct (chain_shape s bs Hrep Hne) as (bs0 & x & -> & Hsz & Hall & Hlen & Htot).
  exists bs0, x. split; [done|]. rewrite Hall, Htot.
  replace (length bs0 * BLOCK + S (length x.1) - 1)%nat with (length bs0 * BLOCK + length x.1)%nat by lia.
  rewrite <- Hlen. split.
  - rewrite take_app_add. f_equal. unfold mk_block. rewrite take_app_length'; [done|]. now rewrite length_map.
  - rewrite lookup_app_r by lia. rewrite Nat.add_comm, Nat.add_sub. destruct x as [ps c]. apply mk_block_checksum.
Qed.

(** The record before the last one is the last payload. *)
Lemma last_payload s bs :
  rep s bs -> bs <> [] ->
  exists p, last (bc_log bs) = Some p
    /\ all_records BLOCK bs !! (rec_total bs - 2)%nat = Some (payload_rec p) /\ (2 <= rec_total bs)%nat.
Proof using SL.
  intros Hrep Hne. destruct (chain_shape s bs Hrep Hne) as (bs0 & x & -> & Hsz & Hall & Hlen & Htot).
  destruct (exists_last (l := x.1)) as (ps & p & Hps); [intros E; rewrite E in Hsz; cbn in Hsz; lia|].
  exists p. rewrite bc_log_snoc, Hall, Htot, Hps, (assoc_L (++)), last_snoc, length_app. cbn [length].
  split; [done|]. split; [|lia].
  rewrite lookup_app_r by lia. rewrite Hlen.
  replace (length bs0 * BLOCK + S (length ps + 1) - 2 - length bs0 * BLOCK)%nat with (length ps) by lia.
  unfold mk_block. rewrite Hps, map_app, <- (assoc_L (++)). cbn [map].
  apply list_lookup_middle. now rewrite length_map.
Qed.

(** Reading the record before the last one. *)
Lemma read_last_payload b bs :
  rep (b_storage b) bs -> bs <> [] ->
  exists p s', last (bc_log bs) = Some p /\ rep s' bs
    /\ forall A (k : _ -> M B A), bind (stor (st_get_record (u64_sub (N.of_nat (rec_total bs)) 2))) k b
       = k (Some (payload_rec p), ExitCode.OK) (set_b_storage s' b).
Proof using SL.
  intros Hrep Hne. destruct (last_payload _ _ Hrep Hne) as (p & Hp & Hr & H2).
  unfold u64_sub. destruct (N.ltb_spec (N.of_nat (rec_total bs)) 2); [lia|].
  replace (N.of_nat (rec_total bs) - 2)%N with (N.of_nat (rec_total bs - 2)) by lia.
  destruct (law_get_record _ _ (rec_total bs - 2) Hrep ltac:(lia)) as (r & s' & E & Hr' & Hrep').
  exists p, s'. split; [done|]. split; [done|]. intros A k.
  rewrite (stor_bind _ _ _ _ _ E). congruence.
Qed.

Lemma rec_total_nil (bs : list (list T * bytes)) : rec_total bs = 0%nat <-> bs = [].
Proof using. destruct bs; cbn; split; intros; try done; lia. Qed.

(** *** Fetching from a sibling *)

Lemma block_record_append b p bs :
  b_state b = FETCHING_BLOCKS -> rep (b_storage b) bs ->
  (b_fetched_data_count b < GRADIDO_BLOCK_SIZE - 1)%N ->
  (b_fetched_data_count b + 1 < b_fetched_record_count b)%N ->
  exists s' bs', on_block_record (mkBlockRecord true p) b
      = Ret tt (set_b_blocks (b_block_to_fetch b) (b_fetched_data_count b + 1) (set_b_storage s' b))
    /\ rep s' bs' /\ bc_log bs' = bc_log bs ++ [p].
Proof.
  intros Hst Hrep Hdc Hrc. unfold on_block_record.
  rewrite b_gets, Hst, bool_decide_eq_true_2 by done. cbn [negb]. rewrite !b_gets. cbn [br_success negb].
  rewrite N.mod_small by lia.
  rewrite (proj2 (N.ltb_lt _ _) Hdc), (proj2 (N.ltb_lt _ _) Hrc). cbn [andb].
  destruct (law_append _ _ ch_is_valid [p] Hrep ltac:(discriminate) (cl_valid _)) as (s' & bs' & E & Hrep' & Hl).
  rewrite bind_assoc, (stor_bind _ _ _ _ _ E). exists s', bs'. done.
Qed.

Lemma block_record_skip b p :
  b_state b = FETCHING_BLOCKS ->
  (b_fetched_data_count b = GRADIDO_BLOCK_SIZE - 1)%N
   \/ (b_fetched_data_count b + 1 = b_fetched_record_count b)%N ->
  on_block_record (mkBlockRecord true p) b
  = Ret tt (set_b_blocks (b_block_to_fetch b) (b_fetched_data_count b + 1) b).
Proof.
  intros Hst H. unfold on_block_record.
  rewrite b_gets, Hst, bool_decide_eq_true_2 by done. cbn [negb]. rewrite !b_gets. cbn [br_success negb].
  assert ((b_fetched_data_count b mod GRADIDO_BLOCK_SIZE <? GRADIDO_BLOCK_SIZE - 1)%N
          && (b_fetched_data_count b + 1 <? b_fetched_record_count b)%N = false) as ->; [|done].
  destruct H as [->| ->]; [done|]. rewrite N.ltb_irrefl. apply andb_false_r.
Qed.

(** The end of a block that is not the last. *)
Lemma block_end_next b junk :
  b_state b = FETCHING_BLOCKS -> b_fetched_data_count b = b_fetched_record_count b ->
  b_block_to_fetch b <> N.of_nat (length (b_fetched_checksums b)) ->
  on_block_record (mkBlockRecord false junk) b
  = Ret tt (add_effect (RequireBlockData (b_fetch_endpoint b) name (b_block_to_fetch b + 1))
      (set_b_blocks (b_block_to_fetch b + 1) (b_fetched_data_count b) b)).
Proof.
  intros Hst Heq Hn. unfold on_block_record. rewrite b_gets, Hst, bool_decide_eq_true_2 by done. cbn [negb].
  rewrite !b_gets. cbn [br_success negb]. rewrite !b_gets, (proj2 (N.eqb_neq _ _) Hn), Heq, N.eqb_refl. reflexivity.
Qed.

(** The payload records of one block arrive. *)
Lemma block_payloads_append ps : forall b bs,
  b_state b = FETCHING_BLOCKS -> rep (b_storage b) bs ->
  (b_fetched_data_count b + N.of_nat (length ps) <= GRADIDO_BLOCK_SIZE - 1)%N ->
  (b_fetched_data_count b + N.of_nat (length ps) < b_fetched_record_count b)%N ->
  exists s' bs', for_each (map (mkBlockRecord true) ps) on_block_record b
      = Ret tt (set_b_blocks (b_block_to_fetch b) (b_fetched_data_count b + N.of_nat (length ps))
                  (set_b_storage s' b))
    /\ rep s' bs' /\ bc_log bs' = bc_log bs ++ ps.
Proof.
  induction ps as [|p ps IH]; intros b bs Hst Hrep H1 H2; cbn [map for_each].
  { exists (b_storage b), bs. rewrite app_nil_r, N.add_0_r. now destruct b. }
  cbn [length] in H1, H2.
  destruct (block_record_append b p bs Hst Hrep) as (s1 & bs1 & E1 & Hrep1 & Hl1); [lia|lia|].
  rewrite (bind_Ret _ _ _ _ _ E1).
  set (b1 := set_b_blocks _ _ _).
  destruct (IH b1 bs1) as (s' & bs' & E & Hrep' & Hl'); try done; [cbn; lia|cbn; lia|].
  exists s', bs'. rewrite E, Hl', Hl1, <- (assoc_L (++)). split; [|done].
  cbn. unfold set_b_blocks, set_b_storage. cbn. do 2 f_equal. lia.
Qed.

(** What a sibling sends of a chain: a checksum per block and an end mark;
    for a block, its payloads, its checksum record (copied over whatever
    record) and an end mark. *)
Definition checksum_answers (bs : list (list T * bytes)) : list BlockChecksum :=
  map (fun x => mkBlockChecksum true (N.of_nat (S (length x.1))) x.2) bs ++ [mkBlockChecksum false 0 []].
Definition block_answers (junk : T) (x : list T * bytes) : list (BlockRecord T) :=
  map (mkBlockRecord true) x.1 ++ [mkBlockRecord true junk; mkBlockRecord false junk].

Lemma checksums_received bs : forall b,
  (forall i x, bs !! i = Some x -> (S i < length bs)%nat -> length x.1 = (BLOCK - 1)%nat) ->
  b_state b = FETCHING_CHECKSUMS -> b_expecting_last b = false ->
  exists el, for_each (checksum_answers bs) on_block_checksum b
    = Ret tt (set_b_blocks 0 0 (set_b_state FETCHING_BLOCKS
        (set_b_checksums (b_fetched_checksums b ++ map snd bs)
           (b_fetched_record_count b + N.of_nat (rec_total bs)) el
           (add_effect (RequireBlockData (b_fetch_endpoint b) name 0) b)))).
Proof.
  induction bs as [|x bs IH]; intros b Hfull Hst Hel; unfold checksum_answers; cbn [map app for_each].
  - exists (b_expecting_last b). unfold on_block_checksum. unfold bind at 1.
    rewrite b_gets, Hst, bool_decide_eq_true_2 by done. cbn. rewrite app_nil_r, N.add_0_r.
    unfold rec_total. cbn. unfold set_b_blocks, set_b_state, set_b_checksums. cbn. reflexivity.
  - assert (on_block_checksum (mkBlockChecksum true (N.of_nat (S (length x.1))) x.2) b
      = Ret tt (set_b_checksums (b_fetched_checksums b ++ [x.2])
           (b_fetched_record_count b + N.of_nat (S (length x.1)))
           (N.of_nat (S (length x.1)) <? GRADIDO_BLOCK_SIZE)%N b)) as E.
    { unfold on_block_checksum. rewrite b_gets, Hst, bool_decide_eq_true_2 by done. cbn [negb bcs_success].
      rewrite b_gets, Hel. unfold modify. cbn. now rewrite orb_false_r. }
    rewrite (bind_Ret _ _ _ _ _ E). clear E. destruct bs as [|y bs].
    + cbn [map app for_each]. eexists. unfold on_block_checksum. unfold bind at 1.
      rewrite b_gets. cbn [b_state set_b_checksums]. rewrite Hst, bool_decide_eq_true_2 by done. cbn.
      unfold set_b_blocks, set_b_state, set_b_checksums. cbn. rewrite Nat.add_0_r. reflexivity.
    + set (b1 := set_b_checksums _ _ _ b). destruct (IH b1) as (el & E).
      * intros i z Hz Hi. apply (Hfull (S i) z Hz). cbn in *. lia.
      * done.
      * cbn. rewrite (Hfull 0%nat x eq_refl) by (cbn; lia). reflexivity.
      * exists el. unfold checksum_answers in E. rewrite E. cbn.
        unfold set_b_blocks, set_b_state, set_b_checksums. cbn.
        do 2 f_equal; [now rewrite <- (assoc_L (++))|unfold rec_total; cbn; lia].
Qed.

Lemma start_fetching b ep :
  b_state b = INITIAL -> rep (b_storage b) [] ->
  continue_validation (Some ep) b
  = Ret tt (add_effect (RequireBlockChecksums ep name)
      (set_b_fetch ep (set_b_state FETCHING_CHECKSUMS b))).
Proof.
  intros Hst Hrep. unfold continue_validation. rewrite b_gets, Hst.
  rewrite (stor_pure_bind _ _ _ _ (law_block_count _ _ Hrep)). reflexivity.
Qed.

(** Up to the end of the first block: all its payloads are stored and the
    data count is its size. *)
Lemma first_block_received b ep x bs junk :
  b_state b = INITIAL -> rep (b_storage b) [] -> (1 <= length x.1 <= BLOCK - 1)%nat ->
  (forall i y, (x :: bs) !! i = Some y -> (S i < length (x :: bs))%nat -> length y.1 = (BLOCK - 1)%nat) ->
  exists b' bs', (continue_validation (Some ep) ;;;
      for_each (checksum_answers (x :: bs)) on_block_checksum ;;;
      for_each (map (mkBlockRecord true) x.1 ++ [mkBlockRecord true junk]) on_block_record) b = Ret tt b'
    /\ b_state b' = FETCHING_BLOCKS /\ rep (b_storage b') bs' /\ bc_log bs' = x.1
    /\ b_fetched_data_count b' = N.of_nat (S (length x.1)) /\ b_block_to_fetch b' = 0%N
    /\ b_fetched_record_count b' = N.of_nat (rec_total (x :: bs))
    /\ length (b_fetched_checksums b') = S (length bs).
Proof.
  intros Hst Hrep Hsz Hfull. rewrite (bind_Ret _ _ _ _ _ (start_fetching b ep Hst Hrep)).
  destruct (checksums_received (x :: bs)
    (add_effect (RequireBlockChecksums ep name) (set_b_fetch ep (set_b_state FETCHING_CHECKSUMS b)))
    Hfull eq_refl eq_refl) as (el & E).
  rewrite (bind_Ret _ _ _ _ _ E). clear E. set (b1 := set_b_blocks 0 0 _).
  rewrite for_each_app.
  assert (length x.1 + length bs < rec_total (x :: bs))%nat as Hrc.
  { pose proof (log_length (x :: bs)) as Hl. unfold bc_log in Hl. cbn [map concat] in Hl.
    rewrite length_app in Hl. cbn [length] in Hl. lia. }
  destruct (block_payloads_append x.1 b1 [] eq_refl Hrep) as (s2 & bs2 & E2 & Hrep2 & Hl2); [cbn; lia|cbn; lia|].
  rewrite (bind_Ret _ _ _ _ _ E2). cbn [for_each].
  set (b2 := set_b_blocks _ _ _).
  assert (on_block_record (mkBlockRecord true junk) b2
          = Ret tt (set_b_blocks (b_block_to_fetch b2) (b_fetched_data_count b2 + 1) b2)) as E3.
  { apply block_record_skip; [done|]. destruct bs as [|y bs].
    - right. cbn. unfold rec_total. cbn. lia.
    - left. cbn. rewrite (Hfull 0%nat x eq_refl) by (cbn; lia). reflexivity. }
  rewrite (bind_Ret _ _ _ _ _ E3). eexists _, bs2. split; [reflexivity|]. cbn.
  rewrite length_map. repeat split; try done; lia.
Qed.

Lemma reset_ok b bs :
  rep (b_storage b) bs ->
  exists b', reset_validation b = Ret tt b' /\ b_state b' = INITIAL /\ b_inbound b' = b_inbound b
    /\ b_effects b' = b_effects b ++ [PushContinueValidation BLOCKCHAIN_RESET_TIMEOUT_SECONDS]
    /\ st_truncate 0 (b_storage b) = Ret tt (b_storage b').
Proof.
  intros Hrep. unfold reset_validation. rewrite b_modify. destruct (law_truncate _ _ Hrep) as [s' Et].
  erewrite stor_bind by exact Et. edestruct cl_clear as [z Ez]. rewrite (bind_Ret _ _ _ _ _ Ez).
  eexists. split; [reflexivity|]. done.
Qed.

(** A blockchain that starts empty and fetches a chain of one block from a
    sibling stores exactly that block's payloads and goes on to validate
    them. *)
Theorem fetch_one_block_stores_payloads b ep ps c junk :
  b_state b = INITIAL -> rep (b_storage b) [] -> (1 <= length ps <= BLOCK - 1)%nat ->
  exists b' bs', ((continue_validation (Some ep) ;;;
      for_each (checksum_answers [(ps, c)]) on_block_checksum ;;;
      for_each (map (mkBlockRecord true) ps ++ [mkBlockRecord true junk]) on_block_record) ;;;
      on_block_record (mkBlockRecord false junk) ;;;
      on_block_record (mkBlockRecord false junk)) b = Ret tt b'
    /\ b_state b' = VALIDATING /\ rep (b_storage b') bs' /\ bc_log bs' = ps.
Proof.
  intros Hst Hrep Hsz.
  destruct (first_block_received b ep (ps, c) [] junk Hst Hrep Hsz) as
    (b1 & bs1 & E & Hst1 & Hrep1 & Hl1 & Hdc & Htf & Hrc & Hn).
  { intros [|i] y Hy Hi; [cbn in Hi; lia|destruct i; discriminate]. }
  rewrite (bind_Ret _ _ _ _ _ E). cbn [length fst rec_total] in *.
  assert (b_fetched_data_count b1 = b_fetched_record_count b1) as Heq.
  { rewrite Hdc, Hrc. unfold rec_total. cbn. lia. }
  pose proof (block_end_next b1 junk Hst1 Heq ltac:(rewrite Hn, Htf; done)) as E1. rewrite Htf in E1.
  rewrite (bind_Ret _ _ _ _ _ E1). unfold on_block_record.
  rewrite b_gets. cbn [b_state add_effect set_b_blocks]. rewrite Hst1, bool_decide_eq_true_2 by done. cbn [negb].
  rewrite !b_gets. cbn [br_success negb b_fetched_data_count b_fetched_record_count b_block_to_fetch
    b_fetched_checksums add_effect set_b_blocks].
  rewrite !b_gets. cbn [b_block_to_fetch b_fetched_checksums add_effect set_b_blocks].
  rewrite Hn, Heq, N.eqb_refl. change (1 =? N.of_nat 1)%N with true. cbn [negb]. cbv iota.
  rewrite N.eqb_refl. cbn [negb]. unfold start_validating. rewrite b_modify. edestruct cl_clear as [y Ey].
  rewrite (bind_Ret _ _ _ _ _ Ey). eexists _, bs1. split; [reflexivity|]. done.
Qed.

(** A chain of two or more blocks cannot be fetched: at the end of the
    first block the number of records received is compared with the number
    of records of all blocks, and the blockchain starts over. *)
Theorem fetch_two_blocks_starts_over b ep x y bs junk :
  b_state b = INITIAL -> rep (b_storage b) [] -> (1 <= length x.1 <= BLOCK - 1)%nat ->
  (forall i z, (x :: y :: bs) !! i = Some z -> (S i < length (x :: y :: bs))%nat ->
     length z.1 = (BLOCK - 1)%nat) ->
  exists b', ((continue_validation (Some ep) ;;;
      for_each (checksum_answers (x :: y :: bs)) on_block_checksum ;;;
      for_each (map (mkBlockRecord true) x.1 ++ [mkBlockRecord true junk]) on_block_record) ;;;
      on_block_record (mkBlockRecord false junk)) b = Ret tt b'
    /\ b_state b' = INITIAL.
Proof.
  intros Hst Hrep Hsz Hfull.
  destruct (first_block_received b ep x (y :: bs) junk Hst Hrep Hsz Hfull) as
    (b1 & bs1 & E & Hst1 & Hrep1 & Hl1 & Hdc & Htf & Hrc & Hn).
  rewrite (bind_Ret _ _ _ _ _ E). unfold on_block_record.
  rewrite b_gets, Hst1, bool_decide_eq_true_2 by done. cbn [negb].
  rewrite !b_gets. cbn [br_success negb]. rewrite !b_gets.
  assert ((b_fetched_data_count b1 =? b_fetched_record_count b1)%N = false) as ->.
  { apply N.eqb_neq. rewrite Hdc, Hrc. unfold rec_total. cbn. lia. }
  cbn [negb]. destruct (reset_ok b1 bs1 Hrep1) as (b' & Eb & Hb' & _).
  exists b'. destruct (_ =? _)%N; done.
Qed.

(** *** Transactions

    [latest_of] is what [get_latest_transaction_id] finds in the log. *)

Context (latest_of : list T -> option N)
  (Hlatest : forall b bs, rep (b_storage b) bs ->
     exists s', ch_get_latest_transaction_id b = Ret (latest_of (bc_log bs)) (set_b_storage s' b)
       /\ rep s' bs).
#[local] Set Default Proof Using "Type SL CL Hlatest".

(** The transaction with sequence number [cs] is the next one, or one the
    chain already has. *)
Definition is_next (bs : list (list T * bytes)) (cs : N) : bool :=
  match latest_of (bc_log bs), kind with
  | Some n, _ => (cs =? (n + 1) mod 2 ^ 64)%N
  | None, Deprecated allowed => allowed || (cs =? 1)%N
  | None, Current => false
  end.

Definition is_old (bs : list (list T * bytes)) (cs : N) : bool :=
  match latest_of (bc_log bs) with Some n => (cs <=? n)%N | None => false end.

Definition plain (x : Batch T) (cs : N) : Prop :=
  batch_seq x = Some cs /\ reset_blockchain x = false.

(** [get_latest_transaction_id] done, the batch is stored, dropped, or
    causes a reset. *)
Lemma process_latest x cs b bs :
  plain x cs -> rep (b_storage b) bs ->
  exists s', rep s' bs /\ process_batch x b
    = (if is_next bs cs then
         let! r := ch_calc_fields_and_update_indexes_for (buff x) in
         if (r.1 : bool)
         then let! _ := stor (st_append ch_is_valid r.2) in ret true
         else inbound_push (mkBatch r.2 (reset_blockchain x)) ;;; ret false
       else if is_old bs cs then ret true
       else inbound_push x ;;; reset_validation ;;; ret false) (set_b_storage s' b).
Proof.
  intros [Hx Hr] Hrep. destruct (Hlatest b bs Hrep) as (s' & E & Hrep'). exists s'. split; [done|].
  unfold process_batch. rewrite Hr.
  transitivity (process_transactions x b); [now destruct kind|].
  unfold process_transactions. rewrite Hx, (bind_Ret _ _ _ _ _ E), Hr. reflexivity.
Qed.

Lemma process_old x cs b bs :
  plain x cs -> rep (b_storage b) bs -> is_next bs cs = false -> is_old bs cs = true ->
  exists s', process_batch x b = Ret true (set_b_storage s' b) /\ rep s' bs.
Proof.
  intros Hx Hrep Hn Ho. destruct (process_latest _ _ _ _ Hx Hrep) as (s' & Hrep' & E).
  exists s'. rewrite E, Hn, Ho. done.
Qed.

Lemma process_hole x cs b bs :
  plain x cs -> rep (b_storage b) bs -> is_next bs cs = false -> is_old bs cs = false ->
  Forall (fun y => buff y <> []) (b_inbound b) ->
  exists b', process_batch x b = Ret false b' /\ b_state b' = INITIAL
    /\ b_inbound b' = x :: b_inbound b
    /\ b_effects b' = b_effects b ++ [PushContinueValidation BLOCKCHAIN_RESET_TIMEOUT_SECONDS]
    /\ exists s, rep s bs /\ st_truncate 0 s = Ret tt (b_storage b').
Proof.
  intros Hx Hrep Hn Ho Hq. destruct (process_latest _ _ _ _ Hx Hrep) as (s' & Hrep' & E).
  rewrite E, Hn, Ho. clear E.
  assert (inbound_push x (set_b_storage s' b)
          = Ret tt (set_b_inbound (x :: b_inbound b) (set_b_storage s' b))) as E.
  { unfold inbound_push. rewrite b_gets. cbn [b_inbound set_b_storage].
    assert (pq_push x (b_inbound b) = Some (x :: b_inbound b)) as ->; [|done].
    unfold pq_push. destruct (b_inbound b) as [|y q]; [done|].
    assert (forallb (fun y0 => negb (length (buff y0) =? 0)%nat) (x :: y :: q) = true) as ->; [|done].
    apply forallb_forall. intros z Hz. apply list_elem_of_In in Hz.
    assert (buff z <> []) as Hne.
    { apply elem_of_cons in Hz as [->|Hz]; [|now apply (proj1 (Forall_forall _ _) Hq)].
      destruct Hx as [Hx _]. unfold batch_seq in Hx. now destruct (buff x). }
    now destruct (buff z). }
  rewrite (bind_Ret _ _ _ _ _ E).
  destruct (reset_ok (set_b_inbound (x :: b_inbound b) (set_b_storage s' b)) bs Hrep') as (b' & Er & ? & ? & ? & ?).
  rewrite (bind_Ret _ _ _ _ _ Er). exists b'. split_and!; try done. by exists s'.
Qed.

(** The indexes are updated and the record is ready to be stored. *)
Definition accepts (x : Batch T) b bs (recs : list T) (y : X) : Prop :=
  recs <> [] /\ forall s, rep s bs ->
  exists s', ch_calc_fields_and_update_indexes_for (buff x) (set_b_storage s b)
    = Ret (true, recs) (set_b_child y (set_b_storage s' b)) /\ rep s' bs.

Lemma process_next x cs b bs recs y :
  plain x cs -> rep (b_storage b) bs -> is_next bs cs = true -> accepts x b bs recs y ->
  exists s' bs', process_batch x b = Ret true (set_b_child y (set_b_storage s' b))
    /\ rep s' bs' /\ bc_log bs' = bc_log bs ++ recs.
Proof.
  intros Hx Hrep Hn [Hne Ha]. destruct (process_latest _ _ _ _ Hx Hrep) as (s1 & Hrep1 & E).
  destruct (Ha s1 Hrep1) as (s2 & E2 & Hrep2). rewrite E, Hn, (bind_Ret _ _ _ _ _ E2). cbn [fst snd].
  destruct (law_append s2 bs ch_is_valid recs Hrep2 Hne (cl_valid _)) as (s3 & bs3 & E3 & Hrep3 & Hl3).
  exists s3, bs3. erewrite stor_bind by exact E3. done.
Qed.

(** A transaction that arrives when nothing else is waiting. *)
Lemma add_next x cs b bs recs y :
  b_state b = READY -> b_inbound b = [] -> (0 < batch_size)%nat ->
  plain x cs -> rep (b_storage b) bs -> is_next bs cs = true -> accepts x b bs recs y ->
  exists s' bs', add_transaction x b = Ret tt (set_b_child y (set_b_storage s' b))
    /\ rep s' bs' /\ bc_log bs' = bc_log bs ++ recs.
Proof.
  intros Hst Hq Hbs Hx Hrep Hn Ha.
  destruct (process_next x cs b bs recs y Hx Hrep Hn Ha) as (s' & bs' & E & Hrep' & Hl').
  exists s', bs'. split; [|done]. now apply add_when_idle.
Qed.

End behaviour.

End base.

#[export] Hint Resolve keeps_ret keeps_gets keeps_throw keeps_undef keeps_stor
  keeps_inbound_push : keeps.
#[export] Hint Extern 1 (keeps (modify _)) => apply keeps_modify; done : keeps.
#[export] Hint Extern 1 (keeps (emit _)) => apply keeps_emit; done : keeps.
#[export] Hint Extern 2 (keeps (bind _ _)) => apply keeps_bind; [|intros ?] : keeps.

(** ** The current header (blockchain_base.h)

    [BlockchainBase] has the operations above, without reset batches and
    without the rule for the first transaction. *)

Section current.
Context {T St X : Type} (payload_bytes : T -> bytes) `{STO : !Storage T St, CH : !Child T St X}.
Context (name : string) (batch_size : nat).
Abbreviation B := (Base T St X).

Definition bb_on_block_record : BlockRecord T -> M B unit := on_block_record name.
Definition bb_on_block_checksum : BlockChecksum -> M B unit := on_block_checksum name.
Definition bb_fetch_next_block : M B unit := fetch_next_block name.
Definition bb_reset_validation : M B unit := reset_validation.
Definition bb_validate_next_batch : M B unit := validate_next_batch.
Definition bb_continue_validation : option string -> M B unit := continue_validation name.
Definition bb_continue_with_transactions : M B unit := continue_with_transactions Current batch_size.
Definition bb_add_transaction : Batch T -> M B unit := add_transaction Current batch_size.
Definition bb_get_transaction_count : M B N := get_transaction_count.
Definition bb_get_transaction2 : N -> M B (option (Rec T)) := get_transaction2.
Definition bb_get_block_count : M B N := base_get_block_count.
Definition bb_get_checksums : M B (list BlockInfo) := get_checksums payload_bytes.
Definition bb_get_block_record : N -> M B (option (Rec T)) := get_block_record.

(** Without blocks, a transaction is taken for a hole whatever its number:
    it is put back in the queue and the blockchain is reset. *)
Lemma first_transaction_is_hole (rep : St -> list (list T * bytes) -> Prop) `{!StorageLaws rep, !ChildLaws}
    b x cs :
  (forall c, rep (b_storage c) [] -> exists s', ch_get_latest_transaction_id c = Ret None (set_b_storage s' c) /\ rep s' []) ->
  b_state b = READY -> b_inbound b = [] -> (0 < batch_size)%nat -> rep (b_storage b) [] ->
  batch_seq x = Some cs ->
  exists b', bb_add_transaction x b = Ret tt b' /\ b_state b' = INITIAL /\ b_inbound b' = [x]
    /\ b_effects b' = b_effects b ++ [PushContinueValidation BLOCKCHAIN_RESET_TIMEOUT_SECONDS].
Proof.
  intros Hlat Hst Hq Hbs Hrep Hx.
  assert (exists b', process_batch Current x b = Ret false b' /\ b_state b' = INITIAL /\ b_inbound b' = [x]
    /\ b_effects b' = b_effects b ++ [PushContinueValidation BLOCKCHAIN_RESET_TIMEOUT_SECONDS])
    as (b' & E & Hst' & Hq' & He').
  { destruct (Hlat b Hrep) as (s' & El & Hrep'). unfold process_batch, process_transactions.
    rewrite Hx, (bind_Ret _ _ _ _ _ El). cbn iota. unfold inbound_push. rewrite bind_assoc, b_gets.
    cbn [b_inbound set_b_storage]. rewrite Hq. cbn [pq_push]. rewrite b_modify.
    destruct (reset_ok rep (set_b_inbound [x] (set_b_storage s' b)) [] Hrep') as (b' & Er & ? & ? & ? & _).
    rewrite (bind_Ret _ _ _ _ _ Er). exists b'. done. }
  exists b'. split; [|done]. unfold bb_add_transaction, add_transaction, inbound_push.
  rewrite bind_assoc, b_gets, Hq. cbn [pq_push]. rewrite b_modify. apply (continue_stops _ _ x); try done.
  assert (set_b_inbound [] (set_b_inbound [x] b) = b) as -> by (destruct b; cbn in *; now subst). exact E.
Qed.

End current.
