(* ===== verification/GroupRegister.v ===== *)
(** * The group register (group_register.h, group_register.cpp)

    A blockchain whose records give aliases to groups.  The register keeps
    an index of the aliases that were registered successfully. *)

From stdpp Require Import base gmap strings numbers list.
From Stdlib Require Import ZArith Lia.
From S2P Require Import Prelude GradidoDef FileTile Fnr Blockchain BlockchainBase.
Local Open Scope node_scope.
Set Default Proof Using "Type".

Record GroupRecord := mkGroupRecord
  { gr_alias : bytes; gr_topic_id : HederaTopicID; gr_success : bool;
    gr_hedera_transaction : HederaTransaction; gr_signature : Signature }.

(** The code reads the union as a group record before, and without, looking
    at the type. *)
Record GroupRegisterRecord := mkGroupRegisterRecord
  { grr_type : Z; grr_group : GroupRecord }.

Definition GROUP_RECORD_code : Z := 1.

Definition HederaTopicID_zero : HederaTopicID := mkHederaTopicID 0 0 0.
Definition GroupRecord_zero : GroupRecord :=
  mkGroupRecord (replicate GROUP_ALIAS_LENGTH 0%Z) HederaTopicID_zero false
    HederaTransaction_zero Signature_zero.

Definition is_good_group (r : GroupRegisterRecord) : bool :=
  (grr_type r =? GROUP_RECORD_code)%Z && gr_success (grr_group r).

Definition with_success (v : bool) (g : GroupRecord) : GroupRecord :=
  mkGroupRecord (gr_alias g) (gr_topic_id g) v (gr_hedera_transaction g) (gr_signature g).

Record GroupRegister := mkGroupRegister
  { gr_first_good_validation : bool; gr_aliases : gmap bytes GroupRecord }.

Record GroupInfo := mkGroupInfo { gi_topic_id : HederaTopicID; gi_alias : bytes }.

(** [rec->payload]: reading a checksum as a record is not modelled. *)
Definition payload_view {T} (zero : T) (r : Rec T) : option T :=
  match rec_u r with
  | UPayload p => Some p
  | UZero => Some zero
  | UChecksum _ => None
  end.

Section group_register.
Context {St : Type} `{STO : !Storage GroupRegisterRecord St}.
Abbreviation B := (Base GroupRegisterRecord St GroupRegister).
Abbreviation zeroG := (mkGroupRegisterRecord 0 GroupRecord_zero).

Definition set_aliases (m : gmap bytes GroupRecord) : M B unit :=
  modify (fun b => set_b_child (mkGroupRegister (gr_first_good_validation (b_child b)) m) b).

Definition GroupRegister_is_valid (recs : list GroupRegisterRecord) : bool := true.

Definition GroupRegister_seq (r : GroupRegisterRecord) : N :=
  sequenceNumber (gr_hedera_transaction (grr_group r)).

(** The records of one block up to its checksum: [None] is undefined
    behaviour, [false] an alias that is there already.  An alias field ends
    with a null (blockchain_gradido_def.h at [GROUP_ALIAS_LENGTH]). *)
Fixpoint index_records (rs : list (Rec GroupRegisterRecord)) (al : gmap bytes GroupRecord)
    : option (bool * gmap bytes GroupRecord) :=
  match rs with
  | [] => Some (true, al)
  | r :: rs' =>
      if is_type CHECKSUM r then Some (true, al)
      else
        match payload_view zeroG r with
        | None => None
        | Some pp =>
            if is_good_group pp then
              let alias := cstr (gr_alias (grr_group pp)) in
              match al !! alias with
              | Some _ => Some (false, al)
              | None => index_records rs' (<[alias := grr_group pp]> al)
              end
            else index_records rs' al
        end
  end.

Definition GroupRegister_add_index_data : M B bool :=
  let! from := gets b_indexed_blocks in
  let! vc := stor st_get_checksum_valid_block_count in
  fold_each (seq (N.to_nat from) (N.to_nat (vc - from))) true (fun ok i =>
    if negb ok then ret false (* returned already *)
    else
      let! r := stor (st_get_block (N.of_nat i)) in
      match r.1 with
      | None => undef
      | Some block =>
          let! x := gets b_child in
          match index_records (take BLOCK block) (gr_aliases x) with
          | None => undef
          | Some (ok', al) => set_aliases al ;;; ret ok'
          end
      end).

Definition GroupRegister_get_latest_transaction_id : M B (option N) :=
  let! rc := stor st_get_rec_count in
  if (rc =? 0)%N then ret None
  else
    let! r := stor (st_get_record (u64_sub rc 2)) in
    match r.1 ≫= payload_view zeroG with
    | None => undef
    | Some gr => ret (Some (GroupRegister_seq gr))
    end.

Definition GroupRegister_calc_fields_and_update_indexes_for (recs : list GroupRegisterRecord)
    : M B (bool * list GroupRegisterRecord) :=
  match recs with
  | [] => undef
  | r0 :: rest =>
      let rec := grr_group r0 in
      let alias := gr_alias rec in (* all GROUP_ALIAS_LENGTH bytes *)
      let! x := gets b_child in
      let succ := (0 <? length alias)%nat && bool_decide (gr_aliases x !! alias = None) in
      let rec' := with_success succ rec in
      (if succ then set_aliases (<[alias := rec']> (gr_aliases x)) else ret tt) ;;;
      ret (true, mkGroupRegisterRecord (grr_type r0) rec' :: rest)
  end.

Definition GroupRegister_clear_indexes : M B unit := set_aliases ∅.

Definition GroupRegister_on_blockchain_ready : M B unit :=
  let! x := gets b_child in
  if gr_first_good_validation x then
    modify (fun b => set_b_child (mkGroupRegister false (gr_aliases (b_child b))) b) ;;;
    emit PushContinueFacadeInit
  else ret tt.

#[export] Instance GroupRegister_Child : Child GroupRegisterRecord St GroupRegister := {|
  ch_is_valid := GroupRegister_is_valid;
  ch_seq := GroupRegister_seq;
  ch_get_latest_transaction_id := GroupRegister_get_latest_transaction_id;
  ch_calc_fields_and_update_indexes_for := GroupRegister_calc_fields_and_update_indexes_for;
  ch_clear_indexes := GroupRegister_clear_indexes;
  ch_add_index_data := GroupRegister_add_index_data;
  ch_on_blockchain_ready := GroupRegister_on_blockchain_ready |}.

(** [strcpy] into the alias field of a zeroed record. *)
Definition alias_field (alias : bytes) : option bytes :=
  let s := cstr alias in
  if (length s <? GROUP_ALIAS_LENGTH)%nat
  then Some (s ++ replicate (GROUP_ALIAS_LENGTH - length s) 0%Z) else None.

Definition GroupRegister_add_record (alias : bytes) (tid : HederaTopicID) : M B unit :=
  match alias_field alias with
  | None => undef
  | Some field =>
      let! x := gets b_child in
      let succ := (0 <? length alias)%nat && bool_decide (gr_aliases x !! alias = None) in
      let rec0 := mkGroupRecord field tid succ HederaTransaction_zero Signature_zero in
      (if succ then set_aliases (<[alias := rec0]> (gr_aliases x)) else ret tt) ;;;
      let! _ := stor (st_append GroupRegister_is_valid [mkGroupRegisterRecord GROUP_RECORD_code rec0]) in
      ret tt
  end.

(** The records of a block up to its checksum, as [get_groups] reads them. *)
Fixpoint block_groups (rs : list (Rec GroupRegisterRecord)) : option (list GroupInfo) :=
  match rs with
  | [] => Some []
  | r :: rs' =>
      if is_type CHECKSUM r then Some []
      else
        match payload_view zeroG r, block_groups rs' with
        | Some pp, Some l =>
            Some (if is_good_group pp
                  then mkGroupInfo (gr_topic_id (grr_group pp)) (gr_alias (grr_group pp)) :: l else l)
        | _, _ => None
        end
  end.

Definition GroupRegister_get_groups : M B (list GroupInfo) :=
  let! st := gets b_state in
  if negb (bool_decide (st = READY)) then ret []
  else
    let! tc := stor st_get_block_count in
    fold_each (seq 0 (N.to_nat tc)) [] (fun res i =>
      let! r := stor (st_get_block (N.of_nat i)) in
      match r.1 with
      | None => undef
      | Some block =>
          match block_groups (take BLOCK block) with
          | None => undef
          | Some l => ret (res ++ l)
          end
      end).

Definition GroupRegister_get_topic_id (alias : bytes) : M B (option HederaTopicID) :=
  let! zz := GroupRegister_get_groups in
  ret (gi_topic_id <$> List.find (fun i => bool_decide (cstr (gi_alias i) = alias)) zz).

(** ** The register leaves the state machine alone *)

Lemma keeps_fold_each {T S' X A C} (l : list A) (acc : C) (body : C -> A -> M (Base T S' X) C) :
  (forall c x, keeps (body c x)) -> keeps (fold_each l acc body).
Proof.
  intros Hb. revert acc. induction l as [|x l IH]; intros acc; cbn [fold_each].
  - apply keeps_ret.
  - apply keeps_bind; [apply Hb|intros c; apply IH].
Qed.

Lemma keeps_set_aliases m : keeps (set_aliases m).
Proof. apply keeps_modify. done. Qed.
Hint Resolve keeps_set_aliases : keeps.

#[export] Instance GroupRegister_laws : ChildLaws (T := GroupRegisterRecord) (St := St).
Proof.
  split; cbn.
  - unfold GroupRegister_get_latest_transaction_id. apply keeps_bind; [eauto with keeps|]. intros rc.
    destruct (rc =? 0)%N; [eauto with keeps|]. apply keeps_bind; [eauto with keeps|]. intros r.
    destruct (_ ≫= _); eauto with keeps.
  - intros [|r l]; cbn; [eauto with keeps|]. apply keeps_bind; [eauto with keeps|]. intros x.
    apply keeps_bind; [destruct (_ && _)|]; eauto with keeps.
  - unfold GroupRegister_add_index_data. do 2 (apply keeps_bind; [eauto with keeps|]; intros ?).
    apply keeps_fold_each. intros c i. destruct (negb c); [eauto with keeps|].
    apply keeps_bind; [eauto with keeps|]. intros r. destruct (r.1); [|eauto with keeps].
    apply keeps_bind; [eauto with keeps|]. intros x. destruct (index_records _ _) as [[ok al]|]; eauto with keeps.
  - unfold GroupRegister_on_blockchain_ready. apply keeps_bind; [eauto with keeps|]. intros x.
    destruct (gr_first_good_validation x); eauto with keeps.
  - intros b. eexists. reflexivity.
  - done.
Qed.

(** ** Over a store that keeps its promises *)

Section behaviour.
Context (rep : St -> list (list GroupRegisterRecord * bytes) -> Prop) `{SL : !StorageLaws rep}.
#[local] Set Default Proof Using "Type SL".
Context (allowed : bool) (batch_size : nat).
Implicit Types (b : B).

Definition GroupRegister_latest (log : list GroupRegisterRecord) : option N :=
  GroupRegister_seq <$> last log.

Lemma GroupRegister_latest_ok b bs :
  rep (b_storage b) bs ->
  exists s', GroupRegister_get_latest_transaction_id b
    = Ret (GroupRegister_latest (bc_log bs)) (set_b_storage s' b) /\ rep s' bs.
Proof.
  intros Hrep. unfold GroupRegister_get_latest_transaction_id, GroupRegister_latest.
  rewrite (stor_pure_bind _ _ _ _ (law_rec_count _ _ Hrep)).
  destruct (N.eqb_spec (N.of_nat (rec_total bs)) 0) as [H0|H0].
  - assert (bs = []) as -> by (apply rec_total_nil; lia).
    exists (b_storage b). split; [now destruct b|done].
  - assert (bs <> []) as Hne by (intros ->; now apply H0).
    destruct (read_last_payload rep b bs Hrep Hne) as (p & s' & Hp & Hrep' & E).
    exists s'. rewrite E, Hp. done.
Qed.

(** What the register makes of a record, and of a sequence of records: the
    success flag and the index. *)
Definition mark (r : GroupRegisterRecord) (al : gmap bytes GroupRecord)
    : GroupRegisterRecord * gmap bytes GroupRecord :=
  let g := grr_group r in
  let succ := (0 <? length (gr_alias g))%nat && bool_decide (al !! gr_alias g = None) in
  (mkGroupRegisterRecord (grr_type r) (with_success succ g),
   if succ then <[gr_alias g := with_success succ g]> al else al).

Fixpoint mark_all (l : list GroupRegisterRecord) (al : gmap bytes GroupRecord)
    : list GroupRegisterRecord * gmap bytes GroupRecord :=
  match l with
  | [] => ([], al)
  | r :: l' => let (r', al') := mark r al in
               let (l'', al'') := mark_all l' al' in (r' :: l'', al'')
  end.

Lemma calc_marks r b :
  GroupRegister_calc_fields_and_update_indexes_for [r] b
  = Ret (true, [(mark r (gr_aliases (b_child b))).1])
      (set_b_child (mkGroupRegister (gr_first_good_validation (b_child b))
                      (mark r (gr_aliases (b_child b))).2) b).
Proof.
  unfold GroupRegister_calc_fields_and_update_indexes_for, mark. rewrite b_gets. cbv zeta.
  destruct (_ && _); [reflexivity|]. unfold bind, ret. cbn. destruct b as [? ? ? ? ? ? ? ? ? ? [? ?] ?].
  reflexivity.
Qed.

Lemma mark_seq r al : GroupRegister_seq (mark r al).1 = GroupRegister_seq r.
Proof. reflexivity. Qed.

Abbreviation KIND := (Deprecated allowed).

Lemma add_next_record b bs r :
  b_state b = READY -> b_inbound b = [] -> (0 < batch_size)%nat -> rep (b_storage b) bs ->
  is_next KIND GroupRegister_latest bs (GroupRegister_seq r) = true ->
  exists s' bs', add_transaction KIND batch_size (mkBatch [r] false) b
    = Ret tt (set_b_child (mkGroupRegister (gr_first_good_validation (b_child b))
                             (mark r (gr_aliases (b_child b))).2) (set_b_storage s' b))
    /\ rep s' bs' /\ bc_log bs' = bc_log bs ++ [(mark r (gr_aliases (b_child b))).1].
Proof.
  intros Hst Hq Hbs Hrep Hn.
  apply (add_next (CH := GroupRegister_Child) KIND batch_size rep GroupRegister_latest GroupRegister_latest_ok
    (mkBatch [r] false) (GroupRegister_seq r)); try done.
  split; [discriminate|]. intros s Hs. exists s. split; [|done]. exact (calc_marks r (set_b_storage s b)).
Qed.

(** Records numbered consecutively from [n + 1]. *)
Fixpoint numbered (n : N) (l : list GroupRegisterRecord) : Prop :=
  match l with
  | [] => True
  | r :: l' => GroupRegister_seq r = (n + 1)%N /\ numbered (n + 1) l'
  end.

(** The sequence number the next record must follow: that of the last
    record, 0 for an empty register. *)
Definition follows (log : list GroupRegisterRecord) : N := default 0%N (GroupRegister_latest log).

Lemma follows_is_next bs r n :
  follows (bc_log bs) = n -> GroupRegister_seq r = (n + 1)%N -> (n + 1 < 2 ^ 64)%N ->
  is_next KIND GroupRegister_latest bs (GroupRegister_seq r) = true.
Proof.
  unfold follows, is_next. intros <- -> Hlt. destruct (GroupRegister_latest (bc_log bs)) as [n|]; cbn in *.
  - rewrite N.mod_small by done. apply N.eqb_refl.
  - apply orb_true_r.
Qed.

(** Records that arrive one at a time in the order of their sequence numbers
    are stored as [mark] has them for the index in memory. *)
Lemma marked_in_order l : forall b bs,
  b_state b = READY -> b_inbound b = [] -> (0 < batch_size)%nat -> rep (b_storage b) bs ->
  numbered (follows (bc_log bs)) l ->
  (follows (bc_log bs) + N.of_nat (length l) < 2 ^ 64)%N ->
  exists b' bs', for_each l (fun r => add_transaction KIND batch_size (mkBatch [r] false)) b = Ret tt b'
    /\ b_state b' = READY /\ b_inbound b' = [] /\ rep (b_storage b') bs'
    /\ bc_log bs' = bc_log bs ++ (mark_all l (gr_aliases (b_child b))).1
    /\ gr_aliases (b_child b') = (mark_all l (gr_aliases (b_child b))).2.
Proof.
  induction l as [|r l IH]; intros b bs Hst Hq Hbs Hrep Hnum Hlt; cbn [for_each].
  { exists b, bs. rewrite app_nil_r. auto 10. }
  destruct Hnum as [Hr Hnum]. cbn [length] in Hlt.
  destruct (add_next_record b bs r Hst Hq Hbs Hrep) as (s1 & bs1 & E & Hrep1 & Hl1).
  { apply (follows_is_next _ _ _ eq_refl Hr). lia. }
  rewrite (bind_Ret _ _ _ _ _ E).
  assert (follows (bc_log bs1) = (follows (bc_log bs) + 1)%N) as Hf1.
  { rewrite Hl1. unfold follows at 1, GroupRegister_latest. rewrite last_snoc. cbn [fmap option_fmap option_map default from_option].
    change (GroupRegister_seq (mark r (gr_aliases (b_child b))).1 = (follows (bc_log bs) + 1)%N). now rewrite mark_seq. }
  set (b1 := set_b_child _ _).
  destruct (IH b1 bs1) as (b' & bs' & E' & Hst' & Hq' & Hrep' & Hl' & Hal'); try done.
  - now rewrite Hf1.
  - rewrite Hf1. lia.
  - exists b', bs'. rewrite E'. cbn [mark_all]. cbn [b1 b_child set_b_child gr_aliases] in Hl', Hal'.
    destruct (mark r (gr_aliases (b_child b))) as [r' al'] eqn:Em. cbn [fst snd] in *.
    destruct (mark_all l al') as [l'' al''] eqn:Ema. cbn [fst snd] in *.
    rewrite Hl', Hl1, <- (assoc_L (++)). auto 10.
Qed.

(** A record the register already has is dropped. *)
Theorem old_record_dropped b bs r n :
  b_state b = READY -> b_inbound b = [] -> (0 < batch_size)%nat -> rep (b_storage b) bs ->
  GroupRegister_latest (bc_log bs) = Some n -> (GroupRegister_seq r <= n)%N -> (n + 1 < 2 ^ 64)%N ->
  exists s', add_transaction KIND batch_size (mkBatch [r] false) b = Ret tt (set_b_storage s' b)
    /\ rep s' bs.
Proof.
  intros Hst Hq Hbs Hrep Hn Hle Hlt.
  destruct (process_old (CH := GroupRegister_Child) KIND rep GroupRegister_latest GroupRegister_latest_ok (mkBatch [r] false)
    (GroupRegister_seq r) b bs ltac:(done) Hrep) as (s' & E & Hrep').
  - unfold is_next. rewrite Hn. rewrite N.mod_small by done. apply N.eqb_neq. lia.
  - unfold is_old. rewrite Hn. now apply N.leb_le.
  - exists s'. split; [|done]. now apply add_when_idle.
Qed.

(** Two consecutive records that are buffered while the register was not
    ready are processed largest number first: the later one is taken for a
    hole in the numbering, and the register drops its blocks and starts
    over. *)
Theorem buffered_pair_starts_over b bs r1 r2 n :
  b_state b = READY -> (0 < batch_size)%nat -> rep (b_storage b) bs ->
  GroupRegister_latest (bc_log bs) = Some n -> (n + 2 < 2 ^ 64)%N ->
  GroupRegister_seq r1 = (n + 1)%N -> GroupRegister_seq r2 = (n + 2)%N ->
  b_inbound b = [mkBatch [r1] false; mkBatch [r2] false]
  \/ b_inbound b = [mkBatch [r2] false; mkBatch [r1] false] ->
  exists b', continue_with_transactions KIND batch_size b = Ret tt b'
    /\ b_state b' = INITIAL /\ b_inbound b' = [mkBatch [r2] false; mkBatch [r1] false].
Proof.
  intros Hst Hbs Hrep Hn Hlt H1 H2 Hq. destruct batch_size as [|k]; [lia|].
  erewrite (continue_pair (CH := GroupRegister_Child) KIND (S k) (mkBatch [r1] false) (mkBatch [r2] false)
    (n + 1) (n + 2) b k Hst Hq eq_refl); [|cbn; now rewrite H1|cbn; now rewrite H2|lia].
  destruct (process_hole (CH := GroupRegister_Child) KIND rep GroupRegister_latest GroupRegister_latest_ok
    (mkBatch [r2] false) (n + 2) (set_b_inbound [mkBatch [r1] false] b) bs) as (b' & E & Hst' & Hq' & _).
  - split; [cbn; now rewrite H2|done].
  - exact Hrep.
  - unfold is_next. rewrite Hn, N.mod_small by lia. apply N.eqb_neq. lia.
  - unfold is_old. rewrite Hn. apply N.leb_gt. lia.
  - constructor; [discriminate|constructor].
  - rewrite bind_assoc, (bind_Ret _ _ _ _ _ E). exists b'. done.
Qed.

(** ** Groups and aliases *)

Definition group_info (r : GroupRegisterRecord) : GroupInfo :=
  mkGroupInfo (gr_topic_id (grr_group r)) (gr_alias (grr_group r)).

(** The groups registered in a log, oldest first. *)
Definition groups_of (log : list GroupRegisterRecord) : list GroupInfo :=
  map group_info (List.filter is_good_group log).

Lemma block_groups_payloads ps rs l :
  block_groups rs = Some l -> block_groups (map payload_rec ps ++ rs) = Some (groups_of ps ++ l).
Proof.
  intros H. induction ps as [|p ps IH]; [exact H|]. cbn [map app block_groups].
  change (is_type CHECKSUM (payload_rec p)) with false. cbv iota. rewrite IH. cbn [payload_view payload_rec rec_u].
  unfold groups_of. cbn [List.filter]. destruct (is_good_group p); reflexivity.
Qed.

Lemma block_groups_block x :
  (1 <= length x.1 <= BLOCK - 1)%nat ->
  block_groups (take BLOCK (mk_block BLOCK x)) = Some (groups_of x.1).
Proof.
  intros Hx. rewrite take_ge by (rewrite mk_block_length by done; lia). unfold mk_block.
  rewrite (block_groups_payloads _ _ []); [now rewrite app_nil_r|]. reflexivity.
Qed.

Lemma groups_of_app l1 l2 : groups_of (l1 ++ l2) = groups_of l1 ++ groups_of l2.
Proof. unfold groups_of. now rewrite List.filter_app, map_app. Qed.

Lemma get_groups_loop bs m : forall j acc b,
  rep (b_storage b) bs -> (j + m = length bs)%nat ->
  exists s', fold_each (seq j m) acc (fun res i =>
      let! r := stor (st_get_block (N.of_nat i)) in
      match r.1 with
      | None => undef
      | Some block =>
          match block_groups (take BLOCK block) with
          | None => undef
          | Some l => ret (res ++ l)
          end
      end) b = Ret (acc ++ groups_of (bc_log (drop j bs))) (set_b_storage s' b) /\ rep s' bs.
Proof.
  induction m as [|m IH]; intros j acc b Hrep Hj; cbn [seq fold_each].
  - exists (b_storage b). rewrite drop_ge by lia. cbn. rewrite app_nil_r. split; [now destruct b|done].
  - destruct (lookup_lt_is_Some_2 bs j) as [x Hx]; [lia|].
    destruct (law_get_block _ _ _ _ Hrep Hx) as (s1 & E & Hrep1).
    rewrite bind_assoc, (stor_bind _ _ _ _ _ E). cbn [fst].
    rewrite block_groups_block by (eapply law_sizes; eauto). unfold ret at 1. unfold bind at 1.
    destruct (IH (S j) (acc ++ groups_of x.1) (set_b_storage s1 b) Hrep1 ltac:(lia)) as (s' & E' & Hrep').
    exists s'. split; [|done]. rewrite E'. rewrite (drop_S _ _ _ Hx).
    unfold bc_log. cbn [map concat]. rewrite groups_of_app, (assoc_L (++)). reflexivity.
Qed.

(** When the register is ready, [get_topic_id] finds the topic of the
    first successful record with that alias in the log. *)
Theorem get_topic_id_finds_first b bs alias :
  b_state b = READY -> rep (b_storage b) bs ->
  exists s', GroupRegister_get_topic_id alias b
    = Ret (gi_topic_id <$>
             List.find (fun i => bool_decide (cstr (gi_alias i) = alias)) (groups_of (bc_log bs)))
        (set_b_storage s' b) /\ rep s' bs.
Proof.
  intros Hst Hrep. unfold GroupRegister_get_topic_id, GroupRegister_get_groups.
  rewrite bind_assoc, b_gets, Hst, bool_decide_eq_true_2 by done. cbn [negb].
  rewrite bind_assoc, (stor_pure_bind _ _ _ _ (law_block_count _ _ Hrep)), Nat2N.id.
  destruct (get_groups_loop bs (length bs) 0 [] b Hrep eq_refl) as (s' & E & Hrep').
  exists s'. split; [|done]. rewrite (bind_Ret _ _ _ _ _ E). reflexivity.
Qed.

(** ** The index a restart builds *)

(** The alias field has its length, and a null in it. *)
Definition terminated (r : GroupRegisterRecord) : Prop :=
  length (gr_alias (grr_group r)) = GROUP_ALIAS_LENGTH /\ 0%Z ∈ gr_alias (grr_group r).

(** The names registered in a log. *)
Definition registered (log : list GroupRegisterRecord) : list bytes :=
  map (fun r => cstr (gr_alias (grr_group r))) (List.filter is_good_group log).

Definition flagged (v : bool) (r : GroupRegisterRecord) : GroupRegisterRecord :=
  mkGroupRegisterRecord (grr_type r) (with_success v (grr_group r)).

Fixpoint index_log (l : list GroupRegisterRecord) (al : gmap bytes GroupRecord)
    : bool * gmap bytes GroupRecord :=
  match l with
  | [] => (true, al)
  | r :: l' =>
      if is_good_group r then
        match al !! cstr (gr_alias (grr_group r)) with
        | Some _ => (false, al)
        | None => index_log l' (<[cstr (gr_alias (grr_group r)) := grr_group r]> al)
        end
      else index_log l' al
  end.

Lemma index_log_app l1 l2 : forall al,
  index_log (l1 ++ l2) al
  = if (index_log l1 al).1 then index_log l2 (index_log l1 al).2 else index_log l1 al.
Proof using.
  induction l1 as [|r l1 IH]; intros al; [done|]. cbn [app index_log].
  destruct (is_good_group r); [|apply IH]. destruct (al !! _); [done|apply IH].
Qed.

Lemma index_records_log ps c rest : forall al,
  index_records (map payload_rec ps ++ checksum_rec c :: rest) al = Some (index_log ps al).
Proof using.
  induction ps as [|p ps IH]; intros al; [done|]. cbn [map app index_records index_log].
  change (is_type CHECKSUM (payload_rec p)) with false. cbn [payload_view payload_rec rec_u].
  destruct (is_good_group p); [|apply IH]. cbv zeta. destruct (al !! _); [done|apply IH].
Qed.

(** A rebuild is good when no name is registered twice; its keys are then
    the names. *)
Lemma index_log_spec l : forall al,
  (index_log l al).1 = bool_decide (NoDup (registered l) /\ Forall (fun k => al !! k = None) (registered l))
  /\ ((index_log l al).1 = true -> forall k, (index_log l al).2 !! k = None
        <-> al !! k = None /\ k ∉ registered l).
Proof using.
  induction l as [|r l IH]; intros al.
  { split; [by rewrite bool_decide_eq_true_2 by (split; constructor)|].
    intros _ k. cbn. split; [intros H; split; [done|inversion 1]|tauto]. }
  cbn [index_log]. unfold registered. cbn [List.filter]. destruct (is_good_group r); [|apply IH].
  cbn [map]. fold (registered l). set (k0 := cstr _).
  destruct (al !! k0) as [g|] eqn:Ek.
  { split; [|discriminate]. rewrite bool_decide_eq_false_2; [done|].
    intros [_ H]. inversion_clear H. congruence. }
  destruct (IH (<[k0 := grr_group r]> al)) as [IH1 IH2]. rewrite IH1 in *. split.
  - apply bool_decide_ext. rewrite NoDup_cons, Forall_cons.
    assert (Forall (fun k => <[k0 := grr_group r]> al !! k = None) (registered l)
      <-> k0 ∉ registered l /\ Forall (fun k => al !! k = None) (registered l)) as ->; [|tauto].
    rewrite !Forall_forall. split.
    + intros H. split; [intros Hin; specialize (H _ Hin); by rewrite lookup_insert_eq in H|].
      intros k Hk. specialize (H k Hk). by apply lookup_insert_None in H as [].
    + intros [Hn H] k Hk. apply lookup_insert_None. split; [by apply H|]. intros <-. done.
  - intros E k. rewrite (IH2 E), lookup_insert_None, not_elem_of_cons. intuition congruence.
Qed.

Lemma index_blocks bs m : forall j b,
  rep (b_storage b) bs -> (j + m = length bs)%nat ->
  exists s', fold_each (seq j m) true (fun ok i =>
      if negb ok then ret false
      else
        let! r := stor (st_get_block (N.of_nat i)) in
        match r.1 with
        | None => undef
        | Some block =>
            let! x := gets b_child in
            match index_records (take BLOCK block) (gr_aliases x) with
            | None => undef
            | Some (ok', al) => set_aliases al ;;; ret ok'
            end
        end) b
    = Ret (index_log (bc_log (drop j bs)) (gr_aliases (b_child b))).1
        (set_b_child (mkGroupRegister (gr_first_good_validation (b_child b))
           (index_log (bc_log (drop j bs)) (gr_aliases (b_child b))).2) (set_b_storage s' b))
    /\ rep s' bs.
Proof.
  induction m as [|m IH]; intros j b Hrep Hj; cbn [seq fold_each].
  - exists (b_storage b). rewrite drop_ge by lia. split; [|done]. now destruct b as [? ? ? ? ? ? ? ? ? ? [? ?] ?].
  - destruct (lookup_lt_is_Some_2 bs j) as [x Hx]; [lia|].
    destruct (law_get_block _ _ _ _ Hrep Hx) as (s1 & E1 & Hrep1). cbn [negb].
    rewrite bind_assoc, (stor_bind _ _ _ _ _ E1). cbn [fst]. rewrite bind_assoc, b_gets.
    cbn [b_child set_b_storage]. rewrite take_ge by (rewrite mk_block_length by eauto using law_sizes; lia).
    unfold mk_block. cbn [app]. rewrite index_records_log, (drop_S _ _ _ Hx).
    unfold bc_log. cbn [map concat]. rewrite index_log_app. fold (bc_log (drop (S j) bs)).
    destruct (index_log x.1 (gr_aliases (b_child b))) as [ok al]. cbn [fst snd].
    unfold set_aliases. rewrite bind_assoc, b_modify. unfold ret at 1, bind at 1. destruct ok.
    + destruct (IH (S j) (set_b_child (mkGroupRegister (gr_first_good_validation (b_child b)) al)
        (set_b_storage s1 b)) Hrep1 ltac:(lia)) as (s' & E' & ?). exists s'. split; [exact E'|done].
    + exists s1. split; [|done]. clear. generalize (S j). induction m as [|m IH]; intros i; [done|].
      cbn [seq fold_each negb]. apply IH.
Qed.

Lemma index_built bs b :
  rep (b_storage b) bs -> b_indexed_blocks b = 0%N -> gr_aliases (b_child b) = ∅ ->
  exists s', GroupRegister_add_index_data b
    = Ret (bool_decide (NoDup (registered (bc_log bs))))
        (set_b_child (mkGroupRegister (gr_first_good_validation (b_child b)) (index_log (bc_log bs) ∅).2)
           (set_b_storage s' b)) /\ rep s' bs.
Proof.
  intros Hrep H0 Hal. unfold GroupRegister_add_index_data. rewrite b_gets.
  erewrite stor_pure_bind by exact (law_valid_count _ _ Hrep). rewrite H0, N.sub_0_r, Nat2N.id.
  destruct (index_blocks bs (length bs) 0 b Hrep eq_refl) as (s' & E & Hr). exists s'. split; [|done].
  change (N.to_nat 0) with 0%nat. rewrite E, Hal, drop_0. f_equal.
  rewrite (proj1 (index_log_spec (bc_log bs) ∅)). apply bool_decide_ext.
  split; [tauto|]. intros H. split; [done|]. apply Forall_forall. intros. apply lookup_empty.
Qed.

Definition GROUP_REGISTER_NAME : string := "group-register".

(** The two tasks in which a register that has its blocks validates them:
    the first clears the index, the second builds it. *)
Definition revalidate (sibling : option string) : M B unit :=
  continue_validation GROUP_REGISTER_NAME sibling ;;; continue_validation GROUP_REGISTER_NAME sibling.

Lemma revalidated sibling b bs :
  b_state b = INITIAL -> rep (b_storage b) bs -> bs <> [] ->
  exists b1, revalidate sibling b = Ret tt b1
    /\ if bool_decide (NoDup (registered (bc_log bs)))
       then b_state b1 = READY /\ b_inbound b1 = b_inbound b /\ rep (b_storage b1) bs
            /\ gr_aliases (b_child b1) = (index_log (bc_log bs) ∅).2
       else b_state b1 = INITIAL /\ (exists s, rep s bs /\ st_truncate 0 s = Ret tt (b_storage b1))
            /\ last (b_effects b1) = Some (PushContinueValidation BLOCKCHAIN_RESET_TIMEOUT_SECONDS).
Proof.
  intros Hst Hrep Hne. unfold revalidate, continue_validation at 1.
  rewrite bind_assoc, b_gets, Hst, bind_assoc, (stor_pure_bind _ _ _ _ (law_block_count _ _ Hrep)).
  destruct (N.ltb_spec 0 (N.of_nat (length bs))) as [_|H0]; [|destruct bs; [done|cbn in H0; lia]].
  unfold start_validating. cbn [ch_clear_indexes GroupRegister_Child]. unfold GroupRegister_clear_indexes, set_aliases, emit.
  rewrite !bind_assoc, b_modify, !bind_assoc, b_modify, !bind_assoc, b_modify, b_modify.
  unfold continue_validation. rewrite b_gets. cbn [b_state set_b_state set_b_child set_b_indexed_blocks add_effect].
  unfold validate_next_batch. erewrite stor_pure_bind by exact (law_valid_count _ _ Hrep).
  erewrite stor_pure_bind by exact (law_block_count _ _ Hrep). rewrite N.eqb_refl, b_modify.
  match goal with |- context [bind _ _ ?x] => set (b0 := x) end.
  destruct (index_built bs b0 Hrep eq_refl eq_refl) as (s' & E & Hrep').
  cbn [ch_add_index_data GroupRegister_Child]. rewrite (bind_Ret _ _ _ _ _ E).
  destruct (bool_decide _).
  - cbn [ch_on_blockchain_ready GroupRegister_Child]. unfold GroupRegister_on_blockchain_ready. rewrite b_gets.
    destruct (gr_first_good_validation _).
    + unfold emit. rewrite b_modify. eexists. split; [reflexivity|]. done.
    + eexists. split; [reflexivity|]. done.
  - destruct (law_truncate _ _ Hrep') as [s2 E2]. unfold reset_validation. rewrite b_modify.
    erewrite stor_bind by exact E2. cbn [ch_clear_indexes GroupRegister_Child]. unfold GroupRegister_clear_indexes, set_aliases, emit.
    rewrite b_modify, b_modify. eexists. split; [reflexivity|]. split; [done|]. split; [by exists s'|]. apply last_snoc.
Qed.

(** A name is shorter than the field that holds it. *)
Lemma names_shorter log k :
  Forall terminated log -> length k = GROUP_ALIAS_LENGTH -> k ∉ registered log.
Proof using.
  intros Hlog Hk Hin. apply list_elem_of_In, in_map_iff in Hin as (q & <- & Hin).
  apply List.filter_In in Hin as [Hin _]. apply list_elem_of_In in Hin.
  rewrite Forall_forall in Hlog. destruct (Hlog q Hin) as [Hl H0].
  apply list_elem_of_split in H0 as (l1 & l2 & E). rewrite E in Hk, Hl.
  pose proof (length_cstr_null l1 l2). rewrite length_app in Hl. cbn [length] in Hl. lia.
Qed.

Lemma mark_all_length l : forall al, length (mark_all l al).1 = length l.
Proof using.
  induction l as [|r l IH]; intros al; [done|]. cbn [mark_all]. destruct (mark r al) as [r' al'].
  specialize (IH al'). destruct (mark_all l al'). cbn in *. lia.
Qed.

(** The flags of a run against the index it started with. *)
Lemma mark_all_flags l : forall al seen,
  Forall terminated l ->
  (forall k, length k = GROUP_ALIAS_LENGTH -> al !! k = None <-> k ∉ seen) ->
  forall i r, l !! i = Some r ->
  (mark_all l al).1 !! i
  = Some (flagged (bool_decide (gr_alias (grr_group r) ∉ seen ++ map (fun q => gr_alias (grr_group q)) (take i l))) r).
Proof using.
  induction l as [|q l IH]; intros al seen Hl Hal i r Hi; [done|]. inversion_clear Hl as [|? ? [Hq _] Hl'].
  cbn [mark_all]. destruct (mark q al) as [q' al'] eqn:Em. destruct (mark_all l al') as [l2 al2] eqn:Ea.
  unfold mark in Em. rewrite Hq in Em.
  change ((0 <? GROUP_ALIAS_LENGTH)%nat) with true in Em. cbn [andb] in Em.
  assert (bool_decide (al !! gr_alias (grr_group q) = None) = bool_decide (gr_alias (grr_group q) ∉ seen)) as Eb
    by (apply bool_decide_ext; by apply Hal).
  injection Em as <- <-. destruct i as [|i]; cbn [lookup list_lookup fst] in *.
  - injection Hi as <-. cbn [take map]. rewrite app_nil_r. unfold flagged. rewrite Eb. done.
  - match type of Ea with mark_all l ?m = _ => set (m0 := m) in * end.
    assert (forall k, length k = GROUP_ALIAS_LENGTH -> m0 !! k = None <-> k ∉ seen ++ [gr_alias (grr_group q)]) as Hm.
    { intros k Hk. rewrite not_elem_of_app, list_elem_of_singleton. subst m0.
      destruct (bool_decide_reflect (al !! gr_alias (grr_group q) = None)) as [Hn|Hn].
      - rewrite lookup_insert_None, Hal by done. intuition congruence.
      - rewrite Hal by done. split; [|tauto]. intros H. split; [done|]. intros ->. apply Hn. by apply Hal. }
    specialize (IH m0 _ Hl' Hm i r Hi). rewrite Ea in IH. cbn [fst] in IH.
    cbn [take map]. rewrite <- (assoc_L (++)) in IH. exact IH.
Qed.

(** The names of the log are not in the way of an alias field. *)
Lemma rebuilt_index_free log :
  NoDup (registered log) -> Forall terminated log ->
  forall k, length k = GROUP_ALIAS_LENGTH -> (index_log log ∅).2 !! k = None.
Proof using.
  intros Hnd Ht k Hk. destruct (index_log_spec log ∅) as [Ei Hi]. apply Hi.
  - rewrite Ei. apply bool_decide_eq_true_2. split; [done|]. apply Forall_forall. intros. apply lookup_empty.
  - split; [apply lookup_empty|by apply names_shorter].
Qed.



End behaviour.

(** An alias shorter than the field: the name, then nulls. *)
Definition padded (nm : bytes) : bytes := nm ++ replicate (GROUP_ALIAS_LENGTH - length nm) 0%Z.

Lemma cstr_padded nm : Forall (fun c => c <> 0%Z) nm -> cstr (padded nm) = nm.
Proof. apply cstr_zero_padded. Qed.

End group_register.

(** ** A register over the block store, for the witnesses *)

#[local] Existing Instances demo_sort demo_bad demo_names.
Abbreviation GSt := (Blockchain GroupRegisterRecord).
Definition demo_group_bytes (r : GroupRegisterRecord) : bytes := [grr_type r].
Definition demo_group_storage : Storage GroupRegisterRecord GSt :=
  Blockchain_Storage demo_group_bytes demo_sha 100 100.
#[local] Existing Instance demo_group_storage.
Definition demo_group_laws : StorageLaws (St := GSt) Blockchain_rep :=
  Blockchain_laws demo_group_bytes demo_sha 100 100.
#[local] Existing Instance demo_group_laws.

(** The record with sequence number [n] for the alias [nm]. *)
Definition demo_group (n : N) (nm : bytes) : GroupRegisterRecord :=
  mkGroupRegisterRecord GROUP_RECORD_code
    (mkGroupRecord (padded nm) (mkHederaTopicID 0 0 7) true
       (mkHederaTransaction HederaTimestamp_zero [] n 0) Signature_zero).

(** A register with the blocks of [s], ready unless said otherwise. *)
Definition demo_register (st : State) (q : list (Batch GroupRegisterRecord)) (s : GSt)
    : Base GroupRegisterRecord GSt GroupRegister :=
  mkBase st s "" [] 0 false 0 0 0 q (mkGroupRegister true ∅) [].

Definition demo_group_block : list GroupRegisterRecord * bytes := ([demo_group 5 [65%Z]], [1%Z]).
Definition demo_group_chain : GSt := one_block_chain BLOCK demo_group_block.

Lemma demo_group_rep : Blockchain_rep demo_group_chain [demo_group_block].
Proof. eexists. apply one_block_rep; vm_compute; lia. Qed.

Lemma demo_empty_rep : Blockchain_rep (empty_chain (T := GroupRegisterRecord)) [].
Proof. eexists. apply empty_chain_rep. Qed.

Lemma demo_terminated n : terminated (demo_group n [65%Z]).
Proof. split; [reflexivity|]. apply list_elem_of_In. right. left. reflexivity. Qed.

Lemma demo_run_terminated l : Forall terminated l -> Forall terminated (bc_log [demo_group_block] ++ l).
Proof. intros H. constructor; [apply demo_terminated|exact H]. Qed.

Lemma demo_registered_nodup : NoDup (registered (bc_log [demo_group_block])).
Proof. apply NoDup_singleton. Qed.


Lemma old_record_dropped_witness :
  exists s', add_transaction (Deprecated false) 10 (mkBatch [demo_group 3 [66%Z]] false)
      (demo_register READY [] demo_group_chain) = Ret tt (set_b_storage s' (demo_register READY [] demo_group_chain))
    /\ Blockchain_rep s' [demo_group_block].
Proof.
  exact (old_record_dropped Blockchain_rep false 10 (demo_register READY [] demo_group_chain)
    [demo_group_block] (demo_group 3 [66%Z]) 5 eq_refl eq_refl ltac:(lia) demo_group_rep eq_refl
    ltac:(vm_compute; discriminate) eq_refl).
Defined.

Lemma buffered_pair_starts_over_witness :
  exists b', continue_with_transactions (Deprecated false) 10
      (demo_register READY [mkBatch [demo_group 6 [66%Z]] false; mkBatch [demo_group 7 [67%Z]] false]
         demo_group_chain) = Ret tt b'
    /\ b_state b' = INITIAL
    /\ b_inbound b' = [mkBatch [demo_group 7 [67%Z]] false; mkBatch [demo_group 6 [66%Z]] false].
Proof.
  exact (buffered_pair_starts_over Blockchain_rep false 10
    (demo_register READY [mkBatch [demo_group 6 [66%Z]] false; mkBatch [demo_group 7 [67%Z]] false]
       demo_group_chain) [demo_group_block] (demo_group 6 [66%Z]) (demo_group 7 [67%Z]) 5
    eq_refl ltac:(lia) demo_group_rep eq_refl eq_refl eq_refl eq_refl (or_introl eq_refl)).
Defined.

Lemma get_topic_id_finds_first_witness :
  exists s', GroupRegister_get_topic_id [65%Z] (demo_register READY [] demo_group_chain)
    = Ret (gi_topic_id <$>
             List.find (fun i => bool_decide (cstr (gi_alias i) = [65%Z])) (groups_of (bc_log [demo_group_block])))
        (set_b_storage s' (demo_register READY [] demo_group_chain))
    /\ Blockchain_rep s' [demo_group_block].
Proof.
  exact (get_topic_id_finds_first Blockchain_rep (demo_register READY [] demo_group_chain)
    [demo_group_block] [65%Z] eq_refl demo_group_rep).
Defined.


(** *** Witnesses for the theorems on all blockchains *)

Lemma continue_validation_task_fits_witness :
  (1 + cv_pushed (demo_register INITIAL [] demo_group_chain) = 0 + 1)%nat
  /\ ((0 < 1 + cv_pushed (demo_register INITIAL [] demo_group_chain))%nat ->
      b_state (demo_register INITIAL [] demo_group_chain) = INITIAL
      \/ b_state (demo_register INITIAL [] demo_group_chain) = VALIDATING).
Proof.
  exact (continue_validation_task_fits (Deprecated false) "group-register" 10
    (demo_register INITIAL [] demo_group_chain) 0
    (ex_intro _ (demo_register INITIAL [] demo_group_chain) (conj (conj eq_refl eq_refl) (rtc_refl _ _)))).
Defined.

Lemma get_transaction_count_correct_witness :
  get_transaction_count (demo_register READY [] demo_group_chain)
  = Ret 1%N (demo_register READY [] demo_group_chain).
Proof.
  exact (get_transaction_count_correct Blockchain_rep (demo_register READY [] demo_group_chain)
    [demo_group_block] eq_refl demo_group_rep).
Defined.

Lemma get_block_record_correct_witness :
  exists s', get_block_record 0 (demo_register READY [] demo_group_chain)
    = Ret (match all_records BLOCK [demo_group_block] !! 0%nat with
           | Some r => if is_type EMPTY r then None else Some r
           | None => None
           end) (set_b_storage s' (demo_register READY [] demo_group_chain))
    /\ Blockchain_rep s' [demo_group_block].
Proof.
  exact (get_block_record_correct Blockchain_rep (demo_register READY [] demo_group_chain)
    [demo_group_block] 0 demo_group_rep eq_refl).
Defined.

Lemma fetch_one_block_stores_payloads_witness :
  exists b' bs', ((continue_validation "group-register" (Some "host:1") ;;;
      for_each (checksum_answers [demo_group_block]) (on_block_checksum "group-register") ;;;
      for_each (map (mkBlockRecord true) demo_group_block.1 ++ [mkBlockRecord true (demo_group 0 [])])
        (on_block_record "group-register")) ;;;
      on_block_record "group-register" (mkBlockRecord false (demo_group 0 [])) ;;;
      on_block_record "group-register" (mkBlockRecord false (demo_group 0 [])))
      (demo_register INITIAL [] empty_chain) = Ret tt b'
    /\ b_state b' = VALIDATING /\ Blockchain_rep (b_storage b') bs' /\ bc_log bs' = demo_group_block.1.
Proof.
  exact (fetch_one_block_stores_payloads "group-register" Blockchain_rep
    (demo_register INITIAL [] empty_chain) "host:1" demo_group_block.1 demo_group_block.2
    (demo_group 0 []) eq_refl demo_empty_rep ltac:(vm_compute; lia)).
Defined.

Definition demo_full_block : list GroupRegisterRecord * bytes :=
  (replicate (BLOCK - 1) (demo_group 5 [65%Z]), [1%Z]).

Lemma fetch_two_blocks_starts_over_witness :
  exists b', ((continue_validation "group-register" (Some "host:1") ;;;
      for_each (checksum_answers [demo_full_block; demo_group_block]) (on_block_checksum "group-register") ;;;
      for_each (map (mkBlockRecord true) demo_full_block.1 ++ [mkBlockRecord true (demo_group 0 [])])
        (on_block_record "group-register")) ;;;
      on_block_record "group-register" (mkBlockRecord false (demo_group 0 [])))
      (demo_register INITIAL [] empty_chain) = Ret tt b'
    /\ b_state b' = INITIAL.
Proof.
  exact (fetch_two_blocks_starts_over "group-register" Blockchain_rep
    (demo_register INITIAL [] empty_chain) "host:1" demo_full_block demo_group_block []
    (demo_group 0 []) eq_refl demo_empty_rep ltac:(vm_compute; lia)
    ltac:(intros [|[|i]] z Hz Hi; [cbn in Hz; injection Hz as <-; vm_compute; reflexivity
                                  |cbn in Hi; lia|destruct i; discriminate])).
Defined.
