(* ===== verification/SubclusterBlockchain.v ===== *)
(** * The subcluster blockchain (subcluster_blockchain.h, subcluster_blockchain.cpp)

    A blockchain of the current header whose records name the admins, nodes
    and blockchains of a subcluster.  Nodes are indexed twice: by key, and by
    type and key. *)

From stdpp Require Import base gmap strings numbers list sorting.
From Stdlib Require Import ZArith Lia.
From S2P Require Import Prelude GradidoDef FileTile Fnr Blockchain BlockchainBase GroupRegister.
Local Open Scope node_scope.
Set Default Proof Using "Type".

(** ** Records (blockchain_gradido_def.h) *)

Definition SB_MEMO_LENGTH : nat := 256.
Definition SB_SUBCLUSTER_NAME_LENGTH : nat := 64.
Definition SB_ADMIN_NAME_LENGTH : nat := 64.
Definition SB_EMAIL_LENGTH : nat := 64.
Definition SB_ENDPOINT_LENGTH : nat := 128.
Definition SB_SIGNATURES_PER_RECORD : nat := 10.

Record SbHeader := mkSbHeader
  { sbh_subcluster_name : bytes; sbh_initial_key_type : Z; sbh_pub_key : bytes;
    sbh_ca_pub_key_chain_length : Z }.
Record SbAdmin := mkSbAdmin { sba_pub_key : bytes; sba_name : bytes; sba_email : bytes }.
Record SbNode := mkSbNode { sbn_node_type : Z; sbn_pub_key : bytes; sbn_endpoint : bytes }.
Record SbNodeBlockchain := mkSbNodeBlockchain
  { snb_node_pub_key : bytes; snb_blockchain_pub_key : bytes; snb_alias : bytes }.

(** The union, by record type; [SBB_other] stands for a type outside the
    enumeration. *)
Inductive SbBody :=
| SBB_header (h : SbHeader)
| SBB_add_admin (a : SbAdmin)
| SBB_add_node (n : SbNode)
| SBB_enable_admin (pub_key : bytes)
| SBB_disable_admin (pub_key : bytes)
| SBB_enable_node (pub_key : bytes)
| SBB_disable_node (pub_key : bytes)
| SBB_add_blockchain (pub_key : bytes)
| SBB_add_node_to_blockchain (x : SbNodeBlockchain)
| SBB_remove_node_from_blockchain (x : SbNodeBlockchain)
| SBB_signatures (l : list Signature)
| SBB_other (code : Z).

Record SbRecord := mkSbRecord
  { sbr_version_number : Z; sbr_hedera_transaction : HederaTransaction;
    sbr_body : SbBody; sbr_memo : bytes; sbr_signature_count : Z;
    sbr_result : SbTransactionResult }.

Definition SbRecord_zero : SbRecord :=
  mkSbRecord 0 HederaTransaction_zero (SBB_other 0) (replicate SB_MEMO_LENGTH 0%Z) 0 SB_SUCCESS.

Definition with_sb_result (r : SbTransactionResult) (x : SbRecord) : SbRecord :=
  mkSbRecord (sbr_version_number x) (sbr_hedera_transaction x) (sbr_body x) (sbr_memo x)
    (sbr_signature_count x) r.

Definition SbNodeType_code (t : SbNodeType) : Z :=
  match t with
  | ORDERING => 1 | GRADIDO => 2 | LOGIN => 3 | BACKUP => 4 | LOGGER => 5 | PINGER => 6
  end.

(** ** The object *)

Record SubclusterBlockchain := mkSubclusterBlockchain
  { sb_first_good_validation : bool;
    initial_key : bytes;
    admins : gmap bytes SbAdmin;
    nodes : gmap bytes SbNode;
    nodes_by_type : gmap Z (gmap bytes SbNode);
    blockchains : gmap bytes bytes;
    notifier : bool }.

Definition SubclusterBlockchain_new : SubclusterBlockchain :=
  mkSubclusterBlockchain true [] ∅ ∅ ∅ ∅ false.

Definition set_initial_key (k : bytes) (x : SubclusterBlockchain) : SubclusterBlockchain :=
  mkSubclusterBlockchain (sb_first_good_validation x) k (admins x) (nodes x) (nodes_by_type x)
    (blockchains x) (notifier x).
Definition set_admins (m : gmap bytes SbAdmin) (x : SubclusterBlockchain) : SubclusterBlockchain :=
  mkSubclusterBlockchain (sb_first_good_validation x) (initial_key x) m (nodes x) (nodes_by_type x)
    (blockchains x) (notifier x).
Definition set_nodes (m : gmap bytes SbNode) (t : gmap Z (gmap bytes SbNode)) (x : SubclusterBlockchain)
    : SubclusterBlockchain :=
  mkSubclusterBlockchain (sb_first_good_validation x) (initial_key x) (admins x) m t
    (blockchains x) (notifier x).
Definition set_blockchains (m : gmap bytes bytes) (x : SubclusterBlockchain) : SubclusterBlockchain :=
  mkSubclusterBlockchain (sb_first_good_validation x) (initial_key x) (admins x) (nodes x)
    (nodes_by_type x) m (notifier x).
Definition set_validated (v : bool) (x : SubclusterBlockchain) : SubclusterBlockchain :=
  mkSubclusterBlockchain v (initial_key x) (admins x) (nodes x) (nodes_by_type x) (blockchains x) (notifier x).
Definition set_notifier (v : bool) (x : SubclusterBlockchain) : SubclusterBlockchain :=
  mkSubclusterBlockchain (sb_first_good_validation x) (initial_key x) (admins x) (nodes x)
    (nodes_by_type x) (blockchains x) v.

(** [None]: the map of a node type that is not there is dereferenced. *)
Definition do_add_index_data (pp : SbRecord) (x : SubclusterBlockchain) : option SubclusterBlockchain :=
  match sbr_body pp with
  | SBB_header h => Some (set_initial_key (sbh_pub_key h) x)
  | SBB_add_admin a => Some (set_admins (map_insert (sba_pub_key a) a (admins x)) x)
  | SBB_add_node n =>
      match nodes_by_type x !! sbn_node_type n with
      | None => None
      | Some z =>
          Some (set_nodes (map_insert (sbn_pub_key n) n (nodes x))
                  (<[sbn_node_type n := map_insert (sbn_pub_key n) n z]> (nodes_by_type x)) x)
      end
  | SBB_add_blockchain k => Some (set_blockchains (map_insert k k (blockchains x)) x)
  | SBB_enable_admin _ | SBB_disable_admin _ | SBB_enable_node _ | SBB_disable_node _
  | SBB_add_node_to_blockchain _ | SBB_remove_node_from_blockchain _ | SBB_signatures _
  | SBB_other _ => Some x
  end.

(** The records of a block up to its checksum. *)
Fixpoint sb_index_records (rs : list (Rec SbRecord)) (x : SubclusterBlockchain) : option SubclusterBlockchain :=
  match rs with
  | [] => Some x
  | r :: rs' =>
      if is_type CHECKSUM r then Some x
      else
        pp ← payload_view SbRecord_zero r;
        if bool_decide (sbr_result pp = SB_SUCCESS)
        then x ← do_add_index_data pp x; sb_index_records rs' x
        else sb_index_records rs' x
  end.

Section subcluster.
Context {St : Type} `{STO : !Storage SbRecord St}.
Context (ordering_node_endpoint : string).
Abbreviation B := (Base SbRecord St SubclusterBlockchain).
Implicit Types (b : B).

Definition sb_child (f : SubclusterBlockchain -> SubclusterBlockchain) : M B unit :=
  modify (fun b => set_b_child (f (b_child b)) b).

Definition Sb_is_valid (recs : list SbRecord) : bool := true.
Definition Sb_seq (r : SbRecord) : N := sequenceNumber (sbr_hedera_transaction r).

Definition Sb_add_index_data : M B bool :=
  let! from := gets b_indexed_blocks in
  let! vc := stor st_get_checksum_valid_block_count in
  for_each (seq (N.to_nat from) (N.to_nat (vc - from))) (fun i =>
    let! r := stor (st_get_block (N.of_nat i)) in
    match r.1 with
    | None => undef
    | Some block =>
        let! x := gets b_child in
        match sb_index_records (take BLOCK block) x with
        | None => undef
        | Some x' => sb_child (fun _ => x')
        end
    end) ;;;
  ret true.

Definition Sb_get_latest_transaction_id : M B (option N) :=
  let! rc := stor st_get_rec_count in
  if (rc =? 0)%N then ret None
  else
    let! r := stor (st_get_record (u64_sub rc 2)) in
    match r.1 ≫= payload_view SbRecord_zero with
    | None => undef
    | Some gr => ret (Some (Sb_seq gr))
    end.

Definition Sb_calc_fields_and_update_indexes_for (recs : list SbRecord) : M B (bool * list SbRecord) :=
  match recs with
  | [] => ret (false, [])
  | rec :: rest =>
      let! x := gets b_child in
      let result :=
        match sbr_body rec with
        | SBB_add_admin a =>
            if bool_decide (is_Some (admins x !! sba_pub_key a)) then DUPLICATE_PUB_KEY else SB_SUCCESS
        | _ => SB_SUCCESS
        end in
      let rec' := with_sb_result result rec in
      (if bool_decide (result = SB_SUCCESS) then
         match do_add_index_data rec' x with
         | None => undef
         | Some x' =>
             sb_child (fun _ => x') ;;;
             if notifier x' then emit PushNotifier else ret tt
         end
       else ret tt) ;;;
      ret (true, rec' :: rest)
  end.

(** The loop over [nodes_by_type] clears copies of the inner maps. *)
Definition Sb_clear_indexes : M B unit :=
  sb_child (fun x => set_blockchains ∅ (set_nodes ∅ (nodes_by_type x) (set_admins ∅ x))).

Definition Sb_on_blockchain_ready : M B unit :=
  let! x := gets b_child in
  if sb_first_good_validation x
  then sb_child (set_validated false) ;;; emit PushContinueFacadeInitAfterSbDone
  else ret tt.

#[export] Instance Sb_Child : Child SbRecord St SubclusterBlockchain := {|
  ch_is_valid := Sb_is_valid;
  ch_seq := Sb_seq;
  ch_get_latest_transaction_id := Sb_get_latest_transaction_id;
  ch_calc_fields_and_update_indexes_for := Sb_calc_fields_and_update_indexes_for;
  ch_clear_indexes := Sb_clear_indexes;
  ch_add_index_data := Sb_add_index_data;
  ch_on_blockchain_ready := Sb_on_blockchain_ready |}.

(** The maps by type; the subscription to the ordering node is left out. *)
Definition Sb_init : M B unit :=
  sb_child (fun x => set_nodes (nodes x)
    (foldr (fun t m => map_insert (SbNodeType_code t) ∅ m) (nodes_by_type x)
       (rev [ORDERING; GRADIDO; LOGIN; BACKUP; LOGGER; PINGER])) x).

Definition Sb_get_fetch_endpoint : option string := Some ordering_node_endpoint.

Definition Sb_on_succ_append (n : bool) : M B unit := sb_child (set_notifier n).

Definition Sb_get_logger_nodes : M B (list bytes) :=
  let! x := gets b_child in
  match nodes_by_type x !! SbNodeType_code LOGGER with
  | None => undef
  | Some z => ret (omap (fun k => sbn_pub_key <$> z !! k) (sorted_keys z))
  end.

(** Undefined when an endpoint field has no null. *)
Definition Sb_get_all_endpoints : M B (list bytes) :=
  let! x := gets b_child in
  match mapM (fun k => nodes x !! k ≫= (fun n => field_string (sbn_endpoint n))) (sorted_keys (nodes x)) with
  | None => undef
  | Some l => ret l
  end.

(** ** The blockchain leaves the state machine alone *)

Lemma keeps_sb_child f : keeps (sb_child f).
Proof. apply keeps_modify. done. Qed.
Hint Resolve keeps_sb_child : keeps.

#[export] Instance Sb_laws : ChildLaws (T := SbRecord) (St := St).
Proof.
  split; cbn.
  - unfold Sb_get_latest_transaction_id. apply keeps_bind; [eauto with keeps|]. intros rc.
    destruct (rc =? 0)%N; [eauto with keeps|]. apply keeps_bind; [eauto with keeps|]. intros r.
    destruct (_ ≫= _); eauto with keeps.
  - intros [|rec rest]; cbn; [eauto with keeps|]. apply keeps_bind; [eauto with keeps|]. intros x.
    apply keeps_bind; [|eauto with keeps]. destruct (bool_decide _); [|eauto with keeps].
    destruct (do_add_index_data _ x) as [x'|]; [|eauto with keeps].
    apply keeps_bind; [eauto with keeps|]. intros _. destruct (notifier x'); eauto with keeps.
  - unfold Sb_add_index_data. do 2 (apply keeps_bind; [eauto with keeps|]; intros ?).
    apply keeps_bind; [|eauto with keeps]. apply keeps_for_each. intros i.
    apply keeps_bind; [eauto with keeps|]. intros r. destruct r.1; [|eauto with keeps].
    apply keeps_bind; [eauto with keeps|]. intros x. destruct (sb_index_records _ x); eauto with keeps.
  - unfold Sb_on_blockchain_ready. apply keeps_bind; [eauto with keeps|]. intros x.
    destruct (sb_first_good_validation x); eauto with keeps.
  - intros b. eexists. reflexivity.
  - done.
Qed.

(** ** Nodes by type *)

(** The six types have a map each. *)
Definition typed (x : SubclusterBlockchain) : Prop :=
  forall t, is_Some (nodes_by_type x !! SbNodeType_code t).

(** The record adds no node of a type outside the enumeration. *)
Definition known_type (r : SbRecord) : Prop :=
  match sbr_body r with
  | SBB_add_node n => exists t, sbn_node_type n = SbNodeType_code t
  | _ => True
  end.

Definition adds_node (t : SbNodeType) (k : bytes) (r : SbRecord) : Prop :=
  exists n, sbr_body r = SBB_add_node n /\ sbn_node_type n = SbNodeType_code t /\ sbn_pub_key n = k.

(** The keys of the nodes of a type. *)
Definition typed_keys (t : SbNodeType) (x : SubclusterBlockchain) : gset bytes :=
  dom (default ∅ (nodes_by_type x !! SbNodeType_code t)).

(** Each node is filed under its own key. *)
Definition keyed (x : SubclusterBlockchain) : Prop :=
  forall t z k n, nodes_by_type x !! t = Some z -> z !! k = Some n -> sbn_pub_key n = k.

Lemma SbNodeType_code_inj t u : SbNodeType_code t = SbNodeType_code u -> t = u.
Proof. now destruct t, u. Qed.

Lemma dom_map_insert {V} (k : bytes) (v : V) (m : gmap bytes V) :
  dom (map_insert k v m) =@{gset bytes} {[k]} ∪ dom m.
Proof.
  unfold map_insert. destruct (m !! k) eqn:E; [|apply dom_insert_L].
  apply elem_of_dom_2 in E. set_solver.
Qed.

Lemma index_typed r x :
  typed x -> keyed x -> known_type r ->
  exists x', do_add_index_data r x = Some x' /\ typed x' /\ keyed x'
    /\ forall t k, k ∈ typed_keys t x' <-> k ∈ typed_keys t x \/ adds_node t k r.
Proof.
  intros Ht Hk Hr. unfold do_add_index_data, known_type, adds_node in *.
  destruct (sbr_body r) as [h|a|n|k0|k0|k0|k0|k0|y|y|l|c] eqn:Eb;
    try (eexists; split; [reflexivity|]; split; [exact Ht|]; split; [exact Hk|];
         intros t k; split; [intros H; left; exact H|intros [H|(n & H & _)]; [exact H|discriminate]]).
  destruct Hr as [u Hu]. destruct (Ht u) as [z Hz]. rewrite Hu, Hz. eexists. split; [reflexivity|].
  split; [|split].
  - intros t. cbn. destruct (decide (SbNodeType_code t = SbNodeType_code u)) as [->|Hne].
    + rewrite lookup_insert_eq. eauto.
    + rewrite lookup_insert_ne by done. apply Ht.
  - intros t y k m Hy Hm. cbn in Hy. apply lookup_insert_Some in Hy as [[<- <-]|[Hne Hy]]; [|eauto].
    unfold map_insert in Hm. destruct (z !! sbn_pub_key n) eqn:E; [eauto|].
    apply lookup_insert_Some in Hm as [[<- <-]|[_ Hm]]; eauto.
  - intros t k. unfold typed_keys. cbn. destruct (decide (SbNodeType_code u = SbNodeType_code t)) as [Heq|Hne].
    + rewrite <- Heq, lookup_insert_eq, Hz. cbn. rewrite dom_map_insert.
      split; [intros [->%elem_of_singleton|H]%elem_of_union|intros [H|(m & Hm & _ & <-)]].
      * right. exists n. split; [done|]. split; congruence.
      * now left.
      * set_solver.
      * injection Hm as ->. set_solver.
    + rewrite lookup_insert_ne by done. split; [now left|].
      intros [H|(m & Hm & Ht' & _)]; [done|]. injection Hm as ->. congruence.
Qed.

(** The index after a list of records, the unsuccessful ones passed over. *)
Fixpoint sb_index_log (l : list SbRecord) (x : SubclusterBlockchain) : option SubclusterBlockchain :=
  match l with
  | [] => Some x
  | r :: l' =>
      if bool_decide (sbr_result r = SB_SUCCESS)
      then x ← do_add_index_data r x; sb_index_log l' x else sb_index_log l' x
  end.

Lemma index_log_typed l : forall x,
  typed x -> keyed x -> Forall known_type l ->
  exists x', sb_index_log l x = Some x' /\ keyed x' /\ typed x'
    /\ forall t k, k ∈ typed_keys t x'
        <-> k ∈ typed_keys t x \/ exists r, r ∈ l /\ sbr_result r = SB_SUCCESS /\ adds_node t k r.
Proof.
  induction l as [|r l IH]; intros x Ht Hk Hl; cbn.
  { exists x. split; [done|]. split; [done|]. split; [done|]. intros t k. split; [now left|].
    intros [H|(r & Hr & _)]; [done|]. now apply elem_of_nil in Hr. }
  inversion_clear Hl as [|? ? Hr Hl']. destruct (bool_decide_reflect (sbr_result r = SB_SUCCESS)) as [Hs|Hs].
  - destruct (index_typed r x Ht Hk Hr) as (x1 & -> & Ht1 & Hk1 & H1). cbn.
    destruct (IH x1 Ht1 Hk1 Hl') as (x' & E & Hk' & Ht' & H'). exists x'. split; [done|]. split; [done|].
    split; [done|]. intros t k. rewrite H', H1. setoid_rewrite elem_of_cons. naive_solver.
  - destruct (IH x Ht Hk Hl') as (x' & E & Hk' & Ht' & H'). exists x'. split; [done|]. split; [done|].
    split; [done|]. intros t k. rewrite H'. setoid_rewrite elem_of_cons. naive_solver.
Qed.

Lemma logger_nodes_run x z b :
  b_child b = x -> nodes_by_type x !! SbNodeType_code LOGGER = Some z -> keyed x ->
  Sb_get_logger_nodes b = Ret (sorted_keys z) b.
Proof.
  intros Hb Hz Hk. unfold Sb_get_logger_nodes. rewrite b_gets, Hb, Hz. unfold ret. f_equal.
  pose proof (proj1 (sorted_keys_spec z)) as Hs. revert Hs. generalize (sorted_keys z) as l. intros l Hs.
  assert (forall k, k ∈ l -> sbn_pub_key <$> z !! k = Some k) as Hl.
  { intros k [n Hn]%Hs. rewrite Hn. cbn. now rewrite (Hk _ _ _ _ Hz Hn). }
  clear Hs. induction l as [|k l IH]; [done|]. cbn. rewrite (Hl k) by left. f_equal. apply IH.
  intros k' Hk'. apply Hl. now right.
Qed.

Lemma empty_maps l t z :
  foldr (fun t m => map_insert (SbNodeType_code t) ∅ m) (∅ : gmap Z (gmap bytes SbNode)) l !! t = Some z -> z = ∅.
Proof.
  revert z. induction l as [|u l IH]; intros z; cbn; [now rewrite lookup_empty|].
  unfold map_insert. destruct (_ !! SbNodeType_code u); [apply IH|].
  rewrite lookup_insert_Some. intros [[_ <-]|[_ H]]; [done|now apply IH].
Qed.

(** Once initialised, and after any records whose nodes have types of the
    enumeration, the logger nodes listed are exactly the keys of the
    successful records that add a node of that type, in order. *)
Theorem logger_nodes_correct l b b0 :
  nodes_by_type (b_child b0) = ∅ -> Sb_init b0 = Ret tt b -> Forall known_type l ->
  exists x' res, sb_index_log l (b_child b) = Some x'
    /\ Sb_get_logger_nodes (set_b_child x' b) = Ret res (set_b_child x' b)
    /\ (forall k, k ∈ res <-> exists r, r ∈ l /\ sbr_result r = SB_SUCCESS /\ adds_node LOGGER k r)
    /\ NoDup res /\ Sorted bytes_le res.
Proof.
  intros H0 Hi Hl. unfold Sb_init, sb_child, modify in Hi. rewrite H0 in Hi. injection Hi as <-.
  set (x := set_nodes _ _ _).
  assert (forall t, nodes_by_type x !! SbNodeType_code t = Some ∅) as He by (intros []; reflexivity).
  assert (typed x) as Ht by (intros t; rewrite He; eauto).
  assert (keyed x) as Hk.
  { intros t z k n E. cbn [nodes_by_type set_nodes x] in E. rewrite (empty_maps [PINGER; LOGGER; BACKUP; LOGIN; GRADIDO; ORDERING] t z E), lookup_empty. done. }
  destruct (index_log_typed l x Ht Hk Hl) as (x' & E & Hk' & Ht' & H').
  destruct (Ht' LOGGER) as [z Hz]. exists x', (sorted_keys z). split; [exact E|].
  split; [now apply (logger_nodes_run x')|]. destruct (sorted_keys_spec z) as (Hs & ? & ?).
  split; [|done]. intros k. rewrite Hs, <- (elem_of_dom (D := gset bytes)).
  specialize (H' LOGGER k). unfold typed_keys in H' at 1. rewrite Hz in H'. cbn in H'. rewrite H'.
  unfold typed_keys. rewrite He. cbn. rewrite dom_empty_L. set_solver.
Qed.

(** Clearing the indexes forgets the nodes but not the nodes by type (the
    loop clears copies): after a reset no endpoint is known, and the logger
    nodes are listed as before. *)
Theorem reset_keeps_logger_nodes b b' :
  Sb_clear_indexes b = Ret tt b' ->
  Sb_get_all_endpoints b' = Ret [] b'
  /\ (forall l, Sb_get_logger_nodes b = Ret l b -> Sb_get_logger_nodes b' = Ret l b').
Proof.
  intros [= <-]. split; [reflexivity|]. intros l. unfold Sb_get_logger_nodes. rewrite !b_gets. cbn.
  destruct (nodes_by_type (b_child b) !! 5%Z); [|discriminate]. now intros [= <-].
Qed.

(** ** Over a store that keeps its promises *)

Section behaviour.
Context (rep : St -> list (list SbRecord * bytes) -> Prop) `{SL : !StorageLaws rep}.
#[local] Set Default Proof Using "Type SL".
Context (batch_size : nat).

Definition Sb_latest (log : list SbRecord) : option N := Sb_seq <$> last log.

Lemma Sb_latest_ok b bs :
  rep (b_storage b) bs ->
  exists s', Sb_get_latest_transaction_id b = Ret (Sb_latest (bc_log bs)) (set_b_storage s' b) /\ rep s' bs.
Proof.
  intros Hrep. unfold Sb_get_latest_transaction_id, Sb_latest.
  rewrite (stor_pure_bind _ _ _ _ (law_rec_count _ _ Hrep)).
  destruct (N.eqb_spec (N.of_nat (rec_total bs)) 0) as [H0|H0].
  - assert (bs = []) as -> by (apply rec_total_nil; lia).
    exists (b_storage b). split; [now destruct b|done].
  - assert (bs <> []) as Hne by (intros ->; now apply H0).
    destruct (read_last_payload rep b bs Hrep Hne) as (p & s' & Hp & Hrep' & E).
    exists s'. rewrite E, Hp. done.
Qed.

(** A subcluster blockchain without blocks does not take its first
    transaction from the ordering node: whatever its number it is taken for
    a hole, stays in the queue, and the blockchain is reset to fetch its
    blocks. *)
Theorem first_transaction_resets b r rest :
  b_state b = READY -> b_inbound b = [] -> (0 < batch_size)%nat -> rep (b_storage b) [] ->
  exists b', bb_add_transaction batch_size (mkBatch (r :: rest) false) b = Ret tt b'
    /\ b_state b' = INITIAL /\ b_inbound b' = [mkBatch (r :: rest) false]
    /\ b_effects b' = b_effects b ++ [PushContinueValidation BLOCKCHAIN_RESET_TIMEOUT_SECONDS].
Proof.
  intros Hst Hq Hbs Hrep.
  apply (first_transaction_is_hole (CH := Sb_Child) batch_size rep b _ (Sb_seq r)); try done.
  intros c Hc. exact (Sb_latest_ok c [] Hc).
Qed.

(** The result a record gets, and the index after it. *)
Definition sb_mark (r : SbRecord) (x : SubclusterBlockchain) : SbRecord * SubclusterBlockchain :=
  match sbr_body r with
  | SBB_add_admin a =>
      match admins x !! sba_pub_key a with
      | Some _ => (with_sb_result DUPLICATE_PUB_KEY r, x)
      | None => (with_sb_result SB_SUCCESS r, default x (do_add_index_data r x))
      end
  | _ => (with_sb_result SB_SUCCESS r, default x (do_add_index_data r x))
  end.

Fixpoint sb_mark_all (l : list SbRecord) (x : SubclusterBlockchain) : list SbRecord * SubclusterBlockchain :=
  match l with
  | [] => ([], x)
  | r :: l' => let (r', x') := sb_mark r x in
               let (l'', x'') := sb_mark_all l' x' in (r' :: l'', x'')
  end.

Lemma index_notifier r x x' : do_add_index_data r x = Some x' -> notifier x' = notifier x.
Proof using.
  unfold do_add_index_data. destruct (sbr_body r); try (intros [= <-]; done).
  destruct (nodes_by_type x !! _); [|done]. now intros [= <-].
Qed.

(** Setting the result does not change what a record adds to the index. *)
Lemma index_with_result res r x : do_add_index_data (with_sb_result res r) x = do_add_index_data r x.
Proof using. reflexivity. Qed.

Lemma sb_calc_run r x b x1 :
  b_child b = x -> notifier x = false -> do_add_index_data r x = Some x1 ->
  Sb_calc_fields_and_update_indexes_for [r] b = Ret (true, [(sb_mark r x).1]) (set_b_child (sb_mark r x).2 b)
  /\ notifier (sb_mark r x).2 = false.
Proof using.
  intros Hb Hn Hx. unfold Sb_calc_fields_and_update_indexes_for. rewrite b_gets, Hb. cbv zeta.
  assert (forall res, bind (if bool_decide (SB_SUCCESS = SB_SUCCESS) then
      match do_add_index_data (with_sb_result res r) x with
      | None => undef
      | Some x' => sb_child (fun _ => x') ;;; if notifier x' then emit PushNotifier else ret tt
      end else ret tt) (fun _ => ret (true, [with_sb_result SB_SUCCESS r])) b
    = Ret (true, [with_sb_result SB_SUCCESS r]) (set_b_child x1 b)) as Hok.
  { intros res. rewrite bool_decide_eq_true_2, index_with_result, Hx by done.
    unfold sb_child. rewrite bind_assoc, b_modify, (index_notifier _ _ _ Hx), Hn. reflexivity. }
  unfold sb_mark. destruct (sbr_body r) as [| a | | | | | | | | | |] eqn:Eb;
    try (rewrite Hx; split; [apply Hok|cbn; now rewrite (index_notifier _ _ _ Hx)]).
  destruct (admins x !! sba_pub_key a) eqn:Ea.
  - rewrite (bool_decide_eq_true_2 (is_Some _)) by eauto. rewrite bool_decide_eq_false_2 by discriminate.
    split; [|done]. unfold bind, ret. destruct b; cbn in *. now subst.
  - rewrite (bool_decide_eq_false_2 (is_Some _)) by (intros [? ?]; discriminate).
    rewrite Hx. split; [apply Hok|cbn; now rewrite (index_notifier _ _ _ Hx)].
Qed.

Lemma sb_mark_typed r x :
  typed x -> keyed x -> known_type r ->
  typed (sb_mark r x).2 /\ keyed (sb_mark r x).2 /\ exists x1, do_add_index_data r x = Some x1.
Proof using.
  intros Ht Hk Hr. destruct (index_typed r x Ht Hk Hr) as (x1 & E & Ht1 & Hk1 & _).
  unfold sb_mark. rewrite E. destruct (sbr_body r); try (split; [exact Ht1|]; split; [exact Hk1|eauto]).
  destruct (admins x !! _); split; [exact Ht|split; [exact Hk|eauto]|exact Ht1|split; [exact Hk1|eauto]].
Qed.

Fixpoint sb_numbered (n : N) (l : list SbRecord) : Prop :=
  match l with
  | [] => True
  | r :: l' => Sb_seq r = (n + 1)%N /\ sb_numbered (n + 1) l'
  end.

(** Records that arrive one at a time, in the order of their numbers. *)
Lemma sb_records_run l : forall b bs n,
  b_state b = READY -> b_inbound b = [] -> (0 < batch_size)%nat -> rep (b_storage b) bs ->
  notifier (b_child b) = false -> typed (b_child b) -> keyed (b_child b) -> Forall known_type l ->
  Sb_latest (bc_log bs) = Some n -> sb_numbered n l -> (n + N.of_nat (length l) < 2 ^ 64)%N ->
  exists b' bs', for_each l (fun r => bb_add_transaction batch_size (mkBatch [r] false)) b = Ret tt b'
    /\ b_state b' = READY /\ rep (b_storage b') bs'
    /\ bc_log bs' = bc_log bs ++ (sb_mark_all l (b_child b)).1
    /\ b_child b' = (sb_mark_all l (b_child b)).2.
Proof.
  induction l as [|r l IH]; intros b bs n Hst Hq Hbs Hrep Hn Ht Hk Hl Hlat Hnum Hlt; cbn [for_each].
  { exists b, bs. rewrite app_nil_r. done. }
  inversion_clear Hl as [|? ? Hr Hl']. destruct Hnum as [Hseq Hnum]. cbn [length] in Hlt.
  destruct (sb_mark_typed r _ Ht Hk Hr) as (Ht1 & Hk1 & x1 & Hx1).
  destruct (add_next (CH := Sb_Child) Current batch_size rep Sb_latest Sb_latest_ok (mkBatch [r] false) (Sb_seq r)
    b bs [(sb_mark r (b_child b)).1] (sb_mark r (b_child b)).2 Hst Hq Hbs) as (s1 & bs1 & E & Hrep1 & Hl1); try done.
  { unfold is_next. rewrite Hlat, Hseq, N.mod_small by lia. apply N.eqb_refl. }
  { split; [discriminate|]. intros s Hs. exists s. split; [|done].
    exact (proj1 (sb_calc_run r (b_child b) (set_b_storage s b) x1 eq_refl Hn Hx1)). }
  unfold bb_add_transaction. rewrite (bind_Ret _ _ _ _ _ E).
  destruct (IH (set_b_child (sb_mark r (b_child b)).2 (set_b_storage s1 b)) bs1 (n + 1)%N)
    as (b' & bs' & E' & Hst' & Hrep' & Hl'' & Hc); try done.
  - exact (proj2 (sb_calc_run r (b_child b) b x1 eq_refl Hn Hx1)).
  - unfold Sb_latest. rewrite Hl1, last_snoc. cbn. rewrite <- Hseq. unfold sb_mark.
    destruct (sbr_body r) as [| a | | | | | | | | | |]; try done. now destruct (admins _ !! _).
  - lia.
  - exists b', bs'. split; [exact E'|]. split; [done|]. split; [done|]. rewrite Hl'', Hl1, Hc.
    cbn [b_child set_b_child sb_mark_all]. destruct (sb_mark r (b_child b)) as [r' x']. cbn.
    destruct (sb_mark_all l x') as [l2 x2]. cbn. now rewrite <- (assoc_L (++)).
Qed.

(** *** What the records leave in the index *)

(** The entry of a key: the one that is there, or else the first one of the
    list. *)
Definition found {V} (key : V -> bytes) (k : bytes) (m : gmap bytes V) (l : list V) : option V :=
  match m !! k with
  | Some v => Some v
  | None => List.find (fun v => bool_decide (key v = k)) l
  end.

Definition rec_admin (r : SbRecord) : option SbAdmin :=
  match sbr_body r with SBB_add_admin a => Some a | _ => None end.
Definition rec_node (r : SbRecord) : option SbNode :=
  match sbr_body r with SBB_add_node n => Some n | _ => None end.
Definition rec_blockchain (r : SbRecord) : option bytes :=
  match sbr_body r with SBB_add_blockchain k => Some k | _ => None end.
Definition rec_initial_key (r : SbRecord) : option bytes :=
  match sbr_body r with SBB_header h => Some (sbh_pub_key h) | _ => None end.

Definition of_type (t : SbNodeType) (n : SbNode) : bool := (sbn_node_type n =? SbNodeType_code t)%Z.

(** The index [x'] has what [x] had and what the records [l] bring. *)
Record index_grows (x x' : SubclusterBlockchain) (l : list SbRecord) : Prop :=
  { ig_admins : forall k, admins x' !! k = found sba_pub_key k (admins x) (omap rec_admin l);
    ig_nodes : forall k, nodes x' !! k = found sbn_pub_key k (nodes x) (omap rec_node l);
    ig_typed : forall t k,
      default ∅ (nodes_by_type x' !! SbNodeType_code t) !! k
      = found sbn_pub_key k (default ∅ (nodes_by_type x !! SbNodeType_code t))
          (List.filter (of_type t) (omap rec_node l));
    ig_blockchains : forall k, blockchains x' !! k = found id k (blockchains x) (omap rec_blockchain l);
    ig_initial_key : initial_key x' = default (initial_key x) (last (omap rec_initial_key l)) }.

(** The result of a record that comes after the records [l]. *)
Definition verdict (x : SubclusterBlockchain) (l : list SbRecord) (r : SbRecord) : SbTransactionResult :=
  match sbr_body r with
  | SBB_add_admin a =>
      if bool_decide (is_Some (found sba_pub_key (sba_pub_key a) (admins x) (omap rec_admin l)))
      then DUPLICATE_PUB_KEY else SB_SUCCESS
  | _ => SB_SUCCESS
  end.

Lemma found_nil {V} (key : V -> bytes) k m : found key k m [] = m !! k.
Proof using. unfold found. by destruct (m !! k). Qed.

Lemma found_app {V} (key : V -> bytes) k m m' l1 l2 :
  m' !! k = found key k m l1 -> found key k m' l2 = found key k m (l1 ++ l2).
Proof using.
  intros E. unfold found in *. rewrite E. destruct (m !! k); [done|].
  clear E. induction l1 as [|v l1 IH]; [done|]. cbn. destruct (bool_decide _); [done|exact IH].
Qed.

Lemma found_insert {V} (key : V -> bytes) k m v :
  map_insert (key v) v m !! k = found key k m [v].
Proof using.
  unfold map_insert, found. cbn. destruct (m !! key v) eqn:E.
  - destruct (m !! k) eqn:Ek; [done|]. rewrite bool_decide_eq_false_2; congruence.
  - destruct (decide (key v = k)) as [<-|Hne].
    + by rewrite lookup_insert_eq, E, bool_decide_eq_true_2.
    + rewrite lookup_insert_ne by done. rewrite bool_decide_eq_false_2 by done. by destruct (m !! k).
Qed.

Lemma index_grows_refl x : index_grows x x [].
Proof using. split; intros; cbn; by rewrite ?found_nil. Qed.

Lemma index_grows_trans x y z l1 l2 :
  index_grows x y l1 -> index_grows y z l2 -> index_grows x z (l1 ++ l2).
Proof using.
  intros [A1 A2 A3 A4 A5] [B1 B2 B3 B4 B5].
  split; intros; rewrite ?omap_app, ?List.filter_app; [rewrite B1|rewrite B2|rewrite B3|rewrite B4|];
    try (by apply found_app).
  rewrite B5, A5, last_app. by destruct (last (omap rec_initial_key l2)).
Qed.

Lemma index_grows_one r x x' : do_add_index_data r x = Some x' -> index_grows x x' [r].
Proof using.
  unfold do_add_index_data. intros E.
  destruct (sbr_body r) as [h|a|n|k0|k0|k0|k0|k0|y|y|l|c] eqn:Eb;
    [| | |injection E as <-..];
    [injection E as <-|injection E as <-|destruct (nodes_by_type x !! _) as [z|] eqn:Ez; [injection E as <-|done]|..];
    split; intros; cbn; unfold rec_admin, rec_node, rec_blockchain, rec_initial_key; rewrite Eb; cbn;
    rewrite ?found_nil, ?found_insert; try done.
  - unfold of_type. destruct (Z.eqb_spec (sbn_node_type n) (SbNodeType_code t)) as [Ht|Ht].
    + rewrite <- Ht, lookup_insert_eq, Ez. cbn. apply found_insert.
    + by rewrite lookup_insert_ne, found_nil.
  - apply (found_insert id).
Qed.

(** One record: its result, and what it leaves. *)
Lemma sb_mark_grows r x :
  typed x -> keyed x -> known_type r ->
  (sb_mark r x).1 = with_sb_result (verdict x [] r) r /\ index_grows x (sb_mark r x).2 [r].
Proof using.
  intros Ht Hk Hr. destruct (index_typed r x Ht Hk Hr) as (x1 & E & _). apply index_grows_one in E as Hg.
  unfold sb_mark, verdict. rewrite E. destruct (sbr_body r) as [| a | | | | | | | | | |] eqn:Eb; try done.
  cbn [omap list_omap]. rewrite found_nil. destruct (admins x !! sba_pub_key a) eqn:Ea.
  - rewrite bool_decide_eq_true_2 by done. split; [done|]. cbn [snd].
    split; intros; cbn; unfold rec_admin, rec_node, rec_blockchain, rec_initial_key; rewrite Eb; cbn;
      rewrite ?found_nil; try done.
    rewrite <- found_insert. unfold map_insert. by rewrite Ea.
  - rewrite bool_decide_eq_false_2 by (intros [? ?]; done). done.
Qed.

Lemma verdict_app x y l1 l2 r : index_grows x y l1 -> verdict y l2 r = verdict x (l1 ++ l2) r.
Proof using.
  intros [A1 _ _ _ _]. unfold verdict. destruct (sbr_body r); try done. rewrite omap_app.
  by rewrite (found_app _ _ _ _ _ _ (A1 _)).
Qed.

Lemma sb_mark_all_grows l : forall x,
  typed x -> keyed x -> Forall known_type l ->
  length (sb_mark_all l x).1 = length l /\ index_grows x (sb_mark_all l x).2 l
  /\ forall i r, l !! i = Some r -> (sb_mark_all l x).1 !! i = Some (with_sb_result (verdict x (take i l) r) r).
Proof using.
  induction l as [|r l IH]; intros x Ht Hk Hl; [split; [done|split; [apply index_grows_refl|done]]|].
  inversion_clear Hl as [|? ? Hr Hl']. destruct (sb_mark_typed r x Ht Hk Hr) as (Ht1 & Hk1 & _).
  destruct (sb_mark_grows r x Ht Hk Hr) as [E Hg]. cbn [sb_mark_all].
  destruct (sb_mark r x) as [r' x']. cbn [fst snd] in *. destruct (IH x' Ht1 Hk1 Hl') as (IHn & IHg & IHv).
  destruct (sb_mark_all l x') as [l2 x2]. cbn [fst snd] in *. split; [cbn; lia|].
  split; [exact (index_grows_trans _ _ _ [r] l Hg IHg)|].
  intros [|i] q Hq; cbn [lookup list_lookup] in Hq |- *; [by simplify_eq|].
  specialize (IHv i q Hq). by rewrite (verdict_app _ _ _ _ _ Hg) in IHv.
Qed.

(** C9: on a chain that has blocks, with no notifier set, records that arrive
    one at a time in the order of their sequence numbers are all stored
    behind the log.  An admin whose key the index or an earlier one of the
    records has is stored as a duplicate, every other record as a success;
    the index gains the admins, nodes and blockchains of the records, the
    first of a key, and the key of the last header. *)
Theorem sb_in_order_records_stored l b bs n :
  b_state b = READY -> b_inbound b = [] -> (0 < batch_size)%nat -> rep (b_storage b) bs ->
  notifier (b_child b) = false -> typed (b_child b) -> keyed (b_child b) -> Forall known_type l ->
  Sb_latest (bc_log bs) = Some n -> sb_numbered n l -> (n + N.of_nat (length l) < 2 ^ 64)%N ->
  exists b' bs' new, for_each l (fun r => bb_add_transaction batch_size (mkBatch [r] false)) b = Ret tt b'
    /\ b_state b' = READY /\ rep (b_storage b') bs'
    /\ bc_log bs' = bc_log bs ++ new /\ length new = length l
    /\ (forall i r, l !! i = Some r ->
          new !! i = Some (with_sb_result (verdict (b_child b) (take i l) r) r))
    /\ index_grows (b_child b) (b_child b') l.
Proof.
  intros Hst Hq Hbs Hrep Hn Ht Hk Hl Hlat Hnum Hlt.
  destruct (sb_records_run l b bs n Hst Hq Hbs Hrep Hn Ht Hk Hl Hlat Hnum Hlt) as (b' & bs' & E & Hst' & Hrep' & Hlog & Hc).
  destruct (sb_mark_all_grows l (b_child b) Ht Hk Hl) as (Hlen & Hg & Hv).
  exists b', bs', (sb_mark_all l (b_child b)).1. rewrite Hc. done.
Qed.

(** *** After a restart *)

(** The index as it is kept over a restart: without the flags of the
    object. *)
Definition sb_index (x : SubclusterBlockchain) : SubclusterBlockchain := set_notifier false (set_validated true x).

Lemma index_flags r x : do_add_index_data r (sb_index x) = sb_index <$> do_add_index_data r x.
Proof using. unfold do_add_index_data. destruct (sbr_body r); try done. cbn. by destruct (nodes_by_type x !! _). Qed.

Lemma sb_index_log_app l1 l2 : forall x, sb_index_log (l1 ++ l2) x = sb_index_log l1 x ≫= sb_index_log l2.
Proof using.
  induction l1 as [|r l1 IH]; intros x; [done|]. cbn. destruct (bool_decide _); [|apply IH].
  destruct (do_add_index_data r x); [apply IH|done].
Qed.

(** The index the marked records give is the running one: a duplicate admin
    was not indexed, and is passed over. *)
Lemma index_marked l : forall x,
  typed x -> keyed x -> Forall known_type l ->
  sb_index_log (sb_mark_all l x).1 (sb_index x) = Some (sb_index (sb_mark_all l x).2).
Proof using.
  induction l as [|r l IH]; intros x Ht Hk Hl; [done|]. inversion_clear Hl as [|? ? Hr Hl'].
  destruct (sb_mark_typed r x Ht Hk Hr) as (Ht1 & Hk1 & x1 & Hx1). specialize (IH (sb_mark r x).2 Ht1 Hk1 Hl').
  assert (sb_index_log ((sb_mark r x).1 :: (sb_mark_all l (sb_mark r x).2).1) (sb_index x)
    = sb_index_log (sb_mark_all l (sb_mark r x).2).1 (sb_index (sb_mark r x).2)) as E.
  { assert (forall res, do_add_index_data (with_sb_result res r) (sb_index x) = Some (sb_index x1)) as Hi
      by (intros res; by rewrite index_with_result, index_flags, Hx1).
    unfold sb_mark. rewrite Hx1. destruct (sbr_body r) as [| a | | | | | | | | | |];
      [|destruct (admins x !! sba_pub_key a); [reflexivity|]|..]; cbn [sb_index_log fst snd];
      rewrite bool_decide_eq_true_2, Hi by reflexivity; reflexivity. }
  cbn [sb_mark_all]. destruct (sb_mark r x) as [r' x']. cbn in *. destruct (sb_mark_all l x') as [l2 x2]. cbn in *. congruence.
Qed.

Lemma sb_index_payloads ps c rest : forall x,
  sb_index_records (map payload_rec ps ++ checksum_rec c :: rest) x = sb_index_log ps x.
Proof using. induction ps as [|p ps IH]; intros x; [done|]. cbn. destruct (bool_decide _); [|apply IH]. destruct (do_add_index_data p x); [apply IH|done]. Qed.

Lemma sb_index_blocks bs m : forall j b y,
  rep (b_storage b) bs -> (j + m = length bs)%nat -> sb_index_log (bc_log (drop j bs)) (b_child b) = Some y ->
  exists s', for_each (seq j m) (fun i =>
      let! r := stor (st_get_block (N.of_nat i)) in
      match r.1 with
      | None => undef
      | Some block =>
          let! x := gets b_child in
          match sb_index_records (take BLOCK block) x with
          | None => undef
          | Some x' => sb_child (fun _ => x')
          end
      end) b = Ret tt (set_b_child y (set_b_storage s' b)) /\ rep s' bs.
Proof.
  induction m as [|m IH]; intros j b y Hrep Hj E; cbn [seq for_each].
  - rewrite drop_ge in E by lia. injection E as <-. exists (b_storage b). now destruct b.
  - destruct (lookup_lt_is_Some_2 bs j) as [x Hx]; [lia|].
    destruct (law_get_block _ _ _ _ Hrep Hx) as (s1 & E1 & Hrep1).
    rewrite (drop_S _ _ _ Hx) in E. unfold bc_log in E. cbn [map concat] in E.
    rewrite sb_index_log_app in E. apply bind_Some in E as (z & Ez & E3).
    rewrite bind_assoc, (stor_bind _ _ _ _ _ E1). cbn [fst]. rewrite bind_assoc, b_gets.
    cbn [b_child set_b_storage]. rewrite take_ge by (rewrite mk_block_length by eauto using law_sizes; lia).
    unfold mk_block. cbn [app]. rewrite sb_index_payloads, Ez. unfold sb_child. rewrite b_modify.
    destruct (IH (S j) (set_b_child z (set_b_storage s1 b)) y Hrep1 ltac:(lia) E3) as (s' & E' & ?).
    exists s'. split; [|done]. exact E'.
Qed.

Lemma sb_index_built bs b y :
  rep (b_storage b) bs -> b_indexed_blocks b = 0%N -> sb_index_log (bc_log bs) (b_child b) = Some y ->
  exists s', Sb_add_index_data b = Ret true (set_b_child y (set_b_storage s' b)) /\ rep s' bs.
Proof.
  intros Hrep H0 E. unfold Sb_add_index_data. rewrite b_gets. erewrite stor_pure_bind by exact (law_valid_count _ _ Hrep).
  rewrite H0, N.sub_0_r, Nat2N.id. destruct (sb_index_blocks bs (length bs) 0 b y Hrep eq_refl E) as (s' & E' & Hr).
  exists s'. split; [|done]. now rewrite (bind_Ret _ _ _ _ _ E').
Qed.


End behaviour.

End subcluster.

(** ** A blockchain over the block store, for the witnesses *)

#[local] Existing Instances demo_sort demo_bad demo_names.
Abbreviation SSt := (Blockchain SbRecord).
Definition demo_sb_bytes (r : SbRecord) : bytes := [sbr_version_number r].
Definition demo_sb_storage : Storage SbRecord SSt := Blockchain_Storage demo_sb_bytes demo_sha 100 100.
#[local] Existing Instance demo_sb_storage.
Definition demo_sb_laws : StorageLaws (St := SSt) Blockchain_rep := Blockchain_laws demo_sb_bytes demo_sha 100 100.
#[local] Existing Instance demo_sb_laws.

Definition demo_sb_record (n : N) (bd : SbBody) : SbRecord :=
  mkSbRecord 1 (mkHederaTransaction HederaTimestamp_zero [] n 0) bd [] 0 SB_SUCCESS.
Definition demo_sb (x : SubclusterBlockchain) (s : SSt) : Base SbRecord SSt SubclusterBlockchain :=
  mkBase READY s "" [] 0 false 0 0 0 [] x [].
Definition demo_sb_index : SubclusterBlockchain :=
  match Sb_init (demo_sb SubclusterBlockchain_new empty_chain) with
  | Ret _ b => b_child b
  | _ => SubclusterBlockchain_new
  end.
Definition demo_node : SbNode := mkSbNode 5 [1%Z] [104%Z; 0%Z].
Definition demo_admin : SbAdmin := mkSbAdmin [7%Z] [] [].

Lemma logger_nodes_correct_witness :
  exists x' res, sb_index_log [demo_sb_record 1 (SBB_add_node demo_node)] demo_sb_index = Some x'
    /\ Sb_get_logger_nodes (demo_sb x' empty_chain) = Ret res (demo_sb x' empty_chain)
    /\ (forall k, k ∈ res <-> exists r, r ∈ [demo_sb_record 1 (SBB_add_node demo_node)]
          /\ sbr_result r = SB_SUCCESS /\ adds_node LOGGER k r)
    /\ NoDup res /\ Sorted bytes_le res.
Proof.
  exact (logger_nodes_correct [demo_sb_record 1 (SBB_add_node demo_node)] (demo_sb demo_sb_index empty_chain)
    (demo_sb SubclusterBlockchain_new empty_chain) eq_refl eq_refl
    ltac:(repeat constructor; exists LOGGER; reflexivity)).
Defined.

(** A node is registered, then the indexes are cleared. *)
Definition demo_sb_one : SubclusterBlockchain :=
  default demo_sb_index (do_add_index_data (demo_sb_record 1 (SBB_add_node demo_node)) demo_sb_index).
Definition demo_sb_cleared : SubclusterBlockchain :=
  set_blockchains ∅ (set_nodes ∅ (nodes_by_type demo_sb_one) (set_admins ∅ demo_sb_one)).

Lemma reset_keeps_logger_nodes_witness :
  Sb_get_all_endpoints (demo_sb demo_sb_cleared empty_chain) = Ret [] (demo_sb demo_sb_cleared empty_chain)
  /\ Sb_get_logger_nodes (demo_sb demo_sb_cleared empty_chain)
     = Ret [[1%Z]] (demo_sb demo_sb_cleared empty_chain).
Proof.
  destruct (reset_keeps_logger_nodes (demo_sb demo_sb_one empty_chain) (demo_sb demo_sb_cleared empty_chain)
    eq_refl) as [H1 H2].
  split; [exact H1|]. apply H2. vm_compute. reflexivity.
Defined.

Lemma demo_sb_empty_rep : Blockchain_rep (empty_chain (T := SbRecord)) [].
Proof. eexists. apply empty_chain_rep. Qed.

Lemma first_transaction_resets_witness :
  exists b', bb_add_transaction 10 (mkBatch [demo_sb_record 1 (SBB_add_node demo_node)] false)
      (demo_sb demo_sb_index empty_chain) = Ret tt b'
    /\ b_state b' = INITIAL /\ b_inbound b' = [mkBatch [demo_sb_record 1 (SBB_add_node demo_node)] false]
    /\ b_effects b' = [PushContinueValidation BLOCKCHAIN_RESET_TIMEOUT_SECONDS].
Proof.
  exact (first_transaction_resets Blockchain_rep 10 (demo_sb demo_sb_index empty_chain)
    (demo_sb_record 1 (SBB_add_node demo_node)) [] eq_refl eq_refl ltac:(lia) demo_sb_empty_rep).
Defined.

Definition demo_sb_block : list SbRecord * bytes :=
  ([demo_sb_record 1 (SBB_header (mkSbHeader [] 1 [9%Z] 1))], [1%Z]).
Definition demo_sb_chain : SSt := one_block_chain BLOCK demo_sb_block.
Lemma demo_sb_rep : Blockchain_rep demo_sb_chain [demo_sb_block].
Proof. eexists. apply one_block_rep; vm_compute; lia. Qed.

Definition demo_sb_records : list SbRecord :=
  [demo_sb_record 2 (SBB_add_admin demo_admin); demo_sb_record 3 (SBB_add_admin demo_admin);
   demo_sb_record 4 (SBB_add_node demo_node)].

Lemma sb_in_order_records_stored_witness :
  exists b' bs' new, for_each demo_sb_records (fun r => bb_add_transaction 10 (mkBatch [r] false))
      (demo_sb demo_sb_index demo_sb_chain) = Ret tt b'
    /\ b_state b' = READY /\ Blockchain_rep (b_storage b') bs'
    /\ bc_log bs' = demo_sb_block.1 ++ new /\ map sbr_result new = [SB_SUCCESS; DUPLICATE_PUB_KEY; SB_SUCCESS]
    /\ admins (b_child b') !! sba_pub_key demo_admin = Some demo_admin
    /\ nodes (b_child b') !! sbn_pub_key demo_node = Some demo_node.
Proof.
  destruct (sb_in_order_records_stored Blockchain_rep 10 demo_sb_records (demo_sb demo_sb_index demo_sb_chain)
    [demo_sb_block] 1 eq_refl eq_refl ltac:(lia) demo_sb_rep eq_refl
    ltac:(intros []; eexists; reflexivity)
    ltac:(intros t z k n E; rewrite (empty_maps [PINGER; LOGGER; BACKUP; LOGIN; GRADIDO; ORDERING] t z E), lookup_empty; done)
    ltac:(repeat constructor; exists LOGGER; reflexivity) eq_refl ltac:(repeat split) eq_refl)
    as (b' & bs' & new & E & Hst & Hrep & Hlog & Hlen & Hv & Hg).
  exists b', bs', new. do 4 (split; [done|]). split.
  { destruct new as [|x [|y [|z [|]]]]; try discriminate Hlen.
    pose proof (Hv 0%nat _ eq_refl) as H0. pose proof (Hv 1%nat _ eq_refl) as H1. pose proof (Hv 2%nat _ eq_refl) as H2.
    injection H0 as ->. injection H1 as ->. injection H2 as ->. reflexivity. }
  split; [rewrite (ig_admins _ _ _ Hg)|rewrite (ig_nodes _ _ _ Hg)]; reflexivity.
Defined.

