(* ===== verification/GradidoMath.v ===== *)
(** * Decay of balances (gradidomath/gradidomath.c)

    The computation runs on GNU MPFR numbers.  MPFR is a parameter: a
    carrier with the operations the code calls, and the documented law that
    each of them is the exact result rounded in the given direction. *)

From stdpp Require Import base numbers.
From Stdlib Require Import ZArith QArith Qpower Qround Qabs Lia Lqa.
Local Open Scope Q_scope.
From S2P Require Import Prelude GradidoDef.

(** Powers of two as numerals, for [lra]. *)
Ltac numerals :=
  change (1 # 2 ^ 53) with (1 # 9007199254740992) in *;
  change (8 # 2 ^ 53) with (8 # 9007199254740992) in *;
  change (1 # 2 ^ 100) with (1 # 1267650600228229401496703205376) in *.

Inductive mpfr_rnd_t := MPFR_RNDN | MPFR_RNDZ.

Class Mpfr (F : Type) := {
  mpfr_log_ui : Z -> mpfr_rnd_t -> F;
  mpfr_exp : F -> mpfr_rnd_t -> F;
  mpfr_sub : F -> F -> mpfr_rnd_t -> F;
  mpfr_div : F -> F -> mpfr_rnd_t -> F;
  mpfr_mul : F -> F -> mpfr_rnd_t -> F;
  mpfr_set_ui : Z -> mpfr_rnd_t -> F;
  mpfr_set_si : Z -> mpfr_rnd_t -> F;
  mpfr_pow_ui : F -> Z -> mpfr_rnd_t -> F;
  mpfr_add_z : F -> Z -> mpfr_rnd_t -> F;
  mpfr_sub_z : F -> Z -> mpfr_rnd_t -> F;
  mpfr_div_si : F -> Z -> mpfr_rnd_t -> F;
  mpfr_mul_si : F -> Z -> mpfr_rnd_t -> F;
  mpfr_get_z : F -> mpfr_rnd_t -> Z;
  mpfr_get_si : F -> mpfr_rnd_t -> Z;
}.

(** [gradido] is a [long long], [decimal] a [long] counting millionths. *)
Record GradidoWithDecimal := mkGradidoWithDecimal { gradido : Z; decimal : Z }.

Definition GRADIDO_DECIMAL_CONVERSION_FACTOR : Z := 1000000.
Definition default_round : mpfr_rnd_t := MPFR_RNDN.

(** Correct rounding, as the MPFR manual documents it, for the default
    precision of 53 bits: [value a] is the rational number [a] stands for. *)
Class MpfrLaws {F : Type} `{!Mpfr F} (value : F -> Q) (rnd : mpfr_rnd_t -> Q -> Q) := {
  rnd_mono : forall m x y, x <= y -> rnd m x <= rnd m y;
  rnd_value : forall m a, rnd m (value a) == value a;
  rnd_int : forall m z, (Z.abs z <= 2 ^ 53)%Z -> rnd m (inject_Z z) == inject_Z z;
  (* half a unit in the last place, or what an underflow loses *)
  rnd_near : forall x, Qabs.Qabs x <= inject_Z (2 ^ 62) ->
    Qabs.Qabs (rnd MPFR_RNDN x - x) <= Qabs.Qabs x * (1 # 2 ^ 53) + (1 # 2 ^ 100);
  value_sub : forall a b m, value (mpfr_sub a b m) == rnd m (value a - value b);
  value_div : forall a b m, ~ value b == 0 -> value (mpfr_div a b m) == rnd m (value a / value b);
  value_set_ui : forall z m, value (mpfr_set_ui z m) == rnd m (inject_Z z);
  value_pow_ui : forall a z m, (0 <= z)%Z -> value (mpfr_pow_ui a z m) == rnd m (value a ^ z);
  log_ui_mono : forall n k m, (0 < n <= k)%Z -> value (mpfr_log_ui n m) <= value (mpfr_log_ui k m);
  exp_nonpos : forall a m, value a <= 0 -> 0 <= value (mpfr_exp a m) <= 1;
  value_mul : forall a b m, value (mpfr_mul a b m) == rnd m (value a * value b);
  value_set_si : forall z m, value (mpfr_set_si z m) == rnd m (inject_Z z);
  value_add_z : forall a z m, value (mpfr_add_z a z m) == rnd m (value a + inject_Z z);
  value_sub_z : forall a z m, value (mpfr_sub_z a z m) == rnd m (value a - inject_Z z);
  value_div_si : forall a z m, z <> 0%Z -> value (mpfr_div_si a z m) == rnd m (value a / inject_Z z);
  value_mul_si : forall a z m, value (mpfr_mul_si a z m) == rnd m (value a * inject_Z z);
  get_z_trunc : forall a, 0 <= value a -> mpfr_get_z a MPFR_RNDZ = Qfloor (value a);
  get_si_nearest : forall a, Qabs.Qabs (value a - inject_Z (mpfr_get_si a MPFR_RNDN)) <= 1 # 2;
}.

(** [mpz_get_si]: the value, or its least significant part with its sign. *)
Definition mpz_get_si (z : Z) : Z :=
  if (0 <=? z)%Z then (z mod 2 ^ 63)%Z else (- 1 - (- z - 1) mod 2 ^ 63)%Z.

Section math.
Context {F : Type} `{MP : !Mpfr F}.

Definition calculateDecayFactor (days_per_year : Z) : F :=
  let temp := mpfr_log_ui 50 default_round in
  let decay_factor := mpfr_log_ui 100 default_round in
  let temp := mpfr_sub temp decay_factor default_round in
  let decay_factor := mpfr_set_ui (u64 (i32 (days_per_year * 60 * 60 * 24))) default_round in
  let decay_factor := mpfr_div temp decay_factor default_round in
  mpfr_exp decay_factor MPFR_RNDZ.

Definition calculateDecayFactorForDuration (decay_factor : F) (seconds : Z) : F :=
  mpfr_pow_ui decay_factor seconds default_round.

(** The new values of [gradido_decimal] and [gradido_cent]. *)
Definition calculateDecayFast (decay_for_duration gradido_decimal : F) (gradido_cent : Z) : F * Z :=
  let temp := mpfr_add_z gradido_decimal gradido_cent default_round in
  let temp := mpfr_mul temp decay_for_duration default_round in
  let gradido_cent := mpfr_get_z temp MPFR_RNDZ in
  (mpfr_sub_z temp gradido_cent default_round, gradido_cent).

Definition calculateDecayForDuration (decay_for_duration : F) (input : GradidoWithDecimal)
    : GradidoWithDecimal :=
  let gradido_decimal := mpfr_set_si (decimal input) default_round in
  let gradido_decimal := mpfr_div_si gradido_decimal GRADIDO_DECIMAL_CONVERSION_FACTOR default_round in
  let '(gradido_decimal, gdd_cent) :=
    calculateDecayFast decay_for_duration gradido_decimal (gradido input) in
  let gradido_decimal := mpfr_mul_si gradido_decimal GRADIDO_DECIMAL_CONVERSION_FACTOR default_round in
  mkGradidoWithDecimal (mpz_get_si gdd_cent) (mpfr_get_si gradido_decimal default_round).

Definition calculateDecay (input : GradidoWithDecimal) (seconds : Z) (decay_factor : F)
    : GradidoWithDecimal :=
  calculateDecayForDuration (calculateDecayFactorForDuration decay_factor seconds) input.

(** ** Bounds *)

Section bounds.
Context (value : F -> Q) (rnd : mpfr_rnd_t -> Q -> Q) `{ML : !MpfrLaws value rnd}.

Lemma rnd_between m x (lo hi : Z) :
  (Z.abs lo <= 2 ^ 53)%Z -> (Z.abs hi <= 2 ^ 53)%Z ->
  inject_Z lo <= x <= inject_Z hi -> inject_Z lo <= rnd m x <= inject_Z hi.
Proof using ML.
  intros Hlo Hhi [H1 H2]. split.
  - rewrite <- (rnd_int m lo Hlo). now apply rnd_mono.
  - rewrite <- (rnd_int m hi Hhi). now apply rnd_mono.
Qed.

(** The nearest integer of a value between two integers is between them. *)
Lemma get_si_between a (lo hi : Z) :
  inject_Z lo <= value a <= inject_Z hi -> (lo <= mpfr_get_si a MPFR_RNDN <= hi)%Z.
Proof using ML.
  intros [H1 H2]. pose proof (get_si_nearest a) as H. apply Qabs_Qle_condition in H as [H3 H4].
  set (n := mpfr_get_si a MPFR_RNDN) in *. split.
  - assert (inject_Z lo - inject_Z n < 1) as Hd by lra.
    unfold Qminus in Hd. rewrite <- inject_Z_opp, <- inject_Z_plus in Hd.
    change 1 with (inject_Z 1) in Hd. rewrite <- Zlt_Qlt in Hd. lia.
  - assert (inject_Z n - inject_Z hi < 1) as Hd by lra.
    unfold Qminus in Hd. rewrite <- inject_Z_opp, <- inject_Z_plus in Hd.
    change 1 with (inject_Z 1) in Hd. rewrite <- Zlt_Qlt in Hd. lia.
Qed.

Lemma mpz_get_si_small z : (0 <= z < 2 ^ 63)%Z -> mpz_get_si z = z.
Proof using. intros H. unfold mpz_get_si. destruct (Z.leb_spec 0 z); [now apply Z.mod_small|lia]. Qed.

(** *** The decay factor *)

Lemma Qpower_nat_le_1 q (n : nat) : 0 <= q <= 1 -> 0 <= q ^ Z.of_nat n <= 1.
Proof using.
  intros [H0 H1]. induction n as [|n [IH0 IH1]]; [split; discriminate|].
  rewrite Nat2Z.inj_succ, <- Z.add_1_r, Qpower_plus', Qpower_1_r by lia. split.
  - now apply Qmult_le_0_compat.
  - apply Qle_trans with (1 * q); [now apply Qmult_le_compat_r|rewrite Qmult_1_l; exact H1].
Qed.

Lemma duration_factor_unit a n :
  (0 <= n)%Z -> 0 <= value a <= 1 -> 0 <= value (calculateDecayFactorForDuration a n) <= 1.
Proof using ML.
  intros Hn Ha. unfold calculateDecayFactorForDuration. rewrite value_pow_ui by done.
  apply (rnd_between _ _ 0 1); [lia|lia|]. rewrite <- (Z2Nat.id n Hn). now apply Qpower_nat_le_1.
Qed.

Lemma decay_factor_unit days :
  (0 < days <= 366)%Z -> 0 <= value (calculateDecayFactor days) <= 1.
Proof using ML.
  intros Hd. unfold calculateDecayFactor. rewrite swrap_small by lia. rewrite uwrap_small by lia.
  apply exp_nonpos. set (n := (days * 60 * 60 * 24)%Z).
  assert (value (mpfr_set_ui n default_round) == inject_Z n) as En.
  { rewrite value_set_ui. apply rnd_int. lia. }
  assert (0 < inject_Z n) as Hn by (change 0 with (inject_Z 0); rewrite <- Zlt_Qlt; lia).
  rewrite value_div by (intros H0; lra).
  assert (forall m x, x <= 0 -> rnd m x <= 0) as Hneg.
  { intros m x Hx. change 0 with (inject_Z 0). rewrite <- (rnd_int m 0) by lia. now apply rnd_mono. }
  apply Hneg. apply Qle_shift_div_r; [lra|]. rewrite Qmult_0_l, value_sub. apply Hneg.
  pose proof (log_ui_mono 50 100 default_round ltac:(lia)). lra.
Qed.

(** *** Accuracy *)

Abbreviation ulp := (1 # 2 ^ 53).
Abbreviation tiny := (1 # 2 ^ 100).

Lemma rnd_eq m x y : x == y -> rnd m x == rnd m y.
Proof using ML. intros E. apply Qle_antisym; apply rnd_mono; rewrite E; apply Qle_refl. Qed.

(** Rounding of a number between 0 and an integer. *)
Lemma rnd_error x (hi : Z) :
  (0 <= hi <= 2 ^ 53)%Z -> 0 <= x <= inject_Z hi ->
  0 <= rnd MPFR_RNDN x <= inject_Z hi
  /\ - (inject_Z hi * ulp + tiny) <= rnd MPFR_RNDN x - x <= inject_Z hi * ulp + tiny.
Proof using ML.
  intros Hhi [H0 H1]. split; [apply (rnd_between _ _ 0 hi); [lia|lia|by split]|].
  assert (Qabs.Qabs x == x) as Ea by (by apply Qabs_pos).
  assert (Qabs.Qabs (rnd MPFR_RNDN x - x) <= inject_Z hi * ulp + tiny) as H.
  { eapply Qle_trans; [apply rnd_near|].
    - rewrite Ea. apply Qle_trans with (inject_Z hi); [done|]. rewrite <- Zle_Qle. lia.
    - rewrite Ea. apply Qplus_le_compat; [|apply Qle_refl]. by apply Qmult_le_compat_r. }
  by apply Qabs_Qle_condition in H.
Qed.

(** A product with a factor of at most one, and one with a bounded factor. *)
Lemma small_product a p e : 0 <= p <= 1 -> - e <= a <= e -> - e <= a * p <= e.
Proof using. intros Hp Ha. split; nra. Qed.
Lemma scaled_product a p e (hi : Z) : 0 <= a <= inject_Z hi -> - e <= p <= e -> - (inject_Z hi * e) <= a * p <= inject_Z hi * e.
Proof using. intros Ha Hp. split; nra. Qed.

(** The decayed sum before it is split, against the exact product. *)
Lemma decayed_error dec p (g d : Z) :
  (0 <= g < 2 ^ 52)%Z -> (0 <= d <= GRADIDO_DECIMAL_CONVERSION_FACTOR)%Z -> 0 <= value dec <= 1 -> 0 <= p <= 1 ->
  - (ulp + tiny) <= value dec - p <= ulp + tiny ->
  let t := value (mpfr_mul (mpfr_add_z (mpfr_div_si (mpfr_set_si d default_round)
                 GRADIDO_DECIMAL_CONVERSION_FACTOR default_round) g default_round) dec default_round) in
  let exact := (inject_Z g + inject_Z d / 1000000) * p in
  0 <= t <= inject_Z (g + 1)
  /\ - (inject_Z (g + 2) * (3 * ulp + 2 * tiny)) <= t - exact <= inject_Z (g + 2) * (3 * ulp + 2 * tiny).
Proof using ML.
  intros Hg Hd Hv Hp He t exact. unfold t. clear t. unfold GRADIDO_DECIMAL_CONVERSION_FACTOR, default_round in *.
  set (x := inject_Z d / 1000000) in *.
  assert (0 <= x <= inject_Z 1) as Hx.
  { assert (0 <= inject_Z d <= 1000000) as [H0 H1].
    { change 0 with (inject_Z 0). change 1000000 with (inject_Z 1000000). rewrite <- !Zle_Qle. lia. }
    unfold x. split; [apply Qle_shift_div_l|apply Qle_shift_div_r]; try reflexivity; [|change (inject_Z 1) with 1]; lra. }
  assert (0 <= inject_Z g) as Hg0 by (change 0 with (inject_Z 0); rewrite <- Zle_Qle; lia).
  set (D := mpfr_div_si _ _ _). assert (value D == rnd MPFR_RNDN x) as HD.
  { unfold D. rewrite value_div_si by lia. apply rnd_eq. unfold x.
    assert (value (mpfr_set_si d MPFR_RNDN) == inject_Z d) as -> by (rewrite value_set_si; apply rnd_int; lia).
    reflexivity. }
  destruct (rnd_error x 1 ltac:(lia) Hx) as [HD1 HD2]. rewrite <- HD in HD1, HD2. clear HD.
  set (S := mpfr_add_z D g _). assert (value S == rnd MPFR_RNDN (value D + inject_Z g)) as HS by (apply value_add_z).
  assert (0 <= value D + inject_Z g <= inject_Z (g + 1)) as HDg
    by (rewrite inject_Z_plus; change (inject_Z 1) with 1 in *; lra).
  destruct (rnd_error _ (g + 1) ltac:(lia) HDg) as [HS1 HS2]. rewrite <- HS in HS1, HS2. clear HS.
  rewrite value_mul. pose proof (scaled_product (value S) (value dec) 1 (g + 1) HS1) as HSP.
  assert (0 <= value S * value dec <= inject_Z (g + 1)) as HSd by (split; nra).
  destruct (rnd_error _ (g + 1) ltac:(lia) HSd) as [HT1 HT2].
  split; [exact HT1|]. clear HSP HSd HT1.
  set (T := rnd _ (value S * value dec)) in *. clearbody T.
  set (G := inject_Z (g + 1)) in *. assert (inject_Z (g + 2) == G + 1) as EG.
  { unfold G. rewrite !inject_Z_plus. change (inject_Z 2) with 2. change (inject_Z 1) with 1. ring. }
  rewrite EG. assert (0 <= inject_Z g + x <= G) as Hgx.
  { unfold G. rewrite inject_Z_plus. lra. }
  assert (1 <= G) as HG1 by (unfold G; rewrite inject_Z_plus; change (inject_Z 1) with 1; lra).
  change (inject_Z 1) with 1 in *.
  pose proof (small_product (value S - (inject_Z g + x)) (value dec) (G * ulp + tiny + (1 * ulp + tiny)) Hv ltac:(split; lra)) as H1.
  pose proof (scaled_product (inject_Z g + x) (value dec - p) (ulp + tiny) (g + 1) Hgx He) as H2. fold G in H2.
  assert (T - exact == (T - value S * value dec) + (value S - (inject_Z g + x)) * value dec
    + (inject_Z g + x) * (value dec - p)) as -> by (unfold exact; fold x; ring).
  numerals. split; lra.
Qed.

(** The new balance in millionths. *)
Definition millionths (v : GradidoWithDecimal) : Z := gradido v * GRADIDO_DECIMAL_CONVERSION_FACTOR + decimal v.

(** Splitting the sum and rounding to millionths loses half of one, and two
    roundings of the decimal part. *)
Lemma split_error dec input :
  let t := mpfr_mul (mpfr_add_z (mpfr_div_si (mpfr_set_si (decimal input) default_round)
                 GRADIDO_DECIMAL_CONVERSION_FACTOR default_round) (gradido input) default_round) dec default_round in
  (0 <= gradido input < 2 ^ 52)%Z -> 0 <= value t <= inject_Z (gradido input + 1) ->
  let r := calculateDecayForDuration dec input in
  (0 <= gradido r)%Z /\ (0 <= decimal r <= GRADIDO_DECIMAL_CONVERSION_FACTOR)%Z
  /\ - ((1 # 2) + 1000000 * (2 * ulp + 2 * tiny)) <= inject_Z (millionths r) - 1000000 * value t
      <= (1 # 2) + 1000000 * (2 * ulp + 2 * tiny).
Proof using ML.
  intros t Hg [Ht0 Ht1]. cbv zeta. unfold calculateDecayForDuration, calculateDecayFast, millionths. cbn [gradido decimal].
  fold t. rewrite (get_z_trunc t Ht0). set (z := Qfloor (value t)).
  pose proof (Qfloor_le (value t)) as Hz1. pose proof (Qlt_floor (value t)) as Hz2. fold z in Hz1, Hz2.
  assert (0 <= z <= gradido input + 1)%Z as Hz.
  { split.
    - assert (inject_Z 0 < inject_Z (z + 1)) as H by (change (inject_Z 0) with 0; lra). rewrite <- Zlt_Qlt in H. lia.
    - assert (inject_Z z <= inject_Z (gradido input + 1)) as H by lra. now rewrite <- Zle_Qle in H. }
  rewrite mpz_get_si_small by lia. split; [lia|]. rewrite inject_Z_plus in Hz2. change (inject_Z 1) with 1 in Hz2.
  unfold default_round in *. set (V := mpfr_sub_z t z MPFR_RNDN). set (W := mpfr_mul_si V _ MPFR_RNDN).
  assert (0 <= value t - inject_Z z <= inject_Z 1) as Htz by (change (inject_Z 1) with 1; lra).
  destruct (rnd_error _ 1 ltac:(lia) Htz) as [HV1 HV2].
  assert (value V == rnd MPFR_RNDN (value t - inject_Z z)) as HV by (apply value_sub_z). rewrite <- HV in HV1, HV2. clear HV.
  unfold GRADIDO_DECIMAL_CONVERSION_FACTOR in *. change (inject_Z 1) with 1 in *.
  assert (0 <= value V * inject_Z 1000000 <= inject_Z 1000000) as HV3 by (change (inject_Z 1000000) with 1000000; lra).
  destruct (rnd_error _ 1000000 ltac:(lia) HV3) as [HW1 HW2].
  assert (value W == rnd MPFR_RNDN (value V * inject_Z 1000000)) as HW by (apply value_mul_si). rewrite <- HW in HW1, HW2. clear HW.
  split; [apply (get_si_between W 0 1000000); exact HW1|].
  pose proof (get_si_nearest W) as Hn. apply Qabs_Qle_condition in Hn as [Hn1 Hn2].
  rewrite inject_Z_plus, inject_Z_mult. change (inject_Z 1000000) with 1000000 in *. numerals. split; lra.
Qed.

End bounds.

End math.

(** ** Exact arithmetic keeps the laws *)

(** Rational arithmetic without rounding.  The logarithms of 50 and of 100
    have six decimals, those of other numbers the next lower one of them;
    the exponential of a number that is not positive is taken to the second
    order. *)
Definition exact_mpfr : Mpfr Q := {|
  mpfr_log_ui n _ := if (n <? 50)%Z then 0 else if (n <? 100)%Z then 3912023 # 1000000 else 4605170 # 1000000;
  mpfr_exp a _ := if Qle_bool a 0 then / (1 - a + a * a / 2) else 1;
  mpfr_sub a b _ := a - b; mpfr_div a b _ := a / b; mpfr_mul a b _ := a * b;
  mpfr_set_ui z _ := inject_Z z; mpfr_set_si z _ := inject_Z z;
  mpfr_pow_ui a n _ := a ^ n; mpfr_add_z a z _ := a + inject_Z z; mpfr_sub_z a z _ := a - inject_Z z;
  mpfr_div_si a z _ := a / inject_Z z; mpfr_mul_si a z _ := a * inject_Z z;
  mpfr_get_z a _ := Qfloor a; mpfr_get_si a _ := Qfloor (a + (1 # 2)) |}.

Lemma exact_laws : MpfrLaws (Mpfr0 := exact_mpfr) (fun a => a) (fun _ x => x).
Proof.
  split; try (intros; reflexivity); try done.
  - intros x _. assert (x - x == 0) as -> by ring. change (Qabs.Qabs 0) with 0.
    pose proof (Qabs_nonneg x). numerals. lra.
  - intros n k m [Hn Hk]. cbn. destruct (Z.ltb_spec n 50), (Z.ltb_spec k 50), (Z.ltb_spec n 100), (Z.ltb_spec k 100);
      try lia; discriminate.
  - intros a m Ha. cbn. rewrite (proj2 (Qle_bool_iff a 0) Ha).
    assert (0 <= a * a / 2) as Hs.
    { apply Qle_shift_div_l; [reflexivity|]. nra. }
    split; [apply Qinv_le_0_compat; lra|]. apply Qle_shift_inv_r; lra.
  - intros a. apply (proj2 (Qabs_Qle_condition _ _)). cbn [mpfr_get_si exact_mpfr].
    pose proof (Qfloor_le (a + (1 # 2))) as H1. pose proof (Qlt_floor (a + (1 # 2))) as H2.
    rewrite inject_Z_plus in H2. change (inject_Z 1) with 1 in H2. split; lra.
Qed.

(** C40: the decay of a balance [b] of less than [2^52] gradidos over some
    seconds is [b] times the power of the factor for a year (a number
    between 0 and 1), up to half a millionth and eight units in the last
    place of [b + 2]: below [2^29] gradidos it is off by less than a
    millionth.  The parts of the new balance are not negative, and the
    decimal part is at most the base. *)
Theorem decay_accurate {F} `{!Mpfr F} (value : F -> Q) (rnd : mpfr_rnd_t -> Q -> Q)
    (HL : MpfrLaws value rnd) days input secs :
  (0 < days <= 366)%Z -> (0 <= secs)%Z ->
  (0 <= gradido input < 2 ^ 52)%Z -> (0 <= decimal input <= GRADIDO_DECIMAL_CONVERSION_FACTOR)%Z ->
  let f := value (calculateDecayFactor days) in
  let r := calculateDecay input secs (calculateDecayFactor days) in
  let exact := (inject_Z (gradido input) + inject_Z (decimal input) / 1000000) * f ^ secs in
  let error := (1 # 2) + 1000000 * (inject_Z (gradido input + 2) * (8 # 2 ^ 53)) in
  0 <= f <= 1
  /\ - error <= inject_Z (millionths r) - 1000000 * exact <= error
  /\ (0 <= gradido r)%Z /\ (0 <= decimal r <= GRADIDO_DECIMAL_CONVERSION_FACTOR)%Z.
Proof.
  intros Hd Hs Hg Hdec f r exact error. assert (0 <= f <= 1) as Hf by (by apply (decay_factor_unit value rnd)).
  split; [done|]. assert (0 <= f ^ secs <= 1) as Hp by (rewrite <- (Z2Nat.id secs Hs); by apply Qpower_nat_le_1).
  set (dec := calculateDecayFactorForDuration (calculateDecayFactor days) secs).
  assert (0 <= value dec <= 1 /\ - ((1 # 2 ^ 53) + (1 # 2 ^ 100)) <= value dec - f ^ secs <= (1 # 2 ^ 53) + (1 # 2 ^ 100)) as [Hv He].
  { unfold dec, calculateDecayFactorForDuration. rewrite value_pow_ui by done. fold f.
    destruct (rnd_error value rnd (f ^ secs) 1 ltac:(lia) Hp) as [H1 H2]. unfold default_round.
    split; [exact H1|]. change (inject_Z 1) with 1 in H2. rewrite Qmult_1_l in H2. exact H2. }
  destruct (decayed_error value rnd dec (f ^ secs) (gradido input) (decimal input) Hg Hdec Hv Hp He) as [Ht Hte].
  destruct (split_error value rnd dec input Hg Ht) as (H1 & H2 & H3).
  change (calculateDecayForDuration dec input) with r in H1, H2, H3.
  split; [|done]. fold exact in Hte. unfold error. clear - H3 Hte Hg.
  set (t := value (mpfr_mul _ dec _)) in *. clearbody t.
  assert (1 <= inject_Z (gradido input + 2)) as HG by (change 1 with (inject_Z 1); rewrite <- Zle_Qle; lia).
  numerals. split; lra.
Qed.

(** A million gradidos lose a fiftieth of one in a second: 999999.978020. *)
Lemma decay_accurate_witness :
  calculateDecay (MP := exact_mpfr) (mkGradidoWithDecimal 1000000 0) 1 (calculateDecayFactor (MP := exact_mpfr) 365)
    = mkGradidoWithDecimal 999999 978020
  /\ (let f := calculateDecayFactor (MP := exact_mpfr) 365 in
      let error := (1 # 2) + 1000000 * (inject_Z 1000002 * (8 # 2 ^ 53)) in
      0 <= f <= 1
      /\ - error <= inject_Z 999999978020 - 1000000 * ((inject_Z 1000000 + inject_Z 0 / 1000000) * f ^ 1) <= error).
Proof.
  assert (calculateDecay (MP := exact_mpfr) (mkGradidoWithDecimal 1000000 0) 1 (calculateDecayFactor (MP := exact_mpfr) 365)
    = mkGradidoWithDecimal 999999 978020) as E by (vm_compute; reflexivity).
  split; [exact E|]. cbv zeta.
  pose proof (decay_accurate (fun a => a) (fun _ x => x) exact_laws 365 (mkGradidoWithDecimal 1000000 0) 1
    ltac:(lia) ltac:(lia) ltac:(cbn; lia) ltac:(vm_compute; split; discriminate)) as H.
  cbv zeta in H. rewrite E in H. destruct H as (H1 & H2 & _). split; [exact H1|exact H2].
Defined.

(** The decimal part is not always normal, because it is rounded to the
    nearest millionth: ten gradidos decayed to 1.9999996 become one gradido
    and 1000000 millionths, which [GradidoValue] does not carry into the
    whole part. *)
Theorem decay_not_normal :
  calculateDecayForDuration (MP := exact_mpfr) (19999996 # 100000000) (mkGradidoWithDecimal 10 0)
  = mkGradidoWithDecimal 1 GRADIDO_DECIMAL_CONVERSION_FACTOR.
Proof. vm_compute. reflexivity. Qed.
