(* ===== verification/BlockchainGradido.v ===== *)
(** * The ledger of a group (blockchain_gradido.h, blockchain_gradido.cpp)

    A blockchain whose records are transactions of the group's users.  The
    object keeps an index of users with their balances, of friend groups and
    of outbound transactions, updates it when a transaction is processed
    ([calc_fields_and_update_indexes_for]) and rebuilds it from the blocks
    ([add_index_data]).  The blockchains of other groups are reached through
    [IBlockchain]; the decay of balances is [GradidoMath]'s. *)

From stdpp Require Import base gmap strings numbers list sorting.
From Stdlib Require Import ZArith Lia.
From S2P Require Import Prelude GradidoDef FileTile Fnr Blockchain BlockchainBase GradidoMath.
Local Open Scope node_scope.
Set Default Proof Using "Type".

Record UserInfo := mkUserInfo
  { current_balance : GradidoValue;
    last_record_with_balance : N;
    timestamp_of_last_balance : HederaTimestamp }.

(** [UserInfo()] *)
Definition UserInfo_new : UserInfo := mkUserInfo GradidoValue_zero 0 HederaTimestamp_zero.

#[export] Instance UserInfo_eq_dec : EqDecision UserInfo.
Proof. solve_decision. Defined.

(** [FriendGroupInfo] has no fields: the map is the set of its keys. *)
Record BlockchainGradido := mkBlockchainGradido
  { user_index : gmap bytes UserInfo;
    friend_group_index : gset bytes;
    outbound_transactions : gmap HederaTimestamp N;
    bg_other_group : bytes;
    bg_paired_transaction : HederaTimestamp;
    bg_paired_tr : Transaction;
    waiting_for_paired : bool }.

Definition set_user_index (m : gmap bytes UserInfo) (x : BlockchainGradido) : BlockchainGradido :=
  mkBlockchainGradido m (friend_group_index x) (outbound_transactions x) (bg_other_group x)
    (bg_paired_transaction x) (bg_paired_tr x) (waiting_for_paired x).
Definition set_friends (m : gset bytes) (x : BlockchainGradido) : BlockchainGradido :=
  mkBlockchainGradido (user_index x) m (outbound_transactions x) (bg_other_group x)
    (bg_paired_transaction x) (bg_paired_tr x) (waiting_for_paired x).
Definition set_outbound (m : gmap HederaTimestamp N) (x : BlockchainGradido) : BlockchainGradido :=
  mkBlockchainGradido (user_index x) (friend_group_index x) m (bg_other_group x)
    (bg_paired_transaction x) (bg_paired_tr x) (waiting_for_paired x).
(** Remembering which transaction of which group is waited for. *)
Definition set_waiting (group : bytes) (id : HederaTimestamp) (w : bool) (x : BlockchainGradido)
    : BlockchainGradido :=
  mkBlockchainGradido (user_index x) (friend_group_index x) (outbound_transactions x) group
    id (bg_paired_tr x) w.
Definition set_paired_tr (t : Transaction) (x : BlockchainGradido) : BlockchainGradido :=
  mkBlockchainGradido (user_index x) (friend_group_index x) (outbound_transactions x)
    (bg_other_group x) (bg_paired_transaction x) t false.

Definition set_current_balance (v : GradidoValue) (u : UserInfo) : UserInfo :=
  mkUserInfo v (last_record_with_balance u) (timestamp_of_last_balance u).
Definition set_last (rec : N) (ts : HederaTimestamp) (u : UserInfo) : UserInfo :=
  mkUserInfo (current_balance u) rec ts.

(** What a ledger asks of the ledger of another group. *)
Record IBlockchain := mkIBlockchain
  { ib_get_paired_transaction : HederaTimestamp -> option N;
    ib_get_transaction : N -> option Transaction }.

(** The fields a handler fills in. *)
Definition with_user_state (v : GradidoValue) (prev : N) (u : UserTransfer) : UserTransfer :=
  mkUserTransfer (ut_user u) (mkUserState v prev).

(** [rec->payload] of a line of the store. *)
Definition payload_of (r : Rec GradidoRecord) : option GradidoRecord :=
  match rec_u r with
  | UPayload p => Some p
  | UZero => Some GR_blank
  | UChecksum _ => None
  end.

Definition BlockchainGradido_is_valid (recs : list GradidoRecord) : bool := true.

(** The sequence number of the common header.  A batch starts with a line
    that has one. *)
Definition BlockchainGradido_seq (r : GradidoRecord) : N :=
  match r with
  | GR_transaction t => sequenceNumber (hedera_transaction t)
  | GR_structurally_bad_message m => sequenceNumber (sbm_header_hedera_transaction m)
  | _ => 0
  end.

(** ** Rebuilding the index from the blocks *)

Section index.
Implicit Types (x : BlockchainGradido).

(** [urec->second = ...] for [urec = user_index.find(user)]: [None] when the
    user is not there and the end iterator is dereferenced. *)
Definition index_balance (user : bytes) (v : GradidoValue) (rec_num : N) (ts : HederaTimestamp) x
    : option BlockchainGradido :=
  match user_index x !! user with
  | None => None
  | Some _ => Some (set_user_index (<[user := mkUserInfo v rec_num ts]> (user_index x)) x)
  end.

(** The switch over a successful transaction found at [rec_num]. *)
Definition index_transaction (rec_num : N) (tr : Transaction) x : option BlockchainGradido :=
  let ts := consensusTimestamp (hedera_transaction tr) in
  match body tr with
  | TB_gradido_creation gc =>
      index_balance (ut_user (gc_user gc)) (new_balance (ut_state (gc_user gc))) rec_num ts x
  | TB_add_group_friend g =>
      group ← field_string g; Some (set_friends ({[group]} ∪ friend_group_index x) x)
  | TB_remove_group_friend g =>
      group ← field_string g; Some (set_friends (friend_group_index x ∖ {[group]}) x)
  | TB_add_user user =>
      Some (set_user_index (map_insert user (mkUserInfo GradidoValue_zero rec_num ts) (user_index x)) x)
  | TB_move_user_inbound mu =>
      Some (set_user_index (map_insert (mu_user mu)
        (mkUserInfo (new_balance (mu_state mu)) (rec_num mod 2 ^ 32) HederaTimestamp_zero)
        (user_index x)) x)
  | TB_move_user_outbound mu =>
      Some (set_outbound
        (map_insert (paired_transaction_id (mu_paired mu)) rec_num (outbound_transactions x))
        (set_user_index (delete (mu_user mu) (user_index x)) x))
  | TB_local_transfer lt =>
      x ← index_balance (ut_user (lt_sender lt)) (new_balance (ut_state (lt_sender lt))) rec_num ts x;
      index_balance (ut_user (lt_receiver lt)) (new_balance (ut_state (lt_receiver lt))) rec_num ts x
  | TB_inbound_transfer it =>
      index_balance (ut_user (it_receiver it)) (new_balance (ut_state (it_receiver it))) rec_num ts x
  | TB_outbound_transfer ot =>
      x ← index_balance (ut_user (ot_sender ot)) (new_balance (ut_state (ot_sender ot))) rec_num ts x;
      Some (set_outbound
        (map_insert (paired_transaction_id (ot_paired ot)) rec_num (outbound_transactions x)) x)
  | TB_other _ => Some x
  end.

(** One line: only successful transactions count. *)
Definition index_record (rec_num : N) (r : GradidoRecord) x : option BlockchainGradido :=
  match r with
  | GR_transaction tr =>
      if bool_decide (tr_result tr = SUCCESS) then index_transaction rec_num tr x else Some x
  | _ => Some x
  end.

(** The lines of a block up to its checksum. *)
Fixpoint index_block (rec_num : N) (rs : list (Rec GradidoRecord)) x : option BlockchainGradido :=
  match rs with
  | [] => Some x
  | r :: rs' =>
      if is_type CHECKSUM r then Some x
      else p ← payload_of r; x ← index_record rec_num p x; index_block (rec_num + 1) rs' x
  end.
End index.

(** ** What an index says of the ledger

    Balances with their times, and friends; the record numbers kept besides
    are left aside. *)

Definition account (u : UserInfo) : GradidoValue * HederaTimestamp :=
  (current_balance u, timestamp_of_last_balance u).

Definition same_ledger (x y : BlockchainGradido) : Prop :=
  account <$> user_index x = account <$> user_index y
  /\ friend_group_index x = friend_group_index y.

#[export] Instance same_ledger_equivalence : Equivalence same_ledger.
Proof.
  split.
  - now intros x.
  - intros x y [H1 H2]. now split.
  - intros x y z [H1 H2] [H3 H4]. split; etransitivity; eassumption.
Qed.

Lemma same_ledger_lookup x y k u :
  same_ledger x y -> user_index x !! k = Some u ->
  exists v, user_index y !! k = Some v /\ account v = account u.
Proof.
  intros [H _] Hk. apply (f_equal (.!! k)) in H. rewrite !lookup_fmap, Hk in H.
  destruct (user_index y !! k) as [v|]; cbn in H; [|done]. injection H as H1 H2.
  exists v. split; [done|]. unfold account. congruence.
Qed.

Lemma same_ledger_lookup_None x y k :
  same_ledger x y -> user_index x !! k = None -> user_index y !! k = None.
Proof.
  intros [H _] Hk. apply (f_equal (.!! k)) in H. rewrite !lookup_fmap, Hk in H.
  now destruct (user_index y !! k).
Qed.

Lemma same_ledger_insert x y k u v :
  same_ledger x y -> account u = account v ->
  same_ledger (set_user_index (<[k := u]> (user_index x)) x) (set_user_index (<[k := v]> (user_index y)) y).
Proof. intros [H1 H2] Hu. split; cbn; [|done]. now rewrite !fmap_insert, H1, Hu. Qed.

Lemma same_ledger_map_insert x y k u v :
  same_ledger x y -> account u = account v ->
  same_ledger (set_user_index (map_insert k u (user_index x)) x)
    (set_user_index (map_insert k v (user_index y)) y).
Proof.
  intros H Hu. unfold map_insert. destruct (user_index x !! k) as [w|] eqn:E.
  - destruct (same_ledger_lookup _ _ _ _ H E) as (w' & -> & _). destruct H. now split.
  - rewrite (same_ledger_lookup_None _ _ _ H E). now apply same_ledger_insert.
Qed.

Lemma same_ledger_delete x y k :
  same_ledger x y ->
  same_ledger (set_user_index (delete k (user_index x)) x) (set_user_index (delete k (user_index y)) y).
Proof. intros [H1 H2]. split; cbn; [|done]. now rewrite !fmap_delete, H1. Qed.

Lemma same_ledger_friends x y f :
  same_ledger x y ->
  same_ledger (set_friends (f (friend_group_index x)) x) (set_friends (f (friend_group_index y)) y).
Proof. intros [H1 H2]. split; cbn; [done|]. now rewrite H2. Qed.

Lemma same_ledger_outbound x y m m' : same_ledger x y -> same_ledger (set_outbound m x) (set_outbound m' y).
Proof. now intros [H1 H2]. Qed.

Lemma index_balance_known user v n ts x u :
  user_index x !! user = Some u ->
  index_balance user v n ts x = Some (set_user_index (<[user := mkUserInfo v n ts]> (user_index x)) x).
Proof. intros H. unfold index_balance. now rewrite H. Qed.

Lemma index_balance_same user v n m ts x y x1 :
  same_ledger x y -> index_balance user v n ts x = Some x1 ->
  exists y1, index_balance user v m ts y = Some y1 /\ same_ledger x1 y1.
Proof.
  unfold index_balance. intros H E. destruct (user_index x !! user) as [u|] eqn:Eu; [|done].
  destruct (same_ledger_lookup _ _ _ _ H Eu) as (w & -> & _). injection E as <-.
  eexists. split; [done|]. now apply same_ledger_insert.
Qed.

(** Where a record is found does not change what it does to the ledger. *)
Lemma index_record_same n m r x y x1 :
  same_ledger x y -> index_record n r x = Some x1 ->
  exists y1, index_record m r y = Some y1 /\ same_ledger x1 y1.
Proof.
  intros H. unfold index_record. destruct r; try (intros [= <-]; eauto).
  destruct (bool_decide _); [|intros [= <-]; eauto].
  unfold index_transaction. destruct (body t) as [gc|g|g|u|mu|mu|lt|it|ot|c]; cbv zeta;
    try (destruct (field_string g) as [group|]; [|done]; cbn).
  - now apply index_balance_same.
  - intros [= <-]. eexists. split; [reflexivity|]. now apply (same_ledger_friends _ _ (fun s => {[group]} ∪ s)).
  - intros [= <-]. eexists. split; [reflexivity|]. now apply (same_ledger_friends _ _ (fun s => s ∖ {[group]})).
  - intros [= <-]. eexists. split; [reflexivity|]. now apply same_ledger_map_insert.
  - intros [= <-]. eexists. split; [reflexivity|]. now apply same_ledger_map_insert.
  - intros [= <-]. eexists. split; [reflexivity|]. now apply same_ledger_outbound, same_ledger_delete.
  - intros E. apply bind_Some in E as (x2 & E2 & E).
    destruct (index_balance_same _ _ _ m _ _ _ _ H E2) as (y2 & -> & H2). cbn.
    exact (index_balance_same _ _ _ m _ _ _ _ H2 E).
  - now apply index_balance_same.
  - intros E. apply bind_Some in E as (x2 & E2 & [= <-]).
    destruct (index_balance_same _ _ _ m _ _ _ _ H E2) as (y2 & -> & H2). cbn.
    eexists. split; [reflexivity|]. now apply same_ledger_outbound.
  - intros [= <-]. eauto.
Qed.

(** The index a log gives, record numbers aside. *)
Fixpoint index_lines (log : list GradidoRecord) (x : BlockchainGradido) : option BlockchainGradido :=
  match log with
  | [] => Some x
  | r :: log' => x ← index_record 0 r x; index_lines log' x
  end.

Lemma index_lines_app l1 l2 x :
  index_lines (l1 ++ l2) x = (y ← index_lines l1 x; index_lines l2 y).
Proof.
  revert x. induction l1 as [|r l1 IH]; intros x; [done|]. cbn.
  destruct (index_record 0 r x); cbn; [apply IH|done].
Qed.

Lemma index_lines_same l : forall x y x1,
  same_ledger x y -> index_lines l x = Some x1 ->
  exists y1, index_lines l y = Some y1 /\ same_ledger x1 y1.
Proof.
  induction l as [|r l IH]; intros x y x1 H E; cbn in *; [injection E as <-; eauto|].
  apply bind_Some in E as (x2 & E2 & E).
  destruct (index_record_same 0 0 r x y x2 H E2) as (y2 & -> & H2). cbn. eauto.
Qed.

(** The lines of a block, read with their positions, give what the log
    gives. *)
Lemma index_block_lines ps c rest : forall n x y x1,
  same_ledger x y -> index_lines ps x = Some x1 ->
  exists y1, index_block n (map payload_rec ps ++ checksum_rec c :: rest) y = Some y1 /\ same_ledger x1 y1.
Proof.
  induction ps as [|p ps IH]; intros n x y x1 H E; cbn in *; [injection E as <-; eauto|].
  apply bind_Some in E as (x2 & E2 & E).
  destruct (index_record_same 0 n p x y x2 H E2) as (y2 & E3 & H2).
  change (is_type CHECKSUM (payload_rec p)) with false. cbn. rewrite E3. cbn. eauto.
Qed.

Section ledger.
Context {St : Type} `{STO : !Storage GradidoRecord St}.
Context {F : Type} `{MP : !Mpfr F}.
(** [gf->get_group_blockchain]: null for a group that is not there. *)
Context (get_group_blockchain : bytes -> option IBlockchain).
Abbreviation B := (Base GradidoRecord St BlockchainGradido).
Implicit Types (b : B).

Definition child (f : BlockchainGradido -> BlockchainGradido) : M B unit :=
  modify (fun b => set_b_child (f (b_child b)) b).

Definition BlockchainGradido_add_index_data : M B bool :=
  let! from := gets b_indexed_blocks in
  let! vc := stor st_get_checksum_valid_block_count in
  for_each (seq (N.to_nat from) (N.to_nat (vc - from))) (fun i =>
    let! r := stor (st_get_block (N.of_nat i)) in
    match r.1 with
    | None => undef
    | Some block =>
        let! x := gets b_child in
        match index_block (N.of_nat i * GRADIDO_BLOCK_SIZE) (take BLOCK block) x with
        | None => undef
        | Some x' => child (fun _ => x')
        end
    end) ;;;
  ret true.

Definition BlockchainGradido_clear_indexes : M B unit :=
  child (fun x => set_outbound ∅ (set_friends ∅ (set_user_index ∅ x))).

(** ** The last transaction *)

(** The loop from record [last] down to 0. *)
Fixpoint latest_scan (last : nat) : M B (option N) :=
  let! r := stor (st_get_record (N.of_nat last)) in
  match r with
  | (Some rec, ExitCode.OK) =>
      let next := match last with O => ret None | S last' => latest_scan last' end in
      if negb (is_type PAYLOAD rec) then next
      else
        match payload_of rec with
        | None => undef
        | Some (GR_transaction t) => ret (Some (sequenceNumber (hedera_transaction t)))
        | Some _ => next
        end
  | _ => ret None
  end.

Definition BlockchainGradido_get_latest_transaction_id : M B (option N) :=
  let! rc := stor st_get_rec_count in
  if (rc =? 0)%N then ret None
  else if (rc =? 1)%N then ret None
  else latest_scan (N.to_nat (rc - 2)).

(** ** Processing a transaction *)

Definition decay_factor : F := calculateDecayFactor 365.

Definition calc_deflation (t0 t1 : HederaTimestamp) (val0 : GradidoValue) : GradidoValue :=
  if (amount val0 =? 0)%Z && (decimal_amount val0 =? 0)%Z then GradidoValue_zero
  else
    let d := HederaTimestamp_sub t1 t0 in
    let gradidos := mkGradidoWithDecimal (i64 (amount val0)) (decimal_amount val0) in
    let gradidos := calculateDecay gradidos (u64 (seconds d)) decay_factor in
    mkGradidoValue (u64 (gradido gradidos)) (u32 (decimal gradidos)).

(** Reading and writing through the iterator of a user. *)
Definition user_at (user : bytes) : M B UserInfo :=
  let! x := gets b_child in
  match user_index x !! user with Some u => ret u | None => undef end.
Definition update_user (user : bytes) (f : UserInfo -> UserInfo) : M B unit :=
  child (fun x => set_user_index (alter f user (user_index x)) x).

(** The decayed balance at the time of the transaction. *)
Definition decayed (ct : HederaTimestamp) (u : UserInfo) : GradidoValue :=
  calc_deflation (timestamp_of_last_balance u) ct (current_balance u).

Definition subtract (a v : GradidoValue) : M B GradidoValue :=
  match GradidoValue_sub a v with Some r => ret r | None => throw "GradidoValue less than zero" end.

Abbreviation done_with r tr := (ret (true, with_result r tr)).

Definition calc_gradido_creation (tr : Transaction) (gc : GradidoCreation) : M B (bool * Transaction) :=
  let ct := consensusTimestamp (hedera_transaction tr) in
  let user := ut_user (gc_user gc) in
  let! x := gets b_child in
  match user_index x !! user with
  | None => done_with UNKNOWN_LOCAL_USER tr
  | Some urec =>
      let balance := decayed ct urec in
      update_user user (set_current_balance balance) ;;;
      let gc' := mkGradidoCreation
        (with_user_state (GradidoValue_add balance (gc_amount gc)) (last_record_with_balance urec) (gc_user gc))
        (gc_amount gc) in
      update_user user (set_current_balance (GradidoValue_add balance (gc_amount gc))) ;;;
      let! rc := stor st_get_rec_count in
      update_user user (set_last rc ct) ;;;
      done_with SUCCESS (with_body (TB_gradido_creation gc') tr)
  end.

Definition calc_add_group_friend (tr : Transaction) (g : bytes) : M B (bool * Transaction) :=
  match field_string g with
  | None => undef
  | Some group =>
      let! x := gets b_child in
      if bool_decide (group ∈ friend_group_index x) then done_with GROUP_IS_ALREADY_FRIEND tr
      else child (set_friends ({[group]} ∪ friend_group_index x)) ;;; done_with SUCCESS tr
  end.

Definition calc_remove_group_friend (tr : Transaction) (g : bytes) : M B (bool * Transaction) :=
  match field_string g with
  | None => undef
  | Some group =>
      let! x := gets b_child in
      if bool_decide (group ∈ friend_group_index x)
      then child (set_friends (friend_group_index x ∖ {[group]})) ;;; done_with SUCCESS tr
      else done_with GROUP_IS_NOT_FRIEND tr
  end.

Definition calc_add_user (tr : Transaction) (user : bytes) : M B (bool * Transaction) :=
  let ct := consensusTimestamp (hedera_transaction tr) in
  let! x := gets b_child in
  match user_index x !! user with
  | Some _ => done_with USER_ALREADY_EXISTS tr
  | None =>
      let! rc := stor st_get_rec_count in
      child (set_user_index (map_insert user (mkUserInfo GradidoValue_zero rc ct) (user_index x))) ;;;
      done_with SUCCESS tr
  end.

(** Returning [false]: the transaction has to wait for its pair. *)
Definition wait_for_pair (group : bytes) (id : HederaTimestamp) (waiting : BlockchainGradido -> bool)
    (tr : Transaction) : M B (bool * Transaction) :=
  child (fun x => set_waiting group id (waiting x) x) ;;;
  emit (ExecOncePairedTransactionDone group id) ;;;
  ret (false, tr).

(** The transaction [paired_tr] is the one that is asked for. *)
Definition is_move_outbound (id : HederaTimestamp) (t : Transaction) : bool :=
  match body t with
  | TB_move_user_outbound mu => HederaTimestamp_eqb (paired_transaction_id (mu_paired mu)) id
  | _ => false
  end.
Definition is_outbound_transfer (id : HederaTimestamp) (t : Transaction) : bool :=
  match body t with
  | TB_outbound_transfer ot => HederaTimestamp_eqb (paired_transaction_id (ot_paired ot)) id
  | _ => false
  end.

(** [pt_seq_num] is not initialised when the pair is not found, and is
    used all the same. *)
Definition calc_move_user_inbound (tr : Transaction) (mu : MoveUser) : M B (bool * Transaction) :=
  let ct := consensusTimestamp (hedera_transaction tr) in
  let id := paired_transaction_id (mu_paired mu) in
  let! x := gets b_child in
  match user_index x !! mu_user mu with
  | Some _ => done_with USER_ALREADY_EXISTS tr
  | None =>
      match field_string (other_group (mu_paired mu)) with
      | None => undef
      | Some sender_group =>
          let found := bool_decide (bg_other_group x = sender_group) && is_move_outbound id (bg_paired_tr x) in
          let finish (tt' : option Transaction) : M B (bool * Transaction) :=
            match tt' with
            | None => wait_for_pair sender_group id (fun _ => true) tr
            | Some t =>
                if negb (bool_decide (tr_result t = SUCCESS)) then done_with OUTBOUND_TRANSACTION_FAILED tr
                else
                  let! rc := stor st_get_rec_count in
                  child (set_user_index (map_insert (mu_user mu)
                    (mkUserInfo (new_balance (mu_state mu)) rc ct) (user_index x))) ;;;
                  done_with SUCCESS tr
            end in
          if found then finish (Some (bg_paired_tr x))
          else
            match get_group_blockchain sender_group with
            | None => finish None
            | Some ib =>
                match ib_get_paired_transaction ib id with
                | None => undef
                | Some pt_seq_num => finish (ib_get_transaction ib pt_seq_num)
                end
            end
      end
  end.

Definition calc_move_user_outbound (tr : Transaction) (mu : MoveUser) : M B (bool * Transaction) :=
  let! rc := stor st_get_rec_count in
  child (fun x => set_outbound
    (map_insert (paired_transaction_id (mu_paired mu)) (u64_sub rc 1) (outbound_transactions x)) x) ;;;
  let! x := gets b_child in
  match user_index x !! mu_user mu with
  | None => done_with UNKNOWN_LOCAL_USER tr
  | Some _ => child (set_user_index (delete (mu_user mu) (user_index x))) ;;; done_with SUCCESS tr
  end.

(** The sender's iterator is dereferenced before it is compared with the
    end.  Sender and receiver may be the same entry. *)
Definition calc_local_transfer (tr : Transaction) (lt : LocalTransfer) : M B (bool * Transaction) :=
  let ct := consensusTimestamp (hedera_transaction tr) in
  let sender := ut_user (lt_sender lt) in
  let receiver := ut_user (lt_receiver lt) in
  let! r_sender := user_at sender in
  let sender_amount := decayed ct r_sender in
  let! x := gets b_child in
  match user_index x !! receiver with
  | None => done_with UNKNOWN_LOCAL_USER tr
  | Some _ =>
      if GradidoValue_lt sender_amount (lt_amount lt) then done_with NOT_ENOUGH_GRADIDOS tr
      else
        update_user sender (set_current_balance sender_amount) ;;;
        let! r_receiver := user_at receiver in
        let receiver_amount := decayed ct r_receiver in
        update_user receiver (set_current_balance receiver_amount) ;;;
        let! sender_new := subtract sender_amount (lt_amount lt) in
        let lt' := mkLocalTransfer (lt_amount lt)
          (with_user_state sender_new (last_record_with_balance r_sender) (lt_sender lt))
          (with_user_state (GradidoValue_add receiver_amount (lt_amount lt))
             (last_record_with_balance r_receiver) (lt_receiver lt)) in
        let! rc := stor st_get_rec_count in
        update_user sender (set_last rc ct) ;;;
        update_user receiver (set_last rc ct) ;;;
        done_with SUCCESS (with_body (TB_local_transfer lt') tr)
  end.

(** Unlike for a moving user, waiting does not set [waiting_for_paired]. *)
Definition calc_inbound_transfer (tr : Transaction) (it : InboundTransfer) : M B (bool * Transaction) :=
  let ct := consensusTimestamp (hedera_transaction tr) in
  let id := paired_transaction_id (it_paired it) in
  let receiver := ut_user (it_receiver it) in
  match field_string (other_group (it_paired it)) with
  | None => undef
  | Some sender_group =>
      let! x := gets b_child in
      match user_index x !! receiver with
      | None => done_with UNKNOWN_LOCAL_USER tr
      | Some r_receiver =>
          let found := bool_decide (bg_other_group x = sender_group) && is_outbound_transfer id (bg_paired_tr x) in
          let pair :=
            if found then Some (bg_paired_tr x)
            else ib ← get_group_blockchain sender_group;
                 pt_seq_num ← ib_get_paired_transaction ib id;
                 ib_get_transaction ib pt_seq_num in
          match pair with
          | None => wait_for_pair sender_group id waiting_for_paired tr
          | Some t =>
              if negb (bool_decide (tr_result t = SUCCESS)) then done_with OUTBOUND_TRANSACTION_FAILED tr
              else
                let receiver_amount := decayed ct r_receiver in
                update_user receiver (set_current_balance receiver_amount) ;;;
                let it' := mkInboundTransfer (it_amount it) (it_paired it) (it_sender it)
                  (with_user_state (GradidoValue_add receiver_amount (it_amount it))
                     (last_record_with_balance r_receiver) (it_receiver it)) in
                let! rc := stor st_get_rec_count in
                update_user receiver (set_last rc ct) ;;;
                done_with SUCCESS (with_body (TB_inbound_transfer it') tr)
          end
      end
  end.

Definition calc_outbound_transfer (tr : Transaction) (ot : OutboundTransfer) : M B (bool * Transaction) :=
  let ct := consensusTimestamp (hedera_transaction tr) in
  let sender := ut_user (ot_sender ot) in
  let! rc := stor st_get_rec_count in
  child (fun x => set_outbound
    (map_insert (paired_transaction_id (ot_paired ot)) (u64_sub rc 1) (outbound_transactions x)) x) ;;;
  let! r_sender := user_at sender in
  let sender_amount := decayed ct r_sender in
  if GradidoValue_lt sender_amount (ot_amount ot) then done_with NOT_ENOUGH_GRADIDOS tr
  else
    update_user sender (set_current_balance sender_amount) ;;;
    let! sender_new := subtract sender_amount (ot_amount ot) in
    let ot' := mkOutboundTransfer (ot_amount ot) (ot_paired ot)
      (with_user_state sender_new (last_record_with_balance r_sender) (ot_sender ot)) (ot_receiver ot) in
    let! rc := stor st_get_rec_count in
    update_user sender (set_last rc ct) ;;;
    done_with SUCCESS (with_body (TB_outbound_transfer ot') tr).

(** The switch over the type; a type without a case leaves the transaction
    as it is. *)
Definition calc_transaction (tr : Transaction) : M B (bool * Transaction) :=
  match body tr with
  | TB_gradido_creation gc => calc_gradido_creation tr gc
  | TB_add_group_friend g => calc_add_group_friend tr g
  | TB_remove_group_friend g => calc_remove_group_friend tr g
  | TB_add_user user => calc_add_user tr user
  | TB_move_user_inbound mu => calc_move_user_inbound tr mu
  | TB_move_user_outbound mu => calc_move_user_outbound tr mu
  | TB_local_transfer lt => calc_local_transfer tr lt
  | TB_inbound_transfer it => calc_inbound_transfer tr it
  | TB_outbound_transfer ot => calc_outbound_transfer tr ot
  | TB_other _ => ret (true, tr)
  end.

(** The first line of the batch is the transaction, its further parts are
    left alone. *)
Definition BlockchainGradido_calc_fields_and_update_indexes_for (recs : list GradidoRecord)
    : M B (bool * list GradidoRecord) :=
  let! x := gets b_child in
  if waiting_for_paired x then ret (false, recs)
  else
    match recs with
    | GR_transaction tr :: rest =>
        let! r := calc_transaction tr in
        ret (r.1, GR_transaction r.2 :: rest)
    | _ => undef
    end.

#[export] Instance BlockchainGradido_Child : Child GradidoRecord St BlockchainGradido := {|
  ch_is_valid := BlockchainGradido_is_valid;
  ch_seq := BlockchainGradido_seq;
  ch_get_latest_transaction_id := BlockchainGradido_get_latest_transaction_id;
  ch_calc_fields_and_update_indexes_for := BlockchainGradido_calc_fields_and_update_indexes_for;
  ch_clear_indexes := BlockchainGradido_clear_indexes;
  ch_add_index_data := BlockchainGradido_add_index_data;
  ch_on_blockchain_ready := ret tt |}.

(** ** Pairs and queries *)

Definition get_paired_transaction (hti : HederaTimestamp) : M B (option N) :=
  gets (fun b => outbound_transactions (b_child b) !! hti).

Definition on_paired_transaction_done (t : Transaction) : M B unit :=
  child (set_paired_tr t) ;;;
  emit PushContinueTransactions.

(** The line at a position; [rec] is dereferenced without a check. *)
Definition get_transaction_record (seq_num : N) : M B (option GradidoRecord) :=
  let! rc := stor st_get_rec_count in
  if (rc <=? seq_num)%N then ret None
  else
    let! r := stor (st_get_record seq_num) in
    match r.1 ≫= payload_of with Some p => ret (Some p) | None => undef end.

Definition get_transaction (seq_num : N) : M B (option Transaction) :=
  let! r := get_transaction_record seq_num in
  ret (match r with Some (GR_transaction t) => Some t | _ => None end).

Definition get_users : M B (list bytes) :=
  gets (fun b => sorted_keys (user_index (b_child b))).

(** The constructor. *)
Definition BlockchainGradido_new : BlockchainGradido :=
  mkBlockchainGradido ∅ ∅ ∅ [] HederaTimestamp_zero Transaction_zero false.

(** ** The ledger leaves the state machine alone *)

Lemma keeps_child f : keeps (child f).
Proof. apply keeps_modify. done. Qed.
Lemma keeps_user_at u : keeps (user_at u).
Proof. apply keeps_bind; [apply keeps_gets|]. intros x. destruct (user_index x !! u); [apply keeps_ret|apply keeps_undef]. Qed.
Lemma keeps_subtract a v : keeps (subtract a v).
Proof. unfold subtract. destruct (GradidoValue_sub a v); [apply keeps_ret|apply keeps_throw]. Qed.
Hint Resolve keeps_child keeps_user_at keeps_subtract : keeps.
Hint Extern 1 (keeps (update_user _ _)) => apply keeps_child : keeps.

Ltac keeps_step :=
  match goal with
  | |- keeps (match ?x with _ => _ end) => destruct x
  | |- keeps (wait_for_pair _ _ _ _) => unfold wait_for_pair
  | |- _ => first [solve [eauto with keeps] | apply keeps_bind; [|intros ?] | progress cbv zeta]
  end.

Lemma keeps_latest_scan last : keeps (latest_scan last).
Proof. induction last as [|last IH]; cbn [latest_scan]; repeat first [exact IH|keeps_step]. Qed.

Lemma keeps_calc_transaction tr : keeps (calc_transaction tr).
Proof.
  unfold calc_transaction, calc_gradido_creation, calc_add_group_friend, calc_remove_group_friend,
    calc_add_user, calc_move_user_inbound, calc_move_user_outbound, calc_local_transfer,
    calc_inbound_transfer, calc_outbound_transfer.
  repeat keeps_step.
Qed.
Hint Resolve keeps_latest_scan keeps_calc_transaction : keeps.

#[export] Instance BlockchainGradido_laws : ChildLaws (T := GradidoRecord) (St := St).
Proof.
  split; cbn.
  - unfold BlockchainGradido_get_latest_transaction_id. repeat keeps_step.
  - intros l. unfold BlockchainGradido_calc_fields_and_update_indexes_for. repeat keeps_step.
  - unfold BlockchainGradido_add_index_data. do 2 keeps_step; [eauto with keeps|].
    keeps_step; [apply keeps_for_each; intros i|]; repeat keeps_step.
  - apply keeps_ret.
  - intros b. eexists. reflexivity.
  - done.
Qed.

(** ** Over a store that keeps its promises *)

Section behaviour.
Context (rep : St -> list (list GradidoRecord * bytes) -> Prop) `{SL : !StorageLaws rep}.
#[local] Set Default Proof Using "Type SL".

(** The sequence number of the last transaction among the lines. *)
Definition transaction_seq (r : GradidoRecord) : option N :=
  match r with GR_transaction t => Some (sequenceNumber (hedera_transaction t)) | _ => None end.
Definition BlockchainGradido_latest (log : list GradidoRecord) : option N :=
  last (omap transaction_seq log).

Definition rec_seq (r : Rec GradidoRecord) : option N :=
  if is_type PAYLOAD r then payload_of r ≫= transaction_seq else None.

Lemma rec_seq_payloads ps : omap rec_seq (map payload_rec ps) = omap transaction_seq ps.
Proof using. induction ps as [|p ps IH]; [done|]. cbn. rewrite IH. reflexivity. Qed.

Lemma rec_seq_records bs : omap rec_seq (all_records BLOCK bs) = omap transaction_seq (bc_log bs).
Proof using.
  induction bs as [|x bs IH]; [done|]. unfold all_records, bc_log. cbn [map concat].
  rewrite !omap_app. f_equal; [|exact IH]. unfold mk_block. rewrite !omap_app, rec_seq_payloads.
  cbn [app]. rewrite <- (app_nil_r (omap transaction_seq x.1)) at 2. f_equal.
  cbn [omap list_omap]. change (rec_seq (checksum_rec x.2)) with (@None N).
  now induction (BLOCK - length x.1 - 1)%nat as [|n IHn].
Qed.

Lemma latest_scan_ok bs : forall i b,
  rep (b_storage b) bs -> (i < rec_total bs)%nat ->
  (forall r, r ∈ all_records BLOCK bs -> is_type PAYLOAD r = true -> payload_of r <> None) ->
  exists s', latest_scan i b
    = Ret (last (omap rec_seq (take (S i) (all_records BLOCK bs)))) (set_b_storage s' b) /\ rep s' bs.
Proof.
  induction i as [|i IH]; intros b Hrep Hi Hp;
    destruct (law_get_record _ _ _ Hrep Hi) as (r & s1 & E & Hr & Hrep1); cbn [latest_scan];
    rewrite (stor_bind _ _ _ _ _ E), (take_S_r _ _ _ Hr), omap_app;
    specialize (Hp r (list_elem_of_lookup_2 _ _ _ Hr)) as Hpr.
  - exists s1. split; [|done]. unfold rec_seq. cbn. destruct (is_type PAYLOAD r); [|done]. cbn.
    destruct (payload_of r) as [[]|]; try done. now destruct Hpr.
  - destruct (IH (set_b_storage s1 b) Hrep1 ltac:(lia) Hp) as (s2 & E2 & Hrep2).
    unfold rec_seq at 2. cbn [omap list_omap]. destruct (is_type PAYLOAD r); cbn [negb].
    2:{ exists s2. rewrite app_nil_r. done. }
    destruct (payload_of r) as [[]|]; cbn; rewrite ?app_nil_r; try (exists s2; done); [|now destruct Hpr].
    exists s1. rewrite last_snoc. done.
Qed.

Lemma records_have_payloads bs r :
  r ∈ all_records BLOCK bs -> is_type PAYLOAD r = true -> payload_of r <> None.
Proof using.
  intros Hr Ht. unfold all_records in Hr. apply list_elem_of_In, in_concat in Hr.
  destruct Hr as (l & Hl & Hr). apply list_elem_of_In in Hl, Hr.
  apply list_elem_of_fmap in Hl as (x & -> & _). unfold mk_block in Hr.
  apply elem_of_app in Hr as [Hr|Hr].
  - apply list_elem_of_fmap in Hr as (p & -> & _). done.
  - apply elem_of_app in Hr as [Hr|Hr].
    + apply list_elem_of_singleton in Hr as ->. done.
    + apply elem_of_replicate in Hr as [-> _]. done.
Qed.

Lemma BlockchainGradido_latest_ok b bs :
  rep (b_storage b) bs ->
  exists s', BlockchainGradido_get_latest_transaction_id b
    = Ret (BlockchainGradido_latest (bc_log bs)) (set_b_storage s' b) /\ rep s' bs.
Proof.
  intros Hrep. unfold BlockchainGradido_get_latest_transaction_id.
  rewrite (stor_pure_bind _ _ _ _ (law_rec_count _ _ Hrep)).
  destruct (N.eqb_spec (N.of_nat (rec_total bs)) 0) as [H0|H0].
  - destruct bs as [|x bs]; [|cbn in H0; lia]. exists (b_storage b). split; [now destruct b|done].
  - assert (bs <> []) as Hne by (intros ->; now apply H0).
    destruct (last_payload rep _ _ Hrep Hne) as (_ & _ & _ & H2).
    destruct (N.eqb_spec (N.of_nat (rec_total bs)) 1) as [H1|H1]; [lia|].
    replace (N.to_nat (N.of_nat (rec_total bs) - 2)) with (rec_total bs - 2)%nat by lia.
    destruct (latest_scan_ok bs (rec_total bs - 2) b Hrep ltac:(lia) (records_have_payloads bs))
      as (s' & E & Hrep'). exists s'. split; [|done]. rewrite E. f_equal.
    destruct (last_checksum rep _ _ Hrep Hne) as (bs0 & x & Hbs & Ht & _).
    replace (S (rec_total bs - 2)) with (rec_total bs - 1)%nat by lia. rewrite Ht.
    unfold BlockchainGradido_latest. rewrite omap_app, rec_seq_records, rec_seq_payloads.
    subst bs. now rewrite bc_log_snoc, omap_app.
Qed.

(** The latest transaction id is the sequence number of the last
    transaction in the chain; checksums, memos and further signatures behind
    it are skipped, and a chain without transactions has none. *)
Theorem latest_transaction_id_correct b bs :
  rep (b_storage b) bs ->
  exists s', BlockchainGradido_get_latest_transaction_id b
    = Ret (last (omap transaction_seq (bc_log bs))) (set_b_storage s' b) /\ rep s' bs.
Proof. apply BlockchainGradido_latest_ok. Qed.

(** *** Running a handler *)

Lemma child_run {A} f (k : unit -> M B A) b :
  bind (child f) k b = k tt (set_b_child (f (b_child b)) b).
Proof using. reflexivity. Qed.

Lemma update_user_run {A} user u f (k : unit -> M B A) b :
  user_index (b_child b) !! user = Some u ->
  bind (update_user user f) k b
  = k tt (set_b_child (set_user_index (<[user := f u]> (user_index (b_child b))) (b_child b)) b).
Proof using.
  intros Hu. unfold update_user. rewrite child_run. do 4 f_equal.
  apply map_eq. intros k'. destruct (decide (k' = user)) as [->|Hne].
  - now rewrite lookup_alter_eq, Hu, lookup_insert_eq.
  - now rewrite lookup_alter_ne, lookup_insert_ne by done.
Qed.

Definition counts b (rc : N) : Prop := st_get_rec_count (b_storage b) = Ret rc (b_storage b).

Lemma rc_run {A} (k : N -> M B A) b rc : counts b rc -> bind (stor st_get_rec_count) k b = k rc b.
Proof using. apply stor_pure_bind. Qed.

Lemma user_at_run {A} user u (k : UserInfo -> M B A) b :
  user_index (b_child b) !! user = Some u -> bind (user_at user) k b = k u b.
Proof using. intros H. unfold user_at. rewrite bind_assoc, b_gets, H. reflexivity. Qed.

(** A creation for a known user: the decayed balance and the amount are
    added up, in the record and in the index. *)
Lemma creation_run tr gc u rc x b :
  b_child b = x -> user_index x !! ut_user (gc_user gc) = Some u -> counts b rc ->
  let ct := consensusTimestamp (hedera_transaction tr) in
  let v := GradidoValue_add (decayed ct u) (gc_amount gc) in
  calc_gradido_creation tr gc b
  = Ret (true, with_result SUCCESS (with_body (TB_gradido_creation (mkGradidoCreation
             (with_user_state v (last_record_with_balance u) (gc_user gc)) (gc_amount gc))) tr))
      (set_b_child (set_user_index (<[ut_user (gc_user gc) := mkUserInfo v rc ct]> (user_index x)) x) b).
Proof using.
  intros <- Hu Hrc. cbv zeta. unfold calc_gradido_creation. cbv zeta. rewrite b_gets, Hu.
  rewrite (update_user_run _ _ _ _ _ Hu).
  erewrite update_user_run by apply lookup_insert_eq.
  erewrite rc_run by exact Hrc.
  erewrite update_user_run by apply lookup_insert_eq. unfold ret. cbn.
  now rewrite !insert_insert_eq.
Qed.

(** Transactions that neither move gradidos between users nor wait for
    another group. *)
Definition settled (tr : Transaction) : bool :=
  match body tr with
  | TB_gradido_creation _ | TB_add_user _ | TB_move_user_outbound _ | TB_other _ => true
  | TB_add_group_friend g | TB_remove_group_friend g => bool_decide (is_Some (field_string g))
  | _ => false
  end.

(** The same transaction but for its body and its result. *)
Definition same_origin (tr' tr : Transaction) : Prop := tr' = with_result (tr_result tr') (with_body (body tr') tr).

Lemma same_origin_hedera tr' tr : same_origin tr' tr -> hedera_transaction tr' = hedera_transaction tr.
Proof using. now intros ->. Qed.

(** Such a transaction is always processed; the index it leaves is the one
    its record gives. *)
Lemma settled_run tr x rc :
  settled tr = true ->
  exists tr' x', (forall b, b_child b = x -> counts b rc -> calc_transaction tr b = Ret (true, tr') (set_b_child x' b))
    /\ same_origin tr' tr
    /\ waiting_for_paired x' = waiting_for_paired x
    /\ exists y, index_record 0 (GR_transaction tr') x = Some y /\ same_ledger y x'.
Proof using.
  unfold settled, calc_transaction, index_record. destruct tr as [vn pts tid ht sg sc bd res me].
  cbn [body]. intros Hs. destruct bd as [gc|g|g|u|mu|mu|lt|it|ot|c]; try discriminate.
  - destruct (user_index x !! ut_user (gc_user gc)) as [u|] eqn:Eu.
    + eexists _, _. split; [intros b Hb Hrc; exact (creation_run _ gc u rc x b Hb Eu Hrc)|]. split; [done|]. split; [done|].
      cbn. unfold index_balance. cbn. rewrite Eu. eexists. split; [reflexivity|].
      now apply same_ledger_insert.
    + eexists _, x. split.
      { intros b Hb Hrc. unfold calc_gradido_creation. rewrite b_gets, Hb, Eu. destruct b; cbn in *; now subst. }
      split; [done|]. split; [done|]. exists x. done.
  - apply bool_decide_eq_true in Hs as [group Eg]. unfold calc_add_group_friend. rewrite Eg.
    destruct (decide (group ∈ friend_group_index x)) as [Hin|Hin].
    + eexists _, x. split; [intros b Hb Hrc; rewrite b_gets, Hb, bool_decide_eq_true_2 by done; destruct b; cbn in *; now subst|].
      split; [done|]. split; [done|]. exists x. done.
    + eexists _, _. split; [intros b Hb Hrc; rewrite b_gets, Hb, bool_decide_eq_false_2, child_run, Hb by done; reflexivity|].
      split; [done|]. split; [done|]. cbn. rewrite Eg. cbn. eexists. split; [reflexivity|]. done.
  - apply bool_decide_eq_true in Hs as [group Eg]. unfold calc_remove_group_friend. rewrite Eg.
    destruct (decide (group ∈ friend_group_index x)) as [Hin|Hin].
    + eexists _, _. split; [intros b Hb Hrc; rewrite b_gets, Hb, bool_decide_eq_true_2, child_run, Hb by done; reflexivity|].
      split; [done|]. split; [done|]. cbn. rewrite Eg. cbn. eexists. split; [reflexivity|]. done.
    + eexists _, x. split; [intros b Hb Hrc; rewrite b_gets, Hb, bool_decide_eq_false_2 by done; destruct b; cbn in *; now subst|].
      split; [done|]. split; [done|]. exists x. done.
  - unfold calc_add_user. destruct (user_index x !! u) as [w|] eqn:Eu.
    + eexists _, x. split; [intros b Hb Hrc; rewrite b_gets, Hb, Eu; destruct b; cbn in *; now subst|].
      split; [done|]. split; [done|]. exists x. done.
    + eexists _, _. split; [intros b Hb Hrc; rewrite b_gets, Hb, Eu, (rc_run _ _ _ Hrc), child_run, Hb; reflexivity|].
      split; [done|]. split; [done|]. cbn. eexists. split; [reflexivity|].
      now apply same_ledger_map_insert.
  - unfold calc_move_user_outbound. destruct (user_index x !! mu_user mu) as [w|] eqn:Eu.
    + eexists _, _. split.
      { intros b Hb Hrc. rewrite (rc_run _ _ _ Hrc), child_run, b_gets, Hb. cbn. rewrite Eu, ?child_run. cbn. reflexivity. }
      split; [done|]. split; [done|]. cbn. eexists. split; [reflexivity|]. done.
    + eexists _, _. split.
      { intros b Hb Hrc. rewrite (rc_run _ _ _ Hrc), child_run, b_gets, Hb. cbn. rewrite Eu, ?child_run. cbn. reflexivity. }
      split; [done|]. split; [done|]. cbn. eexists. split; [reflexivity|]. done.
  - eexists _, x. split; [intros b Hb Hrc; destruct b; cbn in *; now subst|]. split; [done|]. split; [done|].
    destruct (bool_decide _); eexists; done.
Qed.

(** *** Rebuilding *)

Lemma index_mk_block x n y y1 ps :
  (1 <= length x.1 <= BLOCK - 1)%nat -> same_ledger y ps -> index_lines x.1 y = Some y1 ->
  exists z, index_block n (take BLOCK (mk_block BLOCK x)) ps = Some z /\ same_ledger y1 z.
Proof using.
  intros Hx Hs E. rewrite take_ge by (rewrite mk_block_length by done; lia). unfold mk_block.
  now apply index_block_lines with (x := y).
Qed.

Lemma index_blocks_ok bs m : forall j y y1 b,
  rep (b_storage b) bs -> (j + m = length bs)%nat -> same_ledger y (b_child b) ->
  index_lines (bc_log (drop j bs)) y = Some y1 ->
  exists s' z, for_each (seq j m) (fun i =>
      let! r := stor (st_get_block (N.of_nat i)) in
      match r.1 with
      | None => undef
      | Some block =>
          let! x := gets b_child in
          match index_block (N.of_nat i * GRADIDO_BLOCK_SIZE) (take BLOCK block) x with
          | None => undef
          | Some x' => child (fun _ => x')
          end
      end) b = Ret tt (set_b_child z (set_b_storage s' b)) /\ rep s' bs /\ same_ledger y1 z.
Proof.
  induction m as [|m IH]; intros j y y1 b Hrep Hj Hs E; cbn [seq for_each].
  - rewrite drop_ge in E by lia. injection E as <-. exists (b_storage b), (b_child b). now destruct b.
  - destruct (lookup_lt_is_Some_2 bs j) as [x Hx]; [lia|].
    destruct (law_get_block _ _ _ _ Hrep Hx) as (s1 & E1 & Hrep1).
    rewrite (drop_S _ _ _ Hx) in E. unfold bc_log in E. cbn [map concat] in E.
    rewrite index_lines_app in E. apply bind_Some in E as (y2 & E2 & E3).
    destruct (index_mk_block x (N.of_nat j * GRADIDO_BLOCK_SIZE) y y2 (b_child b)
      (law_sizes _ _ _ _ Hrep Hx) Hs E2) as (z & Ez & Hz).
    rewrite bind_assoc, (stor_bind _ _ _ _ _ E1). cbn [fst]. rewrite bind_assoc, b_gets.
    cbn [b_child set_b_storage]. rewrite Ez, child_run.
    destruct (IH (S j) y2 y1 (set_b_child z (set_b_storage s1 b)) Hrep1 ltac:(lia) Hz E3) as (s' & z' & E' & ?).
    exists s', z'. split; [|done]. rewrite E'. reflexivity.
Qed.

(** The indexes cleared and built again from all blocks, as a restart does. *)
Definition rebuild : M B bool :=
  BlockchainGradido_clear_indexes ;;;
  modify (set_b_indexed_blocks 0) ;;;
  BlockchainGradido_add_index_data.

Lemma rebuild_ok bs y b :
  rep (b_storage b) bs -> index_lines (bc_log bs) BlockchainGradido_new = Some y ->
  exists s' z, rebuild b = Ret true (set_b_child z (set_b_storage s' (set_b_indexed_blocks 0 b)))
    /\ rep s' bs /\ same_ledger y z.
Proof.
  intros Hrep E. unfold rebuild, BlockchainGradido_clear_indexes, BlockchainGradido_add_index_data.
  rewrite child_run, b_modify, b_gets. erewrite stor_pure_bind by exact (law_valid_count _ _ Hrep).
  cbn [b_indexed_blocks set_b_indexed_blocks]. rewrite N.sub_0_r, Nat2N.id.
  set (b1 := set_b_indexed_blocks 0 _).
  destruct (index_blocks_ok bs (length bs) 0 BlockchainGradido_new y b1 Hrep eq_refl) as (s' & z & E' & ? & ?);
    [done|done|].
  exists s', z. split; [|done]. rewrite (bind_Ret _ _ _ _ _ E'). reflexivity.
Qed.

(** *** Transactions one after the other *)

Context (allowed : bool) (batch_size : nat).
Abbreviation KIND := (Deprecated allowed).

(** A transaction with its further parts. *)
Record Message := mkMessage { m_tr : Transaction; m_parts : list GradidoRecord }.
Definition message_seq (m : Message) : N := sequenceNumber (hedera_transaction (m_tr m)).
Definition message_batch (m : Message) : Batch GradidoRecord :=
  mkBatch (GR_transaction (m_tr m) :: m_parts m) false.
Definition good_message (m : Message) : Prop :=
  settled (m_tr m) = true /\ Forall (fun r => transaction_seq r = None) (m_parts m).

(** How a message is stored: the transaction with its fields filled in. *)
Definition stored (tr : Transaction) (m : Message) : list GradidoRecord := GR_transaction tr :: m_parts m.

Fixpoint messages_follow (n : N) (l : list Message) : Prop :=
  match l with
  | [] => True
  | m :: l' => message_seq m = (n + 1)%N /\ messages_follow (n + 1) l'
  end.

(** The index agrees with the one the stored log gives. *)
Definition in_step (b : B) bs : Prop :=
  exists y, index_lines (bc_log bs) BlockchainGradido_new = Some y /\ same_ledger y (b_child b).

Lemma index_parts parts x :
  Forall (fun r => transaction_seq r = None) parts -> index_lines parts x = Some x.
Proof using. induction 1 as [|r l Hr Hl IH]; [done|]. destruct r; try discriminate; exact IH. Qed.

Lemma omap_parts parts :
  Forall (fun r => transaction_seq r = None) parts -> omap transaction_seq parts = [].
Proof using. induction 1 as [|r l Hr Hl IH]; [done|]. cbn. now rewrite Hr. Qed.

(** A message that arrives in its turn, when nothing else is waiting, and
    whose transaction is processed. *)
Lemma add_processed m tr' x' b bs :
  b_state b = READY -> b_inbound b = [] -> (0 < batch_size)%nat -> rep (b_storage b) bs ->
  waiting_for_paired (b_child b) = false ->
  is_next KIND BlockchainGradido_latest bs (message_seq m) = true ->
  (forall c, b_child c = b_child b -> counts c (N.of_nat (rec_total bs)) ->
     calc_transaction (m_tr m) c = Ret (true, tr') (set_b_child x' c)) ->
  exists s' bs', add_transaction KIND batch_size (message_batch m) b = Ret tt (set_b_child x' (set_b_storage s' b))
    /\ rep s' bs' /\ bc_log bs' = bc_log bs ++ stored tr' m.
Proof.
  intros Hst Hq Hbs Hrep Hw Hn Hrun.
  apply (add_next (CH := BlockchainGradido_Child) KIND batch_size rep BlockchainGradido_latest
    BlockchainGradido_latest_ok (message_batch m) (message_seq m)); try done.
  split; [discriminate|]. intros s Hs. exists s. split; [|done].
  cbn [ch_calc_fields_and_update_indexes_for BlockchainGradido_Child].
  unfold BlockchainGradido_calc_fields_and_update_indexes_for. rewrite b_gets.
  cbn [b_child set_b_storage buff message_batch]. rewrite Hw.
  now rewrite (bind_Ret _ _ _ _ _ (Hrun (set_b_storage s b) eq_refl (law_rec_count _ _ Hs))).
Qed.

Lemma add_settled m b bs :
  b_state b = READY -> b_inbound b = [] -> (0 < batch_size)%nat -> rep (b_storage b) bs ->
  waiting_for_paired (b_child b) = false -> good_message m -> in_step b bs ->
  is_next KIND BlockchainGradido_latest bs (message_seq m) = true ->
  exists b' bs', add_transaction KIND batch_size (message_batch m) b = Ret tt b'
    /\ b_state b' = READY /\ b_inbound b' = [] /\ b_effects b' = b_effects b /\ rep (b_storage b') bs'
    /\ waiting_for_paired (b_child b') = false /\ in_step b' bs'
    /\ BlockchainGradido_latest (bc_log bs') = Some (message_seq m)
    /\ exists tr', same_origin tr' (m_tr m) /\ bc_log bs' = bc_log bs ++ stored tr' m.
Proof.
  intros Hst Hq Hbs Hrep Hw [Hset Hparts] (y & Ey & Hy) Hn.
  destruct (settled_run (m_tr m) (b_child b) (N.of_nat (rec_total bs)) Hset)
    as (tr' & x' & Hrun & Hh & Hw' & z & Ez & Hz).
  destruct (add_processed m tr' x' b bs Hst Hq Hbs Hrep Hw Hn Hrun) as (s' & bs' & E & Hrep' & Hl).
  exists (set_b_child x' (set_b_storage s' b)), bs'. split; [exact E|]. cbn.
  split; [done|]. split; [done|]. split; [done|]. split; [done|]. split; [congruence|]. split; [|split; [|exists tr'; done]].
  - destruct (index_record_same 0 0 _ _ y z (symmetry Hy) Ez) as (z' & Ez' & Hz').
    exists z'. rewrite Hl, index_lines_app, Ey. unfold stored. cbn [mbind option_bind index_lines]. rewrite Ez'. cbn.
    split; [now apply index_parts|]. cbn. now rewrite <- Hz', Hz.
  - unfold BlockchainGradido_latest. rewrite Hl, omap_app. unfold stored. cbn. rewrite (omap_parts _ Hparts).
    rewrite (same_origin_hedera _ _ Hh). apply last_snoc.
Qed.

(** C1: transactions that do not move gradidos between users, arriving one at
    a time in the order of their sequence numbers, are all stored with their
    parts; the index the object keeps while it runs says the same of
    balances and friends as the index a restart builds from the blocks. *)
Theorem restart_keeps_ledger l : forall b bs,
  b_state b = READY -> b_inbound b = [] -> (0 < batch_size)%nat -> rep (b_storage b) bs ->
  waiting_for_paired (b_child b) = false -> in_step b bs -> Forall good_message l ->
  messages_follow (default 0%N (BlockchainGradido_latest (bc_log bs))) l ->
  (default 0%N (BlockchainGradido_latest (bc_log bs)) + N.of_nat (length l) < 2 ^ 64)%N ->
  exists b' bs' b2, for_each l (fun m => add_transaction KIND batch_size (message_batch m)) b = Ret tt b'
    /\ b_state b' = READY /\ rep (b_storage b') bs'
    /\ (exists trs, Forall2 (fun tr m => hedera_transaction tr = hedera_transaction (m_tr m)) trs l
         /\ bc_log bs' = bc_log bs ++ concat (zip_with stored trs l))
    /\ rebuild b' = Ret true b2 /\ same_ledger (b_child b2) (b_child b').
Proof.
  induction l as [|m l IH]; intros b bs Hst Hq Hbs Hrep Hw Hin Hgood Hnum Hlt; cbn [for_each].
  - destruct Hin as (y & Ey & Hy). destruct (rebuild_ok bs y b Hrep Ey) as (s' & z & E & _ & Hz).
    exists b, bs. eexists. split; [done|]. split; [done|]. split; [done|]. split; [exists []; now rewrite app_nil_r|].
    split; [exact E|]. cbn. now rewrite <- Hz.
  - inversion_clear Hgood as [|? ? Hm Hl]. destruct Hnum as [Hseq Hnum]. cbn [length] in Hlt.
    destruct (add_settled m b bs Hst Hq Hbs Hrep Hw Hm Hin) as
      (b1 & bs1 & E & Hst1 & Hq1 & _ & Hrep1 & Hw1 & Hin1 & Hlat & tr' & Hh & Hlog).
    { unfold is_next. rewrite Hseq. destruct (BlockchainGradido_latest (bc_log bs));
        cbn [from_option id] in *; [|apply orb_true_r]. rewrite N.mod_small by lia. apply N.eqb_refl. }
    destruct (IH b1 bs1) as (b' & bs' & b2 & E' & Hst' & Hrep' & (trs & Htrs & Hlog') & Hre); try done.
    + rewrite Hlat. cbn [from_option id]. now rewrite Hseq.
    + rewrite Hlat. cbn [from_option id]. rewrite Hseq. lia.
    + exists b', bs', b2. rewrite (bind_Ret _ _ _ _ _ E). split; [done|]. split; [done|]. split; [done|].
      split; [|done]. exists (tr' :: trs). apply same_origin_hedera in Hh. split; [now constructor|].
      rewrite Hlog', Hlog. cbn [zip_with concat]. now rewrite (assoc_L (++)).
Qed.

(** *** Failures *)

Ltac run_to_end H Hres :=
  exfalso; cbn [negb] in H;
  repeat match type of H with
  | bind _ _ _ = Ret _ _ => apply bind_Ret_inv in H as (? & ? & _ & H)
  end;
  injection H as <- <-; exact (Hres eq_refl).

Ltac same_state H := cbn [negb] in H; injection H as <- <-; now split.

(** C6: a transaction that is stored with any result other than success
    leaves all balances, users and friend groups as they were. *)
Theorem failed_transaction_changes_nothing tr b bs tr' b' :
  rep (b_storage b) bs -> calc_transaction tr b = Ret (true, tr') b' -> tr_result tr' <> SUCCESS ->
  user_index (b_child b') = user_index (b_child b)
  /\ friend_group_index (b_child b') = friend_group_index (b_child b).
Proof.
  intros Hrep H Hres. pose proof (law_rec_count _ _ Hrep) as Hrc.
  unfold calc_transaction in H. destruct (body tr) as [gc|g|g|u|mu|mu|lt|it|ot|c].
  - unfold calc_gradido_creation in H. rewrite b_gets in H.
    destruct (user_index (b_child b) !! _); [run_to_end H Hres|same_state H].
  - unfold calc_add_group_friend in H. destruct (field_string g); [|discriminate]. rewrite b_gets in H.
    destruct (bool_decide _); [same_state H|run_to_end H Hres].
  - unfold calc_remove_group_friend in H. destruct (field_string g); [|discriminate]. rewrite b_gets in H.
    destruct (bool_decide _); [run_to_end H Hres|same_state H].
  - unfold calc_add_user in H. rewrite b_gets in H.
    destruct (user_index (b_child b) !! _); [same_state H|run_to_end H Hres].
  - unfold calc_move_user_inbound in H. rewrite b_gets in H. cbv zeta in H.
    destruct (user_index (b_child b) !! _); [same_state H|].
    destruct (field_string _) as [group|]; [|discriminate].
    destruct (bool_decide _ && _).
    + destruct (bool_decide _); [run_to_end H Hres|same_state H].
    + destruct (get_group_blockchain group) as [ib|]; [|discriminate].
      destruct (ib_get_paired_transaction ib _) as [n|]; [|discriminate].
      destruct (ib_get_transaction ib n) as [t|]; [|discriminate].
      destruct (bool_decide _); [run_to_end H Hres|same_state H].
  - unfold calc_move_user_outbound in H. erewrite rc_run in H by exact Hrc. rewrite child_run, b_gets in H.
    destruct (user_index _ !! _); [run_to_end H Hres|same_state H].
  - unfold calc_local_transfer, user_at in H. rewrite bind_assoc, b_gets in H.
    destruct (user_index (b_child b) !! ut_user (lt_sender lt)) as [us|]; [|discriminate].
    unfold bind at 1, ret at 1 in H. rewrite b_gets in H.
    destruct (user_index (b_child b) !! _); [|same_state H].
    destruct (GradidoValue_lt _ _); [same_state H|run_to_end H Hres].
  - unfold calc_inbound_transfer in H. destruct (field_string _) as [group|]; [|discriminate].
    rewrite b_gets in H. cbv zeta in H. destruct (user_index (b_child b) !! _); [|same_state H].
    destruct (if bool_decide _ && _ then _ else _) as [t|]; [|discriminate].
    destruct (bool_decide _); [run_to_end H Hres|same_state H].
  - unfold calc_outbound_transfer in H. erewrite rc_run in H by exact Hrc. rewrite child_run in H.
    unfold user_at in H. rewrite bind_assoc, b_gets in H.
    destruct (user_index _ !! _); [|discriminate]. unfold bind at 1, ret at 1 in H.
    destruct (GradidoValue_lt _ _); [same_state H|run_to_end H Hres].
  - same_state H.
Qed.

(** *** Local transfers *)

(** What the record and the index of a transfer between two users become. *)
Definition transfer_record (ct : HederaTimestamp) (lt : LocalTransfer) (us ur : UserInfo) (v : GradidoValue)
    : LocalTransfer :=
  mkLocalTransfer (lt_amount lt)
    (with_user_state v (last_record_with_balance us) (lt_sender lt))
    (with_user_state (GradidoValue_add (decayed ct ur) (lt_amount lt)) (last_record_with_balance ur)
       (lt_receiver lt)).
Definition transfer_index (ct : HederaTimestamp) (lt : LocalTransfer) (us ur : UserInfo) (rc : N)
    (x : BlockchainGradido) : BlockchainGradido :=
  set_user_index (<[ut_user (lt_receiver lt) := mkUserInfo (decayed ct ur) rc ct]>
    (<[ut_user (lt_sender lt) := mkUserInfo (decayed ct us) rc ct]> (user_index x))) x.

Lemma GradidoValue_sub_some a v : GradidoValue_lt a v = false -> exists r, GradidoValue_sub a v = Some r.
Proof using. intros H. unfold GradidoValue_sub. rewrite H. destruct (_ <=? _)%Z; eauto. Qed.

Lemma local_transfer_run tr lt us ur rc b :
  user_index (b_child b) !! ut_user (lt_sender lt) = Some us ->
  user_index (b_child b) !! ut_user (lt_receiver lt) = Some ur ->
  ut_user (lt_sender lt) <> ut_user (lt_receiver lt) -> counts b rc ->
  let ct := consensusTimestamp (hedera_transaction tr) in
  GradidoValue_lt (decayed ct us) (lt_amount lt) = false ->
  exists v, GradidoValue_sub (decayed ct us) (lt_amount lt) = Some v
    /\ calc_local_transfer tr lt b
       = Ret (true, with_result SUCCESS (with_body (TB_local_transfer (transfer_record ct lt us ur v)) tr))
           (set_b_child (transfer_index ct lt us ur rc (b_child b)) b).
Proof using.
  intros Hs Hr Hne Hrc ct Hlt. destruct (GradidoValue_sub_some _ _ Hlt) as [v Hv]. exists v. split; [done|].
  unfold calc_local_transfer. cbv zeta. fold ct. rewrite (user_at_run _ _ _ _ Hs), b_gets, Hr, Hlt.
  rewrite (update_user_run _ _ _ _ _ Hs).
  assert (forall u, <[ut_user (lt_sender lt) := u]> (user_index (b_child b)) !! ut_user (lt_receiver lt) = Some ur)
    as Hr' by (intros u; now rewrite lookup_insert_ne).
  erewrite user_at_run by apply Hr'. erewrite update_user_run by apply Hr'.
  unfold subtract. rewrite Hv. unfold ret at 1. unfold bind at 1. erewrite rc_run by exact Hrc.
  erewrite (update_user_run (ut_user (lt_sender lt))).
  2:{ cbn. rewrite lookup_insert_ne by done. apply lookup_insert_eq. }
  erewrite (update_user_run (ut_user (lt_receiver lt))).
  2:{ cbn. rewrite lookup_insert_ne by done. apply lookup_insert_eq. }
  unfold ret, transfer_index. cbn.
  rewrite (insert_insert_ne _ (ut_user (lt_sender lt)) (ut_user (lt_receiver lt))) by done.
  now rewrite !insert_insert_eq.
Qed.

(** C5: a local transfer between two users is refused exactly when the decayed
    balance of the sender is below the amount; otherwise the balances in the
    record are the decayed ones less and plus the amount, so that their sum
    is kept, and each side refers to the user's previous record. *)
Theorem local_transfer_conserves tr lt us ur b bs :
  rep (b_storage b) bs ->
  user_index (b_child b) !! ut_user (lt_sender lt) = Some us ->
  user_index (b_child b) !! ut_user (lt_receiver lt) = Some ur ->
  ut_user (lt_sender lt) <> ut_user (lt_receiver lt) -> body tr = TB_local_transfer lt ->
  let ct := consensusTimestamp (hedera_transaction tr) in
  GradidoValue_wf (decayed ct us) -> GradidoValue_wf (decayed ct ur) -> GradidoValue_wf (lt_amount lt) ->
  (micro (decayed ct ur) + micro (lt_amount lt) < 2 ^ 64 * GRADIDO_VALUE_DECIMAL_AMOUNT_BASE)%Z ->
  if decide (micro (decayed ct us) < micro (lt_amount lt))%Z
  then calc_transaction tr b = Ret (true, with_result NOT_ENOUGH_GRADIDOS tr) b
  else exists lt' x', calc_transaction tr b
           = Ret (true, with_result SUCCESS (with_body (TB_local_transfer lt') tr)) (set_b_child x' b)
    /\ micro (new_balance (ut_state (lt_sender lt'))) = (micro (decayed ct us) - micro (lt_amount lt))%Z
    /\ micro (new_balance (ut_state (lt_receiver lt'))) = (micro (decayed ct ur) + micro (lt_amount lt))%Z
    /\ prev_transfer_rec_num (ut_state (lt_sender lt')) = last_record_with_balance us
    /\ prev_transfer_rec_num (ut_state (lt_receiver lt')) = last_record_with_balance ur.
Proof.
  intros Hrep Hs Hr Hne Hb ct Hws Hwr Hwa Hsum.
  pose proof (GradidoValue_lt_micro _ _ Hws Hwa) as Hlt. unfold calc_transaction. rewrite Hb.
  destruct (decide _) as [Hd|Hd].
  - apply Hlt in Hd. unfold calc_local_transfer. cbv zeta. fold ct.
    now rewrite (user_at_run _ _ _ _ Hs), b_gets, Hr, Hd.
  - assert (GradidoValue_lt (decayed ct us) (lt_amount lt) = false) as Hd'.
    { apply not_true_is_false. now rewrite Hlt. }
    destruct (local_transfer_run tr lt us ur _ b Hs Hr Hne (law_rec_count _ _ Hrep) Hd') as (v & Hv & E).
    fold ct in Hv, E. eexists _, _. split; [exact E|]. cbn.
    pose proof (GradidoValue_sub_spec _ _ Hws Hwa) as Hsub. rewrite Hv in Hsub.
    destruct (GradidoValue_add_wrap _ _ Hwr Hwa) as [_ Hadd].
    pose proof (micro_range _ Hwr). pose proof (micro_range _ Hwa).
    rewrite Z.mod_small in Hadd by lia. intuition.
Qed.

(** A local transfer is recorded with the new balances, but the index the
    object keeps gets the decayed balances without the amount; the index
    built from the record has the balances of the record. *)
Theorem local_transfer_index_not_updated tr lt us ur b bs :
  rep (b_storage b) bs ->
  user_index (b_child b) !! ut_user (lt_sender lt) = Some us ->
  user_index (b_child b) !! ut_user (lt_receiver lt) = Some ur ->
  ut_user (lt_sender lt) <> ut_user (lt_receiver lt) -> body tr = TB_local_transfer lt ->
  let ct := consensusTimestamp (hedera_transaction tr) in
  GradidoValue_lt (decayed ct us) (lt_amount lt) = false ->
  exists tr' x' y v, calc_transaction tr b = Ret (true, tr') (set_b_child x' b)
    /\ current_balance <$> user_index x' !! ut_user (lt_sender lt) = Some (decayed ct us)
    /\ current_balance <$> user_index x' !! ut_user (lt_receiver lt) = Some (decayed ct ur)
    /\ index_record 0 (GR_transaction tr') (b_child b) = Some y
    /\ GradidoValue_sub (decayed ct us) (lt_amount lt) = Some v
    /\ current_balance <$> user_index y !! ut_user (lt_sender lt) = Some v
    /\ current_balance <$> user_index y !! ut_user (lt_receiver lt)
       = Some (GradidoValue_add (decayed ct ur) (lt_amount lt)).
Proof.
  intros Hrep Hs Hr Hne Hb ct Hlt.
  destruct (local_transfer_run tr lt us ur _ b Hs Hr Hne (law_rec_count _ _ Hrep) Hlt) as (v & Hv & E).
  unfold calc_transaction. rewrite Hb. eexists _, _, _, v. split; [exact E|].
  split; [cbn; rewrite lookup_insert_ne, lookup_insert_eq by done; reflexivity|].
  split; [cbn; rewrite lookup_insert_eq; reflexivity|].
  split; [|split; [exact Hv|]].
  - cbn. erewrite index_balance_known by exact Hs. cbn.
    erewrite index_balance_known by (cbn; rewrite lookup_insert_ne by done; exact Hr). reflexivity.
  - cbn. rewrite lookup_insert_ne, !lookup_insert_eq by done. done.
Qed.

(** C39: so a balance can be spent twice: with no decay in between, the same
    transfer is accepted again, and both records show the same remaining
    balance of the sender. *)
Theorem local_transfer_spends_twice tr lt us ur b bs :
  rep (b_storage b) bs ->
  user_index (b_child b) !! ut_user (lt_sender lt) = Some us ->
  user_index (b_child b) !! ut_user (lt_receiver lt) = Some ur ->
  ut_user (lt_sender lt) <> ut_user (lt_receiver lt) -> body tr = TB_local_transfer lt ->
  let ct := consensusTimestamp (hedera_transaction tr) in
  GradidoValue_lt (decayed ct us) (lt_amount lt) = false ->
  calc_deflation ct ct (decayed ct us) = decayed ct us ->
  exists v tr1 b1 tr2 b2, GradidoValue_sub (decayed ct us) (lt_amount lt) = Some v
    /\ calc_transaction tr b = Ret (true, tr1) b1 /\ calc_transaction tr b1 = Ret (true, tr2) b2
    /\ (forall t, t = tr1 \/ t = tr2 -> tr_result t = SUCCESS
          /\ exists lt', body t = TB_local_transfer lt' /\ lt_amount lt' = lt_amount lt
             /\ new_balance (ut_state (lt_sender lt')) = v).
Proof.
  intros Hrep Hs Hr Hne Hb ct Hlt Hsame. unfold calc_transaction. rewrite Hb.
  destruct (local_transfer_run tr lt us ur _ b Hs Hr Hne (law_rec_count _ _ Hrep) Hlt) as (v & Hv & E).
  fold ct in E, Hv. set (b1 := set_b_child _ b) in E.
  set (us1 := mkUserInfo (decayed ct us) (N.of_nat (rec_total bs)) ct).
  assert (decayed ct us1 = decayed ct us) as Hdec by exact Hsame.
  destruct (local_transfer_run tr lt us1 (mkUserInfo (decayed ct ur) (N.of_nat (rec_total bs)) ct)
    (N.of_nat (rec_total bs)) b1) as (v2 & Hv2 & E2).
  - cbn. now rewrite lookup_insert_ne, lookup_insert_eq by done.
  - cbn. apply lookup_insert_eq.
  - done.
  - exact (law_rec_count _ _ Hrep).
  - fold ct. now rewrite Hdec.
  - fold ct in Hv2. rewrite Hdec in Hv2. assert (v2 = v) as -> by congruence.
    exists v. do 4 eexists. split; [exact Hv|]. split; [exact E|]. split; [exact E2|].
    intros t [-> | ->]; (split; [done|]); eexists; (split; [reflexivity|done]).
Qed.

(** *** Users that move in *)

Definition is_waiting b group id : Prop :=
  waiting_for_paired (b_child b) = true /\ bg_other_group (b_child b) = group
  /\ bg_paired_transaction (b_child b) = id.

(** The state in which the pair is asked for. *)
Definition asking (group : bytes) (id : HederaTimestamp) b : B :=
  add_effect (ExecOncePairedTransactionDone group id) (set_b_child (set_waiting group id true (b_child b)) b).

Lemma move_in_waits tr mu group b rest :
  let id := paired_transaction_id (mu_paired mu) in
  waiting_for_paired (b_child b) = false -> body tr = TB_move_user_inbound mu ->
  user_index (b_child b) !! mu_user mu = None -> field_string (other_group (mu_paired mu)) = Some group ->
  get_group_blockchain group = None ->
  bg_other_group (b_child b) <> group \/ is_move_outbound id (bg_paired_tr (b_child b)) = false ->
  BlockchainGradido_calc_fields_and_update_indexes_for (GR_transaction tr :: rest) b
  = Ret (false, GR_transaction tr :: rest) (asking group id b).
Proof using Type.
  intros id. subst id. intros Hw Hb Hu Hg Hgb Hp. unfold BlockchainGradido_calc_fields_and_update_indexes_for. rewrite b_gets, Hw.
  unfold calc_transaction. rewrite Hb. unfold calc_move_user_inbound. cbv zeta. rewrite bind_assoc, b_gets, Hu, Hg.
  assert (bool_decide (bg_other_group (b_child b) = group) && is_move_outbound (paired_transaction_id (mu_paired mu)) (bg_paired_tr (b_child b)) = false) as ->
    by (destruct Hp as [Hp| ->]; [by rewrite bool_decide_eq_false_2|apply andb_false_r]).
  rewrite Hgb. reflexivity.
Qed.

(** C19: a user moves in, and whatever is delivered for the pair is not the move
    that was asked for: after any number of answers the ledger waits as
    before, has asked once more than it was answered, knows the user as
    little and has stored nothing; no other transaction is processed
    meanwhile. *)
Theorem unrecognised_pair_blocks_ledger tr mu group b rest ts recs :
  let id := paired_transaction_id (mu_paired mu) in
  let calc := BlockchainGradido_calc_fields_and_update_indexes_for in
  waiting_for_paired (b_child b) = false -> body tr = TB_move_user_inbound mu ->
  user_index (b_child b) !! mu_user mu = None -> field_string (other_group (mu_paired mu)) = Some group ->
  get_group_blockchain group = None -> is_move_outbound id (bg_paired_tr (b_child b)) = false ->
  Forall (fun t => is_move_outbound id t = false) ts ->
  exists b', bind (calc (GR_transaction tr :: rest)) (fun _ => for_each ts (fun t =>
        on_paired_transaction_done t ;;; let! _ := calc (GR_transaction tr :: rest) in ret tt)) b = Ret tt b'
    /\ is_waiting b' group id /\ calc recs b' = Ret (false, recs) b'
    /\ b_storage b' = b_storage b /\ user_index (b_child b') = user_index (b_child b)
    /\ b_effects b' = b_effects b ++ [ExecOncePairedTransactionDone group id]
         ++ concat (replicate (length ts) [PushContinueTransactions; ExecOncePairedTransactionDone group id]).
Proof using Type.
  intros id calc Hw Hb Hu Hg Hgb Hp Hts. unfold bind at 1, calc.
  rewrite (move_in_waits tr mu group b rest Hw Hb Hu Hg Hgb (or_intror Hp)).
  fold calc id. revert b Hw Hu Hp. induction Hts as [|t ts Ht _ IH]; intros b Hw Hu Hp.
  - exists (asking group id b). by rewrite app_nil_r.
  - set (b2 := add_effect PushContinueTransactions (set_b_child (set_paired_tr t (b_child (asking group id b))) (asking group id b))).
    assert (bind (on_paired_transaction_done t) (fun _ => let! _ := calc (GR_transaction tr :: rest) in ret tt) (asking group id b)
            = Ret tt (asking group id b2)) as E.
    { change (bind (calc (GR_transaction tr :: rest)) (fun _ => ret tt) b2 = Ret tt (asking group id b2)).
      unfold calc. by rewrite (bind_Ret _ _ _ _ _ (move_in_waits tr mu group b2 rest eq_refl Hb Hu Hg Hgb (or_intror Ht))). }
    cbn [for_each]. rewrite (bind_Ret _ _ _ _ _ E).
    destruct (IH b2 eq_refl Hu Ht) as (b' & -> & H1 & H2 & H3 & H4 & H5).
    exists b'. split_and!; try done. rewrite H5. cbn [length replicate concat b_effects b2 asking add_effect set_b_child].
    by rewrite <- !(assoc_L (++)).
Qed.

(** C20: a user moving in from a group whose blockchain is not there: the
    transaction is put off and the pair asked for once; until the pair is
    done no transaction at all is processed; then a successful pair makes
    the user known with the balance of the message, a failed one fails the
    transaction. *)
Theorem move_user_inbound_waits_for_pair tr mu group b bs t rest recs :
  rep (b_storage b) bs -> waiting_for_paired (b_child b) = false ->
  body tr = TB_move_user_inbound mu -> user_index (b_child b) !! mu_user mu = None ->
  field_string (other_group (mu_paired mu)) = Some group ->
  get_group_blockchain group = None ->
  is_move_outbound (paired_transaction_id (mu_paired mu)) (bg_paired_tr (b_child b)) = false ->
  is_move_outbound (paired_transaction_id (mu_paired mu)) t = true ->
  let calc := BlockchainGradido_calc_fields_and_update_indexes_for in
  exists b1 b2, calc (GR_transaction tr :: rest) b = Ret (false, GR_transaction tr :: rest) b1
    /\ is_waiting b1 group (paired_transaction_id (mu_paired mu))
    /\ b_effects b1 = b_effects b ++ [ExecOncePairedTransactionDone group (paired_transaction_id (mu_paired mu))]
    /\ calc recs b1 = Ret (false, recs) b1
    /\ on_paired_transaction_done t b1 = Ret tt b2
    /\ exists x', calc (GR_transaction tr :: rest) b2
         = Ret (true, GR_transaction (with_result (if bool_decide (tr_result t = SUCCESS) then SUCCESS
                                                    else OUTBOUND_TRANSACTION_FAILED) tr) :: rest)
             (set_b_child x' b2)
       /\ current_balance <$> user_index x' !! mu_user mu
          = if bool_decide (tr_result t = SUCCESS) then Some (new_balance (mu_state mu)) else None.
Proof.
  intros Hrep Hw Hb Hu Hg Hgb Hp Ht calc.
  set (b1 := add_effect (ExecOncePairedTransactionDone group (paired_transaction_id (mu_paired mu)))
    (set_b_child (set_waiting group (paired_transaction_id (mu_paired mu)) true (b_child b)) b)).
  eexists b1, _.
  pose proof (move_in_waits tr mu group b rest Hw Hb Hu Hg Hgb (or_intror Hp)) as E1. fold calc in E1.
  change (asking group _ b) with b1 in E1.
  split; [exact E1|]. split; [done|]. split; [done|]. split; [done|]. split; [reflexivity|].
  unfold calc, BlockchainGradido_calc_fields_and_update_indexes_for. rewrite b_gets.
  cbn [waiting_for_paired b_child add_effect set_b_child set_paired_tr].
  unfold calc_transaction. rewrite Hb. unfold calc_move_user_inbound. cbv zeta.
  rewrite bind_assoc, b_gets. cbn [user_index bg_other_group bg_paired_tr b_child add_effect set_b_child
    set_paired_tr b1 set_waiting]. rewrite Hu, Hg, bool_decide_eq_true_2, Ht by done. cbn [andb].
  destruct (bool_decide (tr_result t = SUCCESS)); cbn [negb].
  - rewrite bind_assoc. erewrite rc_run by exact (law_rec_count _ _ Hrep). eexists. split; [reflexivity|].
    cbn. unfold map_insert. rewrite Hu. now rewrite lookup_insert_eq.
  - eexists (set_paired_tr t (set_waiting group (paired_transaction_id (mu_paired mu)) true (b_child b))).
    split; [reflexivity|]. cbn. now rewrite Hu.
Qed.

(** *** Record numbers *)

(** One more line in a chain whose last block has room: the checksum moves
    by one. *)
Lemma one_more_line s s' bs bs' p :
  rep s bs -> rep s' bs' -> bs <> [] -> bc_log bs' = bc_log bs ++ [p] ->
  (rec_total bs mod BLOCK <> 0)%nat -> rec_total bs' = S (rec_total bs).
Proof.
  intros Hrep Hrep' Hne Hlog Hroom.
  assert (bs' <> []) as Hne' by (intros ->; now destruct (bc_log bs)).
  pose proof (log_length bs) as H1. pose proof (log_length bs') as H2.
  apply (f_equal length) in Hlog. rewrite length_app in Hlog. cbn in Hlog.
  destruct (chain_shape rep s bs Hrep Hne) as (bs0 & x & -> & Hsz & _ & _ & Ht).
  destruct (chain_shape rep s' bs' Hrep' Hne') as (bs0' & x' & -> & Hsz' & _ & _ & Ht').
  rewrite length_app in H1, H2. cbn [length] in H1, H2.
  assert (BLOCK = 1000)%nat as HB by (vm_compute; reflexivity). rewrite HB in *.
  assert (length x.1 <> 999)%nat as Hx.
  { intros E. rewrite Ht, E in Hroom. apply Hroom.
    replace (length bs0 * 1000 + 1000)%nat with ((length bs0 + 1) * 1000)%nat by lia. apply Nat.Div0.mod_mul. }
  assert (length bs0 = length bs0') by nia. lia.
Qed.

(** The record number kept for a user is one too high inside a block: it
    names the checksum that follows the user's record.  (The index built
    from the blocks has the number of the record itself.) *)
Theorem user_record_number_names_checksum tr user b bs :
  b_state b = READY -> b_inbound b = [] -> (0 < batch_size)%nat -> rep (b_storage b) bs ->
  waiting_for_paired (b_child b) = false -> body tr = TB_add_user user ->
  user_index (b_child b) !! user = None -> bs <> [] -> (rec_total bs mod BLOCK <> 0)%nat ->
  is_next KIND BlockchainGradido_latest bs (sequenceNumber (hedera_transaction tr)) = true ->
  exists b' bs' u c, add_transaction KIND batch_size (mkBatch [GR_transaction tr] false) b = Ret tt b'
    /\ rep (b_storage b') bs' /\ user_index (b_child b') !! user = Some u
    /\ all_records BLOCK bs' !! (N.to_nat (last_record_with_balance u) - 1)%nat
       = Some (payload_rec (GR_transaction (with_result SUCCESS tr)))
    /\ all_records BLOCK bs' !! N.to_nat (last_record_with_balance u) = Some (checksum_rec c).
Proof.
  intros Hst Hq Hbs Hrep Hw Hb Hu Hne Hroom Hn.
  set (x' := set_user_index (map_insert user (mkUserInfo GradidoValue_zero (N.of_nat (rec_total bs))
    (consensusTimestamp (hedera_transaction tr))) (user_index (b_child b))) (b_child b)).
  destruct (add_processed (mkMessage tr []) (with_result SUCCESS tr) x' b bs Hst Hq Hbs Hrep Hw Hn)
    as (s' & bs' & E & Hrep' & Hl).
  { intros c Hc Hrc. unfold calc_transaction. cbn [m_tr]. rewrite Hb. unfold calc_add_user.
    rewrite b_gets, Hc, Hu, (rc_run _ _ _ Hrc), child_run, Hc. reflexivity. }
  assert (bs' <> []) as Hne' by (intros ->; now destruct (bc_log bs)).
  pose proof (one_more_line _ _ _ _ _ Hrep Hrep' Hne Hl Hroom) as Htot.
  destruct (last_checksum rep s' bs' Hrep' Hne') as (bs0 & z & _ & _ & Hc).
  destruct (last_payload rep s' bs' Hrep' Hne') as (p & Hp & Hr & _).
  unfold stored in Hl. cbn [m_parts] in Hl. rewrite Hl, last_snoc in Hp. injection Hp as <-. rewrite Htot in Hc, Hr.
  eexists _, bs', _, z.2. split; [exact E|]. split; [done|]. cbn. unfold map_insert. rewrite Hu.
  split; [apply lookup_insert_eq|]. cbn [last_record_with_balance]. rewrite Nat2N.id.
  split; [rewrite <- Hr; f_equal; lia|rewrite <- Hc; f_equal; lia].
Qed.

(** *** Pairs *)

Definition outbound_record (ot : OutboundTransfer) (us : UserInfo) (v : GradidoValue) : OutboundTransfer :=
  mkOutboundTransfer (ot_amount ot) (ot_paired ot)
    (with_user_state v (last_record_with_balance us) (ot_sender ot)) (ot_receiver ot).
Definition outbound_index (ct : HederaTimestamp) (ot : OutboundTransfer) (us : UserInfo) (rc : N)
    (x : BlockchainGradido) : BlockchainGradido :=
  set_user_index (<[ut_user (ot_sender ot) := mkUserInfo (decayed ct us) rc ct]> (user_index x))
    (set_outbound (map_insert (paired_transaction_id (ot_paired ot)) (u64_sub rc 1) (outbound_transactions x)) x).

Lemma outbound_transfer_run tr ot us rc v b :
  user_index (b_child b) !! ut_user (ot_sender ot) = Some us -> counts b rc ->
  let ct := consensusTimestamp (hedera_transaction tr) in
  GradidoValue_lt (decayed ct us) (ot_amount ot) = false ->
  GradidoValue_sub (decayed ct us) (ot_amount ot) = Some v ->
  calc_outbound_transfer tr ot b
  = Ret (true, with_result SUCCESS (with_body (TB_outbound_transfer (outbound_record ot us v)) tr))
      (set_b_child (outbound_index ct ot us rc (b_child b)) b).
Proof using.
  intros Hs Hrc ct Hlt Hv. unfold calc_outbound_transfer. cbv zeta. fold ct.
  rewrite (rc_run _ _ _ Hrc), child_run. erewrite user_at_run by exact Hs. rewrite Hlt.
  erewrite update_user_run by exact Hs. unfold subtract. rewrite Hv. unfold ret at 1. unfold bind at 1.
  erewrite rc_run by exact Hrc. erewrite update_user_run by apply lookup_insert_eq.
  unfold ret, outbound_index. cbn. now rewrite insert_insert_eq.
Qed.

(** C18: inside a block, an outbound transfer that was accepted is found by the
    receiving group: its pair id leads to the position where the record was
    stored, and the transaction read there is the stored one. *)
Theorem outbound_transfer_found_by_pair tr ot us b bs :
  b_state b = READY -> b_inbound b = [] -> (0 < batch_size)%nat -> rep (b_storage b) bs ->
  waiting_for_paired (b_child b) = false -> body tr = TB_outbound_transfer ot ->
  user_index (b_child b) !! ut_user (ot_sender ot) = Some us ->
  outbound_transactions (b_child b) !! paired_transaction_id (ot_paired ot) = None ->
  GradidoValue_lt (decayed (consensusTimestamp (hedera_transaction tr)) us) (ot_amount ot) = false ->
  bs <> [] -> (rec_total bs mod BLOCK <> 0)%nat ->
  is_next KIND BlockchainGradido_latest bs (sequenceNumber (hedera_transaction tr)) = true ->
  exists b' n t s', add_transaction KIND batch_size (mkBatch [GR_transaction tr] false) b = Ret tt b'
    /\ get_paired_transaction (paired_transaction_id (ot_paired ot)) b' = Ret (Some n) b'
    /\ get_transaction n b' = Ret (Some t) (set_b_storage s' b')
    /\ tr_result t = SUCCESS /\ hedera_transaction t = hedera_transaction tr.
Proof.
  intros Hst Hq Hbs Hrep Hw Hb Hu Hfresh Hlt Hne Hroom Hn.
  destruct (last_payload rep _ bs Hrep Hne) as (_ & _ & _ & H2).
  destruct (GradidoValue_sub_some _ _ Hlt) as [v Hv].
  destruct (add_processed (mkMessage tr [])
    (with_result SUCCESS (with_body (TB_outbound_transfer (outbound_record ot us v)) tr))
    (outbound_index (consensusTimestamp (hedera_transaction tr)) ot us (N.of_nat (rec_total bs)) (b_child b))
    b bs Hst Hq Hbs Hrep Hw Hn) as (s1 & bs' & E & Hrep' & Hl).
  { intros c Hc Hrc. unfold calc_transaction. cbn [m_tr]. rewrite Hb. rewrite <- Hc in Hu |- *.
    exact (outbound_transfer_run tr ot us _ v c Hu Hrc Hlt Hv). }
  assert (bs' <> []) as Hne' by (intros ->; now destruct (bc_log bs)).
  pose proof (one_more_line _ _ _ _ _ Hrep Hrep' Hne Hl Hroom) as Htot.
  destruct (last_payload rep s1 bs' Hrep' Hne') as (p & Hp & Hr & _).
  unfold stored in Hl. cbn [m_parts] in Hl. rewrite Hl, last_snoc in Hp. injection Hp as <-. rewrite Htot in Hr.
  destruct (law_get_record _ _ (rec_total bs - 1) Hrep' ltac:(lia)) as (r & s2 & Er & Hr' & _).
  replace (S (rec_total bs) - 2)%nat with (rec_total bs - 1)%nat in Hr by lia.
  pose proof (eq_trans (eq_sym Hr') Hr) as Heq. injection Heq as ->.
  eexists _, (N.of_nat (rec_total bs - 1)),
    (with_result SUCCESS (with_body (TB_outbound_transfer (outbound_record ot us v)) tr)), s2.
  split; [exact E|]. split.
  { unfold get_paired_transaction, gets. cbn. unfold map_insert. rewrite Hfresh, lookup_insert_eq. unfold u64_sub.
    destruct (N.ltb_spec (N.of_nat (rec_total bs)) 1); [lia|]. do 2 f_equal. lia. }
  split; [|split; [|reflexivity]].
  - unfold get_transaction, get_transaction_record. rewrite bind_assoc.
    erewrite rc_run by exact (law_rec_count _ _ Hrep').
    destruct (N.leb_spec (N.of_nat (rec_total bs')) (N.of_nat (rec_total bs - 1))); [lia|].
    rewrite bind_assoc. erewrite stor_bind by exact Er. reflexivity.
  - reflexivity.
Qed.

(** *** Users *)

(** [get_users] lists exactly the known users, each once, in the order of
    their keys. *)
Theorem get_users_sorted_dom b :
  exists l, get_users b = Ret l b
    /\ (forall u, u ∈ l <-> is_Some (user_index (b_child b) !! u)) /\ NoDup l /\ Sorted bytes_le l.
Proof using. eexists. split; [reflexivity|]. apply sorted_keys_spec. Qed.

End behaviour.

End ledger.

(** ** A ledger over the block store, for the witnesses *)

#[local] Existing Instances demo_sort demo_bad demo_names exact_mpfr.
Abbreviation LSt := (Blockchain GradidoRecord).
Definition demo_record_bytes (r : GradidoRecord) : bytes := [GradidoRecordType_code (record_type r)].
Definition demo_ledger_storage : Storage GradidoRecord LSt :=
  Blockchain_Storage demo_record_bytes demo_sha 100 100.
#[local] Existing Instance demo_ledger_storage.
Definition demo_ledger_laws : StorageLaws (St := LSt) Blockchain_rep :=
  Blockchain_laws demo_record_bytes demo_sha 100 100.
#[local] Existing Instance demo_ledger_laws.
Definition no_groups (g : bytes) : option IBlockchain := None.

Definition demo_user (c : Z) : bytes := replicate PUB_KEY_LENGTH c.
Definition demo_tr (n : N) (bd : TransactionBody) : Transaction :=
  mkTransaction 1 1 HederaTimestamp_zero (mkHederaTransaction HederaTimestamp_zero [] n 0)
    Signature_zero 1 bd UNKNOWN [].
Definition demo_transfer_user (c : Z) : UserTransfer := mkUserTransfer (demo_user c) UserState_zero.
Definition ten : GradidoValue := mkGradidoValue 10 0.

(** Two users; the first one has ten gradidos. *)
Definition demo_info (v : GradidoValue) : UserInfo := mkUserInfo v 0 HederaTimestamp_zero.
Definition demo_index : BlockchainGradido :=
  set_user_index (<[demo_user 1 := demo_info ten]> (<[demo_user 2 := demo_info GradidoValue_zero]> ∅))
    BlockchainGradido_new.

Definition demo_ledger (x : BlockchainGradido) (s : LSt) : Base GradidoRecord LSt BlockchainGradido :=
  mkBase READY s "" [] 0 false 0 0 0 [] x [].

Definition demo_ledger_block : list GradidoRecord * bytes :=
  ([GR_transaction (demo_tr 5 (TB_other 0)); GR_memo [65%Z]], [1%Z]).
Definition demo_ledger_chain : LSt := one_block_chain BLOCK demo_ledger_block.

Lemma demo_ledger_rep : Blockchain_rep demo_ledger_chain [demo_ledger_block].
Proof. eexists. apply one_block_rep; vm_compute; lia. Qed.
Lemma demo_ledger_empty_rep : Blockchain_rep (empty_chain (T := GradidoRecord)) [].
Proof. eexists. apply empty_chain_rep. Qed.

Definition demo_lt : LocalTransfer := mkLocalTransfer ten (demo_transfer_user 1) (demo_transfer_user 2).
Definition demo_lt_tr : Transaction := demo_tr 6 (TB_local_transfer demo_lt).
Definition demo_b : Base GradidoRecord LSt BlockchainGradido := demo_ledger demo_index demo_ledger_chain.
Definition demo_creation : GradidoCreation := mkGradidoCreation (demo_transfer_user 1) ten.

Lemma latest_transaction_id_correct_witness :
  exists s', BlockchainGradido_get_latest_transaction_id demo_b = Ret (Some 5%N) (set_b_storage s' demo_b)
    /\ Blockchain_rep s' [demo_ledger_block].
Proof. exact (latest_transaction_id_correct Blockchain_rep demo_b [demo_ledger_block] demo_ledger_rep). Defined.

(** A user is added and gets ten gradidos; the second message has a memo
    part. *)
Definition demo_messages : list Message :=
  [mkMessage (demo_tr 1 (TB_add_user (demo_user 1))) [];
   mkMessage (demo_tr 2 (TB_gradido_creation demo_creation)) [GR_memo [65%Z]]].

Lemma restart_keeps_ledger_witness :
  exists b' bs' b2,
    for_each demo_messages (fun m => add_transaction (CH := BlockchainGradido_Child no_groups)
        (Deprecated false) 10 (message_batch m)) (demo_ledger BlockchainGradido_new empty_chain) = Ret tt b'
    /\ b_state b' = READY /\ Blockchain_rep (b_storage b') bs'
    /\ (exists trs, Forall2 (fun tr m => hedera_transaction tr = hedera_transaction (m_tr m)) trs demo_messages
         /\ bc_log bs' = concat (zip_with stored trs demo_messages))
    /\ rebuild b' = Ret true b2 /\ same_ledger (b_child b2) (b_child b').
Proof.
  exact (restart_keeps_ledger no_groups Blockchain_rep false 10 demo_messages
    (demo_ledger BlockchainGradido_new empty_chain) [] eq_refl eq_refl ltac:(lia) demo_ledger_empty_rep eq_refl
    (ex_intro _ BlockchainGradido_new (conj eq_refl (conj eq_refl eq_refl)))
    ltac:(repeat constructor) ltac:(repeat split) eq_refl).
Defined.

Lemma failed_transaction_changes_nothing_witness :
  user_index (b_child demo_b) = user_index (b_child demo_b)
  /\ friend_group_index (b_child demo_b) = friend_group_index (b_child demo_b).
Proof.
  exact (failed_transaction_changes_nothing no_groups Blockchain_rep (demo_tr 6 (TB_add_user (demo_user 1)))
    demo_b [demo_ledger_block] (with_result USER_ALREADY_EXISTS (demo_tr 6 (TB_add_user (demo_user 1)))) demo_b
    demo_ledger_rep eq_refl ltac:(discriminate)).
Defined.

Lemma local_transfer_conserves_witness :
  exists lt' x', calc_transaction no_groups demo_lt_tr demo_b
      = Ret (true, with_result SUCCESS (with_body (TB_local_transfer lt') demo_lt_tr)) (set_b_child x' demo_b)
    /\ micro (new_balance (ut_state (lt_sender lt'))) = 0%Z
    /\ micro (new_balance (ut_state (lt_receiver lt'))) = 10000000%Z
    /\ prev_transfer_rec_num (ut_state (lt_sender lt')) = 0%N
    /\ prev_transfer_rec_num (ut_state (lt_receiver lt')) = 0%N.
Proof.
  exact (local_transfer_conserves no_groups Blockchain_rep demo_lt_tr demo_lt (demo_info ten)
    (demo_info GradidoValue_zero) demo_b [demo_ledger_block] demo_ledger_rep eq_refl eq_refl
    ltac:(discriminate) eq_refl ltac:(vm_compute; repeat split; discriminate || reflexivity)
    ltac:(vm_compute; repeat split; discriminate || reflexivity)
    ltac:(vm_compute; repeat split; discriminate || reflexivity) eq_refl).
Defined.

Lemma local_transfer_index_not_updated_witness :
  exists tr' x' y v, calc_transaction no_groups demo_lt_tr demo_b = Ret (true, tr') (set_b_child x' demo_b)
    /\ current_balance <$> user_index x' !! demo_user 1 = Some ten
    /\ current_balance <$> user_index x' !! demo_user 2 = Some GradidoValue_zero
    /\ index_record 0 (GR_transaction tr') demo_index = Some y
    /\ GradidoValue_sub ten ten = Some v
    /\ current_balance <$> user_index y !! demo_user 1 = Some v
    /\ current_balance <$> user_index y !! demo_user 2 = Some ten.
Proof.
  exact (local_transfer_index_not_updated no_groups Blockchain_rep demo_lt_tr demo_lt (demo_info ten)
    (demo_info GradidoValue_zero) demo_b [demo_ledger_block] demo_ledger_rep eq_refl eq_refl
    ltac:(discriminate) eq_refl eq_refl).
Defined.

Lemma local_transfer_spends_twice_witness :
  exists v tr1 b1 tr2 b2, GradidoValue_sub ten ten = Some v
    /\ calc_transaction no_groups demo_lt_tr demo_b = Ret (true, tr1) b1
    /\ calc_transaction no_groups demo_lt_tr b1 = Ret (true, tr2) b2
    /\ (forall t, t = tr1 \/ t = tr2 -> tr_result t = SUCCESS
          /\ exists lt', body t = TB_local_transfer lt' /\ lt_amount lt' = ten
             /\ new_balance (ut_state (lt_sender lt')) = v).
Proof.
  exact (local_transfer_spends_twice no_groups Blockchain_rep demo_lt_tr demo_lt (demo_info ten)
    (demo_info GradidoValue_zero) demo_b [demo_ledger_block] demo_ledger_rep eq_refl eq_refl
    ltac:(discriminate) eq_refl eq_refl eq_refl).
Defined.

Definition demo_pair : PairedTransaction := mkPairedTransaction (mkHederaTimestamp 7 0) [66%Z; 0%Z].
Definition demo_move : MoveUser := mkMoveUser (demo_user 3) demo_pair (mkUserState ten 0).

Lemma move_user_inbound_waits_for_pair_witness :
  let calc := BlockchainGradido_calc_fields_and_update_indexes_for no_groups in
  let tr := demo_tr 6 (TB_move_user_inbound demo_move) in
  let t := with_result SUCCESS (demo_tr 9 (TB_move_user_outbound demo_move)) in
  exists b1 b2, calc [GR_transaction tr] demo_b = Ret (false, [GR_transaction tr]) b1
    /\ is_waiting b1 [66%Z] (mkHederaTimestamp 7 0)
    /\ b_effects b1 = [ExecOncePairedTransactionDone [66%Z] (mkHederaTimestamp 7 0)]
    /\ calc [GR_transaction demo_lt_tr] b1 = Ret (false, [GR_transaction demo_lt_tr]) b1
    /\ on_paired_transaction_done t b1 = Ret tt b2
    /\ exists x', calc [GR_transaction tr] b2 = Ret (true, [GR_transaction (with_result SUCCESS tr)]) (set_b_child x' b2)
       /\ current_balance <$> user_index x' !! demo_user 3 = Some ten.
Proof.
  exact (move_user_inbound_waits_for_pair no_groups Blockchain_rep
    (demo_tr 6 (TB_move_user_inbound demo_move)) demo_move [66%Z] demo_b [demo_ledger_block]
    (with_result SUCCESS (demo_tr 9 (TB_move_user_outbound demo_move))) [] [GR_transaction demo_lt_tr]
    demo_ledger_rep eq_refl eq_refl eq_refl eq_refl eq_refl eq_refl eq_refl).
Defined.

(** Two answers that are other moves. *)
Definition demo_other_move : Transaction :=
  demo_tr 9 (TB_move_user_outbound (mkMoveUser (demo_user 3) (mkPairedTransaction (mkHederaTimestamp 0 0) [66%Z; 0%Z]) (mkUserState ten 0))).
Lemma unrecognised_pair_blocks_ledger_witness :
  let calc := BlockchainGradido_calc_fields_and_update_indexes_for no_groups in
  let tr := demo_tr 6 (TB_move_user_inbound demo_move) in
  let ask := ExecOncePairedTransactionDone [66%Z] (mkHederaTimestamp 7 0) in
  exists b', bind (calc [GR_transaction tr]) (fun _ => for_each [demo_other_move; demo_other_move] (fun t =>
        on_paired_transaction_done t ;;; let! _ := calc [GR_transaction tr] in ret tt)) demo_b = Ret tt b'
    /\ is_waiting b' [66%Z] (mkHederaTimestamp 7 0)
    /\ calc [GR_transaction demo_lt_tr] b' = Ret (false, [GR_transaction demo_lt_tr]) b'
    /\ b_effects b' = [ask; PushContinueTransactions; ask; PushContinueTransactions; ask].
Proof.
  destruct (unrecognised_pair_blocks_ledger no_groups (demo_tr 6 (TB_move_user_inbound demo_move)) demo_move [66%Z] demo_b []
    [demo_other_move; demo_other_move] [GR_transaction demo_lt_tr] eq_refl eq_refl eq_refl eq_refl eq_refl eq_refl
    ltac:(repeat constructor)) as (b' & H1 & H2 & H3 & _ & _ & H6).
  exists b'. split; [exact H1|]. split; [exact H2|]. split; [exact H3|exact H6].
Defined.

Lemma user_record_number_names_checksum_witness :
  exists b' bs' u c, add_transaction (CH := BlockchainGradido_Child no_groups) (Deprecated false) 10
      (mkBatch [GR_transaction (demo_tr 6 (TB_add_user (demo_user 3)))] false) demo_b = Ret tt b'
    /\ Blockchain_rep (b_storage b') bs' /\ user_index (b_child b') !! demo_user 3 = Some u
    /\ all_records BLOCK bs' !! (N.to_nat (last_record_with_balance u) - 1)%nat
       = Some (payload_rec (GR_transaction (with_result SUCCESS (demo_tr 6 (TB_add_user (demo_user 3))))))
    /\ all_records BLOCK bs' !! N.to_nat (last_record_with_balance u) = Some (checksum_rec c).
Proof.
  exact (user_record_number_names_checksum no_groups Blockchain_rep false 10
    (demo_tr 6 (TB_add_user (demo_user 3))) (demo_user 3) demo_b [demo_ledger_block] eq_refl eq_refl ltac:(lia)
    demo_ledger_rep eq_refl eq_refl eq_refl ltac:(discriminate) ltac:(vm_compute; discriminate) eq_refl).
Defined.

Definition demo_ot : OutboundTransfer := mkOutboundTransfer ten demo_pair (demo_transfer_user 1) (demo_user 9).

Lemma outbound_transfer_found_by_pair_witness :
  exists b' n t s', add_transaction (CH := BlockchainGradido_Child no_groups) (Deprecated false) 10
      (mkBatch [GR_transaction (demo_tr 6 (TB_outbound_transfer demo_ot))] false) demo_b = Ret tt b'
    /\ get_paired_transaction (mkHederaTimestamp 7 0) b' = Ret (Some n) b'
    /\ get_transaction n b' = Ret (Some t) (set_b_storage s' b')
    /\ tr_result t = SUCCESS /\ hedera_transaction t = hedera_transaction (demo_tr 6 (TB_outbound_transfer demo_ot)).
Proof.
  exact (outbound_transfer_found_by_pair no_groups Blockchain_rep false 10
    (demo_tr 6 (TB_outbound_transfer demo_ot)) demo_ot (demo_info ten) demo_b [demo_ledger_block]
    eq_refl eq_refl ltac:(lia) demo_ledger_rep eq_refl eq_refl eq_refl eq_refl eq_refl
    ltac:(discriminate) ltac:(vm_compute; discriminate) eq_refl).
Defined.
