(* ===== verification/WorkerPool.v ===== *)
(** * The worker pool (worker_pool.h, worker_pool.cpp)

    Threads take tasks from a queue guarded by one mutex and a condition
    variable.  The pool is a step relation: a step is what a thread does
    between taking and releasing the mutex (or the run of a task, outside of
    it), and steps of different threads interleave freely.  A waiting thread
    may also wake up without a signal, as POSIX allows. *)

From stdpp Require Import base gmap list relations numbers.
From Stdlib Require Import ZArith Lia.
From S2P Require Import Prelude.
Set Default Proof Using "Type".

(** A pointer to a task; [None] is the null pointer. *)
Abbreviation Task := (option nat).

(** A worker thread: about to take the mutex at the top of its loop;
    waiting on the condition, not signalled or signalled; running a task;
    out of its loop. *)
Inductive Worker := Entering | Asleep | Signalled | Running (t : Task) | Exited.
Definition is_asleep (w : Worker) : bool := match w with Asleep => true | _ => false end.
Definition is_signalled (w : Worker) : bool := match w with Signalled => true | _ => false end.
Definition is_exited (w : Worker) : bool := match w with Exited => true | _ => false end.
#[export] Instance Worker_eq_dec : EqDecision Worker.
Proof. solve_decision. Defined.

(** The fields, and what is observed, in order: the tasks put into the
    queue, those handed in after shutdown, those taken from the queue by a
    thread, those deleted, and the number of calls of [gf->exit]. *)
Record WorkerPool := mkWorkerPool
  { wp_queue : list Task;
    wp_workers : list Worker;
    wp_shutdown : bool;
    wp_busy_workers : N;
    wp_accepted : list Task;
    wp_rejected : list Task;
    wp_started : list Task;
    wp_deleted : list Task;
    wp_exits : nat }.

Definition WorkerPool_new : WorkerPool := mkWorkerPool [] [] false 0 [] [] [] [] 0.

Definition set_worker (i : nat) (w : Worker) (p : WorkerPool) : WorkerPool :=
  mkWorkerPool (wp_queue p) (<[i := w]> (wp_workers p)) (wp_shutdown p) (wp_busy_workers p)
    (wp_accepted p) (wp_rejected p) (wp_started p) (wp_deleted p) (wp_exits p).
Definition set_busy (n : N) (p : WorkerPool) : WorkerPool :=
  mkWorkerPool (wp_queue p) (wp_workers p) (wp_shutdown p) n
    (wp_accepted p) (wp_rejected p) (wp_started p) (wp_deleted p) (wp_exits p).
Definition delete_tasks (l : list Task) (p : WorkerPool) : WorkerPool :=
  mkWorkerPool (wp_queue p) (wp_workers p) (wp_shutdown p) (wp_busy_workers p)
    (wp_accepted p) (wp_rejected p) (wp_started p) (wp_deleted p ++ l) (wp_exits p).

(** ** The thread ([run_entry]) *)

(** With the mutex held: the loop around the wait, the test for shutdown,
    and taking a task. *)
Definition take_or_wait (i : nat) (p : WorkerPool) : WorkerPool :=
  if wp_shutdown p then set_worker i Exited p
  else
    match wp_queue p with
    | [] => set_worker i Asleep p
    | t :: q =>
        mkWorkerPool q (<[i := Running t]> (wp_workers p)) (wp_shutdown p) (wp_busy_workers p + 1)
          (wp_accepted p) (wp_rejected p) (wp_started p ++ [t]) (wp_deleted p) (wp_exits p)
    end.

Definition worker_enter (i : nat) (p : WorkerPool) : option WorkerPool :=
  match wp_workers p !! i with
  | Some Entering => Some (take_or_wait i (set_busy (u64_sub (wp_busy_workers p) 1) p))
  | _ => None
  end.

Definition worker_wake (i : nat) (p : WorkerPool) : option WorkerPool :=
  match wp_workers p !! i with
  | Some Asleep | Some Signalled => Some (take_or_wait i p)
  | _ => None
  end.

(** The end of a task, which returned or threw; the null task throws. *)
Definition worker_done (i : nat) (threw : bool) (p : WorkerPool) : option WorkerPool :=
  match wp_workers p !! i with
  | Some (Running t) =>
      let p := if threw || bool_decide (t = None)
               then mkWorkerPool (wp_queue p) (wp_workers p) (wp_shutdown p) (wp_busy_workers p)
                      (wp_accepted p) (wp_rejected p) (wp_started p) (wp_deleted p) (S (wp_exits p))
               else p in
      Some (set_worker i Entering (delete_tasks [t] p))
  | _ => None
  end.

(** ** Calls from other threads *)

Definition init (worker_count : nat) (p : WorkerPool) : WorkerPool :=
  mkWorkerPool (wp_queue p) (wp_workers p ++ replicate worker_count Entering) (wp_shutdown p)
    (N.of_nat worker_count) (wp_accepted p) (wp_rejected p) (wp_started p) (wp_deleted p) (wp_exits p).

(** [pthread_cond_signal]: [woken] is the thread the system chooses among
    those that wait; no thread when none waits. *)
Definition signal (woken : option nat) (p : WorkerPool) : option WorkerPool :=
  match woken with
  | Some i =>
      match wp_workers p !! i with
      | Some Asleep => Some (set_worker i Signalled p)
      | _ => None
      end
  | None => if existsb is_asleep (wp_workers p) then None else Some p
  end.

Definition broadcast (p : WorkerPool) : WorkerPool :=
  mkWorkerPool (wp_queue p) (map (fun w => if is_asleep w then Signalled else w) (wp_workers p))
    (wp_shutdown p) (wp_busy_workers p) (wp_accepted p) (wp_rejected p) (wp_started p) (wp_deleted p) (wp_exits p).

Definition enqueue (t : Task) (p : WorkerPool) : WorkerPool :=
  mkWorkerPool (wp_queue p ++ [t]) (wp_workers p) (wp_shutdown p) (wp_busy_workers p)
    (wp_accepted p ++ [t]) (wp_rejected p) (wp_started p) (wp_deleted p) (wp_exits p).

(** A task handed in after shutdown is deleted at once. *)
Definition reject (t : Task) (p : WorkerPool) : WorkerPool :=
  mkWorkerPool (wp_queue p) (wp_workers p) (wp_shutdown p) (wp_busy_workers p)
    (wp_accepted p) (wp_rejected p ++ [t]) (wp_started p) (wp_deleted p ++ [t]) (wp_exits p).

Definition push (t : Task) (woken : option nat) (p : WorkerPool) : option WorkerPool :=
  if negb (wp_shutdown p) then signal woken (enqueue t p) else Some (reject t p).

(** [task2] is the [SyncedTask] made for [task]; the wait for it is
    [Synced] below.  The flag tells whether the caller waits. *)
Definition push_and_join (task task2 : Task) (woken : option nat) (p : WorkerPool)
    : option (WorkerPool * bool) :=
  if negb (wp_shutdown p) then (fun p' => (p', true)) <$> signal woken (enqueue task2 p)
  else Some (reject task p, false).

Definition init_shutdown (p : WorkerPool) : WorkerPool :=
  broadcast (mkWorkerPool (wp_queue p) (wp_workers p) true (wp_busy_workers p)
    (wp_accepted p) (wp_rejected p) (wp_started p) (wp_deleted p) (wp_exits p)).

Definition all_exited (p : WorkerPool) : bool := forallb is_exited (wp_workers p).

(** [join] returns when all threads have ended. *)
Definition join (p : WorkerPool) : option WorkerPool :=
  if all_exited p
  then Some (mkWorkerPool (wp_queue p) [] (wp_shutdown p) (wp_busy_workers p)
               (wp_accepted p) (wp_rejected p) (wp_started p) (wp_deleted p) (wp_exits p))
  else None.

(** The end of the destructor, after [init_shutdown]'s steps and [join]. *)
Definition destroy (p : WorkerPool) : WorkerPool :=
  mkWorkerPool [] (wp_workers p) (wp_shutdown p) (wp_busy_workers p)
    (wp_accepted p) (wp_rejected p) (wp_started p) (wp_deleted p ++ wp_queue p) (wp_exits p).

Definition get_worker_count (p : WorkerPool) : nat := length (wp_workers p).
Definition get_task_queue_size (p : WorkerPool) : nat := length (wp_queue p).
Definition get_busy_worker_count (p : WorkerPool) : N := wp_busy_workers p.

(** ** Runs *)

(** What a pool's own threads do. *)
Inductive worker_step : WorkerPool -> WorkerPool -> Prop :=
| step_enter i p p' : worker_enter i p = Some p' -> worker_step p p'
| step_wake i p p' : worker_wake i p = Some p' -> worker_step p p'
| step_done i threw p p' : worker_done i threw p = Some p' -> worker_step p p'.

Inductive wp_step : WorkerPool -> WorkerPool -> Prop :=
| step_worker p p' : worker_step p p' -> wp_step p p'
| step_push t woken p p' : push t woken p = Some p' -> wp_step p p'
| step_push_and_join t t2 woken p p' b : push_and_join t t2 woken p = Some (p', b) -> wp_step p p'
| step_shutdown p : wp_step p (init_shutdown p)
| step_join p p' : join p = Some p' -> wp_step p p'.

(** Runs of a pool that was initialised with [n] threads. *)
Definition wp_reachable (n : nat) (p : WorkerPool) : Prop := rtc wp_step (init n WorkerPool_new) p.

(** A thread counts as busy while it runs a task and until it has found out
    that there is none. *)
Definition is_busy (w : Worker) : bool :=
  match w with Entering | Running _ => true | _ => false end.
Definition count (f : Worker -> bool) (l : list Worker) : nat := length (List.filter f l).

Definition running (w : Worker) : list Task := match w with Running t => [t] | _ => [] end.
Definition in_progress (l : list Worker) : list Task := flat_map running l.

Record pool_ok (p : WorkerPool) : Prop := {
  pk_fifo : wp_accepted p = wp_started p ++ wp_queue p;
  pk_owned : wp_deleted p ++ in_progress (wp_workers p) ≡ₚ wp_started p ++ wp_rejected p;
  pk_busy : wp_busy_workers p = N.of_nat (count is_busy (wp_workers p));
  pk_awake : wp_shutdown p = false -> (0 < count is_asleep (wp_workers p))%nat ->
    (length (wp_queue p) <= count is_signalled (wp_workers p))%nat;
  pk_bye : wp_shutdown p = true -> count is_asleep (wp_workers p) = 0%nat;
  pk_alive : wp_shutdown p = false -> count is_exited (wp_workers p) = 0%nat;
}.

Definition one (b : bool) : nat := if b then 1 else 0.

(** Replacing one worker. *)
Lemma count_insert f l i (w w' : Worker) :
  l !! i = Some w -> (count f (<[i := w']> l) + one (f w) = count f l + one (f w'))%nat.
Proof.
  revert i. induction l as [|x l IH]; intros [|i] H; try discriminate.
  - injection H as ->. unfold count, one. cbn. destruct (f w), (f w'); cbn; lia.
  - specialize (IH i H). change (<[S i := w']> (x :: l)) with (x :: <[i := w']> l).
    unfold count in *. cbn [List.filter]. destruct (f x); cbn [length]; lia.
Qed.

Lemma in_progress_insert l i (w w' : Worker) :
  l !! i = Some w -> in_progress (<[i := w']> l) ++ running w ≡ₚ in_progress l ++ running w'.
Proof.
  revert i. induction l as [|x l IH]; intros [|i] H; try discriminate.
  - injection H as ->. change (<[0%nat := w']> (w :: l)) with (w' :: l). cbn [in_progress flat_map].
    rewrite (Permutation_app_comm (running w') _), (Permutation_app_comm (running w) _), <- !(assoc_L (++)).
    apply Permutation_app_head, Permutation_app_comm.
  - specialize (IH i H). change (<[S i := w']> (x :: l)) with (x :: <[i := w']> l). cbn.
    rewrite <- !(assoc_L (++)). now apply Permutation_app_head.
Qed.

Lemma count_pos f l (w : Worker) i : l !! i = Some w -> f w = true -> (0 < count f l)%nat.
Proof.
  intros H Hf. pose proof (count_insert f l i w w H). unfold count. destruct (List.filter f l) eqn:E; [|cbn; lia].
  assert (In w (List.filter f l)) as Hin.
  { apply filter_In. split; [|done]. apply list_elem_of_In. now apply (list_elem_of_lookup_2 _ i). }
  now rewrite E in Hin.
Qed.

Lemma count_zero f l : count f l = 0%nat <-> forall w, w ∈ l -> f w = false.
Proof.
  unfold count. induction l as [|x l IH]; cbn; [now split; [intros _ w Hw; inversion Hw|]|].
  destruct (f x) eqn:E; cbn; split.
  - done.
  - intros H. specialize (H x (list_elem_of_here _ _)). congruence.
  - intros H w Hw. apply elem_of_cons in Hw as [->|Hw]; [done|]. now apply IH.
  - intros H. apply IH. intros w Hw. apply H. now apply list_elem_of_further.
Qed.

(** What a worker counts for in each of the counters of [pool_ok]. *)
Ltac counters Hw w' :=
  let Hb := fresh "Cbusy" in let Ha := fresh "Casleep" in
  let Hs := fresh "Csignalled" in let He := fresh "Cexited" in let Hp := fresh "Cprogress" in
  pose proof (count_insert is_busy _ _ _ w' Hw) as Hb;
  pose proof (count_insert is_asleep _ _ _ w' Hw) as Ha;
  pose proof (count_insert is_signalled _ _ _ w' Hw) as Hs;
  pose proof (count_insert is_exited _ _ _ w' Hw) as He;
  pose proof (in_progress_insert _ _ _ w' Hw) as Hp;
  cbn -[count] in Hb, Ha, Hs, He, Hp; rewrite ?app_nil_r in Hp.

(** The three outcomes of a thread that holds the mutex, is not running a
    task and is not counted as busy any more. *)
Lemma take_or_wait_ok i p w :
  wp_workers p !! i = Some w -> running w = [] -> is_exited w = false ->
  pool_ok (set_busy (wp_busy_workers p + N.of_nat (one (is_busy w))) p) ->
  pool_ok (take_or_wait i p).
Proof.
  intros Hw Hr Hx [Hf Ho Hb Ha Hbye Hal]. cbn -[count in_progress] in *. unfold take_or_wait.
  destruct (wp_shutdown p) eqn:Es.
  - counters Hw Exited. rewrite Hr, app_nil_r in Cprogress.
    split; cbn -[count in_progress]; rewrite ?Es, ?Cprogress; try done; try lia; intros; try congruence; specialize (Hbye eq_refl); lia.
  - destruct (wp_queue p) as [|t q] eqn:Eq.
    + counters Hw Asleep. rewrite Hr, app_nil_r in Cprogress. rewrite Hx in Cexited. cbn in Cexited.
      split; cbn -[count in_progress]; rewrite ?Es, ?Eq, ?Cprogress; try done; try lia. cbn. lia.
    + counters Hw (Running t). rewrite Hr, app_nil_r in Cprogress. rewrite Hx in Cexited. cbn in Cexited.
      split; cbn -[count in_progress]; try done; try lia.
      * now rewrite Hf, <- (assoc_L (++)).
      * rewrite Cprogress, (assoc_L (++)), Ho, <- !(assoc_L (++)). apply Permutation_app_head, Permutation_app_comm.
      * intros _ Hlt. cbn in Ha. unfold one in *. destruct (is_asleep w), (is_signalled w) eqn:E2; try lia.
Qed.

Lemma set_busy_same p : set_busy (wp_busy_workers p) p = p.
Proof. now destruct p. Qed.

Lemma set_busy_twice n m p : set_busy n (set_busy m p) = set_busy n p.
Proof. done. Qed.

Lemma enter_ok i p p' : pool_ok p -> worker_enter i p = Some p' -> pool_ok p'.
Proof.
  unfold worker_enter. intros Hp H. destruct (wp_workers p !! i) as [[]|] eqn:Hw; try discriminate.
  injection H as <-. apply (take_or_wait_ok _ _ Entering); try done.
  assert (0 < count is_busy (wp_workers p))%nat as Hpos by (now apply (count_pos _ _ Entering i)).
  rewrite set_busy_twice. cbn [wp_busy_workers set_busy one is_busy].
  replace (u64_sub (wp_busy_workers p) 1 + N.of_nat 1)%N with (wp_busy_workers p); [now rewrite set_busy_same|].
  unfold u64_sub. rewrite (pk_busy _ Hp). destruct (N.ltb_spec (N.of_nat (count is_busy (wp_workers p))) 1); lia.
Qed.

Lemma wake_ok i p p' : pool_ok p -> worker_wake i p = Some p' -> pool_ok p'.
Proof.
  unfold worker_wake. intros Hp H.
  destruct (wp_workers p !! i) as [[]|] eqn:Hw; try discriminate; injection H as <-;
    (eapply take_or_wait_ok; [exact Hw|done|done|]); cbn [one is_busy N.of_nat];
    now rewrite N.add_0_r, set_busy_same.
Qed.

Lemma done_ok i threw p p' : pool_ok p -> worker_done i threw p = Some p' -> pool_ok p'.
Proof.
  unfold worker_done. intros [Hf Ho Hb Ha Hbye Hal] H.
  destruct (wp_workers p !! i) as [[| | |t|]|] eqn:Hw; try discriminate. injection H as <-.
  counters Hw Entering.
  split; destruct (threw || bool_decide (t = None)); cbn -[count in_progress]; try done; try lia.
  1,2: now rewrite <- Ho, <- Cprogress, <- (assoc_L (++)), (Permutation_app_comm [t]).
  all: intros Hd; try specialize (Ha Hd); try specialize (Hbye Hd); try specialize (Hal Hd); lia.
Qed.

Lemma signal_ok t woken p p' :
  pool_ok p -> wp_shutdown p = false -> signal woken (enqueue t p) = Some p' -> pool_ok p'.
Proof.
  intros [Hf Ho Hb Ha Hbye Hal] Es H. unfold signal in H. cbn [wp_workers enqueue] in H. destruct woken as [i|].
  - destruct (wp_workers p !! i) as [[]|] eqn:Hw; try discriminate. injection H as <-. counters Hw Signalled.
    assert (0 < count is_asleep (wp_workers p))%nat as Hpos by (now apply (count_pos _ _ Asleep i)).
    specialize (Ha Es Hpos). specialize (Hal Es).
    split; cbn -[count in_progress]; rewrite ?length_app; cbn [length]; try lia; try congruence.
    + now rewrite Hf, <- (assoc_L (++)).
    + now rewrite Cprogress.
  - destruct (existsb _ (wp_workers p)) eqn:Hex; [discriminate|]. injection H as <-.
    assert (count is_asleep (wp_workers p) = 0%nat) as Hz.
    { apply count_zero. intros w Hw. apply not_true_iff_false. intros Hs. apply not_true_iff_false in Hex.
      apply Hex, existsb_exists. exists w. split; [now apply list_elem_of_In|done]. }
    split; cbn -[count in_progress]; try done; try lia; [now rewrite Hf, <- (assoc_L (++))].
Qed.

Lemma reject_ok t p : pool_ok p -> pool_ok (reject t p).
Proof.
  intros [Hf Ho Hb Ha Hbye Hal]. split; cbn -[count in_progress]; try done.
  now rewrite <- (assoc_L (++)), (Permutation_app_comm [t]), !(assoc_L (++)), Ho.
Qed.

Lemma push_ok t woken p p' : pool_ok p -> push t woken p = Some p' -> pool_ok p'.
Proof.
  unfold push. intros Hp H. destruct (wp_shutdown p) eqn:Es; cbn [negb] in H.
  - injection H as <-. now apply reject_ok.
  - now apply signal_ok in H.
Qed.

Lemma push_and_join_ok t t2 woken p p' b :
  pool_ok p -> push_and_join t t2 woken p = Some (p', b) -> pool_ok p'.
Proof.
  unfold push_and_join. intros Hp H. destruct (wp_shutdown p) eqn:Es; cbn [negb] in H.
  - injection H as <- _. now apply reject_ok.
  - destruct (signal _ _) eqn:E; [|discriminate]. injection H as <- _. now apply signal_ok in E.
Qed.

Lemma broadcast_workers l :
  count is_asleep (map (fun w => if is_asleep w then Signalled else w) l) = 0%nat
  /\ count is_busy (map (fun w => if is_asleep w then Signalled else w) l) = count is_busy l
  /\ in_progress (map (fun w => if is_asleep w then Signalled else w) l) = in_progress l.
Proof.
  induction l as [|w l (IH1 & IH2 & IH3)]; [done|]. unfold count, in_progress in *.
  destruct w; (split_and!; [exact IH1|cbn; congruence|cbn; congruence]).
Qed.

Lemma shutdown_ok p : pool_ok p -> pool_ok (init_shutdown p).
Proof.
  intros [Hf Ho Hb _ _ _]. destruct (broadcast_workers (wp_workers p)) as (H1 & H2 & H3).
  split; cbn -[count in_progress]; rewrite ?H2, ?H3; done.
Qed.

Lemma all_exited_spec p : all_exited p = true -> forall w, w ∈ wp_workers p -> w = Exited.
Proof.
  intros E w Hw. unfold all_exited in E. rewrite forallb_forall in E. apply list_elem_of_In in Hw.
  specialize (E _ Hw). now destruct w.
Qed.

Lemma all_exited_idle l :
  (forall w, w ∈ l -> w = Exited) -> count is_busy l = 0%nat /\ in_progress l = [].
Proof.
  intros H. split.
  - apply count_zero. intros w Hw. now rewrite (H w Hw).
  - induction l as [|w l IH]; [done|]. change (in_progress (w :: l)) with (running w ++ in_progress l). rewrite IH; [|intros x Hx; apply H; now apply list_elem_of_further].
    now rewrite (H w (list_elem_of_here _ _)).
Qed.

Lemma join_ok p p' : pool_ok p -> join p = Some p' -> pool_ok p'.
Proof.
  unfold join. intros [Hf Ho Hb Ha Hbye Hal] H. destruct (all_exited p) eqn:E; [|discriminate]. injection H as <-.
  destruct (all_exited_idle _ (all_exited_spec _ E)) as [H1 H2].
  rewrite H1 in Hb. rewrite H2 in Ho. split; cbn -[count]; try done. cbn. lia.
Qed.

Lemma step_ok p p' : pool_ok p -> wp_step p p' -> pool_ok p'.
Proof.
  intros Hp H. destruct H as [p p' [i q q' H|i q q' H|i threw q q' H]| | | |]; eauto using
    enter_ok, wake_ok, done_ok, push_ok, push_and_join_ok, shutdown_ok, join_ok.
Qed.

Lemma wp_init_ok n : pool_ok (init n WorkerPool_new).
Proof.
  assert (forall f, (f Entering = false -> count f (replicate n Entering) = 0%nat)
    /\ (f Entering = true -> count f (replicate n Entering) = n)) as Hc.
  { intros f. unfold count. split; intros Hf; induction n as [|n IH]; cbn; rewrite ?Hf; cbn; congruence. }
  assert (in_progress (replicate n Entering) = []) as Hp by (clear Hc; induction n as [|n IH]; [done|exact IH]).
  split; cbn -[count in_progress]; intros; rewrite ?Hp; try done.
  - f_equal. symmetry. now apply Hc.
  - lia.
  - now apply Hc.
Qed.

Lemma reachable_ok n p : wp_reachable n p -> pool_ok p.
Proof.
  intros H. unfold wp_reachable in H. remember (init n WorkerPool_new) as q eqn:E.
  assert (pool_ok q) as Hq by (rewrite E; apply wp_init_ok). clear E. induction H; eauto using step_ok.
Qed.

(** C32: tasks are started in the order in which they were accepted, each of
    them once and none of them lost: what was accepted is what was started
    followed by what is still queued; and [get_busy_worker_count] is the
    number of threads that run a task or have not yet found the queue empty
    (the unsigned counter never wraps). *)
Theorem tasks_start_in_order n p :
  wp_reachable n p ->
  wp_accepted p = wp_started p ++ wp_queue p
  /\ get_task_queue_size p = (length (wp_accepted p) - length (wp_started p))%nat
  /\ get_busy_worker_count p = N.of_nat (count is_busy (wp_workers p)).
Proof.
  intros H. destruct (reachable_ok _ _ H) as [Hf _ Hb _ _ _]. split_and!; [done| |done].
  unfold get_task_queue_size. rewrite Hf, length_app. lia.
Qed.

(** C33: no wake-up is lost: while the pool is not shut down, a task can only
    wait in the queue when every thread is awake, or when at least as many
    threads have been signalled as tasks are queued. *)
Theorem no_lost_wakeup n p :
  wp_reachable n p -> wp_shutdown p = false ->
  Forall (fun w => w <> Asleep /\ w <> Exited) (wp_workers p)
  \/ (length (wp_queue p) <= count is_signalled (wp_workers p))%nat.
Proof.
  intros H Es. destruct (reachable_ok _ _ H) as [_ _ _ Ha _ Hal].
  destruct (count is_asleep (wp_workers p)) eqn:E; [left|right; apply Ha; [done|lia]].
  apply Forall_forall. intros w Hw. apply list_elem_of_In in Hw. rewrite count_zero in E. specialize (Hal Es). rewrite count_zero in Hal.
  specialize (E w Hw). specialize (Hal w Hw). now destruct w.
Qed.

(** Every task is deleted exactly once: when the threads have ended and
    the destructor has run, the deleted tasks are those accepted and those
    handed in after shutdown, each as often as it was handed in. *)
Theorem destroy_deletes_each_task_once n p :
  wp_reachable n p -> all_exited p = true ->
  wp_deleted (destroy p) ≡ₚ wp_accepted p ++ wp_rejected p /\ wp_queue (destroy p) = [].
Proof.
  intros H E. destruct (reachable_ok _ _ H) as [Hf Ho _ _ _ _].
  destruct (all_exited_idle _ (all_exited_spec _ E)) as [_ H2]. rewrite H2, app_nil_r in Ho.
  split; [|done]. cbn. rewrite Ho, Hf, <- !(assoc_L (++)). apply Permutation_app_head, Permutation_app_comm.
Qed.

(** ** Shutdown *)

Lemma shutdown_step p p' :
  wp_shutdown p = true -> wp_step p p' ->
  wp_shutdown p' = true /\ wp_started p' = wp_started p /\ wp_queue p' = wp_queue p.
Proof.
  intros Es H. destruct H as [p p' [i q q' H|i q q' H|i threw q q' H]|t woken p p' H|t t2 woken p p' b H|p|p p' H].
  - unfold worker_enter in H. destruct (wp_workers q !! i) as [[]|]; try discriminate. injection H as <-.
    unfold take_or_wait. cbn. now rewrite Es.
  - unfold worker_wake in H. destruct (wp_workers q !! i) as [[]|]; try discriminate; injection H as <-;
      unfold take_or_wait; cbn; now rewrite Es.
  - unfold worker_done in H. destruct (wp_workers q !! i) as [[| | |t|]|]; try discriminate. injection H as <-.
    now destruct (threw || bool_decide (t = None)).
  - unfold push in H. rewrite Es in H. cbn in H. now injection H as <-.
  - unfold push_and_join in H. rewrite Es in H. cbn in H. now injection H as <- _.
  - done.
  - unfold join in H. destruct (all_exited p); [|discriminate]. now injection H as <-.
Qed.

(** After shutdown no task is started and no task leaves the queue, so a
    task that was queued before and not taken never runs; the caller of a
    [push_and_join] that queued it waits for a run that does not come. *)
Theorem nothing_starts_after_shutdown p p' :
  wp_shutdown p = true -> rtc wp_step p p' ->
  wp_shutdown p' = true /\ wp_started p' = wp_started p /\ wp_queue p' = wp_queue p.
Proof.
  intros Es H. induction H as [|p q p' H _ IH]; [done|]. destruct (shutdown_step _ _ Es H) as (H1 & H2 & H3).
  destruct (IH H1) as (? & ? & ?). split_and!; congruence.
Qed.

(** How many steps a thread is away from its end after shutdown. *)
Definition steps_left (w : Worker) : nat :=
  match w with Running _ => 2 | Entering | Signalled | Asleep => 1 | Exited => 0 end.
Fixpoint steps_left_of (l : list Worker) : nat :=
  match l with [] => 0 | w :: l => steps_left w + steps_left_of l end.
Definition remaining (p : WorkerPool) : nat := steps_left_of (wp_workers p).

Lemma remaining_insert l i (w w' : Worker) :
  l !! i = Some w ->
  (steps_left_of (<[i := w']> l) + steps_left w = steps_left_of l + steps_left w')%nat.
Proof.
  revert i. induction l as [|x l IH]; intros [|i] H; try discriminate.
  - injection H as ->. cbn. lia.
  - specialize (IH i H). change (<[S i := w']> (x :: l)) with (x :: <[i := w']> l).
    cbn [steps_left_of]. lia.
Qed.

Lemma remaining_bound p : (remaining p <= 2 * get_worker_count p)%nat.
Proof.
  unfold remaining, get_worker_count. induction (wp_workers p) as [|w l IH]; [done|].
  cbn [steps_left_of length]. destruct w; cbn [steps_left]; lia.
Qed.

Lemma worker_step_remaining p p' :
  wp_shutdown p = true -> worker_step p p' -> (remaining p' < remaining p)%nat.
Proof.
  intros Es H. unfold remaining. destruct H as [i p p' H|i p p' H|i threw p p' H].
  - unfold worker_enter in H. destruct (wp_workers p !! i) as [[]|] eqn:Hw; try discriminate. injection H as <-.
    unfold take_or_wait. cbn. rewrite Es. cbn. pose proof (remaining_insert _ _ _ Exited Hw) as Hr. cbn in Hr. lia.
  - unfold worker_wake in H. destruct (wp_workers p !! i) as [[]|] eqn:Hw; try discriminate; injection H as <-;
      unfold take_or_wait; rewrite Es; pose proof (remaining_insert _ _ _ Exited Hw) as Hr; cbn in *; lia.
  - unfold worker_done in H. destruct (wp_workers p !! i) as [[| | |t|]|] eqn:Hw; try discriminate. injection H as <-.
    pose proof (remaining_insert _ _ _ Entering Hw) as Hr. destruct (threw || bool_decide (t = None)); cbn in *; lia.
Qed.

Lemma worker_can_step p : all_exited p = false -> exists p', worker_step p p'.
Proof.
  intros E. apply not_true_iff_false in E. unfold all_exited in E. rewrite forallb_forall in E.
  destruct (decide (Forall (fun w => is_exited w = true) (wp_workers p))) as [H|H].
  { exfalso. apply E. intros w Hw. rewrite Forall_forall in H. now apply H. }
  apply not_Forall_Exists in H; [|apply _]. apply Exists_exists in H as (w & Hw & Hx).
  apply list_elem_of_In in Hw. apply list_elem_of_lookup in Hw as [i Hi]. destruct w as [| | |t|].
  - eexists. apply (step_enter i). unfold worker_enter. now rewrite Hi.
  - eexists. apply (step_wake i). unfold worker_wake. now rewrite Hi.
  - eexists. apply (step_wake i). unfold worker_wake. now rewrite Hi.
  - eexists. apply (step_done i false). unfold worker_done. now rewrite Hi.
  - exfalso. now apply Hx.
Qed.

(** C34: after [init_shutdown] the threads end and [join] returns, provided the
    running tasks return: each step of a thread brings the pool nearer to its
    end, which is at most two steps per thread away, no thread is left
    asleep without a signal, some thread can make a step until all have
    ended, and then [join] returns. *)
Theorem shutdown_terminates n p :
  wp_reachable n p -> wp_shutdown p = true ->
  (remaining p <= 2 * get_worker_count p)%nat
  /\ Forall (fun w => w <> Asleep) (wp_workers p)
  /\ (forall p', worker_step p p' -> (remaining p' < remaining p)%nat)
  /\ ((exists p', worker_step p p') \/ is_Some (join p)).
Proof.
  intros H Es. split_and!.
  - apply remaining_bound.
  - pose proof (pk_bye _ (reachable_ok _ _ H) Es) as E. rewrite count_zero in E. apply Forall_forall.
    intros w Hw ->. apply list_elem_of_In in Hw. now specialize (E _ Hw).
  - intros p'. now apply worker_step_remaining.
  - unfold join. destruct (all_exited p) eqn:E; [right; eauto|left; now apply worker_can_step].
Qed.

(** ** The handshake of [push_and_join] ([SyncedTask])

    Two threads share the task: the worker that runs it and deletes it when
    [run] has returned, and the caller that waits for it. *)
Module Synced.

(** The worker inside [run]: running the wrapped task, in the wait, or out
    of [run], by returning or by an exception of the wrapped task. *)
Inductive Runner := RunTask | RunWaiting | RunSignalled | RunReturned | RunThrew.
(** The caller inside [join]. *)
Inductive Joiner := JoinEnter | JoinWaiting | JoinSignalled | JoinReturned.

Record SyncedTask := mkSyncedTask { finished_status : bool; runner : Runner; joiner : Joiner }.

Definition SyncedTask_new : SyncedTask := mkSyncedTask false RunTask JoinEnter.

Definition signal_joiner (j : Joiner) : Joiner :=
  match j with JoinWaiting => JoinSignalled | _ => j end.
Definition signal_runner (r : Runner) : Runner :=
  match r with RunWaiting => RunSignalled | _ => r end.

(** The end of [task->run()], and what [run] does with the mutex held until
    it waits. *)
Definition run_finish (threw : bool) (s : SyncedTask) : option SyncedTask :=
  match runner s with
  | RunTask =>
      if threw then Some (mkSyncedTask (finished_status s) RunThrew (joiner s))
      else Some (mkSyncedTask true RunWaiting (signal_joiner (joiner s)))
  | _ => None
  end.

(** A wake-up in the loop of [run]; [spurious] when there was no signal. *)
Definition run_wake (spurious : bool) (s : SyncedTask) : option SyncedTask :=
  match runner s, spurious with
  | RunWaiting, true | RunSignalled, false =>
      Some (mkSyncedTask (finished_status s) (if finished_status s then RunWaiting else RunReturned) (joiner s))
  | _, _ => None
  end.

(** The loop of [join], entered or woken up in. *)
Definition join_loop (s : SyncedTask) : SyncedTask :=
  if finished_status s then mkSyncedTask false (signal_runner (runner s)) JoinReturned
  else mkSyncedTask false (runner s) JoinWaiting.

Definition join_enter (s : SyncedTask) : option SyncedTask :=
  match joiner s with JoinEnter => Some (join_loop s) | _ => None end.
Definition join_wake (spurious : bool) (s : SyncedTask) : option SyncedTask :=
  match joiner s, spurious with
  | JoinWaiting, true | JoinSignalled, false => Some (join_loop s)
  | _, _ => None
  end.

(** Steps that do not depend on a wake-up without a signal, and all steps. *)
Inductive progress : SyncedTask -> SyncedTask -> Prop :=
| st_run_finish threw s s' : run_finish threw s = Some s' -> progress s s'
| st_run_wake s s' : run_wake false s = Some s' -> progress s s'
| st_join_enter s s' : join_enter s = Some s' -> progress s s'
| st_join_wake s s' : join_wake false s = Some s' -> progress s s'.
Inductive step : SyncedTask -> SyncedTask -> Prop :=
| st_progress s s' : progress s s' -> step s s'
| st_run_spurious s s' : run_wake true s = Some s' -> step s s'
| st_join_spurious s s' : join_wake true s = Some s' -> step s s'.

Definition reachable (s : SyncedTask) : Prop := rtc step SyncedTask_new s.

(** The states of a handshake. *)
Definition synced_ok (s : SyncedTask) : bool :=
  match runner s, joiner s, finished_status s with
  | (RunTask | RunThrew), (JoinEnter | JoinWaiting), false => true
  | RunWaiting, (JoinEnter | JoinSignalled), true => true
  | (RunSignalled | RunReturned), JoinReturned, false => true
  | _, _, _ => false
  end.

Definition steps_to_end (s : SyncedTask) : nat :=
  (match runner s with RunTask => 3 | RunWaiting => 2 | RunSignalled => 1 | _ => 0 end
   + match joiner s with JoinEnter => 3 | JoinWaiting => 2 | JoinSignalled => 1 | JoinReturned => 0 end)%nat.

(** Case analysis over the finitely many states. *)
Ltac cases s :=
  destruct s as [f r j]; destruct f, r, j; cbn in *; try discriminate; simplify_eq; try done; try lia.

Lemma progress_ok s s' :
  synced_ok s = true -> progress s s' -> synced_ok s' = true /\ (steps_to_end s' < steps_to_end s)%nat.
Proof.
  intros Hs H. destruct H as [[] s s' H|s s' H|s s' H|s s' H]; cases s; split; try done; cbn; lia.
Qed.

Lemma spurious_stays s s' :
  synced_ok s = true -> run_wake true s = Some s' \/ join_wake true s = Some s' -> s' = s.
Proof. intros Hs [H|H]; cases s. Qed.

Lemma reachable_synced_ok s : reachable s -> synced_ok s = true.
Proof.
  unfold reachable. intros H. remember SyncedTask_new as s0 eqn:E.
  assert (synced_ok s0 = true) as H0 by now rewrite E. clear E.
  induction H as [|s s1 s' H _ IH]; [done|]. apply IH. destruct H as [s s1 H|s s1 H|s s1 H].
  - now apply progress_ok in H.
  - now rewrite (spurious_stays s s1) by eauto.
  - now rewrite (spurious_stays s s1) by eauto.
Qed.

(** The handshake of a synced task: the caller's [join] returns only after
    the wrapped task has run; the worker's [run] returns (and the object is
    deleted) only after [join] is done with it; each step that is not a
    spurious wake-up leads towards the end, which is at most six steps away,
    spurious wake-ups change nothing, and until both have returned some such
    step is possible, unless the wrapped task threw. *)
Theorem synced_handshake s :
  reachable s ->
  (joiner s = JoinReturned -> runner s = RunSignalled \/ runner s = RunReturned)
  /\ (runner s = RunReturned -> joiner s = JoinReturned)
  /\ (steps_to_end s <= 6)%nat
  /\ (forall s', progress s s' -> (steps_to_end s' < steps_to_end s)%nat)
  /\ (forall s', step s s' -> progress s s' \/ s' = s)
  /\ ((exists s', progress s s') \/ runner s = RunThrew
      \/ (runner s = RunReturned /\ joiner s = JoinReturned)).
Proof.
  intros H. apply reachable_synced_ok in H. split_and!.
  - cases s; auto.
  - cases s.
  - cases s.
  - intros s' Hp. now apply (progress_ok s s').
  - intros s' Hp. inversion Hp; subst; [now left|right..]; apply spurious_stays; auto.
  - cases s; auto; left; eexists;
      first [now apply (st_run_finish false)|now apply st_run_wake|now apply st_join_enter|now apply st_join_wake].
Qed.

(** When the wrapped task throws, the caller's [join] never returns: the
    worker leaves [run] without setting [finished_status] and deletes the
    object the caller waits on. *)
Theorem throwing_task_never_joined s s' :
  reachable s -> runner s = RunThrew -> rtc step s s' -> joiner s' <> JoinReturned /\ runner s' = RunThrew.
Proof.
  intros H Hr Hs. apply reachable_synced_ok in H.
  assert (synced_ok s' = true /\ runner s' = RunThrew) as [Ho Ht].
  { induction Hs as [|s s1 s' Hst _ IH]; [done|]. apply IH.
    - destruct Hst as [s s1 Hp|s s1 Hp|s s1 Hp]; [now apply progress_ok in Hp|..];
        now rewrite (spurious_stays s s1) by eauto.
    - destruct Hst as [s s1 Hp|s s1 Hp|s s1 Hp]; [|rewrite (spurious_stays s s1) by eauto; done..].
      destruct Hp as [[] s s1 Hp|s s1 Hp|s s1 Hp|s s1 Hp]; cases s. }
  split; [|done]. cases s'.
Qed.

End Synced.

(** ** Concrete runs *)

(** A schedule, executed. *)
Inductive Action :=
  AEnter (i : nat) | AWake (i : nat) | ADone (i : nat) (threw : bool)
| APush (t : Task) (woken : option nat) | AShutdown.

Definition act (a : Action) (p : WorkerPool) : option WorkerPool :=
  match a with
  | AEnter i => worker_enter i p
  | AWake i => worker_wake i p
  | ADone i threw => worker_done i threw p
  | APush t woken => push t woken p
  | AShutdown => Some (init_shutdown p)
  end.

Fixpoint run_schedule (l : list Action) (p : WorkerPool) : option WorkerPool :=
  match l with
  | [] => Some p
  | a :: l => p' ← act a p; run_schedule l p'
  end.

Lemma run_schedule_steps l p p' : run_schedule l p = Some p' -> rtc wp_step p p'.
Proof.
  revert p. induction l as [|a l IH]; intros p H; cbn in H; [injection H as ->; apply rtc_refl|].
  apply bind_Some in H as (q & Ha & H). apply (rtc_l _ _ q); [|now apply IH].
  destruct a; cbn in Ha; simplify_eq; eauto using wp_step, worker_step.
Qed.

(** Two threads find the queue empty and sleep; two tasks come in, the
    second while the first thread works; shutdown. *)
Definition busy_day : list Action :=
  [AEnter 0; AEnter 1; APush (Some 7) (Some 1); AWake 1; APush (Some 8) (Some 0); APush (Some 9) None].
Definition evening : list Action :=
  [AShutdown; AWake 0; ADone 1 false; AEnter 1; APush (Some 10) None].

Definition after (l : list Action) : WorkerPool := default WorkerPool_new (run_schedule l (init 2 WorkerPool_new)).

Lemma busy_day_reachable : wp_reachable 2 (after busy_day).
Proof. apply (run_schedule_steps busy_day). vm_compute. reflexivity. Qed.
Lemma evening_reachable : wp_reachable 2 (after (busy_day ++ evening)).
Proof. apply (run_schedule_steps (busy_day ++ evening)). vm_compute. reflexivity. Qed.

Lemma tasks_start_in_order_witness :
  wp_accepted (after busy_day) = [Some 7; Some 8; Some 9]
  /\ wp_accepted (after busy_day) = wp_started (after busy_day) ++ wp_queue (after busy_day)
  /\ get_busy_worker_count (after busy_day) = 1%N.
Proof.
  destruct (tasks_start_in_order 2 (after busy_day) busy_day_reachable) as (H & _ & Hb).
  split_and!; [reflexivity|exact H|rewrite Hb; reflexivity].
Defined.

Lemma no_lost_wakeup_witness :
  wp_shutdown (after busy_day) = false
  /\ (Forall (fun w => w <> Asleep /\ w <> Exited) (wp_workers (after busy_day))
      \/ (length (wp_queue (after busy_day)) <= count is_signalled (wp_workers (after busy_day)))%nat).
Proof. split; [reflexivity|]. apply (no_lost_wakeup 2); [apply busy_day_reachable|reflexivity]. Defined.

Lemma destroy_deletes_each_task_once_witness :
  all_exited (after (busy_day ++ evening)) = true
  /\ wp_deleted (destroy (after (busy_day ++ evening))) = [Some 7; Some 10; Some 8; Some 9]
  /\ wp_deleted (destroy (after (busy_day ++ evening))) ≡ₚ [Some 7; Some 8; Some 9; Some 10].
Proof.
  split_and!; [reflexivity|reflexivity|].
  destruct (destroy_deletes_each_task_once 2 (after (busy_day ++ evening)) evening_reachable eq_refl) as [H _].
  exact H.
Defined.

Lemma nothing_starts_after_shutdown_witness :
  wp_started (after (busy_day ++ evening)) = [Some 7]
  /\ wp_queue (after (busy_day ++ evening)) = wp_queue (after (busy_day ++ [AShutdown])).
Proof.
  destruct (nothing_starts_after_shutdown (after (busy_day ++ [AShutdown])) (after (busy_day ++ evening)))
    as (_ & H1 & H2); [reflexivity| |].
  - apply (run_schedule_steps (tail evening)). vm_compute. reflexivity.
  - rewrite H1, H2. split; reflexivity.
Defined.

Lemma shutdown_terminates_witness :
  remaining (after (busy_day ++ evening)) = 0%nat
  /\ Forall (fun w => w <> Asleep) (wp_workers (after (busy_day ++ evening)))
  /\ ((exists p', worker_step (after (busy_day ++ evening)) p') \/ is_Some (join (after (busy_day ++ evening)))).
Proof.
  destruct (shutdown_terminates 2 (after (busy_day ++ evening)) evening_reachable eq_refl) as (_ & H1 & _ & H2).
  split_and!; [reflexivity|exact H1|exact H2].
Defined.

Module SyncedRuns.
Import Synced.

(** The caller waits, the task ends, the caller wakes up and signals back. *)
Definition joined : SyncedTask :=
  default SyncedTask_new (s1 ← join_enter SyncedTask_new; s2 ← run_finish false s1; join_wake false s2).
Definition thrown : SyncedTask :=
  default SyncedTask_new (s1 ← join_enter SyncedTask_new; run_finish true s1).

Lemma joined_reachable : reachable joined.
Proof.
  eapply rtc_l; [apply st_progress, st_join_enter; reflexivity|].
  eapply rtc_l; [apply st_progress, (st_run_finish false); reflexivity|].
  eapply rtc_l; [apply st_progress, st_join_wake; reflexivity|]. apply rtc_refl.
Qed.
Lemma thrown_reachable : reachable thrown.
Proof.
  eapply rtc_l; [apply st_progress, st_join_enter; reflexivity|].
  eapply rtc_l; [apply st_progress, (st_run_finish true); reflexivity|]. apply rtc_refl.
Qed.

Lemma synced_handshake_witness :
  joiner joined = JoinReturned /\ (runner joined = RunSignalled \/ runner joined = RunReturned).
Proof.
  split; [reflexivity|]. destruct (synced_handshake joined joined_reachable) as (H & _). apply H. reflexivity.
Defined.

Lemma throwing_task_never_joined_witness :
  runner thrown = RunThrew /\ joiner thrown = JoinWaiting /\ joiner thrown <> JoinReturned.
Proof.
  split_and!; [reflexivity|reflexivity|].
  apply (throwing_task_never_joined thrown thrown); [apply thrown_reachable|reflexivity|apply rtc_refl].
Defined.

End SyncedRuns.
