(* ===== verification/CoreUtils.v ===== *)
(** * The core utilities (gradido_core_utils.cpp)

    Conversion to and from hexadecimal, the text of log lines, and the
    difference of two clock readings.  A byte of a string is its unsigned
    value; integer expressions are wrapped at the width the language gives
    them. *)

From stdpp Require Import base list numbers.
From Stdlib Require Import ZArith Lia.
From S2P Require Import Prelude.
Set Default Proof Using "Type".
Local Open Scope Z_scope.

Definition is_byte (b : Z) : Prop := 0 <= b < 256.

(** ** Log lines *)

Definition to_hex_4_bit (c : Z) : Z :=
  let c := Z.land c 15 in
  if c <? 10 then c + 48 else c + 87.

Definition LOG_SANITIZE_BUFF_LEN : Z := 1024.

(** The local variables of [sanitize_for_log]: [buff], of which [sl_bp]
    characters are in use, and [res]. *)
Record sanitize_locals := mk_sanitize_locals { sl_buff : bytes; sl_bp : Z; sl_res : bytes }.

(** [buff[bp++] = c]; [None] when the place is outside of [buff]. *)
Definition put_char (c : Z) (l : sanitize_locals) : option sanitize_locals :=
  if sl_bp l <? LOG_SANITIZE_BUFF_LEN
  then Some (mk_sanitize_locals (<[Z.to_nat (sl_bp l) := c]> (sl_buff l)) (sl_bp l + 1) (sl_res l))
  else None.

(** [buff[bp] = 0; bp = 0; res += std::string(buff);] *)
Definition flush_buff (l : sanitize_locals) : option sanitize_locals :=
  if sl_bp l <? LOG_SANITIZE_BUFF_LEN
  then let buff := <[Z.to_nat (sl_bp l) := 0]> (sl_buff l) in
       Some (mk_sanitize_locals buff 0 (sl_res l ++ cstr buff))
  else None.

Definition sanitize_char (c : Z) (l : sanitize_locals) : option sanitize_locals :=
  l ← (if (c =? 10) || (c =? 9) then put_char 32 l
       else if (c <? 32) || (127 <=? c) then
         l ← put_char 47 l;
         l ← put_char (to_hex_4_bit (Z.shiftr c 4)) l;
         put_char (to_hex_4_bit c) l
       else put_char c l);
  if sl_bp l =? LOG_SANITIZE_BUFF_LEN - 1 then flush_buff l else Some l.

Fixpoint sanitize_chars (s : bytes) (l : sanitize_locals) : option sanitize_locals :=
  match s with
  | [] => Some l
  | c :: s => l ← sanitize_char c l; sanitize_chars s l
  end.

(** [buff] starts with the bytes the stack holds.  [None]: a write outside
    of [buff]. *)
Definition sanitize_for_log (buff : bytes) (s : bytes) : option bytes :=
  l ← sanitize_chars s (mk_sanitize_locals buff 0 []);
  l ← (if 0 <? sl_bp l then flush_buff l else Some l);
  Some (if (length (sl_res l) =? 0)%nat then [32] else sl_res l).

(** ** Hexadecimal *)

Definition hex_digit (c : Z) : option Z :=
  if (48 <=? c) && (c <=? 57) then Some (c - 48)
  else if (97 <=? c) && (c <=? 102) then Some (c - 87)
  else if (65 <=? c) && (c <=? 70) then Some (c - 55)
  else None.

Definition isspace (c : Z) : bool := (c =? 32) || ((9 <=? c) && (c <=? 13)).

Fixpoint skip_space (s : bytes) : bytes :=
  match s with
  | c :: s' => if isspace c then skip_space s' else s
  | [] => []
  end.

Fixpoint hex_value (acc : Z) (s : bytes) : Z :=
  match s with
  | c :: s' => match hex_digit c with Some d => hex_value (acc * 16 + d) s' | None => acc end
  | [] => acc
  end.

(** The prefix [0x] counts only before a digit. *)
Definition skip_0x (s : bytes) : bytes :=
  match s with
  | z :: x :: d :: _ =>
      if (z =? 48) && ((x =? 120) || (x =? 88)) && bool_decide (is_Some (hex_digit d)) then drop 2 s else s
  | _ => s
  end.

(** [strtol(s, NULL, 16)], for values that fit. *)
Definition strtol16 (s : bytes) : Z :=
  match skip_space s with
  | 45 :: s' => - hex_value 0 (skip_0x s')
  | 43 :: s' => hex_value 0 (skip_0x s')
  | s' => hex_value 0 (skip_0x s')
  end.

(** Two characters per step, the last one may be alone. *)
Fixpoint hex_to_bytes (hex : bytes) : bytes :=
  match hex with
  | a :: b :: hex' => u8 (strtol16 (cstr [a; b])) :: hex_to_bytes hex'
  | [a] => [u8 (strtol16 (cstr [a]))]
  | [] => []
  end.

Definition SIZE_MAX : Z := 2 ^ 64 - 1.

(** One character: [(unsigned char) (87U + c + (((c - 10U) >> 8) & ~38U))]. *)
Definition hex_char (c : Z) : Z :=
  u8 (u32 (u32 (87 + c) + Z.land (Z.shiftr (u32 (c - 10)) 8) (u32 (Z.lnot 38)))).

Definition bin2hex_byte (bin : Z) : list Z :=
  let c := Z.land bin 15 in
  let b := Z.shiftr bin 4 in
  let x := Z.lor (Z.shiftl (hex_char c) 8) (hex_char b) in
  [u8 x; u8 (Z.shiftr x 8)].

(** What is written to [hex], the null included; [None] when the function
    returns a null pointer and writes nothing. *)
Definition sodium_bin2hex (hex_maxlen : Z) (bin : bytes) : option bytes :=
  let bin_len := Z.of_nat (length bin) in
  if (SIZE_MAX / 2 <=? bin_len) || (hex_maxlen <=? u64 (bin_len * 2)) then None
  else Some (flat_map bin2hex_byte bin ++ [0]).

(** The variant with a string: the buffer is zeroed first.  [None]: the
    length, an [int], is not positive and the array has no size. *)
Definition dump_in_hex (bin : bytes) : option bytes :=
  let blen := i32 (Z.of_nat (length bin) * 2 + 1) in
  if blen <=? 0 then None
  else match sodium_bin2hex (Z.of_nat (length bin) * 2 + 1) bin with
       | Some out => Some (cstr out)
       | None => Some []
       end.

Definition is_hex (str : bytes) : bool :=
  forallb (fun c => ((48 <=? c) && (c <=? 57)) || ((97 <=? c) && (c <=? 102)) || ((65 <=? c) && (c <=? 70))) str.

Definition contains_null (str : bytes) : bool := negb (length (cstr str) =? length str)%nat.

(** ** Clock readings *)

Record timespec := mk_timespec { tv_sec : Z; tv_nsec : Z }.

(** Signed 64-bit fields. *)
Definition subtract (t0 t1 : timespec) : timespec :=
  let s := i64 (tv_sec t0 - tv_sec t1) in
  let n := i64 (tv_nsec t0 - tv_nsec t1) in
  if n <? 0 then mk_timespec (i64 (s - 1)) (i64 (n + 1000000000)) else mk_timespec s n.

(** ** Hexadecimal: correctness *)

(** A property of all bytes is checked by evaluation. *)
Lemma bytes_checked (P : Z -> bool) b :
  forallb P (seqZ 0 256) = true -> is_byte b -> P b = true.
Proof.
  intros H Hb. rewrite forallb_forall in H. apply H, list_elem_of_In, elem_of_seqZ. unfold is_byte in Hb. lia.
Qed.

Definition hex_pair_ok (b : Z) : bool :=
  is_hex (bin2hex_byte b) && bool_decide (hex_to_bytes (bin2hex_byte b) = [b]) && forallb (fun c => negb (c =? 0)) (bin2hex_byte b).

Lemma hex_pair b :
  is_byte b ->
  exists x y, bin2hex_byte b = [x; y] /\ is_hex [x; y] = true /\ x <> 0 /\ y <> 0
    /\ u8 (strtol16 (cstr [x; y])) = b.
Proof.
  intros Hb. assert (hex_pair_ok b = true) as H by (apply bytes_checked; [vm_compute; reflexivity|done]).
  unfold hex_pair_ok in H. destruct (bin2hex_byte b) as [|x [|y [|? ?]]] eqn:E; try discriminate E.
  apply andb_prop in H as [H Hz]. apply andb_prop in H as [Hh Hr]. apply bool_decide_eq_true in Hr.
  cbn [forallb] in Hz. apply andb_prop in Hz as [Hx Hy]. apply andb_prop in Hy as [Hy _].
  apply negb_true_iff, Z.eqb_neq in Hx, Hy. exists x, y. split_and!; try done. now injection Hr.
Qed.

Lemma bin2hex_facts bin :
  Forall is_byte bin ->
  Forall (fun c => c <> 0) (flat_map bin2hex_byte bin)
  /\ length (flat_map bin2hex_byte bin) = (2 * length bin)%nat
  /\ is_hex (flat_map bin2hex_byte bin) = true
  /\ hex_to_bytes (flat_map bin2hex_byte bin) = bin.
Proof.
  induction 1 as [|b bin Hb _ (IH1 & IH2 & IH3 & IH4)]; [done|].
  destruct (hex_pair b Hb) as (x & y & E & Hh & Hx & Hy & Hr).
  cbn [flat_map]. rewrite E. cbn [app]. split_and!.
  - now repeat constructor.
  - cbn [length]. rewrite IH2. lia.
  - unfold is_hex in *. cbn [forallb] in *. rewrite IH3. exact Hh.
  - cbn [hex_to_bytes]. now rewrite Hr, IH4.
Qed.

Lemma sodium_bin2hex_ok bin :
  2 * Z.of_nat (length bin) + 1 < 2 ^ 31 ->
  sodium_bin2hex (Z.of_nat (length bin) * 2 + 1) bin = Some (flat_map bin2hex_byte bin ++ [0]).
Proof.
  intros Hn. unfold sodium_bin2hex. rewrite uwrap_small by lia.
  destruct (Z.leb_spec (SIZE_MAX / 2) (Z.of_nat (length bin))) as [H|H].
  { change (SIZE_MAX / 2) with 9223372036854775807 in H. lia. }
  destruct (Z.leb_spec (Z.of_nat (length bin) * 2 + 1) (Z.of_nat (length bin) * 2)); [lia|done].
Qed.

Lemma dump_in_hex_ok bin :
  Forall is_byte bin -> 2 * Z.of_nat (length bin) + 1 < 2 ^ 31 ->
  dump_in_hex bin = Some (flat_map bin2hex_byte bin).
Proof.
  intros Hb Hn. unfold dump_in_hex. rewrite swrap_small by lia.
  destruct (Z.leb_spec (Z.of_nat (length bin) * 2 + 1) 0); [lia|]. rewrite sodium_bin2hex_ok by done.
  destruct (bin2hex_facts bin Hb) as (Hz & _). rewrite cstr_app_nonzero by done. cbn. now rewrite app_nil_r.
Qed.

(** Bytes written in hexadecimal read back as the same bytes: the text has
    two characters per byte, passes [is_hex], and [hex_to_bytes] undoes it. *)
Theorem hex_roundtrip bin :
  Forall is_byte bin -> 2 * Z.of_nat (length bin) + 1 < 2 ^ 31 ->
  exists hex, dump_in_hex bin = Some hex
    /\ length hex = (2 * length bin)%nat /\ is_hex hex = true /\ hex_to_bytes hex = bin.
Proof.
  intros Hb Hn. exists (flat_map bin2hex_byte bin). rewrite dump_in_hex_ok by done.
  destruct (bin2hex_facts bin Hb) as (_ & H). now split.
Qed.

Definition to_lower (c : Z) : Z := if (65 <=? c) && (c <=? 70) then c + 32 else c.

(** Characters of hexadecimal text, in either case, and their values. *)
Definition hex_chars : list Z := seqZ 48 10 ++ seqZ 65 6 ++ seqZ 97 6.

Lemma is_hex_chars s : is_hex s = true -> Forall (fun c => c ∈ hex_chars) s.
Proof.
  intros H. unfold is_hex in H. rewrite forallb_forall in H. apply Forall_forall. intros c Hc. specialize (H c Hc).
  unfold hex_chars. rewrite !elem_of_app, !elem_of_seqZ.
  rewrite !orb_true_iff, !andb_true_iff, !Z.leb_le in H. lia.
Qed.

Definition text_pair_ok (a b : Z) : bool :=
  let v := u8 (strtol16 (cstr [a; b])) in
  bool_decide (bin2hex_byte v = [to_lower a; to_lower b]) && (0 <=? v) && (v <? 256).

Lemma text_pair a b :
  a ∈ hex_chars -> b ∈ hex_chars ->
  bin2hex_byte (u8 (strtol16 (cstr [a; b]))) = [to_lower a; to_lower b] /\ is_byte (u8 (strtol16 (cstr [a; b]))).
Proof.
  intros Ha Hb. assert (forallb (fun a => forallb (text_pair_ok a) hex_chars) hex_chars = true) as H
    by (vm_compute; reflexivity).
  rewrite forallb_forall in H. specialize (H a ltac:(now apply list_elem_of_In)).
  rewrite forallb_forall in H. specialize (H b ltac:(now apply list_elem_of_In)).
  unfold text_pair_ok in H. apply andb_prop in H as [H Hlt]. apply andb_prop in H as [Hr Hge].
  apply bool_decide_eq_true in Hr. apply Z.leb_le in Hge. apply Z.ltb_lt in Hlt. split; [exact Hr|]. now split.
Qed.

Lemma hex_text_facts n hex :
  length hex = (2 * n)%nat -> Forall (fun c => c ∈ hex_chars) hex ->
  Forall is_byte (hex_to_bytes hex) /\ length (hex_to_bytes hex) = n
  /\ flat_map bin2hex_byte (hex_to_bytes hex) = map to_lower hex.
Proof.
  revert hex. induction n as [|n IH]; intros hex Hl Hh.
  - destruct hex; [done|discriminate Hl].
  - destruct hex as [|a [|b hex]]; try (cbn in Hl; lia).
    inversion Hh as [|? ? Ha Hh1]; subst. inversion Hh1 as [|? ? Hb Hh2]; subst.
    destruct (IH hex) as (IH1 & IH2 & IH3); [cbn in Hl; lia|done|].
    destruct (text_pair a b Ha Hb) as [Ht Hv]. cbn [hex_to_bytes flat_map map]. rewrite Ht, IH3.
    split_and!; [now constructor|cbn [length]; now rewrite IH2|done].
Qed.

(** Hexadecimal text of even length, in upper or lower case, is read as
    bytes that are written as the same text in lower case. *)
Theorem hex_text_roundtrip hex n :
  is_hex hex = true -> length hex = (2 * n)%nat -> 2 * Z.of_nat n + 1 < 2 ^ 31 ->
  length (hex_to_bytes hex) = n /\ dump_in_hex (hex_to_bytes hex) = Some (map to_lower hex).
Proof.
  intros Hh Hl Hn. destruct (hex_text_facts n hex Hl (is_hex_chars _ Hh)) as (H1 & H2 & H3).
  split; [done|]. rewrite dump_in_hex_ok; [now rewrite H3|done|now rewrite H2].
Qed.

(** [contains_null] looks for a null byte. *)
Lemma contains_null_spec s : contains_null s = true <-> 0 ∈ s.
Proof.
  unfold contains_null. rewrite negb_true_iff, Nat.eqb_neq.
  assert (length (cstr s) <= length s)%nat as Hle.
  { induction s as [|c s IH]; cbn; [done|]. destruct (c =? 0); cbn; lia. }
  induction s as [|c s IH]; cbn; [split; [done|intros H; inversion H]|].
  destruct (Z.eqb_spec c 0) as [->|Hc]; cbn.
  - split; [intros _; apply list_elem_of_here|lia].
  - rewrite elem_of_cons. cbn in Hle. destruct (Z.eqb_spec c 0); [done|]. cbn in Hle.
    rewrite <- IH by lia. split; intros H; [right; lia|destruct H as [H|H]; [now subst|lia]].
Qed.

Definition nanos (t : timespec) : Z := tv_sec t * 1000000000 + tv_nsec t.
Definition ts_normal (t : timespec) : Prop := 0 <= tv_nsec t < 1000000000.

(** The difference of two normalised clock readings after the epoch is
    exact and normalised. *)
Theorem subtract_exact t0 t1 :
  ts_normal t0 -> ts_normal t1 -> 0 <= tv_sec t0 < 2 ^ 62 -> 0 <= tv_sec t1 < 2 ^ 62 ->
  nanos (subtract t0 t1) = nanos t0 - nanos t1 /\ ts_normal (subtract t0 t1).
Proof.
  unfold ts_normal, nanos, subtract. intros H0 H1 H2 H3.
  rewrite !(swrap_small 64 (_ t0 - _ t1)) by lia.
  destruct (Z.ltb_spec (tv_nsec t0 - tv_nsec t1) 0); cbn [tv_sec tv_nsec]; rewrite ?swrap_small by lia; lia.
Qed.

(** ** Log lines: correctness *)

(** What is logged for a character, and for a string. *)
Definition escape (c : Z) : bytes :=
  if (c =? 10) || (c =? 9) then [32]
  else if (c <? 32) || (127 <=? c) then [47; to_hex_4_bit (Z.shiftr c 4); to_hex_4_bit c]
  else [c].
Definition log_text (s : bytes) : bytes :=
  match flat_map escape s with [] => [32] | t => t end.

Definition printable (c : Z) : bool := (32 <=? c) && (c <? 127).

Lemma escape_printable c : is_byte c -> Forall (fun x => printable x = true) (escape c).
Proof.
  intros Hc. assert (forallb printable (escape c) = true) as H.
  { apply (bytes_checked (fun c => forallb printable (escape c))); [vm_compute; reflexivity|done]. }
  rewrite forallb_forall in H. now apply Forall_forall.
Qed.

Lemma escape_length c : (1 <= length (escape c) <= 3)%nat.
Proof. unfold escape. destruct (_ || _); [cbn; lia|]. destruct (_ || _); cbn; lia. Qed.

Lemma printable_nonzero l : Forall (fun x => printable x = true) l -> Forall (fun x => x <> 0) l.
Proof. apply Forall_impl. intros x Hx ->. discriminate Hx. Qed.

(** The buffer and the result hold [d] so far. *)
Record sanitized (l : sanitize_locals) (d : bytes) : Prop := {
  sz_len : length (sl_buff l) = 1024%nat;
  sz_bp : 0 <= sl_bp l <= 1024;
  sz_text : d = sl_res l ++ take (Z.to_nat (sl_bp l)) (sl_buff l);
  sz_nonzero : Forall (fun x => x <> 0) (take (Z.to_nat (sl_bp l)) (sl_buff l));
}.

Fixpoint put_chars (cs : bytes) (l : sanitize_locals) : option sanitize_locals :=
  match cs with [] => Some l | c :: cs => l ← put_char c l; put_chars cs l end.

Lemma sanitize_char_puts c l :
  sanitize_char c l =
    l ← put_chars (escape c) l; if sl_bp l =? LOG_SANITIZE_BUFF_LEN - 1 then flush_buff l else Some l.
Proof.
  unfold sanitize_char, escape. destruct (_ || _); [cbn; now destruct (put_char _ l)|].
  destruct (_ || _); cbn; [|now destruct (put_char _ l)].
  destruct (put_char 47 l) as [l1|]; [|done]. cbn. destruct (put_char _ l1) as [l2|]; [|done]. cbn.
  now destruct (put_char _ l2).
Qed.

Lemma put_char_ok c l d :
  sanitized l d -> c <> 0 -> sl_bp l < 1024 ->
  exists l', put_char c l = Some l' /\ sanitized l' (d ++ [c]) /\ sl_bp l' = sl_bp l + 1.
Proof.
  intros [Hl Hb Ht Hz] Hc Hlt. unfold put_char. unfold LOG_SANITIZE_BUFF_LEN.
  destruct (Z.ltb_spec (sl_bp l) 1024); [|lia]. eexists. split; [reflexivity|]. split; [|done].
  assert (take (Z.to_nat (sl_bp l + 1)) (<[Z.to_nat (sl_bp l) := c]> (sl_buff l))
          = take (Z.to_nat (sl_bp l)) (sl_buff l) ++ [c]) as E.
  { replace (Z.to_nat (sl_bp l + 1)) with (S (Z.to_nat (sl_bp l))) by lia.
    rewrite (take_S_r _ _ c) by (apply list_lookup_insert_eq; lia). now rewrite take_insert_ge by lia. }
  split; cbn [sl_buff sl_bp sl_res]; rewrite ?length_insert, ?E; try done; try lia.
  - now rewrite Ht, <- (assoc_L (++)).
  - apply Forall_app. split; [done|]. now constructor.
Qed.

Lemma put_chars_ok cs l d :
  sanitized l d -> Forall (fun x => x <> 0) cs -> sl_bp l + Z.of_nat (length cs) <= 1024 ->
  exists l', put_chars cs l = Some l' /\ sanitized l' (d ++ cs) /\ sl_bp l' = sl_bp l + Z.of_nat (length cs).
Proof.
  revert l d. induction cs as [|c cs IH]; intros l d Hs Hz Hle.
  - exists l. rewrite app_nil_r. cbn. split_and!; [done|done|lia].
  - inversion Hz as [|? ? Hc Hz']; subst. cbn [length] in Hle.
    destruct (put_char_ok c l d Hs Hc) as (l1 & E1 & Hs1 & Hb1); [lia|].
    destruct (IH l1 (d ++ [c]) Hs1 Hz') as (l2 & E2 & Hs2 & Hb2); [lia|].
    exists l2. cbn [put_chars]. rewrite E1. cbn. rewrite E2. rewrite <- (assoc_L (++)) in Hs2.
    split_and!; [done|done|cbn [length]; lia].
Qed.

Lemma put_chars_overrun cs l d :
  sanitized l d -> Forall (fun x => x <> 0) cs -> 1024 < sl_bp l + Z.of_nat (length cs) ->
  put_chars cs l = None.
Proof.
  revert l d. induction cs as [|c cs IH]; intros l d Hs Hz Hlt; cbn [length] in Hlt.
  - destruct Hs. cbn in Hlt. lia.
  - inversion Hz as [|? ? Hc Hz']; subst. cbn [put_chars]. destruct (Z.eq_dec (sl_bp l) 1024) as [E|E].
    + unfold put_char, LOG_SANITIZE_BUFF_LEN. now rewrite E.
    + destruct (put_char_ok c l d Hs Hc) as (l1 & E1 & Hs1 & Hb1); [destruct Hs; lia|].
      rewrite E1. cbn. apply (IH _ _ Hs1 Hz'). lia.
Qed.

Lemma flush_buff_ok l d :
  sanitized l d -> sl_bp l < 1024 ->
  exists l', flush_buff l = Some l' /\ sanitized l' d /\ sl_bp l' = 0 /\ sl_res l' = d.
Proof.
  intros [Hl Hb Ht Hz] Hlt. unfold flush_buff, LOG_SANITIZE_BUFF_LEN.
  destruct (Z.ltb_spec (sl_bp l) 1024); [|lia]. eexists. split; [reflexivity|].
  assert (cstr (<[Z.to_nat (sl_bp l) := 0]> (sl_buff l)) = take (Z.to_nat (sl_bp l)) (sl_buff l)) as E.
  { rewrite insert_take_drop by lia. rewrite cstr_app_nonzero by done. cbn. apply app_nil_r. }
  split; [|split; [done|cbn [sl_res]; now rewrite E]].
  split; cbn [sl_buff sl_bp sl_res Z.to_nat take]; rewrite ?E, ?length_insert, ?app_nil_r; done || lia.
Qed.

(** One character that leaves room for the null. *)
Lemma sanitize_char_fits c l d :
  sanitized l d -> is_byte c -> sl_bp l + Z.of_nat (length (escape c)) <= 1023 ->
  exists l', sanitize_char c l = Some l' /\ sanitized l' (d ++ escape c)
    /\ sl_bp l' = (if sl_bp l + Z.of_nat (length (escape c)) =? 1023 then 0
                   else sl_bp l + Z.of_nat (length (escape c))).
Proof.
  intros Hs Hc Hle. rewrite sanitize_char_puts.
  destruct (put_chars_ok (escape c) l d Hs) as (l1 & E1 & Hs1 & Hb1);
    [apply printable_nonzero, escape_printable, Hc|lia|].
  rewrite E1. cbn -[Z.eqb]. change (LOG_SANITIZE_BUFF_LEN - 1) with 1023. rewrite Hb1.
  destruct (Z.eqb_spec (sl_bp l + Z.of_nat (length (escape c))) 1023) as [E|E]; [|eauto].
  destruct (flush_buff_ok l1 _ Hs1) as (l2 & E2 & Hs2 & Hb2 & _); [lia|]. eauto.
Qed.

(** Any character: either the buffer is left, or the text is extended. *)
Lemma sanitize_char_some c l d l' :
  sanitized l d -> is_byte c -> sanitize_char c l = Some l' -> sanitized l' (d ++ escape c).
Proof.
  intros Hs Hc H. destruct (Z.le_gt_cases (sl_bp l + Z.of_nat (length (escape c))) 1024) as [Hle|Hgt].
  - rewrite sanitize_char_puts in H.
    destruct (put_chars_ok (escape c) l d Hs) as (l1 & E1 & Hs1 & Hb1);
      [apply printable_nonzero, escape_printable, Hc|lia|].
    rewrite E1 in H. cbn -[Z.eqb] in H. change (LOG_SANITIZE_BUFF_LEN - 1) with 1023 in H.
    destruct (Z.eqb_spec (sl_bp l1) 1023) as [E|E]; [|now injection H as <-].
    destruct (flush_buff_ok l1 _ Hs1) as (l2 & E2 & Hs2 & _); [lia|]. rewrite E2 in H. now injection H as <-.
  - rewrite sanitize_char_puts, (put_chars_overrun _ _ d) in H; [discriminate|done| |lia].
    apply printable_nonzero, escape_printable, Hc.
Qed.

Lemma sanitize_chars_some s l d l' :
  sanitized l d -> Forall is_byte s -> sanitize_chars s l = Some l' -> sanitized l' (d ++ flat_map escape s).
Proof.
  revert l d. induction s as [|c s IH]; intros l d Hs Hb H.
  - injection H as <-. cbn. now rewrite app_nil_r.
  - inversion Hb as [|? ? Hc Hb']; subst. cbn [sanitize_chars] in H. apply bind_Some in H as (l1 & E1 & H).
    apply (sanitize_char_some _ _ d) in E1; try done. cbn [flat_map]. rewrite (assoc_L (++)). now apply (IH l1).
Qed.

(** The rest of the string never makes the buffer overflow. *)
Definition fits (bp : Z) (s : bytes) : Prop :=
  Forall (fun c => length (escape c) = 1%nat) s \/ bp + Z.of_nat (length (flat_map escape s)) <= 1023.

Lemma sanitize_chars_fits s l d :
  sanitized l d -> sl_bp l <= 1022 -> Forall is_byte s -> fits (sl_bp l) s ->
  exists l', sanitize_chars s l = Some l' /\ sanitized l' (d ++ flat_map escape s) /\ sl_bp l' <= 1022.
Proof.
  revert l d. induction s as [|c s IH]; intros l d Hs Hbp Hb Hf.
  - exists l. cbn. now rewrite app_nil_r.
  - inversion Hb as [|? ? Hc Hb']; subst. pose proof (escape_length c) as Hlen.
    assert (sl_bp l + Z.of_nat (length (escape c)) <= 1023) as Hle.
    { destruct Hf as [Hf|Hf]; [inversion Hf; lia|]. cbn [flat_map] in Hf. rewrite length_app in Hf. lia. }
    destruct (sanitize_char_fits c l d Hs Hc Hle) as (l1 & E1 & Hs1 & Hb1).
    destruct (IH l1 _ Hs1) as (l2 & E2 & Hs2 & Hb2); [destruct (Z.eqb_spec (sl_bp l + Z.of_nat (length (escape c))) 1023); lia|done| |].
    { destruct Hf as [Hf|Hf]; [left; now inversion Hf|right]. cbn [flat_map] in Hf. rewrite length_app in Hf.
      destruct (Z.eqb_spec (sl_bp l + Z.of_nat (length (escape c))) 1023); destruct Hs; lia. }
    exists l2. cbn [sanitize_chars flat_map]. rewrite E1. cbn. rewrite E2, (assoc_L (++)). eauto.
Qed.

Lemma sanitized_start buff : length buff = 1024%nat -> sanitized (mk_sanitize_locals buff 0 []) [].
Proof. intros H. split; cbn; try done; lia. Qed.

(** The end of the function, when the last write is inside the buffer. *)
Lemma sanitize_end l d :
  sanitized l d -> sl_bp l < 1024 ->
  (l ← (if 0 <? sl_bp l then flush_buff l else Some l);
   Some (if (length (sl_res l) =? 0)%nat then [32] else sl_res l)) = Some (match d with [] => [32] | _ => d end).
Proof.
  intros Hs Hlt. destruct (Z.ltb_spec 0 (sl_bp l)).
  - destruct (flush_buff_ok l d Hs Hlt) as (l1 & E1 & _ & _ & Hr). rewrite E1. cbn. rewrite Hr. now destruct d.
  - destruct Hs as [_ Hb Ht _]. assert (sl_bp l = 0) as E by lia. rewrite E in Ht. cbn in Ht.
    rewrite app_nil_r in Ht. subst d. cbn. now destruct (sl_res l).
Qed.

(** The text of a log line: whatever the function returns is the string
    with line breaks and tabs as spaces and other unprintable characters
    escaped (a space when that is empty), so a log line is printable and
    never empty; and it does return, for strings of any length without
    characters to escape, and for strings whose escaped text is shorter than
    the buffer. *)
Theorem sanitize_for_log_correct buff s :
  length buff = 1024%nat -> Forall is_byte s ->
  (forall r, sanitize_for_log buff s = Some r ->
     r = log_text s /\ Forall (fun x => printable x = true) r /\ r <> [])
  /\ (fits 0 s -> is_Some (sanitize_for_log buff s)).
Proof.
  intros Hl Hb. pose proof (sanitized_start buff Hl) as H0. split.
  - intros r H. unfold sanitize_for_log in H. apply bind_Some in H as (l1 & E1 & H).
    apply (sanitize_chars_some _ _ [] _ H0 Hb) in E1. cbn [app] in E1.
    assert (r = log_text s) as ->.
    { destruct (Z.eq_dec (sl_bp l1) 1024) as [E|E].
      - unfold flush_buff, LOG_SANITIZE_BUFF_LEN in H. rewrite E in H. discriminate H.
      - rewrite (sanitize_end _ _ E1) in H by (destruct E1; lia). injection H as <-. unfold log_text.
        now destruct (flat_map escape s). }
    split; [done|]. unfold log_text. assert (Forall (fun x => printable x = true) (flat_map escape s)) as Hp.
    { clear -Hb. induction Hb; cbn; [constructor|]. apply Forall_app. auto using escape_printable. }
    destruct (flat_map escape s); (split; [|done]); [now constructor|done].
  - intros Hf. destruct (sanitize_chars_fits s _ [] H0 ltac:(cbn; lia) Hb Hf) as (l1 & E1 & Hs1 & Hb1).
    unfold sanitize_for_log. rewrite E1. cbn [mbind option_bind].
    eexists. apply (sanitize_end _ _ Hs1). lia.
Qed.

(** Characters without escape that do not fill the buffer. *)
Lemma sanitize_plain_run s rest l d :
  sanitized l d -> Forall is_byte s -> Forall (fun c => length (escape c) = 1%nat) s ->
  sl_bp l + Z.of_nat (length s) <= 1022 ->
  exists l', sanitize_chars (s ++ rest) l = sanitize_chars rest l'
    /\ sanitized l' (d ++ flat_map escape s) /\ sl_bp l' = sl_bp l + Z.of_nat (length s).
Proof.
  revert l d. induction s as [|x s IH]; intros l d Hs Hb Hp Hle.
  - exists l. cbn [app flat_map length]. rewrite app_nil_r. split_and!; [done|done|lia].
  - inversion Hb as [|? ? Hx Hb']; subst. inversion Hp as [|? ? H1 Hp']; subst. cbn [length] in Hle.
    destruct (sanitize_char_fits x l d Hs Hx) as (l1 & E1 & Hs1 & Hb1); [lia|].
    rewrite H1 in Hb1. destruct (Z.eqb_spec (sl_bp l + Z.of_nat 1) 1023) as [E|_]; [lia|].
    destruct (IH l1 _ Hs1 Hb' Hp') as (l2 & E2 & Hs2 & Hb2); [lia|].
    exists l2. cbn [app sanitize_chars flat_map]. rewrite E1, (assoc_L (++)). cbn [mbind option_bind].
    split_and!; [exact E2|done|cbn [length]; lia].
Qed.

(** The buffer of a log line can be overrun: after 1022 characters that
    need no escape, one that needs it is written past the end of the buffer
    (the test for a full buffer is an equality that the three characters of
    an escape step over). *)
Theorem sanitize_for_log_overruns buff s c rest :
  length buff = 1024%nat -> Forall is_byte s -> is_byte c ->
  Forall (fun c => length (escape c) = 1%nat) s -> length s = 1022%nat -> length (escape c) = 3%nat ->
  sanitize_for_log buff (s ++ c :: rest) = None.
Proof.
  intros Hl Hb Hc Hp Hn He. pose proof (sanitized_start buff Hl) as H0.
  destruct (sanitize_plain_run s (c :: rest) _ [] H0 Hb Hp) as (l1 & E1 & Hs1 & Hb1); [cbn [sl_bp]; lia|].
  unfold sanitize_for_log. rewrite E1. cbn [sanitize_chars]. rewrite sanitize_char_puts.
  rewrite (put_chars_overrun _ _ _ Hs1); [done| |rewrite Hb1, He; cbn [sl_bp]; lia].
  apply printable_nonzero, escape_printable, Hc.
Qed.

(** ** Concrete runs *)

Lemma hex_roundtrip_witness :
  dump_in_hex [0; 171; 255] = Some [48; 48; 97; 98; 102; 102]
  /\ exists hex, dump_in_hex [0; 171; 255] = Some hex
    /\ length hex = 6%nat /\ is_hex hex = true /\ hex_to_bytes hex = [0; 171; 255].
Proof.
  split; [vm_compute; reflexivity|]. apply (hex_roundtrip [0; 171; 255]); [|vm_compute; reflexivity].
  repeat constructor; unfold is_byte; lia.
Defined.

Lemma hex_text_roundtrip_witness :
  hex_to_bytes [48; 70; 97; 66] = [15; 171]
  /\ dump_in_hex (hex_to_bytes [48; 70; 97; 66]) = Some [48; 102; 97; 98].
Proof.
  split; [vm_compute; reflexivity|].
  destruct (hex_text_roundtrip [48; 70; 97; 66] 2) as [_ H]; [reflexivity|reflexivity|vm_compute; reflexivity|exact H].
Defined.

Lemma subtract_exact_witness :
  subtract (mk_timespec 7 5) (mk_timespec 5 9) = mk_timespec 1 999999996
  /\ nanos (subtract (mk_timespec 7 5) (mk_timespec 5 9)) = 2000000005 - 9
  /\ ts_normal (subtract (mk_timespec 7 5) (mk_timespec 5 9)).
Proof.
  split; [vm_compute; reflexivity|].
  destruct (subtract_exact (mk_timespec 7 5) (mk_timespec 5 9)) as [H1 H2];
    [split; cbn; lia|split; cbn; lia|cbn; lia|cbn; lia|]. split; [exact H1|exact H2].
Defined.

Lemma sanitize_for_log_correct_witness :
  sanitize_for_log (replicate 1024 7) [72; 9; 200] = Some [72; 32; 47; 99; 56]
  /\ [72; 32; 47; 99; 56] = log_text [72; 9; 200]
  /\ is_Some (sanitize_for_log (replicate 1024 7) [72; 9; 200]).
Proof.
  destruct (sanitize_for_log_correct (replicate 1024 7) [72; 9; 200]) as [H1 H2];
    [reflexivity|repeat constructor; unfold is_byte; lia|].
  assert (sanitize_for_log (replicate 1024 7) [72; 9; 200] = Some [72; 32; 47; 99; 56]) as E
    by (vm_compute; reflexivity).
  split_and!; [exact E|apply (H1 _ E)|]. apply H2. right. vm_compute. discriminate.
Defined.

Lemma sanitize_for_log_overruns_witness :
  sanitize_for_log (replicate 1024 0) (replicate 1022 65 ++ [7]) = None.
Proof.
  apply (sanitize_for_log_overruns (replicate 1024 0) (replicate 1022 65) 7 []); try reflexivity.
  - apply Forall_replicate. unfold is_byte. lia.
  - unfold is_byte. lia.
  - apply Forall_replicate. reflexivity.
Defined.
