(* ===== verification/TimerPool.v ===== *)
(** * The timer pool (timer_pool.h, timer_pool.cpp)

    A management thread takes due timers from a map ordered by target time
    and hands them to executor threads, which call the timers' listeners.
    Sequential part: the ordered map and the operations on it.  Concurrent
    part: a step relation in which a step is what a thread does while it
    holds a mutex, or a listener's call.

    [doExecute] is two steps, because it gives up the container's mutex
    between choosing an executor and handing the timer over.  A thread that
    waits on a condition may wake up at any time and tests again; the steps
    of the destructors are left out (the only pool of the program is never
    destroyed). *)

From stdpp Require Import base gmap list relations numbers sorting.
From Stdlib Require Import ZArith Lia.
From S2P Require Import Prelude CoreUtils.
Set Default Proof Using "Type".

(** A pointer to a [PooledTimer]. *)
Abbreviation Timer := nat.

#[export] Instance timespec_eq_dec : EqDecision timespec.
Proof. solve_decision. Defined.

(** [TimespecComparator]. *)
Definition ts_lt (t c : timespec) : bool :=
  (tv_sec t <? tv_sec c)%Z || ((tv_sec t =? tv_sec c)%Z && (tv_nsec t <? tv_nsec c)%Z).

(** ** The running timers: a [std::map] as the sorted list of its elements *)

Abbreviation RunningTimers := (list (timespec * Timer)).

(** [insert]: no change when the key is there. *)
Fixpoint rt_insert (k : timespec) (v : Timer) (l : RunningTimers) : RunningTimers :=
  match l with
  | [] => [(k, v)]
  | (k', v') :: l' =>
      if ts_lt k k' then (k, v) :: l
      else if ts_lt k' k then (k', v') :: rt_insert k v l'
      else l
  end.

Definition rt_erase (k : timespec) (l : RunningTimers) : RunningTimers :=
  List.filter (fun x => negb (bool_decide (x.1 = k))) l.

(** [isRunning]: the target time of the first element with this timer. *)
Fixpoint isRunning (pt : Timer) (l : RunningTimers) : option timespec :=
  match l with
  | [] => None
  | (k, v) :: l' => if bool_decide (v = pt) then Some k else isRunning pt l'
  end.

Definition getFirstOfRunningTimers (l : RunningTimers) : option (timespec * Timer) := head l.

(** The time is compared strictly. *)
Definition isTimeReached (now t : timespec) : bool :=
  (tv_sec t <? tv_sec now)%Z || ((tv_sec now =? tv_sec t)%Z && (tv_nsec t <? tv_nsec now)%Z).

(** [m_time] is an unsigned number of seconds. *)
Definition getTargetTime (now : timespec) (m_time : Z) : timespec :=
  mk_timespec (i64 (tv_sec now + m_time)) (tv_nsec now).

(** ** Executors *)

(** The executor's thread: with the mutex at the top of its loop, waiting,
    in [execute] before it has the timer's own mutex, in the listener. *)
Inductive ExThread := AtLoop | Asleep | Fetching (t : Timer) | Handling (t : Timer).
#[export] Instance ExThread_eq_dec : EqDecision ExThread.
Proof. solve_decision. Defined.

Record Executor := mkExecutor { ex_timer : option Timer; ex_do_count : Z; ex_thread : ExThread }.

Definition Executor_new : Executor := mkExecutor None 0 AtLoop.

(** The management thread: in its loop, or in [doExecute] with the executor
    it has chosen. *)
Inductive MainThread := MLoop | MHanding (e : nat) (pt : Timer).

(** The fields of the pool and of its executor container; a call of
    [stopTimer] or [removeTimer] that waits for an executor (with the flag
    whether it holds the timer's own mutex); and what is observed: timers
    taken because they were due, and calls of listeners. *)
Record Pool := mkPool
  { m_runningTimers : RunningTimers;
    m_idleTimers : gset Timer;
    m_executors : list Executor;
    m_idle : gset nat;
    m_running : gmap Timer nat;
    m_main : MainThread;
    m_waiters : list (Timer * nat * bool);
    log_due : list Timer;
    log_handled : list Timer }.

Definition Pool_new (initialExecutorCount : Z) : Pool :=
  let zz := if (0 <? initialExecutorCount)%Z then Z.to_nat initialExecutorCount else 1%nat in
  mkPool [] ∅ (replicate zz Executor_new) (list_to_set (seq 0 zz)) ∅ MLoop [] [] [].

Definition set_timers r i p :=
  mkPool r i (m_executors p) (m_idle p) (m_running p) (m_main p) (m_waiters p) (log_due p) (log_handled p).
Definition set_container x i r p :=
  mkPool (m_runningTimers p) (m_idleTimers p) x i r (m_main p) (m_waiters p) (log_due p) (log_handled p).
Definition set_main m p :=
  mkPool (m_runningTimers p) (m_idleTimers p) (m_executors p) (m_idle p) (m_running p) m (m_waiters p)
    (log_due p) (log_handled p).
Definition set_waiters w p :=
  mkPool (m_runningTimers p) (m_idleTimers p) (m_executors p) (m_idle p) (m_running p) (m_main p) w
    (log_due p) (log_handled p).
Definition add_due t p :=
  mkPool (m_runningTimers p) (m_idleTimers p) (m_executors p) (m_idle p) (m_running p) (m_main p) (m_waiters p)
    (log_due p ++ [t]) (log_handled p).
Definition add_handled t p :=
  mkPool (m_runningTimers p) (m_idleTimers p) (m_executors p) (m_idle p) (m_running p) (m_main p) (m_waiters p)
    (log_due p) (log_handled p ++ [t]).
Definition set_executor e x p := set_container (<[e := x]> (m_executors p)) (m_idle p) (m_running p) p.

(** Whether a call holds the timer's own mutex while it waits. *)
Definition guard_held (t : Timer) (p : Pool) : bool :=
  existsb (fun w => bool_decide (w.1.1 = t) && w.2) (m_waiters p).

(** ** Operations of the pool *)

Definition createTimer (t : Timer) (p : Pool) : Pool :=
  set_timers (m_runningTimers p) ({[t]} ∪ m_idleTimers p) p.

Definition startTimer (pt : Timer) (target : timespec) (p : Pool) : Pool :=
  match isRunning pt (m_runningTimers p) with
  | Some t =>
      if bool_decide (t = target) then p
      else set_timers (rt_insert target pt (rt_erase t (m_runningTimers p))) (m_idleTimers p) p
  | None => set_timers (rt_insert target pt (m_runningTimers p)) (m_idleTimers p ∖ {[pt]}) p
  end.

(** [ExecutorContainer::setIdle] and [setRunning]. *)
Definition setIdle (e : nat) (pt : Timer) (p : Pool) : Pool :=
  set_container (m_executors p) ({[e]} ∪ m_idle p) (delete pt (m_running p)) p.
Definition setRunning (e : nat) (associate : Timer) (p : Pool) : Pool :=
  match m_running p !! associate with
  | Some _ => p
  | None => set_container (m_executors p) (m_idle p ∖ {[e]}) (<[associate := e]> (m_running p)) p
  end.

(** [getExecutor], not strict: the executor that serves the timer, else the
    first idle one, after making one when there is none.  [top] is the
    element with the least address. *)
Definition getExecutor (pt : Timer) (top : nat) (p : Pool) : option (nat * Pool) :=
  match m_running p !! pt with
  | Some e => Some (e, p)
  | None =>
      let p := if bool_decide (m_idle p = ∅)
               then set_container (m_executors p ++ [Executor_new]) {[length (m_executors p)]} (m_running p) p
               else p in
      if bool_decide (top ∈ m_idle p) then Some (top, p) else None
  end.

(** The first half of [doExecute], in the loop of the management thread. *)
Definition fire (now : timespec) (top : nat) (p : Pool) : option Pool :=
  match m_main p, getFirstOfRunningTimers (m_runningTimers p) with
  | MLoop, Some (t, pt) =>
      if isTimeReached now t then
        let p := set_timers (rt_erase t (m_runningTimers p)) ({[pt]} ∪ m_idleTimers p) (add_due pt p) in
        '(e, p) ← getExecutor pt top p;
        Some (set_main (MHanding e pt) p)
      else None
  | _, _ => None
  end.

(** [Executor::tryExecute]; the signal wakes the executor's thread. *)
Definition tryExecute (e : nat) (timer : Timer) (p : Pool) : option (bool * Pool) :=
  x ← m_executors p !! e;
  let timer' := default timer (ex_timer x) in
  if bool_decide (timer' = timer) then
    let p := if (ex_do_count x =? 0)%Z then setRunning e timer p else p in
    let thread := if bool_decide (ex_thread x = Asleep) then AtLoop else ex_thread x in
    Some (true, set_executor e (mkExecutor (Some timer) (ex_do_count x + 1) thread) p)
  else Some (false, p).

(** The second half of [doExecute]. *)
Definition hand (p : Pool) : option Pool :=
  match m_main p with
  | MHanding e pt => r ← tryExecute e pt p; Some (set_main MLoop r.2)
  | MLoop => None
  end.

(** [Executor::reduceCount]; the broadcast reaches the waiting calls. *)
Definition reduceCount (e : nat) (x : Executor) (p : Pool) : Pool :=
  match ex_timer x with
  | None => set_executor e x p
  | Some t =>
      let n := (ex_do_count x - 1)%Z in
      if (n <=? 0)%Z then set_executor e (mkExecutor None 0 (ex_thread x)) (setIdle e t p)
      else set_executor e (mkExecutor (Some t) n (ex_thread x)) p
  end.

(** [Executor::run]: the steps of the thread. *)
Definition exec_begin (e : nat) (p : Pool) : option Pool :=
  x ← m_executors p !! e;
  match ex_thread x, ex_timer x with
  | AtLoop, Some t => Some (set_executor e (mkExecutor (Some t) (ex_do_count x) (Fetching t)) p)
  | _, _ => None
  end.
Definition exec_sleep (e : nat) (p : Pool) : option Pool :=
  x ← m_executors p !! e;
  match ex_thread x, ex_timer x with
  | AtLoop, None => Some (set_executor e (mkExecutor None (ex_do_count x) Asleep) p)
  | _, _ => None
  end.
Definition exec_wake (e : nat) (p : Pool) : option Pool :=
  x ← m_executors p !! e;
  match ex_thread x with
  | Asleep => Some (set_executor e (mkExecutor (ex_timer x) (ex_do_count x) AtLoop) p)
  | _ => None
  end.
(** [PooledTimer::execute] takes the timer's own mutex to read the listener. *)
Definition exec_fetch (e : nat) (p : Pool) : option Pool :=
  x ← m_executors p !! e;
  match ex_thread x with
  | Fetching t =>
      if guard_held t p then None
      else Some (add_handled t (set_executor e (mkExecutor (ex_timer x) (ex_do_count x) (Handling t)) p))
  | _ => None
  end.
Definition exec_end (e : nat) (p : Pool) : option Pool :=
  x ← m_executors p !! e;
  match ex_thread x with
  | Handling t => Some (reduceCount e (mkExecutor (ex_timer x) (ex_do_count x) AtLoop) p)
  | _ => None
  end.

(** [waitUntilServiced] on another thread, entered without any mutex; the
    count is dropped before each wait. *)
Definition discard (e : nat) (pt : Timer) (p : Pool) : Pool :=
  match m_executors p !! e with
  | Some x => if bool_decide (ex_timer x = Some pt)
              then set_executor e (mkExecutor (ex_timer x) 0 (ex_thread x)) p else p
  | None => p
  end.
Definition wait_for (pt : Timer) (guard : bool) (p : Pool) : Pool :=
  match m_running p !! pt with
  | Some e => set_waiters (m_waiters p ++ [(pt, e, guard)]) p
  | None => p
  end.

(** [PooledTimer::stop], which holds the timer's own mutex, and
    [~PooledTimer], which does not; both called outside of the listener. *)
Definition stop (pt : Timer) (p : Pool) : option Pool :=
  if guard_held pt p then None
  else match isRunning pt (m_runningTimers p) with
       | Some t => Some (wait_for pt true (set_timers (rt_erase t (m_runningTimers p)) ({[pt]} ∪ m_idleTimers p) p))
       | None => Some p
       end.
Definition removed (pt : Timer) (p : Pool) : Pool :=
  match isRunning pt (m_runningTimers p) with
  | Some t => set_timers (rt_erase t (m_runningTimers p)) (m_idleTimers p) p
  | None => set_timers (m_runningTimers p) (m_idleTimers p ∖ {[pt]}) p
  end.
Definition removeTimer (pt : Timer) (p : Pool) : Pool := wait_for pt false (removed pt p).

(** A waiting call tests (again): it returns when the executor has another
    timer or none, and drops the count otherwise. *)
Definition wait_again (i : nat) (p : Pool) : option Pool :=
  '(pt, e, g) ← m_waiters p !! i;
  x ← m_executors p !! e;
  if bool_decide (ex_timer x = Some pt) then Some (discard e pt p)
  else Some (set_waiters (delete i (m_waiters p)) p).

(** [~PooledTimer] from the timer's own listener, as [TimerListenerImpl] of
    facades_impl.cpp does: the executor is freed at once, with its thread
    still in the listener. *)
Definition remove_own (e : nat) (p : Pool) : option Pool :=
  x ← m_executors p !! e;
  match ex_thread x with
  | Handling t =>
      let p := removed t p in
      if bool_decide (m_running p !! t = Some e) && bool_decide (ex_timer x = Some t)
      then Some (set_executor e (mkExecutor None 0 (Handling t)) (setIdle e t p))
      else None
  | _ => None
  end.

(** ** Runs *)

(** Starting, firing and handling. *)
Inductive fire_step : Pool -> Pool -> Prop :=
| fs_create t p : fire_step p (createTimer t p)
| fs_start pt target p : guard_held pt p = false -> fire_step p (startTimer pt target p)
| fs_fire now top p p' : fire now top p = Some p' -> fire_step p p'
| fs_hand p p' : hand p = Some p' -> fire_step p p'
| fs_begin e p p' : exec_begin e p = Some p' -> fire_step p p'
| fs_sleep e p p' : exec_sleep e p = Some p' -> fire_step p p'
| fs_wake e p p' : exec_wake e p = Some p' -> fire_step p p'
| fs_fetch e p p' : exec_fetch e p = Some p' -> fire_step p p'
| fs_end e p p' : exec_end e p = Some p' -> fire_step p p'.

(** With calls that stop or remove a timer from outside its listener. *)
Inductive pool_step : Pool -> Pool -> Prop :=
| ps_fire p p' : fire_step p p' -> pool_step p p'
| ps_stop pt p p' : stop pt p = Some p' -> pool_step p p'
| ps_remove pt p : pool_step p (removeTimer pt p)
| ps_again i p p' : wait_again i p = Some p' -> pool_step p p'.

(** ** The ordered map *)

Definition key_lt (a b : timespec * Timer) : Prop := ts_lt a.1 b.1 = true.

(** Keys in order, each timer once. *)
Record timers_wf (l : RunningTimers) : Prop := {
  tw_sorted : StronglySorted key_lt l;
  tw_once : NoDup l.*2;
}.

Lemma ts_lt_spec a b :
  ts_lt a b = true <-> (tv_sec a < tv_sec b \/ (tv_sec a = tv_sec b /\ tv_nsec a < tv_nsec b))%Z.
Proof. unfold ts_lt. rewrite orb_true_iff, andb_true_iff, !Z.ltb_lt, Z.eqb_eq. done. Qed.

Lemma ts_lt_false a b : ts_lt a b = false -> ts_lt b a = false -> a = b.
Proof.
  intros H1 H2. apply not_true_iff_false in H1, H2. rewrite ts_lt_spec in H1, H2.
  destruct a, b. cbn in *. f_equal; lia.
Qed.

Lemma ts_lt_irrefl a : ts_lt a a = false.
Proof. apply not_true_iff_false. rewrite ts_lt_spec. lia. Qed.

Lemma ts_lt_trans a b c : ts_lt a b = true -> ts_lt b c = true -> ts_lt a c = true.
Proof. rewrite !ts_lt_spec. lia. Qed.

Lemma elem_of_rt_insert k v l x :
  x ∈ rt_insert k v l -> x = (k, v) \/ x ∈ l.
Proof.
  induction l as [|[k' v'] l IH]; cbn; [rewrite list_elem_of_singleton; auto|].
  destruct (ts_lt k k'); [rewrite !elem_of_cons; tauto|]. destruct (ts_lt k' k); [|tauto].
  rewrite !elem_of_cons. tauto.
Qed.

Lemma rt_insert_sorted k v l : StronglySorted key_lt l -> StronglySorted key_lt (rt_insert k v l).
Proof.
  induction 1 as [|[k' v'] l Hs IH Hall]; cbn; [now repeat constructor|].
  destruct (ts_lt k k') eqn:E1.
  - constructor; [now constructor|]. constructor; [exact E1|].
    eapply Forall_impl; [exact Hall|]. intros x Hx. now apply (ts_lt_trans _ k').
  - destruct (ts_lt k' k) eqn:E2; [|now constructor]. constructor; [done|].
    rewrite Forall_forall in *. intros x Hx. apply elem_of_rt_insert in Hx as [->|Hx]; [done|].
    now apply Hall.
Qed.

(** The new element is there, and nothing else changes, when the key is
    free. *)
Lemma rt_insert_free k v l :
  (forall v', (k, v') ∉ l) -> forall x, x ∈ rt_insert k v l <-> x = (k, v) \/ x ∈ l.
Proof.
  intros Hf x. split; [apply elem_of_rt_insert|]. induction l as [|[k' v'] l IH]; cbn.
  - rewrite list_elem_of_singleton. intros [->|H]; [done|inversion H].
  - assert (k <> k') as Hk by (intros ->; apply (Hf v'); left).
    assert (forall v'', (k, v'') ∉ l) as Hf' by (intros v'' Hin; apply (Hf v''); now right).
    destruct (ts_lt k k') eqn:E1; [rewrite !elem_of_cons; tauto|].
    destruct (ts_lt k' k) eqn:E2; [|now contradict Hk; apply ts_lt_false].
    rewrite !elem_of_cons. specialize (IH Hf'). tauto.
Qed.

Lemma rt_insert_taken k v v' l : StronglySorted key_lt l -> (k, v') ∈ l -> rt_insert k v l = l.
Proof.
  induction 1 as [|[k1 v1] l Hs IH Hall]; intros Hin; [inversion Hin|]. cbn.
  apply elem_of_cons in Hin as [Heq|Hin].
  - injection Heq as <- <-. now rewrite ts_lt_irrefl.
  - assert (ts_lt k1 k = true) as E.
    { rewrite Forall_forall in Hall. now apply (Hall (k, v')). }
    rewrite E. destruct (ts_lt k k1) eqn:E2; [|now rewrite IH].
    pose proof (ts_lt_trans _ _ _ E E2) as Hc. now rewrite ts_lt_irrefl in Hc.
Qed.

Lemma elem_of_rt_erase k l x : x ∈ rt_erase k l <-> x ∈ l /\ x.1 <> k.
Proof.
  unfold rt_erase. rewrite !list_elem_of_In, filter_In, negb_true_iff, bool_decide_eq_false. done.
Qed.

Lemma rt_erase_sorted k l : StronglySorted key_lt l -> StronglySorted key_lt (rt_erase k l).
Proof.
  induction 1 as [|x l Hs IH Hall]; cbn; [constructor|]. destruct (negb _); [|done]. constructor; [done|].
  rewrite Forall_forall in *. intros y Hy. apply Hall. now apply elem_of_rt_erase in Hy as [? _].
Qed.

Lemma isRunning_Some pt l k : isRunning pt l = Some k -> (k, pt) ∈ l.
Proof.
  induction l as [|[k' v'] l IH]; cbn; [discriminate|]. case_bool_decide as E.
  - intros H. injection H as ->. subst. left.
  - intros H. right. now apply IH.
Qed.

Lemma isRunning_None pt l : isRunning pt l = None <-> pt ∉ l.*2.
Proof.
  induction l as [|[k' v'] l IH]; cbn; [split; [intros _ H; inversion H|done]|].
  rewrite not_elem_of_cons. case_bool_decide as E; [|rewrite IH; intuition].
  split; [discriminate|]. intros [H _]. now subst.
Qed.

Lemma rt_insert_once k v l : v ∉ l.*2 -> NoDup l.*2 -> NoDup (rt_insert k v l).*2.
Proof.
  induction l as [|[k' v'] l IH]; cbn; intros Hv Hn; [apply NoDup_singleton|].
  apply not_elem_of_cons in Hv as [Hv1 Hv2]. apply NoDup_cons in Hn as [Hn1 Hn2].
  destruct (ts_lt k k'); cbn.
  - apply NoDup_cons. split; [apply not_elem_of_cons; done|]. now apply NoDup_cons.
  - destruct (ts_lt k' k); cbn; apply NoDup_cons; [|done]. split; [|now apply IH].
    intros H. apply list_elem_of_fmap in H as ([k1 v1] & E & H). cbn in E. subst v1.
    apply elem_of_rt_insert in H as [H|H]; [injection H as _ ->; done|].
    apply Hn1, list_elem_of_fmap. eexists; split; [|exact H]; done.
Qed.

Lemma rt_erase_once k l : NoDup l.*2 -> NoDup (rt_erase k l).*2.
Proof.
  induction l as [|[k' v'] l IH]; cbn; intros Hn; [done|]. apply NoDup_cons in Hn as [Hn1 Hn2].
  destruct (negb _); cbn; [|now apply IH]. apply NoDup_cons. split; [|now apply IH].
  intros H. apply list_elem_of_fmap in H as (x & E & H). apply elem_of_rt_erase in H as [H _].
  apply Hn1, list_elem_of_fmap. now exists x.
Qed.

Lemma timer_key_unique (l : RunningTimers) k k' v : NoDup l.*2 -> (k, v) ∈ l -> (k', v) ∈ l -> k = k'.
Proof.
  induction l as [|[k1 v1] l IH]; cbn; intros Hn H1 H2; [inversion H1|]. apply NoDup_cons in Hn as [Hn1 Hn2].
  assert (forall k, (k, v) ∈ l -> v ∈ l.*2) as Hin by (intros k2 H; apply list_elem_of_fmap; eexists; split; [|exact H]; done).
  apply elem_of_cons in H1 as [H1|H1], H2 as [H2|H2]; simplify_eq; try done; [..|now apply IH].
  - now apply Hin in H2.
  - now apply Hin in H1.
Qed.

Lemma key_timer_unique (l : RunningTimers) k v v' : StronglySorted key_lt l -> (k, v) ∈ l -> (k, v') ∈ l -> v = v'.
Proof.
  induction 1 as [|[k1 v1] l Hs IH Hall]; intros H E; [inversion H|]. rewrite Forall_forall in Hall.
  assert (forall v, (k1, v) ∉ l) as Hno.
  { intros w Hw. specialize (Hall _ Hw). unfold key_lt in Hall. cbn in Hall. now rewrite ts_lt_irrefl in Hall. }
  apply elem_of_cons in H as [H|H], E as [E|E]; simplify_eq; try done; [..|now apply IH].
  - now apply Hno in E.
  - now apply Hno in H.
Qed.

Lemma rt_erase_gone k v l : NoDup l.*2 -> (k, v) ∈ l -> v ∉ (rt_erase k l).*2.
Proof.
  intros Hn H Hin. apply list_elem_of_fmap in Hin as ([k' v'] & E & Hin). cbn in E. subst v'.
  apply elem_of_rt_erase in Hin as [Hin Hk]. apply Hk. cbn. eauto using timer_key_unique.
Qed.

Lemma wf_insert k v l : timers_wf l -> v ∉ l.*2 -> timers_wf (rt_insert k v l).
Proof. intros [Hs Ho] Hv. split; [now apply rt_insert_sorted|now apply rt_insert_once]. Qed.

Lemma wf_erase k l : timers_wf l -> timers_wf (rt_erase k l).
Proof. intros [Hs Ho]. split; [now apply rt_erase_sorted|now apply rt_erase_once]. Qed.

#[export] Hint Resolve wf_insert wf_erase rt_erase_gone isRunning_Some : node.

Lemma startTimer_wf pt target p :
  timers_wf (m_runningTimers p) -> timers_wf (m_runningTimers (startTimer pt target p)).
Proof.
  intros Hw. unfold startTimer. destruct (isRunning pt _) as [t|] eqn:E.
  - case_bool_decide; [done|]. cbn. apply wf_insert; [now apply wf_erase|].
    apply rt_erase_gone; [apply Hw|now apply isRunning_Some].
  - cbn. apply wf_insert; [done|]. now apply isRunning_None.
Qed.

(** Starting a timer when no other timer has the same target time: it is
    running with that target and not idle, and the others are as before. *)
Lemma startTimer_spec pt target p :
  timers_wf (m_runningTimers p) -> (forall v, (target, v) ∈ m_runningTimers p -> v = pt) ->
  isRunning pt (m_runningTimers p) = None \/ pt ∉ m_idleTimers p ->
  (target, pt) ∈ m_runningTimers (startTimer pt target p)
  /\ pt ∉ m_idleTimers (startTimer pt target p)
  /\ (forall k v, v <> pt -> (k, v) ∈ m_runningTimers (startTimer pt target p) <-> (k, v) ∈ m_runningTimers p)
  /\ (forall v, v <> pt -> v ∈ m_idleTimers (startTimer pt target p) <-> v ∈ m_idleTimers p).
Proof.
  intros Hw Hfree Hidle. unfold startTimer. destruct (isRunning pt _) as [t|] eqn:E.
  - apply isRunning_Some in E. destruct Hidle as [H|Hidle]; [discriminate|].
    case_bool_decide as Et; [subst t; split_and!; try done|]. cbn.
    assert (forall v', (target, v') ∉ rt_erase t (m_runningTimers p)) as Hf.
    { intros v' H. apply elem_of_rt_erase in H as [H _]. pose proof (Hfree _ H). subst v'.
      apply Et. exact (timer_key_unique _ _ _ _ (tw_once _ Hw) E H). }
    split_and!; [|done| |done].
    + rewrite rt_insert_free by done. now left.
    + intros k v Hv. rewrite rt_insert_free by done. rewrite elem_of_rt_erase. cbn. split.
      * intros [H|[H _]]; [congruence|done].
      * intros H. right. split; [done|]. intros ->. apply Hv.
        exact (key_timer_unique _ _ _ _ (tw_sorted _ Hw) H E).
  - rewrite isRunning_None in E.
    assert (forall v', (target, v') ∉ m_runningTimers p) as Hf.
    { intros v' H. pose proof (Hfree _ H). subst v'. apply E, list_elem_of_fmap. eexists; split; [|exact H]; done. }
    cbn. split_and!; [rewrite rt_insert_free by done; now left|set_solver| |set_solver].
    intros k v Hv. rewrite rt_insert_free by done. split; [intros [H|H]; [congruence|done]|auto].
Qed.

(** ** The executors *)

(** What holds between the executors, the container and the management
    thread, as long as listeners do not stop or remove their own timer. *)
Record pool_inv (p : Pool) : Prop := {
  pi_wf : timers_wf (m_runningTimers p);
  pi_run t e : m_running p !! t = Some e <-> exists x, m_executors p !! e = Some x /\ ex_timer x = Some t;
  pi_idle e : e ∈ m_idle p <-> exists x, m_executors p !! e = Some x /\ ex_timer x = None;
  pi_thread e x t : m_executors p !! e = Some x -> ex_thread x = Fetching t \/ ex_thread x = Handling t ->
    ex_timer x = Some t;
  pi_zero e x : m_executors p !! e = Some x -> ex_timer x = None -> ex_do_count x = 0%Z;
  pi_main e pt : m_main p = MHanding e pt ->
    exists x, m_executors p !! e = Some x
      /\ (ex_timer x = Some pt \/ (ex_timer x = None /\ m_running p !! pt = None));
}.

(** The invariant does not look at the idle timers, the waiting calls and the
    observations. *)
Lemma inv_frame p q :
  pool_inv p -> timers_wf (m_runningTimers q) -> m_executors q = m_executors p -> m_idle q = m_idle p ->
  m_running q = m_running p -> m_main q = m_main p -> pool_inv q.
Proof. intros [] ? E1 E2 E3 E4. split; rewrite ?E1, ?E2, ?E3, ?E4; done. Qed.

(** One executor changes and keeps its timer. *)
Lemma inv_same_timer p e x x' :
  pool_inv p -> m_executors p !! e = Some x -> ex_timer x' = ex_timer x ->
  (forall t, ex_thread x' = Fetching t \/ ex_thread x' = Handling t -> ex_timer x = Some t) ->
  (ex_timer x = None -> ex_do_count x' = 0%Z) ->
  pool_inv (set_executor e x' p).
Proof.
  intros [Hw Hr Hi Ht Hz Hm] He Et Hth Hc.
  assert (forall e1 (P : option Timer -> Prop),
    (exists x1, (<[e := x']> (m_executors p)) !! e1 = Some x1 /\ P (ex_timer x1))
    <-> exists x1, m_executors p !! e1 = Some x1 /\ P (ex_timer x1)) as Hx.
  { intros e1 P. destruct (decide (e1 = e)) as [->|Hne].
    - rewrite list_lookup_insert_eq by (eapply lookup_lt_Some; eauto). split.
      + intros (y & E & HP). injection E as <-. exists x. now rewrite <- Et.
      + intros (y & E & HP). exists x'. rewrite Et. split; [done|]. congruence.
    - now rewrite list_lookup_insert_ne. }
  split; cbn.
  - done.
  - intros t e1. rewrite Hr. symmetry. apply (Hx e1 (fun o => o = Some t)).
  - intros e1. rewrite Hi. symmetry. apply (Hx e1 (fun o => o = None)).
  - intros e1 y t Hy. apply list_lookup_insert_Some in Hy as [(-> & <- & _)|[_ Hy]]; [|eauto]. rewrite Et. apply Hth.
  - intros e1 y Hy. apply list_lookup_insert_Some in Hy as [(-> & <- & _)|[_ Hy]]; [|eauto]. rewrite Et. apply Hc.
  - intros e1 pt Hmain. destruct (Hm _ _ Hmain) as (y & Hy & HP).
    apply (Hx e1 (fun o => o = Some pt \/ (o = None /\ m_running p !! pt = None))). eauto.
Qed.

(** One executor becomes free. *)
Lemma inv_set_idle p e x t th :
  pool_inv p -> m_executors p !! e = Some x -> ex_timer x = Some t -> (forall t, th <> Fetching t /\ th <> Handling t) ->
  pool_inv (set_executor e (mkExecutor None 0 th) (setIdle e t p)).
Proof.
  intros [Hw Hr Hi Ht Hz Hm] He Et Hth.
  assert (e < length (m_executors p))%nat as Hlt by (eapply lookup_lt_Some; eauto).
  assert (m_running p !! t = Some e) as Hrt by (apply Hr; eauto).
  split; cbn.
  - done.
  - intros t1 e1. rewrite lookup_delete_Some, Hr. split.
    + intros (Hne & y & Hy & Ey). exists y. split; [|done]. rewrite list_lookup_insert_ne; [done|]. intros ->. congruence.
    + intros (y & Hy & Ey). apply list_lookup_insert_Some in Hy as [(-> & <- & _)|[Hne Hy]]; [discriminate|].
      split; [|eauto]. intros ->. assert (m_running p !! t1 = Some e1) as H1 by (apply Hr; eauto). congruence.
  - intros e1. rewrite elem_of_union, elem_of_singleton, Hi. split.
    + intros [->|(y & Hy & Ey)]; [exists (mkExecutor None 0 th); now rewrite list_lookup_insert_eq|].
      exists y. split; [|done]. rewrite list_lookup_insert_ne; [done|]. intros ->. congruence.
    + intros (y & Hy & Ey). apply list_lookup_insert_Some in Hy as [(-> & _ & _)|[_ Hy]]; eauto.
  - intros e1 y t1 Hy Hthr. apply list_lookup_insert_Some in Hy as [(-> & <- & _)|[_ Hy]]; [|eauto].
    cbn in Hthr. destruct (Hth t1). destruct Hthr; done.
  - intros e1 y Hy. apply list_lookup_insert_Some in Hy as [(-> & <- & _)|[_ Hy]]; [done|eauto].
  - intros e1 pt Hmain. destruct (Hm _ _ Hmain) as (y & Hy & HP). destruct (decide (e1 = e)) as [->|Hne].
    + exists (mkExecutor None 0 th). rewrite list_lookup_insert_eq by done. split; [done|]. right. split; [done|].
      destruct HP as [HP|[HP _]]; assert (y = x) as -> by congruence; [|congruence].
      assert (pt = t) as -> by congruence. apply lookup_delete_eq.
    + exists y. rewrite list_lookup_insert_ne by done. split; [done|]. destruct HP as [HP|[HP HN]]; [now left|right].
      split; [done|]. now apply lookup_delete_None; right.
Qed.

(** A free executor takes a timer. *)
Lemma inv_set_running p e x t n th :
  pool_inv p -> m_executors p !! e = Some x -> ex_timer x = None -> m_running p !! t = None ->
  (forall t', th <> Fetching t' /\ th <> Handling t') ->
  pool_inv (set_main MLoop (set_executor e (mkExecutor (Some t) n th) (setRunning e t p))).
Proof.
  intros [Hw Hr Hi Ht Hz Hm] He Et Hn Hth. unfold setRunning. rewrite Hn.
  assert (e < length (m_executors p))%nat as Hlt by (eapply lookup_lt_Some; eauto).
  split; cbn.
  - done.
  - intros t1 e1. rewrite lookup_insert_Some, Hr. split.
    + intros [[<- <-]|(Hne & y & Hy & Ey)].
      * exists (mkExecutor (Some t) n th). now rewrite list_lookup_insert_eq.
      * exists y. rewrite list_lookup_insert_ne; [done|]. intros ->. congruence.
    + intros (y & Hy & Ey). apply list_lookup_insert_Some in Hy as [(-> & <- & _)|[Hne Hy]].
      * left. now injection Ey.
      * right. split; [|eauto]. intros ->. assert (m_running p !! t1 = Some e1) as H1 by (apply Hr; eauto). congruence.
  - intros e1. rewrite elem_of_difference, elem_of_singleton, Hi. split.
    + intros [(y & Hy & Ey) Hne]. exists y. now rewrite list_lookup_insert_ne.
    + intros (y & Hy & Ey). apply list_lookup_insert_Some in Hy as [(-> & <- & _)|[Hne Hy]]; [discriminate|].
      split; eauto.
  - intros e1 y t1 Hy Hthr. apply list_lookup_insert_Some in Hy as [(-> & <- & _)|[_ Hy]]; [|eauto].
    cbn in Hthr. destruct (Hth t1). destruct Hthr; done.
  - intros e1 y Hy Ey. apply list_lookup_insert_Some in Hy as [(-> & <- & _)|[_ Hy]]; [discriminate|eauto].
  - done.
Qed.

(** Handing over always succeeds, and keeps the invariant. *)
Lemma hand_ok p e pt :
  pool_inv p -> m_main p = MHanding e pt ->
  exists x q, m_executors p !! e = Some x /\ tryExecute e pt p = Some (true, q) /\ hand p = Some (set_main MLoop q)
    /\ pool_inv (set_main MLoop q)
    /\ m_executors q !! e = Some (mkExecutor (Some pt) (ex_do_count x + 1)
         (if bool_decide (ex_thread x = Asleep) then AtLoop else ex_thread x))
    /\ m_running q !! pt = Some e.
Proof.
  intros Hp Hmain. destruct (pi_main _ Hp _ _ Hmain) as (x & Hx & HP).
  assert (e < length (m_executors p))%nat as Hlt by (eapply lookup_lt_Some; eauto).
  set (th := if bool_decide (ex_thread x = Asleep) then AtLoop else ex_thread x).
  unfold hand, tryExecute. rewrite Hmain, Hx. cbn [mbind option_bind].
  assert (default pt (ex_timer x) = pt) as Hd by (destruct HP as [->|[-> _]]; done).
  rewrite Hd, bool_decide_eq_true_2 by done. fold th. eexists x, _.
  split; [done|]. split; [reflexivity|]. cbn [snd]. split; [reflexivity|].
  destruct HP as [HP|[HP HN]].
  - assert (m_running p !! pt = Some e) as Hr by (apply (pi_run _ Hp); eauto).
    assert ((if (ex_do_count x =? 0)%Z then setRunning e pt p else p) = p) as ->
      by (unfold setRunning; rewrite Hr; now destruct (_ =? _)%Z).
    cbn. rewrite list_lookup_insert_eq by done. split_and!; [|done|done].
    assert (pool_inv (set_executor e (mkExecutor (Some pt) (ex_do_count x + 1) th) p)) as Hq.
    { apply (inv_same_timer _ _ x); [done|done|done| |congruence].
      intros t Ht. cbn in Ht. apply (pi_thread _ Hp _ _ _ Hx). subst th. case_bool_decide; [destruct Ht; discriminate|done]. }
    destruct Hq as [? ? ? ? ? ?]. split; done.
  - rewrite (pi_zero _ Hp _ _ Hx HP). cbn [Z.eqb]. split.
    + apply (inv_set_running _ _ x); try done. intros t'. subst th.
      assert (forall t', ~ (ex_thread x = Fetching t' \/ ex_thread x = Handling t')) as Hno.
      { intros t2 H2. pose proof (pi_thread _ Hp _ _ _ Hx H2). congruence. }
      case_bool_decide; [done|]. specialize (Hno t'). split; intros E; apply Hno; auto.
    + unfold setRunning. rewrite HN. cbn. rewrite list_lookup_insert_eq, lookup_insert_eq by done. done.
Qed.

(** Choosing an executor. *)
Lemma getExecutor_ok p pt top e q :
  pool_inv p -> m_main p = MLoop -> getExecutor pt top p = Some (e, q) -> pool_inv (set_main (MHanding e pt) q).
Proof.
  intros Hp Hmain H. unfold getExecutor in H. destruct (m_running p !! pt) as [e0|] eqn:Er.
  - injection H as -> ->. destruct (pi_run _ Hp pt e) as [Hx _]. destruct (Hx Er) as (x & Hx1 & Hx2). clear Hx.
    destruct Hp. split; try done. cbn. intros e1 pt1 E. injection E as <- <-. eauto.
  - assert (exists q', pool_inv q' /\ m_running q' !! pt = None /\ top ∈ m_idle q' /\ e = top /\ q = q') as
      (q' & Hq & Hn & Hin & -> & ->).
    { cbv zeta in H. destruct (decide (m_idle p = ∅)) as [Hi|Hi];
        [rewrite (bool_decide_eq_true_2 _ Hi) in H|rewrite (bool_decide_eq_false_2 _ Hi) in H].
      - case_bool_decide as Ht; [|discriminate]. exists q. injection H as <- <-. split_and!; [|done|done|done|done].
        destruct Hp as [Hw Hr Hid Hth Hz Hm]. split; cbn; try done.
        + intros t e1. rewrite Hr. split; intros (x & Hx & Ex); exists x; (split; [|done]).
          * now apply lookup_app_l_Some.
          * apply lookup_app_Some in Hx as [Hx|[_ Hx]]; [done|]. apply list_lookup_singleton_Some in Hx as [_ <-]. discriminate.
        + intros e1. rewrite elem_of_singleton. split.
          * intros ->. exists Executor_new. split; [|done]. now apply list_lookup_middle.
          * intros (x & Hx & Ex). apply lookup_app_Some in Hx as [Hx|[Hle Hx]].
            -- assert (e1 ∈ m_idle p) as He by (apply Hid; eauto). set_solver.
            -- apply list_lookup_singleton_Some in Hx as [He _]. lia.
        + intros e1 x t Hx. apply lookup_app_Some in Hx as [Hx|[_ Hx]]; [eauto|].
          apply list_lookup_singleton_Some in Hx as [_ <-]. intros [E|E]; discriminate E.
        + intros e1 x Hx. apply lookup_app_Some in Hx as [Hx|[_ Hx]]; [eauto|].
          now apply list_lookup_singleton_Some in Hx as [_ <-].
        + rewrite Hmain. done.
      - case_bool_decide as Ht; [|discriminate]. injection H as <- <-. eauto 10. }
    apply (pi_idle _ Hq) in Hin as (x & Hx & Ex). destruct Hq. split; try done. cbn.
    intros e1 pt1 E. injection E as <- <-. eauto.
Qed.

Lemma fire_inv now top p p' : pool_inv p -> fire now top p = Some p' -> pool_inv p'.
Proof.
  intros Hp H. unfold fire in H. destruct (m_main p) eqn:Em; [|discriminate].
  destruct (getFirstOfRunningTimers _) as [[t pt]|]; [|discriminate]. destruct (isTimeReached now t); [|discriminate].
  apply bind_Some in H as ([e q] & Hg & H). injection H as <-. revert Hg. apply getExecutor_ok; [|done].
  apply (inv_frame p); try done. cbn. apply wf_erase, Hp.
Qed.

Lemma reduceCount_inv p e x t th :
  pool_inv p -> m_executors p !! e = Some x -> ex_thread x = Handling t -> (forall t, th <> Fetching t /\ th <> Handling t) ->
  pool_inv (reduceCount e (mkExecutor (ex_timer x) (ex_do_count x) th) p).
Proof.
  intros Hp Hx Hth Hno. assert (ex_timer x = Some t) as Et by (apply (pi_thread _ Hp _ _ _ Hx); auto).
  unfold reduceCount. cbn [ex_timer ex_do_count ex_thread]. rewrite Et. destruct (_ <=? 0)%Z.
  - now apply (inv_set_idle _ _ x).
  - apply (inv_same_timer _ _ x); try done. cbn. intros t1 [E|E]; destruct (Hno t1); done. congruence.
Qed.

Lemma fire_step_inv p p' : pool_inv p -> fire_step p p' -> pool_inv p'.
Proof.
  intros Hp H. destruct H as [t p|pt target p _|now top p p' H|p p' H|e p p' H|e p p' H|e p p' H|e p p' H|e p p' H].
  - apply (inv_frame p); try done. apply Hp.
  - apply (inv_frame p); try done; [apply startTimer_wf, Hp|..]; unfold startTimer;
      destruct (isRunning _ _); try case_bool_decide; done.
  - eauto using fire_inv.
  - destruct (m_main p) as [|e pt] eqn:Em; [unfold hand in H; rewrite Em in H; discriminate|].
    destruct (hand_ok p e pt Hp Em) as (x & q & _ & _ & Hh & Hq & _). congruence.
  - apply bind_Some in H as (x & Hx & H). destruct (ex_thread x) eqn:Eth, (ex_timer x) as [t'|] eqn:Et; try discriminate.
    injection H as <-. apply (inv_same_timer _ _ x); try done; cbn; intros; [|congruence]. destruct H as [E|E]; congruence.
  - apply bind_Some in H as (x & Hx & H). destruct (ex_thread x) eqn:Eth, (ex_timer x) as [t'|] eqn:Et; try discriminate.
    injection H as <-. apply (inv_same_timer _ _ x); try done; cbn; intros; [destruct H as [E|E]; discriminate|].
    eapply pi_zero; eauto.
  - apply bind_Some in H as (x & Hx & H). destruct (ex_thread x) eqn:Eth; try discriminate. injection H as <-.
    apply (inv_same_timer _ _ x); try done; cbn; intros; [destruct H as [E|E]; discriminate|]. eapply pi_zero; eauto.
  - apply bind_Some in H as (x & Hx & H). destruct (ex_thread x) eqn:Eth; try discriminate.
    destruct (guard_held t p); [discriminate|]. injection H as <-.
    apply (inv_frame (set_executor e (mkExecutor (ex_timer x) (ex_do_count x) (Handling t)) p)); try done; [|apply Hp].
    apply (inv_same_timer _ _ x); try done; cbn; intros; [|eapply pi_zero; eauto].
    apply (pi_thread _ Hp _ _ _ Hx). left. destruct H as [E|E]; congruence.
  - apply bind_Some in H as (x & Hx & H). destruct (ex_thread x) eqn:Eth; try discriminate. injection H as <-.
    eapply reduceCount_inv; eauto.
Qed.

Lemma discard_inv e pt p : pool_inv p -> pool_inv (discard e pt p).
Proof.
  intros Hp. unfold discard. destruct (m_executors p !! e) as [x|] eqn:Hx; [|done].
  case_bool_decide; [|done]. apply (inv_same_timer _ _ x); try done. cbn. intros t Ht.
  exact (pi_thread _ Hp _ _ _ Hx Ht).
Qed.

Lemma wait_for_inv pt g p : pool_inv p -> pool_inv (wait_for pt g p).
Proof. intros Hp. unfold wait_for. destruct (m_running p !! pt); [|done]. apply (inv_frame p); try done. apply Hp. Qed.

Lemma pool_step_inv p p' : pool_inv p -> pool_step p p' -> pool_inv p'.
Proof.
  intros Hp H. destruct H as [p p' H|pt p p' H|pt p|i p p' H].
  - eauto using fire_step_inv.
  - unfold stop in H. destruct (guard_held pt p); [discriminate|]. destruct (isRunning _ _) as [t|]; injection H as <-; [|done].
    apply wait_for_inv, (inv_frame p); try done. apply wf_erase, Hp.
  - unfold removeTimer, removed. apply wait_for_inv.
    destruct (isRunning _ _); apply (inv_frame p); try done; [apply wf_erase|]; apply Hp.
  - apply bind_Some in H as ([[pt e] g] & Hw & H). apply bind_Some in H as (x & Hx & H).
    case_bool_decide; injection H as <-; [now apply discard_inv|]. apply (inv_frame p); try done. apply Hp.
Qed.

Lemma Pool_new_inv n : pool_inv (Pool_new n).
Proof.
  split; cbn.
  - split; constructor.
  - intros t e. split; [done|]. intros (x & Hx & Et). apply lookup_replicate in Hx as [-> _]. discriminate.
  - intros e. rewrite elem_of_list_to_set, elem_of_seq. split.
    + intros He. exists Executor_new. split; [|done]. apply lookup_replicate. split; [done|]. destruct (0 <? n)%Z; lia.
    + intros (x & Hx & _). apply lookup_replicate in Hx as [_ Hlt]. lia.
  - intros e x t Hx. apply lookup_replicate in Hx as [-> _]. intros [H|H]; discriminate.
  - intros e x Hx. now apply lookup_replicate in Hx as [-> _].
  - done.
Qed.

Lemma runs_inv n p : rtc pool_step (Pool_new n) p -> pool_inv p.
Proof.
  intros H. remember (Pool_new n) as q eqn:E. assert (pool_inv q) as Hq by (rewrite E; apply Pool_new_inv). clear E.
  induction H; eauto using pool_step_inv.
Qed.

(** A timer's listener is called by one thread at a time, and handing a
    due timer to an executor always succeeds, whatever the executor has done
    in the meantime; for all interleavings in which listeners do not stop or
    remove their own timer. *)
Theorem listener_called_by_one_thread n p :
  rtc pool_step (Pool_new n) p ->
  (forall e1 e2 x1 x2 t, m_executors p !! e1 = Some x1 -> m_executors p !! e2 = Some x2 ->
     ex_thread x1 = Handling t -> ex_thread x2 = Handling t -> e1 = e2)
  /\ (forall e pt, m_main p = MHanding e pt -> exists q, tryExecute e pt p = Some (true, q) /\ is_Some (hand p)).
Proof.
  intros H. apply runs_inv in H. split.
  - intros e1 e2 x1 x2 t H1 H2 T1 T2.
    assert (m_running p !! t = Some e1) as R1 by (apply (pi_run _ H); exists x1; eauto using pi_thread).
    assert (m_running p !! t = Some e2) as R2 by (apply (pi_run _ H); exists x2; eauto using pi_thread). congruence.
  - intros e pt Hm. destruct (hand_ok p e pt H Hm) as (x & q & _ & Ht & Hh & _). rewrite Hh. eauto.
Qed.

(** ** Counting events *)

Definition occ (t : Timer) (l : list Timer) : nat := length (List.filter (fun u => bool_decide (u = t)) l).

(** Events of [t] that an executor still has to handle, and the one that is
    being handed over. *)
Definition pending (t : Timer) (p : Pool) : Z :=
  match m_running p !! t with
  | Some e =>
      match m_executors p !! e with
      | Some x => (ex_do_count x - if bool_decide (ex_thread x = Handling t) then 1 else 0)%Z
      | None => 0%Z
      end
  | None => 0%Z
  end.
Definition handing (t : Timer) (p : Pool) : Z :=
  match m_main p with MHanding _ u => if bool_decide (u = t) then 1%Z else 0%Z | MLoop => 0%Z end.

Record events_ok (p : Pool) : Prop := {
  eo_count t : Z.of_nat (occ t (log_due p)) = (Z.of_nat (occ t (log_handled p)) + pending t p + handing t p)%Z;
  eo_pos e x : m_executors p !! e = Some x -> is_Some (ex_timer x) -> (1 <= ex_do_count x)%Z;
}.

Lemma occ_snoc t u l : occ t (l ++ [u]) = (occ t l + if bool_decide (u = t) then 1 else 0)%nat.
Proof. unfold occ. rewrite List.filter_app, length_app. cbn. now case_bool_decide. Qed.

Definition load (t : Timer) (x : Executor) : Z :=
  (ex_do_count x - if bool_decide (ex_thread x = Handling t) then 1 else 0)%Z.

Lemma pending_executor p t e x :
  m_running p !! t = Some e -> m_executors p !! e = Some x -> pending t p = load t x.
Proof. intros H1 H2. unfold pending. now rewrite H1, H2. Qed.

Lemma pending_set_same p t e x' :
  m_running p !! t = Some e -> (e < length (m_executors p))%nat -> pending t (set_executor e x' p) = load t x'.
Proof. intros H1 H2. unfold pending. cbn. rewrite H1, list_lookup_insert_eq by done. done. Qed.

Lemma pending_set_other p t e x' : m_running p !! t <> Some e -> pending t (set_executor e x' p) = pending t p.
Proof.
  intros H1. unfold pending. cbn. destruct (m_running p !! t) as [e'|]; [|done].
  rewrite list_lookup_insert_ne; [done|]. congruence.
Qed.

(** An executor changes, with the load of its timer given. *)
Lemma pending_update p e x x' t0 d :
  pool_inv p -> m_executors p !! e = Some x -> (ex_timer x = Some t0 -> load t0 x' = (load t0 x + d)%Z) ->
  forall t, pending t (set_executor e x' p) = (pending t p + if bool_decide (ex_timer x = Some t /\ t = t0) then d else 0)%Z
    \/ (ex_timer x = Some t /\ t <> t0).
Proof.
  intros Hp Hx Hl t. assert (e < length (m_executors p))%nat as Hlt by (eapply lookup_lt_Some; eauto).
  destruct (decide (ex_timer x = Some t)) as [Et|Et].
  - destruct (decide (t = t0)) as [->|Hne]; [left|right; done].
    assert (m_running p !! t0 = Some e) as Hr by (apply (pi_run _ Hp); eauto).
    rewrite (pending_set_same _ _ _ _ Hr Hlt), (pending_executor _ _ _ _ Hr Hx), bool_decide_eq_true_2 by done. auto.
  - left. rewrite bool_decide_eq_false_2 by (intros [? _]; done). rewrite pending_set_other; [lia|].
    intros Hr. apply (pi_run _ Hp) in Hr as (y & Hy & Ey). congruence.
Qed.

Lemma eo_pos_set p e x' :
  (forall e x, m_executors p !! e = Some x -> is_Some (ex_timer x) -> (1 <= ex_do_count x)%Z) ->
  (is_Some (ex_timer x') -> (1 <= ex_do_count x')%Z) ->
  forall e1 x1, m_executors (set_executor e x' p) !! e1 = Some x1 -> is_Some (ex_timer x1) -> (1 <= ex_do_count x1)%Z.
Proof.
  intros H Hx e1 x1 H1. cbn in H1. apply list_lookup_insert_Some in H1 as [(-> & <- & _)|[_ H1]]; eauto.
Qed.

(** A step of an executor's thread that neither starts nor ends a listener. *)
Lemma events_quiet p e x th :
  pool_inv p -> events_ok p -> m_executors p !! e = Some x ->
  (forall t, th <> Handling t) -> (forall t, ex_thread x <> Handling t) ->
  events_ok (set_executor e (mkExecutor (ex_timer x) (ex_do_count x) th) p).
Proof.
  intros Hp [Hc Hpos] Hx H1 H2. split.
  - intros t. rewrite Hc. change (log_handled (set_executor _ _ _)) with (log_handled p).
    change (handing t (set_executor _ _ _)) with (handing t p). f_equal. f_equal.
    destruct (pending_update p e x (mkExecutor (ex_timer x) (ex_do_count x) th) t 0 Hp Hx) with (t := t) as [E|[_ E]].
    + intros _. unfold load. cbn. rewrite !bool_decide_eq_false_2 by done. lia.
    + rewrite E. destruct (bool_decide _); lia.
    + done.
  - apply eo_pos_set; [done|]. cbn. eauto.
Qed.

Lemma events_frame p q :
  events_ok p -> m_executors q = m_executors p -> m_running q = m_running p -> m_main q = m_main p ->
  log_due q = log_due p -> log_handled q = log_handled p -> events_ok q.
Proof. intros [Hc Hpos] E1 E2 E3 E4 E5. split; unfold pending, handing; rewrite ?E1, ?E2, ?E3, ?E4, ?E5; done. Qed.

Lemma events_fire now top p p' : pool_inv p -> events_ok p -> fire now top p = Some p' -> events_ok p'.
Proof.
  intros Hp [Hc Hpos] H. unfold fire in H. destruct (m_main p) eqn:Em; [|discriminate].
  destruct (getFirstOfRunningTimers _) as [[t pt]|]; [|discriminate]. destruct (isTimeReached now t); [|discriminate].
  apply bind_Some in H as ([e q] & Hg & H). injection H as <-.
  assert (exists extra, m_executors q = m_executors p ++ extra /\ (forall x, x ∈ extra -> x = Executor_new)
    /\ m_running q = m_running p /\ log_due q = log_due p ++ [pt] /\ log_handled q = log_handled p)
    as (extra & E1 & Ex & E2 & E3 & E4).
  { unfold getExecutor in Hg. cbn in Hg. destruct (m_running p !! pt).
    - injection Hg as _ <-. exists []. cbn. rewrite app_nil_r. split_and!; try done. intros x Hx. inversion Hx.
    - destruct (bool_decide (m_idle p = ∅)); (destruct (bool_decide _); [|discriminate]); injection Hg as _ <-.
      + exists [Executor_new]. cbn. split_and!; try done. intros x Hx. now apply list_elem_of_singleton in Hx.
      + exists []. cbn. rewrite app_nil_r. split_and!; try done. intros x Hx. inversion Hx. }
  split.
  - intros u. cbn [log_due log_handled set_main]. rewrite E3, E4, occ_snoc. specialize (Hc u). unfold handing in *.
    rewrite Em in Hc. cbn [m_main set_main].
    assert (pending u (set_main (MHanding e pt) q) = pending u p) as ->.
    { unfold pending. cbn. rewrite E1, E2. destruct (m_running p !! u) as [e1|] eqn:Er; [|done].
      apply (pi_run _ Hp) in Er as (y & Hy & _). now rewrite Hy, (lookup_app_l_Some _ _ _ _ Hy). }
    case_bool_decide; lia.
  - intros e1 x. cbn [m_executors set_main]. rewrite E1. intros Hx. apply lookup_app_Some in Hx as [Hx|[_ Hx]]; [eauto|].
    apply list_elem_of_lookup_2, Ex in Hx as ->. intros [? H]. discriminate.
Qed.

Lemma setRunning_frame e t p :
  m_executors (setRunning e t p) = m_executors p /\ log_due (setRunning e t p) = log_due p
  /\ log_handled (setRunning e t p) = log_handled p
  /\ forall u, u <> t -> m_running (setRunning e t p) !! u = m_running p !! u.
Proof.
  unfold setRunning. destruct (m_running p !! t); [done|]. split_and!; try done. intros u Hu. cbn.
  now rewrite lookup_insert_ne.
Qed.

Lemma tryExecute_frame e pt p q :
  tryExecute e pt p = Some (true, q) ->
  log_due q = log_due p /\ log_handled q = log_handled p
  /\ (forall e1, e1 <> e -> m_executors q !! e1 = m_executors p !! e1)
  /\ (forall u, u <> pt -> m_running q !! u = m_running p !! u).
Proof.
  intros H. unfold tryExecute in H. apply bind_Some in H as (x & Hx & H). case_bool_decide; [|discriminate].
  injection H as <-. destruct (setRunning_frame e pt p) as (E1 & E2 & E3 & E4).
  destruct (ex_do_count x =? 0)%Z; cbn; rewrite ?E1; (split_and!; [done|done| |done]); intros e1 He; now rewrite list_lookup_insert_ne.
Qed.

Lemma events_hand p p' : pool_inv p -> events_ok p -> hand p = Some p' -> events_ok p'.
Proof.
  intros Hp [Hc Hpos] H. destruct (m_main p) as [|e pt] eqn:Em; [unfold hand in H; rewrite Em in H; discriminate|].
  destruct (hand_ok p e pt Hp Em) as (x & q & Hx & Htry & Hh & Hq & Eq & Er).
  rewrite Hh in H. injection H as <-. destruct (tryExecute_frame _ _ _ _ Htry) as (E1 & E2 & E3 & E4).
  destruct (pi_main _ Hp _ _ Em) as (x' & Hx' & HP). assert (x' = x) as -> by congruence.
  split.
  - intros t. cbn [log_due log_handled set_main]. rewrite E1, E2, Hc. unfold handing. rewrite Em. cbn [m_main set_main].
    change (pending t (set_main MLoop q)) with (pending t q). destruct (decide (pt = t)) as [<-|Hne].
    + rewrite bool_decide_eq_true_2 by done. rewrite (pending_executor q pt e _ Er Eq). unfold load. cbn.
      assert (bool_decide ((if bool_decide (ex_thread x = Asleep) then AtLoop else ex_thread x) = Handling pt)
              = bool_decide (ex_thread x = Handling pt)) as ->.
      { destruct (ex_thread x); done. }
      destruct HP as [HP|[HP HN]].
      * rewrite (pending_executor p pt e x) by (try apply (pi_run _ Hp); eauto). unfold load. lia.
      * unfold pending. rewrite HN, (pi_zero _ Hp _ _ Hx HP), bool_decide_eq_false_2; [lia|].
        intros Hth. assert (ex_timer x = Some pt) by (apply (pi_thread _ Hp _ _ _ Hx); auto). congruence.
    + rewrite bool_decide_eq_false_2 by done. assert (pending t q = pending t p) as ->; [|lia].
      unfold pending. rewrite E4 by done. destruct (m_running p !! t) as [e1|] eqn:Er1; [|done].
      rewrite E3; [done|]. intros ->. apply (pi_run _ Hp) in Er1 as (y & Hy & Ey).
      assert (y = x) as -> by congruence. destruct HP as [HP|[HP _]]; congruence.
  - intros e1 y Hy Hs. cbn in Hy. destruct (decide (e1 = e)) as [->|Hne]; [|rewrite E3 in Hy by done; eauto].
    rewrite Eq in Hy. injection Hy as <-. cbn.
    destruct (ex_timer x) eqn:Et; [specialize (Hpos _ _ Hx); rewrite Et in Hpos; specialize (Hpos ltac:(eauto)); lia|].
    rewrite (pi_zero _ Hp _ _ Hx Et). lia.
Qed.

Lemma events_fetch e p p' : pool_inv p -> events_ok p -> exec_fetch e p = Some p' -> events_ok p'.
Proof.
  intros Hp [Hc Hpos] H. apply bind_Some in H as (x & Hx & H). destruct (ex_thread x) as [| |t|] eqn:Eth; try discriminate.
  destruct (guard_held t p); [discriminate|]. injection H as <-.
  assert (ex_timer x = Some t) as Et by (apply (pi_thread _ Hp _ _ _ Hx); auto). split.
  - intros u. cbn [log_due log_handled add_handled]. change (log_due (set_executor _ _ _)) with (log_due p).
    change (log_handled (set_executor _ _ _)) with (log_handled p). rewrite Hc, occ_snoc.
    change (handing u (add_handled _ _)) with (handing u p).
    change (pending u (add_handled _ ?q)) with (pending u q).
    destruct (pending_update p e x (mkExecutor (ex_timer x) (ex_do_count x) (Handling t)) t (-1) Hp Hx) with (t := u)
      as [E|[E Hne]]; [| |congruence].
    + intros _. unfold load. cbn. rewrite Eth. repeat case_bool_decide; try done; lia.
    + change (pending u (mkPool ?a ?b ?c ?d ?f ?g ?h ?i ?j)) with (pending u (set_executor e (mkExecutor (ex_timer x) (ex_do_count x) (Handling t)) p)).
      rewrite E. destruct (decide (t = u)) as [->|Hne].
      * rewrite !bool_decide_eq_true_2 by done. lia.
      * rewrite !bool_decide_eq_false_2 by (try done; intros [_ ?]; congruence). lia.
  - apply (eo_pos_set p e (mkExecutor (ex_timer x) (ex_do_count x) (Handling t)) Hpos). cbn. eauto.
Qed.

Lemma events_end e p p' : pool_inv p -> events_ok p -> exec_end e p = Some p' -> events_ok p'.
Proof.
  intros Hp [Hc Hpos] H. apply bind_Some in H as (x & Hx & H). destruct (ex_thread x) as [| | |t] eqn:Eth; try discriminate.
  injection H as <-. assert (ex_timer x = Some t) as Et by (apply (pi_thread _ Hp _ _ _ Hx); auto).
  assert (e < length (m_executors p))%nat as Hlt by (eapply lookup_lt_Some; eauto).
  assert (m_running p !! t = Some e) as Hr by (apply (pi_run _ Hp); eauto).
  specialize (Hpos e x Hx) as Hx1. rewrite Et in Hx1. specialize (Hx1 ltac:(eauto)).
  unfold reduceCount. cbn [ex_timer ex_do_count ex_thread]. rewrite Et. destruct (Z.leb_spec (ex_do_count x - 1) 0) as [Hle|Hgt].
  - split.
    + intros u. cbn [log_due log_handled set_executor set_container setIdle]. rewrite Hc. do 2 f_equal.
      destruct (decide (u = t)) as [->|Hne].
      * rewrite (pending_executor _ _ _ _ Hr Hx). unfold pending, load. cbn. rewrite lookup_delete_eq, Eth.
        rewrite bool_decide_eq_true_2 by done. lia.
      * unfold pending. cbn. rewrite lookup_delete_ne by done. destruct (m_running p !! u) as [e1|] eqn:Er1; [|done].
        rewrite list_lookup_insert_ne; [done|]. intros ->. apply (pi_run _ Hp) in Er1 as (y & Hy & Ey). congruence.
    + apply (eo_pos_set (setIdle e t p) e); [done|]. cbn. intros [? ?]. discriminate.
  - split.
    + intros u. cbn [log_due log_handled set_executor set_container]. rewrite Hc. do 2 f_equal.
      destruct (pending_update p e x (mkExecutor (Some t) (ex_do_count x - 1) AtLoop) t 0 Hp Hx) with (t := u) as [E|[E Hne]];
        [| |congruence].
      * intros _. unfold load. cbn. rewrite Eth. repeat case_bool_decide; try done; lia.
      * change (pending u (mkPool ?a ?b ?c ?d ?f ?g ?h ?i ?j)) with (pending u (set_executor e (mkExecutor (Some t) (ex_do_count x - 1) AtLoop) p)).
        rewrite E. destruct (bool_decide _); lia.
    + apply eo_pos_set; [done|]. cbn. lia.
Qed.

Lemma fire_step_events p p' : pool_inv p -> events_ok p -> fire_step p p' -> events_ok p'.
Proof.
  intros Hp Ho H. destruct H as [t p|pt target p _|now top p p' H|p p' H|e p p' H|e p p' H|e p p' H|e p p' H|e p p' H];
    eauto using events_fire, events_hand, events_fetch, events_end.
  - now apply (events_frame p).
  - apply (events_frame p); [done|..]; unfold startTimer; destruct (isRunning _ _); try case_bool_decide; done.
  - apply bind_Some in H as (x & Hx & H). destruct (ex_thread x) eqn:Eth, (ex_timer x) as [t'|] eqn:Et; try discriminate.
    injection H as <-. rewrite <- Et. apply events_quiet; try done. intros t. rewrite Eth. done.
  - apply bind_Some in H as (x & Hx & H). destruct (ex_thread x) eqn:Eth, (ex_timer x) as [t'|] eqn:Et; try discriminate.
    injection H as <-. rewrite <- Et. apply events_quiet; try done. intros t. rewrite Eth. done.
  - apply bind_Some in H as (x & Hx & H). destruct (ex_thread x) eqn:Eth; try discriminate.
    injection H as <-. apply events_quiet; try done. intros t. rewrite Eth. done.
Qed.

(** Every due timer's listener is called: as long as timers are only
    started, the number of times a timer was due is the number of times its
    listener was called plus the events an executor has still to handle plus
    the one that is being handed over, and an executor with a timer has at
    least one event of it, counting the one it is handling. *)
Theorem due_events_are_handled n p t :
  rtc fire_step (Pool_new n) p ->
  Z.of_nat (occ t (log_due p)) = (Z.of_nat (occ t (log_handled p)) + pending t p + handing t p)%Z
  /\ (0 <= pending t p)%Z.
Proof.
  intros H. assert (pool_inv p /\ events_ok p) as [Hp Ho].
  { remember (Pool_new n) as q eqn:E. assert (pool_inv q /\ events_ok q) as Hq.
    { subst q. split; [apply Pool_new_inv|]. split; [done|]. intros e x Hx. cbn in Hx.
      apply lookup_replicate in Hx as [-> _]. intros [? ?]. discriminate. }
    clear E. induction H as [|p q p' H _ IH]; [done|]. destruct Hq. apply IH. eauto using fire_step_inv, fire_step_events. }
  split; [apply Ho|]. unfold pending. destruct (m_running p !! t) as [e|] eqn:Er; [|done].
  apply (pi_run _ Hp) in Er as (x & Hx & Et). rewrite Hx. pose proof (eo_pos _ Ho _ _ Hx) as H1. rewrite Et in H1.
  specialize (H1 ltac:(eauto)). case_bool_decide; lia.
Qed.

(** ** Starting and firing *)

Lemma head_elem {A} (l : list A) x : head l = Some x -> x ∈ l.
Proof. destruct l; [discriminate|]. intros H. injection H as ->. left. Qed.

(** Timers fire in the order of their target times and not before: what
    is taken is a running timer whose target time has passed, no running
    timer has an earlier target time, and the timer is idle afterwards. *)
Theorem fire_takes_earliest n p now top p' :
  rtc pool_step (Pool_new n) p -> fire now top p = Some p' ->
  exists k pt e, (k, pt) ∈ m_runningTimers p /\ ts_lt k now = true
    /\ (forall k' v, (k', v) ∈ m_runningTimers p -> (k', v) = (k, pt) \/ ts_lt k k' = true)
    /\ m_main p' = MHanding e pt /\ log_due p' = log_due p ++ [pt]
    /\ pt ∉ (m_runningTimers p').*2 /\ pt ∈ m_idleTimers p'.
Proof.
  intros Hr H. pose proof (pi_wf _ (runs_inv _ _ Hr)) as Hw. unfold fire in H. destruct (m_main p) eqn:Em; [|discriminate].
  destruct (getFirstOfRunningTimers _) as [[k pt]|] eqn:Eh; [|discriminate].
  destruct (isTimeReached now k) eqn:En; [|discriminate]. apply bind_Some in H as ([e q] & Hg & H). injection H as <-.
  unfold getFirstOfRunningTimers in Eh.
  assert (m_runningTimers q = rt_erase k (m_runningTimers p) /\ m_idleTimers q = {[pt]} ∪ m_idleTimers p
    /\ log_due q = log_due p ++ [pt]) as (E1 & E2 & E3).
  { unfold getExecutor in Hg. cbn in Hg. destruct (m_running p !! pt); [now injection Hg as _ <-|].
    destruct (bool_decide (m_idle p = ∅)); (destruct (bool_decide _); [|discriminate]); now injection Hg as _ <-. }
  exists k, pt, e. cbn. rewrite E1, E2, E3. pose proof (head_elem _ _ Eh) as Hin. split_and!; try done.
  - apply ts_lt_spec. unfold isTimeReached in En. rewrite orb_true_iff, andb_true_iff, !Z.ltb_lt, Z.eqb_eq in En. lia.
  - intros k' v Hv. destruct (m_runningTimers p) as [|y l]; [discriminate|]. injection Eh as ->.
    apply elem_of_cons in Hv as [->|Hv]; [now left|right]. pose proof (tw_sorted _ Hw) as Hs.
    inversion Hs as [|? ? _ Hall]; subst. rewrite Forall_forall in Hall. exact (Hall _ Hv).
  - apply rt_erase_gone; [apply Hw|done].
  - set_solver.
Qed.

(** Starting a timer puts it in with its target time, and takes it out of
    the idle timers, without touching the others, unless another timer has
    exactly the same target time: then it gets neither, and its event never
    comes. *)
Theorem startTimer_correct n p pt target :
  rtc pool_step (Pool_new n) p -> isRunning pt (m_runningTimers p) = None ->
  (((target, pt) ∈ m_runningTimers (startTimer pt target p)
      /\ (forall k v, v <> pt -> (k, v) ∈ m_runningTimers (startTimer pt target p) <-> (k, v) ∈ m_runningTimers p))
    \/ ((exists v, v <> pt /\ (target, v) ∈ m_runningTimers p)
      /\ isRunning pt (m_runningTimers (startTimer pt target p)) = None))
  /\ pt ∉ m_idleTimers (startTimer pt target p)
  /\ timers_wf (m_runningTimers (startTimer pt target p)).
Proof.
  intros Hr Hn. pose proof (pi_wf _ (runs_inv _ _ Hr)) as Hw.
  assert (pt ∉ m_idleTimers (startTimer pt target p)) as Hi by (unfold startTimer; rewrite Hn; cbn; set_solver).
  split; [|split; [done|now apply startTimer_wf]].
  destruct (decide (Exists (fun x => x.1 = target) (m_runningTimers p))) as [He|He].
  - right. apply Exists_exists in He as ([k v] & Hin & Hk). cbn in Hk. subst k. split.
    + exists v. split; [|done]. intros ->. apply isRunning_None in Hn. apply Hn, list_elem_of_fmap.
      eexists. split; [|exact Hin]. done.
    + unfold startTimer. rewrite Hn. cbn. now rewrite (rt_insert_taken _ _ v) by (done || apply Hw).
  - left. assert (forall v, (target, v) ∉ m_runningTimers p) as Hf.
    { intros v Hv. apply He, Exists_exists. eexists. split; [exact Hv|]. done. }
    destruct (startTimer_spec pt target p Hw) as (H1 & _ & H2 & _); [intros v Hv; now apply Hf in Hv|now left|done].
Qed.

(** ** What listeners and other threads can break *)

(** A listener that removes its own timer, as every delayed task's does,
    can lose another timer's event: the executor counts as free while its
    thread is still in the listener; a timer handed to it then is forgotten
    when the listener returns. *)
Theorem own_removal_loses_event p e x a k b now :
  pool_inv p -> m_executors p !! e = Some x -> ex_thread x = Handling a -> m_main p = MLoop ->
  head (m_runningTimers p) = Some (k, b) -> isTimeReached now k = true ->
  isRunning a (m_runningTimers p) = None -> m_running p !! b = None ->
  exists p1 p2 p3 p4, remove_own e p = Some p1 /\ fire now e p1 = Some p2 /\ hand p2 = Some p3 /\ exec_end e p3 = Some p4
    /\ log_due p4 = log_due p ++ [b] /\ log_handled p4 = log_handled p
    /\ pending b p4 = 0%Z /\ m_main p4 = MLoop /\ b ∉ (m_runningTimers p4).*2.
Proof.
  intros Hp Hx Hth Hm Hh Hnow Ha Hb.
  assert (ex_timer x = Some a) as Et by (apply (pi_thread _ Hp _ _ _ Hx); auto).
  assert (m_running p !! a = Some e) as Hra by (apply (pi_run _ Hp); eauto).
  assert (e < length (m_executors p))%nat as Hlt by (eapply lookup_lt_Some; eauto).
  assert (b <> a) as Hba by congruence. pose proof (pi_wf _ Hp) as Hw.
  eexists _, _, _, _. unfold remove_own, removed. rewrite Hx. cbn [mbind option_bind]. rewrite Hth, Ha. cbn [m_running set_timers set_container].
  rewrite Hra, Et, !bool_decide_eq_true_2 by done. cbn [andb]. split; [reflexivity|].
  unfold fire. cbn. rewrite Hm. unfold getFirstOfRunningTimers. rewrite Hh. cbn. rewrite Hnow.
  unfold getExecutor. cbn. rewrite lookup_delete_ne, Hb by done.
  rewrite (bool_decide_eq_false_2 ({[e]} ∪ m_idle p = ∅)) by set_solver.
  cbn. rewrite (bool_decide_eq_true_2 (e ∈ _)) by set_solver. cbn. split; [reflexivity|].
  unfold hand, tryExecute. cbn. rewrite list_lookup_insert_eq by done. cbn. rewrite (bool_decide_eq_true_2 (b = b)) by done.
  unfold setRunning. cbn. rewrite lookup_delete_ne, Hb by done. split; [reflexivity|].
  unfold exec_end. cbn. rewrite list_lookup_insert_eq by (rewrite length_insert; done). cbn.
  rewrite bool_decide_eq_false_2 by done. split; [reflexivity|]. cbn. split_and!; try done.
  - unfold pending, reduceCount. cbn. change (0 + 1 - 1 <=? 0)%Z with true. cbn. now rewrite lookup_delete_eq.
  - apply rt_erase_gone; [apply Hw|]. now apply head_elem.
Qed.

(** The call of [stop] waits for an executor with the timer's own mutex
    held, and the executor needs that mutex before it can call the
    listener. *)
Definition deadlocked (t : Timer) (e : nat) (p : Pool) : Prop :=
  (exists n, m_executors p !! e = Some (mkExecutor (Some t) n (Fetching t))) /\ (t, e, true) ∈ m_waiters p.

(** A step leaves executor [e] alone, or only changes its count. *)
Definition keeps_stuck (t : Timer) (e : nat) (p q : Pool) : Prop :=
  (forall n, m_executors p !! e = Some (mkExecutor (Some t) n (Fetching t)) ->
     exists n', m_executors q !! e = Some (mkExecutor (Some t) n' (Fetching t)))
  /\ ((t, e, true) ∈ m_waiters p -> (t, e, true) ∈ m_waiters q).

Lemma keeps_stuck_other t e p e' x' q :
  m_executors q = m_executors p -> m_waiters q = m_waiters p ->
  (e' = e -> forall n, m_executors p !! e = Some (mkExecutor (Some t) n (Fetching t)) ->
    exists n', x' = mkExecutor (Some t) n' (Fetching t)) ->
  keeps_stuck t e p (set_executor e' x' q).
Proof.
  intros E1 E2 H. split; cbn; rewrite ?E1, ?E2; [|done]. intros n Hn. destruct (decide (e' = e)) as [->|Hne].
  - rewrite list_lookup_insert_eq by (eapply lookup_lt_Some; eauto). destruct (H eq_refl n Hn) as [n' ->]. eauto.
  - rewrite list_lookup_insert_ne by done. eauto.
Qed.

Lemma keeps_stuck_refl t e p q : m_executors q = m_executors p -> m_waiters q = m_waiters p -> keeps_stuck t e p q.
Proof. intros E1 E2. unfold keeps_stuck. rewrite E1, E2. eauto. Qed.

(** A thread step of an executor that is not in the state [Fetching]. *)
Lemma keeps_stuck_thread t e p e' x x' q :
  m_executors p !! e' = Some x -> m_executors q = m_executors p -> m_waiters q = m_waiters p ->
  (forall u, ex_thread x <> Fetching u) -> keeps_stuck t e p (set_executor e' x' q).
Proof.
  intros Hx E1 E2 Hno. apply keeps_stuck_other; [done|done|]. intros -> n Hn.
  assert (x = mkExecutor (Some t) n (Fetching t)) as -> by congruence. now destruct (Hno t).
Qed.

Lemma fire_keeps_stuck t e now top p p' : fire now top p = Some p' -> keeps_stuck t e p p'.
Proof.
  intros H. unfold fire in H. destruct (m_main p); [|discriminate].
  destruct (getFirstOfRunningTimers _) as [[k pt]|]; [|discriminate]. destruct (isTimeReached now k); [|discriminate].
  apply bind_Some in H as ([e1 q] & Hg & H). injection H as <-. unfold getExecutor in Hg. cbn in Hg.
  destruct (m_running p !! pt); [injection Hg as _ <-; now apply keeps_stuck_refl|].
  destruct (bool_decide (m_idle p = ∅)); (destruct (bool_decide _); [|discriminate]); injection Hg as _ <-;
    [|now apply keeps_stuck_refl]. split; cbn; [|done]. intros n Hn. exists n. now apply lookup_app_l_Some.
Qed.

Lemma hand_keeps_stuck t e p p' : hand p = Some p' -> keeps_stuck t e p p'.
Proof.
  intros H. unfold hand in H. destruct (m_main p) as [|e1 pt]; [discriminate|].
  apply bind_Some in H as ([b q] & Ht & H). injection H as <-. unfold tryExecute in Ht. apply bind_Some in Ht as (x & Hx & Ht).
  case_bool_decide as Hd; [|injection Ht as _ <-; now apply keeps_stuck_refl]. injection Ht as _ <-.
  destruct (setRunning_frame e1 pt p) as (E1 & _).
  assert (m_waiters (setRunning e1 pt p) = m_waiters p) as E2 by (unfold setRunning; now destruct (m_running p !! pt)).
  apply (keeps_stuck_other t e p e1 _ (set_main MLoop (if (ex_do_count x =? 0)%Z then setRunning e1 pt p else p)));
    [destruct (_ =? _)%Z; done|destruct (_ =? _)%Z; done|].
  intros -> n Hn. assert (x = mkExecutor (Some t) n (Fetching t)) as -> by congruence. cbn in Hd. subst pt. cbn. eauto.
Qed.

Lemma guard_held_waiter t e p : (t, e, true) ∈ m_waiters p -> guard_held t p = true.
Proof.
  intros H. unfold guard_held. apply existsb_exists. exists (t, e, true). split; [now apply list_elem_of_In|].
  cbn. now rewrite bool_decide_eq_true_2.
Qed.

Lemma fire_step_keeps_stuck t e p p' :
  (t, e, true) ∈ m_waiters p -> fire_step p p' -> keeps_stuck t e p p'.
Proof.
  intros Hg H. apply guard_held_waiter in Hg.
  destruct H as [u p|pt target p _|now top p p' H|p p' H|e1 p p' H|e1 p p' H|e1 p p' H|e1 p p' H|e1 p p' H];
    eauto using fire_keeps_stuck, hand_keeps_stuck.
  - now apply keeps_stuck_refl.
  - unfold startTimer. destruct (isRunning _ _); try case_bool_decide; now apply keeps_stuck_refl.
  - apply bind_Some in H as (x & Hx & H). destruct (ex_thread x) eqn:Eth, (ex_timer x); try discriminate. injection H as <-.
    apply (keeps_stuck_thread _ _ _ _ x); try done. intros u. now rewrite Eth.
  - apply bind_Some in H as (x & Hx & H). destruct (ex_thread x) eqn:Eth, (ex_timer x); try discriminate. injection H as <-.
    apply (keeps_stuck_thread _ _ _ _ x); try done. intros u. now rewrite Eth.
  - apply bind_Some in H as (x & Hx & H). destruct (ex_thread x) eqn:Eth; try discriminate. injection H as <-.
    apply (keeps_stuck_thread _ _ _ _ x); try done. intros u. now rewrite Eth.
  - apply bind_Some in H as (x & Hx & H). destruct (ex_thread x) as [| |u|] eqn:Eth; try discriminate.
    destruct (guard_held u p) eqn:Eg; [discriminate|]. injection H as <-.
    apply (keeps_stuck_other t e p e1 _ (add_handled u p)); try done. intros -> n Hn.
    assert (x = mkExecutor (Some t) n (Fetching t)) as -> by congruence. injection Eth as ->. congruence.
  - apply bind_Some in H as (x & Hx & H). destruct (ex_thread x) eqn:Eth; try discriminate. injection H as <-.
    unfold reduceCount. cbn. destruct (ex_timer x); [destruct (_ <=? 0)%Z|];
      (apply (keeps_stuck_thread _ _ _ _ x); try done; intros u; now rewrite Eth).
Qed.

Lemma pool_step_keeps_stuck t e p p' : deadlocked t e p -> pool_step p p' -> keeps_stuck t e p p'.
Proof.
  intros [[n Hn] Hg] H. destruct H as [p p' H|pt p p' H|pt p|i p p' H].
  - now apply fire_step_keeps_stuck.
  - unfold stop in H. destruct (guard_held pt p); [discriminate|]. destruct (isRunning _ _); injection H as <-.
    + unfold wait_for. cbn. destruct (m_running p !! pt); [|now apply keeps_stuck_refl]. split; cbn; [eauto|].
      intros Hw. apply elem_of_app. now left.
    + now apply keeps_stuck_refl.
  - assert (m_executors (removed pt p) = m_executors p /\ m_waiters (removed pt p) = m_waiters p
      /\ m_running (removed pt p) = m_running p) as (E1 & E2 & E3) by (unfold removed; now destruct (isRunning _ _)).
    unfold removeTimer, wait_for. rewrite E3. destruct (m_running p !! pt); [|now apply keeps_stuck_refl].
    split; cbn; rewrite ?E1, ?E2; [eauto|]. intros Hw. apply elem_of_app. now left.
  - apply bind_Some in H as ([[pt e1] g] & Hw & H). apply bind_Some in H as (x & Hx & H). case_bool_decide as Ht; injection H as <-.
    + unfold discard. rewrite Hx, bool_decide_eq_true_2 by done. apply keeps_stuck_other; try done.
      intros -> n1 Hn1. assert (x = mkExecutor (Some t) n1 (Fetching t)) as -> by congruence. eauto.
    + split; cbn; [eauto|]. intros Hin. apply list_elem_of_lookup in Hin as [j Hj]. destruct (decide (j = i)) as [->|Hne].
      * rewrite Hw in Hj. injection Hj as -> -> ->. rewrite Hn in Hx. injection Hx as <-. now destruct Ht.
      * rewrite delete_take_drop. apply elem_of_app. destruct (decide (j < i)%nat).
        -- left. apply (list_elem_of_lookup_2 _ j). now rewrite lookup_take_lt.
        -- right. apply (list_elem_of_lookup_2 _ (j - S i)). rewrite lookup_drop. now replace (S i + (j - S i))%nat with j by lia.
Qed.

(** Stopping a timer can hang for ever: when an executor has taken the
    timer but not yet its own mutex, [stop], which holds that mutex, waits
    for the executor, and the executor for [stop]; no step of any thread
    resolves this. *)
Theorem stop_can_deadlock t e p p' :
  deadlocked t e p -> rtc pool_step p p' -> deadlocked t e p'.
Proof.
  intros Hd H. induction H as [|p q p' H _ IH]; [done|]. apply IH.
  destruct (pool_step_keeps_stuck _ _ _ _ Hd H) as [H1 H2]. destruct Hd as [[n Hn] Hg]. split; eauto.
Qed.

(** ** Concrete runs *)

Inductive TimerAction :=
  TCreate (t : Timer) | TStart (t : Timer) (target : timespec) | TFire (now : timespec) (top : nat) | THand
| TBegin (e : nat) | TFetch (e : nat) | TEnd (e : nat).

Definition timer_act (a : TimerAction) (p : Pool) : option Pool :=
  match a with
  | TCreate t => Some (createTimer t p)
  | TStart t target => if guard_held t p then None else Some (startTimer t target p)
  | TFire now top => fire now top p
  | THand => hand p
  | TBegin e => exec_begin e p
  | TFetch e => exec_fetch e p
  | TEnd e => exec_end e p
  end.

Fixpoint timer_run (l : list TimerAction) (p : Pool) : option Pool :=
  match l with [] => Some p | a :: l => q ← timer_act a p; timer_run l q end.

Lemma timer_run_steps l p p' : timer_run l p = Some p' -> rtc fire_step p p'.
Proof.
  revert p. induction l as [|a l IH]; intros p H; cbn in H; [injection H as ->; apply rtc_refl|].
  apply bind_Some in H as (q & Ha & H). apply (rtc_l _ _ q); [|now apply IH].
  destruct a; cbn in Ha; try (destruct (guard_held _ _) eqn:Eg; [discriminate|]); simplify_eq; eauto using fire_step.
Qed.

Lemma fire_steps_pool p p' : rtc fire_step p p' -> rtc pool_step p p'.
Proof. induction 1; eauto using rtc_refl, rtc_l, ps_fire. Qed.

Definition at_sec (s : Z) : timespec := mk_timespec s 0.

(** Timer 1 is due and handed over; timer 2 is started. *)
Definition demo_run : list TimerAction :=
  [TCreate 1; TCreate 2; TStart 1 (at_sec 5); TFire (at_sec 6) 0; THand; TBegin 0; TFetch 0; TStart 2 (at_sec 7)].
Definition demo_pool : Pool := default (Pool_new 2) (timer_run demo_run (Pool_new 2)).

Lemma demo_fire_steps : rtc fire_step (Pool_new 2) demo_pool.
Proof. apply (timer_run_steps demo_run). vm_compute. reflexivity. Qed.

Lemma listener_called_by_one_thread_witness :
  log_handled demo_pool = [1]
  /\ forall e1 e2 x1 x2 t, m_executors demo_pool !! e1 = Some x1 -> m_executors demo_pool !! e2 = Some x2 ->
     ex_thread x1 = Handling t -> ex_thread x2 = Handling t -> e1 = e2.
Proof.
  split; [vm_compute; reflexivity|].
  destruct (listener_called_by_one_thread 2 demo_pool (fire_steps_pool _ _ demo_fire_steps)) as [H _]. exact H.
Defined.

Lemma due_events_are_handled_witness :
  occ 1 (log_due demo_pool) = 1%nat /\ occ 1 (log_handled demo_pool) = 1%nat
  /\ Z.of_nat (occ 1 (log_due demo_pool))
     = (Z.of_nat (occ 1 (log_handled demo_pool)) + pending 1 demo_pool + handing 1 demo_pool)%Z.
Proof.
  split; [vm_compute; reflexivity|]. split; [vm_compute; reflexivity|].
  apply (due_events_are_handled 2 demo_pool 1 demo_fire_steps).
Defined.

Lemma fire_takes_earliest_witness :
  exists p' k pt e, fire (at_sec 8) 1 demo_pool = Some p' /\ (k, pt) ∈ m_runningTimers demo_pool
    /\ ts_lt k (at_sec 8) = true /\ m_main p' = MHanding e pt.
Proof.
  assert (exists p', fire (at_sec 8) 1 demo_pool = Some p') as [p' Hp'] by (eexists; vm_compute; reflexivity).
  destruct (fire_takes_earliest 2 demo_pool (at_sec 8) 1 p' (fire_steps_pool _ _ demo_fire_steps) Hp')
    as (k & pt & e & H1 & H2 & _ & H3 & _).
  exists p', k, pt, e. split; [exact Hp'|]. split; [exact H1|]. split; [exact H2|exact H3].
Defined.

Lemma startTimer_correct_witness :
  isRunning 1 (m_runningTimers demo_pool) = None
  /\ isRunning 1 (m_runningTimers (startTimer 1 (at_sec 7) demo_pool)) = None
  /\ 1 ∉ m_idleTimers (startTimer 1 (at_sec 7) demo_pool).
Proof.
  split; [vm_compute; reflexivity|]. split; [vm_compute; reflexivity|].
  destruct (startTimer_correct 2 demo_pool 1 (at_sec 7) (fire_steps_pool _ _ demo_fire_steps)) as (_ & H & _);
    [vm_compute; reflexivity|exact H].
Defined.

Lemma own_removal_loses_event_witness :
  exists p1 p2 p3 p4, remove_own 0 demo_pool = Some p1 /\ fire (at_sec 8) 0 p1 = Some p2 /\ hand p2 = Some p3
    /\ exec_end 0 p3 = Some p4 /\ log_due p4 = [1; 2] /\ log_handled p4 = [1] /\ pending 2 p4 = 0%Z.
Proof.
  destruct (own_removal_loses_event demo_pool 0 (mkExecutor (Some 1) 1 (Handling 1)) 1 (at_sec 7) 2 (at_sec 8))
    as (p1 & p2 & p3 & p4 & H1 & H2 & H3 & H4 & H5 & H6 & H7 & _);
    try (vm_compute; reflexivity).
  - apply (runs_inv 2), fire_steps_pool, demo_fire_steps.
  - exists p1, p2, p3, p4. repeat (split; [assumption|]). assumption.
Defined.

(** The executor has timer 1, which is started again and stopped. *)
Definition stuck_pool : Pool :=
  default (Pool_new 1)
    (p ← timer_run [TCreate 1; TStart 1 (at_sec 5); TFire (at_sec 6) 0; THand; TBegin 0; TStart 1 (at_sec 9)] (Pool_new 1);
     stop 1 p).

Lemma stop_can_deadlock_witness : deadlocked 1 0 stuck_pool /\ deadlocked 1 0 (removeTimer 1 stuck_pool).
Proof.
  assert (deadlocked 1 0 stuck_pool) as H.
  { split; [exists 1%Z; vm_compute; reflexivity|]. vm_compute. left. }
  split; [exact H|]. apply (stop_can_deadlock 1 0 stuck_pool); [exact H|]. apply rtc_once, ps_remove.
Defined.

Lemma stuck_pool_reachable : rtc pool_step (Pool_new 1) stuck_pool.
Proof.
  assert (exists p, timer_run [TCreate 1; TStart 1 (at_sec 5); TFire (at_sec 6) 0; THand; TBegin 0; TStart 1 (at_sec 9)] (Pool_new 1)
    = Some p /\ stop 1 p = Some stuck_pool) as (p & H1 & H2) by (eexists; split; vm_compute; reflexivity).
  eapply rtc_r; [|apply (ps_stop 1), H2]. apply fire_steps_pool. now apply timer_run_steps in H1.
Qed.
