(* ===== verification/DelayedTasks.v ===== *)
(** * Tasks pushed for later (facades_impl.cpp over timer_pool.cpp)

    [AbstractFacade::push_task] with a delay makes a [TimerListenerImpl]: an
    object with the task and a timer of its own.  When the timer is due, an
    executor of [TimerPool] calls it; it pushes the task to the worker pool
    and deletes itself and, with it, the timer, while the executor is still
    in the call.  Each task is pushed at most once, not before its time, and
    nothing that is deleted is touched; but the deletion can lose the task
    of another timer. *)

From stdpp Require Import base gmap list relations numbers sorting.
From Stdlib Require Import ZArith Lia.
From S2P Require Import Prelude CoreUtils TimerPool.
Set Default Proof Using "Type".

Section delayed.
Context {Task : Type}.

(** ** The objects and the steps of the threads *)

(** A listener that is alive, with its task and whether [timerEvent] has
    pushed it.  [d_started], [d_due] and [d_pushed] are what is observed:
    all delays asked for with the target time, the timers found due with the
    clock, the tasks pushed. *)
Record Delayed := mkDelayed
  { d_pool : Pool; d_alive : gmap Timer (Task * bool); d_started : gmap Timer (Task * timespec);
    d_due : list (Timer * timespec); d_pushed : list (Timer * Task) }.

Definition Delayed_new (executors : Z) : Delayed := mkDelayed (Pool_new executors) ∅ ∅ [] [].

(** [new TimerListenerImpl]. *)
Definition TimerListenerImpl (task : Task) (after_seconds : Z) (now : timespec) (t : Timer) (d : Delayed) : Delayed :=
  let target := getTargetTime now after_seconds in
  mkDelayed (startTimer t target (createTimer t (d_pool d))) (<[t := (task, false)]> (d_alive d))
    (<[t := (task, target)]> (d_started d)) (d_due d) (d_pushed d).

Definition set_pool (p : Pool) (d : Delayed) : Delayed :=
  mkDelayed p (d_alive d) (d_started d) (d_due d) (d_pushed d).

(** Threads of the pool outside of a listener. *)
Inductive quiet : Pool -> Pool -> Prop :=
| q_hand p p' : hand p = Some p' -> quiet p p'
| q_begin e p p' : exec_begin e p = Some p' -> quiet p p'
| q_sleep e p p' : exec_sleep e p = Some p' -> quiet p p'
| q_wake e p p' : exec_wake e p = Some p' -> quiet p p'
| q_fetch e p p' : exec_fetch e p = Some p' -> quiet p p'.

Inductive delayed_step : Delayed -> Delayed -> Prop :=
| StartLater task after_seconds now t d :
    d_started d !! t = None -> delayed_step d (TimerListenerImpl task after_seconds now t d)
| Due now top k t p' d :
    getFirstOfRunningTimers (m_runningTimers (d_pool d)) = Some (k, t) -> fire now top (d_pool d) = Some p' ->
    delayed_step d (mkDelayed p' (d_alive d) (d_started d) (d_due d ++ [(t, now)]) (d_pushed d))
| Threads p' d : quiet (d_pool d) p' -> delayed_step d (set_pool p' d)
(* [timerEvent]: the task is pushed, *)
| PushTask e x t task d :
    m_executors (d_pool d) !! e = Some x -> ex_thread x = Handling t -> d_alive d !! t = Some (task, false) ->
    delayed_step d (mkDelayed (d_pool d) (<[t := (task, true)]> (d_alive d)) (d_started d) (d_due d) (d_pushed d ++ [(t, task)]))
(* the listener deletes its timer and itself, *)
| DeleteThis e x t task p' d :
    m_executors (d_pool d) !! e = Some x -> ex_thread x = Handling t -> d_alive d !! t = Some (task, true) ->
    remove_own e (d_pool d) = Some p' ->
    delayed_step d (mkDelayed p' (delete t (d_alive d)) (d_started d) (d_due d) (d_pushed d))
(* and the call ends. *)
| EndEvent e x t p' d :
    m_executors (d_pool d) !! e = Some x -> ex_thread x = Handling t -> d_alive d !! t = None ->
    exec_end e (d_pool d) = Some p' -> delayed_step d (set_pool p' d).

(** ** Events under way

    An event of a timer is in the map of running timers, with the thread
    that hands it over, or with an executor. *)
Definition ticks (t : Timer) (x : Executor) : nat :=
  if bool_decide (ex_timer x = Some t)
  then (Z.to_nat (ex_do_count x) - if bool_decide (ex_thread x = Handling t) then 1 else 0)%nat else 0%nat.
Definition is_running (t : Timer) (p : Pool) : nat := if bool_decide (t ∈ (m_runningTimers p).*2) then 1%nat else 0%nat.
Definition is_handed (t : Timer) (p : Pool) : nat :=
  match m_main p with MHanding _ u => if bool_decide (u = t) then 1%nat else 0%nat | MLoop => 0%nat end.
Definition events (t : Timer) (p : Pool) : nat :=
  (is_running t p + is_handed t p + sum_list_with (ticks t) (m_executors p))%nat.

Definition exec_ok (x : Executor) : Prop :=
  (ex_timer x = None -> ex_do_count x = 0%Z) /\ (is_Some (ex_timer x) -> (1 <= ex_do_count x)%Z)
  /\ (forall t, ex_thread x = Fetching t -> ex_timer x = Some t).
Definition pool_ok (p : Pool) : Prop := timers_wf (m_runningTimers p) /\ Forall exec_ok (m_executors p).
Definition in_listener (t : Timer) (p : Pool) : Prop :=
  exists e x, m_executors p !! e = Some x /\ ex_thread x = Handling t.
(** An event that was taken from the running timers. *)
Definition taken (t : Timer) (p : Pool) : Prop :=
  is_handed t p = 1%nat \/ in_listener t p \/ exists e x, m_executors p !! e = Some x /\ ex_timer x = Some t.

(** How a step of the pool moves events: none appear; who is taken was
    taken or is due now; who is called has one event fewer. *)
Record moves (p p' : Pool) : Prop := {
  mv_ok : pool_ok p';
  mv_events t : (events t p' <= events t p)%nat;
  mv_called t : in_listener t p' -> in_listener t p \/ (events t p' + 1 = events t p)%nat;
  mv_taken t : taken t p' -> taken t p;
  mv_running : m_runningTimers p' ⊆ m_runningTimers p }.

(** An executor changes. *)
Lemma executor_moves p q e x x' :
  pool_ok p -> m_executors p !! e = Some x -> exec_ok x' ->
  m_runningTimers q = m_runningTimers p -> m_main q = m_main p -> m_executors q = <[e := x']> (m_executors p) ->
  (forall t, (ticks t x' <= ticks t x)%nat) ->
  (forall t, ex_timer x' = Some t -> ex_timer x = Some t) ->
  (forall t, ex_thread x' = Handling t -> ex_thread x = Handling t
     \/ (ticks t x' + 1 = ticks t x)%nat /\ ex_timer x = Some t) ->
  moves p q.
Proof.
  intros [Hw He] Hx Hok E1 E2 E3 Ht Htm Hh.
  assert (forall t, (events t q + ticks t x = events t p + ticks t x')%nat) as Hev.
  { intros t. unfold events, is_running, is_handed. rewrite E1, E2, E3.
    pose proof (sum_list_with_insert (ticks t) _ _ _ x' Hx). lia. }
  assert (forall e1 y, m_executors q !! e1 = Some y -> e1 = e /\ y = x' \/ m_executors p !! e1 = Some y) as Hl.
  { intros e1 y. rewrite E3. intros [(-> & -> & _)|[_ H]]%list_lookup_insert_Some; auto. }
  split.
  - split; [by rewrite E1|]. rewrite E3. by apply Forall_insert.
  - intros t. specialize (Hev t). specialize (Ht t). lia.
  - intros t (e1 & y & Hy & Ey). apply Hl in Hy as [[-> ->]|Hy]; [|left; by exists e1, y].
    destruct (Hh t Ey) as [H|[H _]]; [left; by exists e, x|right]. specialize (Hev t). lia.
  - intros t [H|[(e1 & y & Hy & Ey)|(e1 & y & Hy & Ey)]].
    + left. unfold is_handed in *. by rewrite <- E2.
    + apply Hl in Hy as [[-> ->]|Hy]; [|right; left; by exists e1, y].
      right. destruct (Hh t Ey) as [H|[_ H]]; [left|right]; by exists e, x.
    + right; right. apply Hl in Hy as [[-> ->]|Hy]; [exists e, x|exists e1, y]; auto.
  - by rewrite E1.
Qed.

Lemma exec_is_ok p e x : pool_ok p -> m_executors p !! e = Some x -> exec_ok x.
Proof. intros [_ H] Hx. by eapply Forall_lookup_1. Qed.

(** The thread of an executor moves on without a listener. *)
Lemma thread_moves p e x th :
  pool_ok p -> m_executors p !! e = Some x -> (forall t, th = Fetching t -> ex_timer x = Some t) ->
  (forall t, ex_thread x <> Handling t) -> (forall t, th <> Handling t) ->
  moves p (set_executor e (mkExecutor (ex_timer x) (ex_do_count x) th) p).
Proof.
  intros Hp Hx Hf H1 H2. pose proof (exec_is_ok _ _ _ Hp Hx) as (O1 & O2 & _).
  eapply (executor_moves _ _ e x (mkExecutor _ _ th)); try done.
  - intros t. unfold ticks. cbn. rewrite !(bool_decide_eq_false_2 (_ = Handling t)) by done. done.
  - cbn. intros t Et. by destruct (H2 t).
Qed.

Lemma fetch_moves e p p' : pool_ok p -> exec_fetch e p = Some p' -> moves p p'.
Proof.
  intros Hp H. apply bind_Some in H as (x & Hx & H). destruct (ex_thread x) as [| |t|] eqn:Eth; try done.
  destruct (guard_held t p); [done|]. injection H as <-. pose proof (exec_is_ok _ _ _ Hp Hx) as (O1 & O2 & O3).
  specialize (O3 _ Eth) as Et. specialize (O2 ltac:(by rewrite Et)) as Hc.
  eapply (executor_moves _ _ e x (mkExecutor (ex_timer x) (ex_do_count x) (Handling t))); try done.
  - intros u. unfold ticks. cbn. rewrite Eth. repeat case_bool_decide; try lia; done.
  - intros u [= ->]. right. split; [|done]. unfold ticks. cbn. rewrite Et, Eth, !bool_decide_eq_true_2 by done.
    rewrite bool_decide_eq_false_2 by done. lia.
Qed.

(** The executor gives up its timer or one of its events. *)
Lemma drop_moves p q e x n tm th :
  pool_ok p -> m_executors p !! e = Some x -> ex_thread x = th \/ th = AtLoop -> (forall t, ex_thread x <> Fetching t) ->
  m_runningTimers q ⊆ m_runningTimers p -> timers_wf (m_runningTimers q) -> m_main q = m_main p ->
  m_executors q = <[e := mkExecutor tm n th]> (m_executors p) ->
  (tm = None /\ n = 0%Z \/ tm = ex_timer x /\ (1 <= n <= ex_do_count x)%Z
     /\ (ex_thread x = th \/ n = (ex_do_count x - 1)%Z)) ->
  moves p q.
Proof.
  intros Hp Hx Hth Hnf Hsub Hwf E2 E3 Hn. set (q' := set_timers (m_runningTimers p) (m_idleTimers q) q).
  assert (moves p q') as [M1 M2 M3 M4 M5].
  { pose proof (exec_is_ok _ _ _ Hp Hx) as (O1 & O2 & O3).
    eapply (executor_moves _ _ e x (mkExecutor tm n th)); try done.
    - assert (forall t, th <> Fetching t) as Hf by (intros t Et; subst th; destruct Hth as [Hth|Hth]; [by eapply Hnf|done]).
      split_and!; cbn; [|intros [y Ey]|intros t Et; by destruct (Hf t)].
      + destruct Hn as [[-> ->]|(-> & Hn & _)]; [done|]. intros E. specialize (O1 E). lia.
      + destruct Hn as [[-> _]|(_ & Hn & _)]; [done|lia].
    - intros t. unfold ticks. cbn. destruct Hn as [[-> ->]|(-> & Hn & Hd)]; [rewrite (bool_decide_eq_false_2 (None = Some t)) by done; lia|].
      case_bool_decide; [|lia]. destruct Hd as [->| ->]; [lia|].
      destruct (bool_decide (ex_thread x = _)), (bool_decide (th = _)); lia.
    - cbn. intros t Et. destruct Hn as [[-> _]|(-> & _)]; done.
    - cbn. intros t ->. destruct Hth as [Hth|]; [by left|done]. }
  assert (forall t, is_running t q <= is_running t q')%nat as Hr.
  { intros t. unfold is_running. do 2 case_bool_decide; try lia. contradict H0.
    apply list_elem_of_fmap in H as (y & -> & H). apply list_elem_of_fmap. exists y. split; [done|by apply Hsub]. }
  split.
  - split; [done|]. by apply M1.
  - intros t. specialize (M2 t). specialize (Hr t). unfold events in *. cbn [m_main m_executors q' set_timers] in M2.
    unfold is_handed in *. cbn [m_main q' set_timers] in M2. lia.
  - intros t Ht. left. destruct Ht as (e1 & y & Hy & Ey). rewrite E3 in Hy.
    apply list_lookup_insert_Some in Hy as [(-> & <- & _)|[_ Hy]]; [|by exists e1, y].
    cbn in Ey. subst th. destruct Hth as [Hth|]; [by exists e1, x|done].
  - exact M4.
  - exact Hsub.
Qed.
Lemma hand_moves p p' : pool_ok p -> hand p = Some p' -> moves p p'.
Proof.
  intros Hp H. unfold hand in H. destruct (m_main p) as [|e pt] eqn:Em; [done|]. apply bind_Some in H as (r & Hr & [= <-]).
  unfold tryExecute in Hr. apply bind_Some in Hr as (x & Hx & Hr). pose proof (exec_is_ok _ _ _ Hp Hx) as (O1 & O2 & O3).
  destruct Hp as [Hw He]. case_bool_decide as Ht.
  - set (x' := mkExecutor (Some pt) (ex_do_count x + 1) (if bool_decide (ex_thread x = Asleep) then AtLoop else ex_thread x)) in Hr.
    injection Hr as <-. cbn [snd]. set (p0 := if (ex_do_count x =? 0)%Z then setRunning e pt p else p).
    assert (m_runningTimers p0 = m_runningTimers p /\ m_executors p0 = m_executors p) as [E1 E2].
    { unfold p0, setRunning. destruct (ex_do_count x =? 0)%Z; [destruct (m_running p !! pt)|]; done. }
    assert (ex_timer x = None \/ ex_timer x = Some pt) as Htm by (destruct (ex_timer x); cbn in Ht; subst; auto).
    assert (forall t, ex_thread x' = Handling t <-> ex_thread x = Handling t) as Hth.
    { intros t. unfold x'. cbn. case_bool_decide as Ea; [by rewrite Ea|done]. }
    assert (forall t, (ticks t x' <= ticks t x + is_handed t p)%nat) as Hti.
    { intros t. unfold ticks, is_handed. rewrite Em, (bool_decide_ext _ _ (Hth t)). cbn [x' ex_timer ex_do_count].
      destruct (decide (pt = t)) as [->|Hne]; [|rewrite (bool_decide_eq_false_2 (Some pt = Some t)) by congruence; lia].
      rewrite !(bool_decide_eq_true_2 (_ = _ t)), (bool_decide_eq_true_2 (t = t)) by done.
      destruct Htm as [Htm|Htm]; rewrite Htm.
      - rewrite (O1 Htm), (bool_decide_eq_false_2 (None = Some t)) by done. cbn. lia.
      - specialize (O2 ltac:(by rewrite Htm)). rewrite (bool_decide_eq_true_2 (Some t = Some t)) by done.
        destruct (bool_decide (ex_thread x = Handling t)); lia. }
    assert (forall e1 y, <[e := x']> (m_executors p) !! e1 = Some y -> e1 = e /\ y = x' \/ m_executors p !! e1 = Some y) as Hl.
    { intros e1 y [(-> & -> & _)|[_ H]]%list_lookup_insert_Some; auto. }
    split.
    + split; cbn; rewrite ?E1, ?E2; [done|]. apply Forall_insert; [done|]. split_and!; cbn; [done|intros _|].
      * destruct Htm as [Htm|Htm]; [rewrite (O1 Htm); lia|specialize (O2 ltac:(by rewrite Htm)); lia].
      * intros t Ef. case_bool_decide; [done|]. rewrite (O3 _ Ef) in Htm. by destruct Htm as [|[= ->]].
    + intros t. unfold events, is_running. cbn. rewrite E1, E2. pose proof (sum_list_with_insert (ticks t) _ _ _ x' Hx).
      specialize (Hti t). unfold is_handed in *. cbn in *. lia.
    + intros t (e1 & y & Hy & Ey). left. cbn in Hy. rewrite E2 in Hy. apply Hl in Hy as [[-> ->]|Hy]; [|by exists e1, y].
      exists e, x. split; [done|by apply Hth].
    + intros t [Hh|[(e1 & y & Hy & Ey)|(e1 & y & Hy & Ey)]]; [done|..]; cbn in Hy; rewrite E2 in Hy; apply Hl in Hy as [[-> ->]|Hy].
      * right; left. exists e, x. split; [done|by apply Hth].
      * right; left. by exists e1, y.
      * cbn in Ey. injection Ey as ->. left. unfold is_handed. by rewrite Em, bool_decide_eq_true_2.
      * right; right. by exists e1, y.
    + cbn. by rewrite E1.
  - injection Hr as <-. split; [done| | | |done]; cbn.
    + intros t. unfold events, is_running, is_handed. cbn. lia.
    + by left.
    + intros t [Hh|Hh]; [done|by right].
Qed.

Lemma quiet_moves p p' : pool_ok p -> quiet p p' -> moves p p'.
Proof.
  intros Hp H. destruct H as [p p' H|e p p' H|e p p' H|e p p' H|e p p' H]; [by apply hand_moves| | | |by eapply fetch_moves].
  - apply bind_Some in H as (x & Hx & H). destruct (ex_thread x) eqn:Eth, (ex_timer x) as [t'|] eqn:Et; try done.
    injection H as <-. rewrite <- Et. apply thread_moves; try done; [intros t [= ->]; done|by rewrite Eth].
  - apply bind_Some in H as (x & Hx & H). destruct (ex_thread x) eqn:Eth, (ex_timer x) as [t'|] eqn:Et; try done.
    injection H as <-. rewrite <- Et. apply thread_moves; try done. by rewrite Eth.
  - apply bind_Some in H as (x & Hx & H). destruct (ex_thread x) eqn:Eth; try done.
    injection H as <-. apply thread_moves; try done. by rewrite Eth.
Qed.

Lemma removed_sub t p : m_runningTimers (removed t p) ⊆ m_runningTimers p.
Proof.
  unfold removed. destruct (isRunning t _); [|done]. cbn. intros x Hx. by apply elem_of_rt_erase in Hx as [? _].
Qed.

Lemma remove_own_moves e x t p p' :
  pool_ok p -> m_executors p !! e = Some x -> ex_thread x = Handling t -> remove_own e p = Some p' -> moves p p'.
Proof.
  intros Hp Hx Hth H. unfold remove_own in H. rewrite Hx in H. cbn [mbind option_bind] in H. rewrite Hth in H.
  destruct (_ && _); [|done]. injection H as <-.
  eapply (drop_moves p _ e x 0 None (Handling t)); try done; [by left|by rewrite Hth|apply removed_sub|..|by left].
  - cbn. unfold removed. destruct (isRunning t _); [|apply Hp]. apply wf_erase, Hp.
  - cbn. unfold removed. by destruct (isRunning t _).
  - cbn. unfold removed. by destruct (isRunning t _).
Qed.

Lemma exec_end_moves e x t p p' :
  pool_ok p -> m_executors p !! e = Some x -> ex_thread x = Handling t -> exec_end e p = Some p' -> moves p p'.
Proof.
  intros Hp Hx Hth H. unfold exec_end in H. rewrite Hx in H. cbn [mbind option_bind] in H. rewrite Hth in H. injection H as <-.
  pose proof (exec_is_ok _ _ _ Hp Hx) as (O1 & O2 & _). unfold reduceCount. cbn [ex_timer ex_do_count ex_thread].
  destruct (ex_timer x) as [u|] eqn:Et; [destruct (Z.leb_spec (ex_do_count x - 1) 0)|].
  - eapply (drop_moves p _ e x 0 None AtLoop); try done; [by right|by rewrite Hth|apply Hp|by left].
  - eapply (drop_moves p _ e x (ex_do_count x - 1) (Some u) AtLoop); try done; [by right|by rewrite Hth|apply Hp|].
    right. split; [done|]. split; [lia|by right].
  - eapply (drop_moves p _ e x 0 None AtLoop); try done; [by right|by rewrite Hth|apply Hp|cbn; by rewrite (O1 eq_refl)|by left].
Qed.
(** A due timer is taken. *)
Lemma fire_facts now top p p' k t :
  pool_ok p -> getFirstOfRunningTimers (m_runningTimers p) = Some (k, t) -> fire now top p = Some p' ->
  pool_ok p' /\ ts_lt k now = true /\ m_runningTimers p' ⊆ m_runningTimers p /\ (k, t) ∈ m_runningTimers p
  /\ (forall u, events u p' <= events u p)%nat
  /\ (forall u, in_listener u p' -> in_listener u p) /\ (forall u, taken u p' -> taken u p \/ u = t).
Proof.
  intros [Hw He] Hf H. unfold fire in H. destruct (m_main p) eqn:Em; [|done]. rewrite Hf in H.
  destruct (isTimeReached now k) eqn:En; [|done]. apply bind_Some in H as ([e q] & Hg & [= <-]).
  assert (exists extra, m_executors q = m_executors p ++ extra /\ (forall x, x ∈ extra -> x = Executor_new)
    /\ m_runningTimers q = rt_erase k (m_runningTimers p)) as (extra & E1 & Ex & E2).
  { unfold getExecutor in Hg. cbn in Hg. destruct (m_running p !! t).
    - injection Hg as _ <-. exists []. cbn. rewrite app_nil_r. split_and!; try done. intros x Hx. inversion Hx.
    - destruct (bool_decide (m_idle p = ∅)); (destruct (bool_decide _); [|done]); injection Hg as _ <-.
      + exists [Executor_new]. split_and!; try done. intros x Hx. by apply list_elem_of_singleton in Hx.
      + exists []. cbn. rewrite app_nil_r. split_and!; try done. intros x Hx. inversion Hx. }
  pose proof (head_elem _ _ Hf) as Hin.
  assert (m_runningTimers q ⊆ m_runningTimers p) as Hsub by (rewrite E2; intros x Hx; by apply elem_of_rt_erase in Hx as [? _]).
  assert (forall e1 x, m_executors q !! e1 = Some x -> m_executors p !! e1 = Some x \/ x = Executor_new) as Hl.
  { intros e1 x. rewrite E1. intros [Hx|[_ Hx]]%lookup_app_Some; [by left|right]. by eapply Ex, list_elem_of_lookup_2. }
  assert (forall u, sum_list_with (ticks u) extra = 0%nat) as Hz.
  { intros u. clear -Ex. induction extra as [|x l IH]; [done|]. cbn. rewrite IH by (intros y Hy; apply Ex; by right).
    by rewrite (Ex x) by left. }
  split_and!; cbn [m_runningTimers set_main].
  - split; cbn; [rewrite E2; by apply wf_erase|]. rewrite E1. apply Forall_app. split; [done|]. apply Forall_forall.
    intros x Hx. rewrite (Ex _ Hx). by split_and!; cbn; [|intros []|].
  - apply ts_lt_spec. unfold isTimeReached in En. rewrite orb_true_iff, andb_true_iff, !Z.ltb_lt, Z.eqb_eq in En. lia.
  - done.
  - done.
  - intros u. unfold events, is_running, is_handed. cbn. rewrite Em, E1, E2, sum_list_with_app, Hz.
    assert (u ∈ (rt_erase k (m_runningTimers p)).*2 -> u ∈ (m_runningTimers p).*2) as Hs2.
    { intros (y & -> & Hy)%list_elem_of_fmap. apply list_elem_of_fmap. exists y. split; [done|]. by apply elem_of_rt_erase in Hy as [? _]. }
    destruct (decide (t = u)) as [->|Hne].
    + rewrite (bool_decide_eq_false_2 (u ∈ (rt_erase _ _).*2)) by (apply rt_erase_gone; [apply Hw|done]).
      rewrite (bool_decide_eq_true_2 (u ∈ _)); [rewrite bool_decide_eq_true_2 by done; lia|].
      apply list_elem_of_fmap. by exists (k, u).
    + rewrite (bool_decide_eq_false_2 (t = u)) by done. do 2 case_bool_decide; try lia. tauto.
  - intros u (e1 & x & Hx & Ht). apply Hl in Hx as [Hx| ->]; [by exists e1, x|done].
  - intros u [Hh|[(e1 & x & Hx & Ht)|(e1 & x & Hx & Ht)]].
    + right. unfold is_handed in Hh. cbn in Hh. by case_bool_decide.
    + left. apply Hl in Hx as [Hx| ->]; [|done]. right; left. by exists e1, x.
    + left. apply Hl in Hx as [Hx| ->]; [|done]. right; right. by exists e1, x.
Qed.

(** A new timer is started. *)
Lemma start_facts target t p :
  pool_ok p -> events t p = 0%nat ->
  let p' := startTimer t target (createTimer t p) in
  pool_ok p' /\ (events t p' <= 1)%nat /\ (forall u, u <> t -> events u p' <= events u p)%nat
  /\ m_executors p' = m_executors p /\ m_main p' = m_main p
  /\ (forall x, x ∈ m_runningTimers p' -> x = (target, t) \/ x ∈ m_runningTimers p).
Proof.
  intros [Hw He] H0 p'. assert (isRunning t (m_runningTimers p) = None) as Hn.
  { apply isRunning_None. intros Hin. unfold events, is_running in H0. rewrite bool_decide_eq_true_2 in H0 by done. lia. }
  assert (p' = set_timers (rt_insert target t (m_runningTimers p)) (m_idleTimers p') p) as ->.
  { unfold p', startTimer. cbn. by rewrite Hn. }
  assert (forall x, x ∈ rt_insert target t (m_runningTimers p) -> x = (target, t) \/ x ∈ m_runningTimers p) as Hins
    by (intros x; apply elem_of_rt_insert).
  split_and!; try done.
  - split; [|done]. apply wf_insert; [done|by apply isRunning_None].
  - unfold events, is_running, is_handed in *. cbn. repeat case_bool_decide; lia.
  - intros u Hu. unfold events, is_running, is_handed. cbn. do 2 case_bool_decide; try lia. exfalso.
    apply list_elem_of_fmap in H as (y & -> & Hy). apply Hins in Hy as [->|Hy]; [done|].
    apply H1, list_elem_of_fmap. by exists y.
Qed.

(** ** What holds at all times *)

Definition has_started (t : Timer) (d : Delayed) : Prop := is_Some (d_started d !! t).

Record delayed_ok (d : Delayed) : Prop := {
  ok_pool : pool_ok (d_pool d);
  ok_once t : (events t (d_pool d) <= 1)%nat;
  ok_alive t : (1 <= events t (d_pool d))%nat -> exists task, d_alive d !! t = Some (task, false);
  ok_called t : in_listener t (d_pool d) -> events t (d_pool d) = 0%nat;
  ok_started t task b : d_alive d !! t = Some (task, b) -> exists k, d_started d !! t = Some (task, k);
  ok_pushed t task : (t, task) ∈ d_pushed d ->
    (forall task', d_alive d !! t <> Some (task', false)) /\ exists k now, d_started d !! t = Some (task, k) /\ (t, now) ∈ d_due d;
  ok_nodup : NoDup (d_pushed d).*1;
  ok_running k t : (k, t) ∈ m_runningTimers (d_pool d) -> exists task, d_started d !! t = Some (task, k);
  ok_due t now : (t, now) ∈ d_due d -> exists task k, d_started d !! t = Some (task, k) /\ ts_lt k now = true;
  ok_taken t : taken t (d_pool d) -> exists now, (t, now) ∈ d_due d }.

Lemma fresh_timer t d : delayed_ok d -> d_started d !! t = None ->
  events t (d_pool d) = 0%nat /\ ~ in_listener t (d_pool d) /\ t ∉ (d_pushed d).*1.
Proof.
  intros H Hn. split_and!.
  - destruct (events t (d_pool d)) as [|n] eqn:E; [done|]. destruct (ok_alive _ H t) as [task Ht]; [lia|].
    destruct (ok_started _ H _ _ _ Ht) as [k Hk]. congruence.
  - intros Hl. destruct (ok_taken _ H t) as [now Hd]; [by right; left|]. destruct (ok_due _ H _ _ Hd) as (? & ? & Hs & _). congruence.
  - intros ([u task] & -> & Hin)%list_elem_of_fmap. destruct (ok_pushed _ H _ _ Hin) as [_ (? & ? & Hs & _)]. cbn in Hn. congruence.
Qed.

Lemma moves_ok d p' : delayed_ok d -> moves (d_pool d) p' -> delayed_ok (set_pool p' d).
Proof.
  intros H [M1 M2 M3 M4 M5]. split; try apply H; cbn [d_pool set_pool].
  - done.
  - intros t. specialize (M2 t). pose proof (ok_once _ H t). lia.
  - intros t Ht. apply (ok_alive _ H). specialize (M2 t). cbn in *. lia.
  - intros t Ht. pose proof (ok_once _ H t). specialize (M2 t). destruct (M3 t Ht) as [Hl|]; [|lia].
    pose proof (ok_called _ H t Hl). lia.
  - intros k t Hin. apply (ok_running _ H), M5, Hin.
  - intros t Ht. by apply (ok_taken _ H), M4.
Qed.
Lemma delayed_start_ok task after now t d :
  delayed_ok d -> d_started d !! t = None -> delayed_ok (TimerListenerImpl task after now t d).
Proof.
  intros H Hn. destruct (fresh_timer t d H Hn) as (He & Hl & Hp). set (target := getTargetTime now after).
  destruct (start_facts target t (d_pool d) (ok_pool _ H) He) as (S1 & S2 & S3 & S4 & S5 & S6).
  assert (forall u x, d_started d !! u = Some x -> u <> t) as Hne by congruence.
  unfold TimerListenerImpl. fold target. split; cbn [d_pool d_alive d_started d_due d_pushed].
  - exact S1.
  - intros u. destruct (decide (u = t)) as [->|Hu]; [done|]. specialize (S3 u Hu). pose proof (ok_once _ H u). lia.
  - intros u Hu. destruct (decide (u = t)) as [->|Hut]; [rewrite lookup_insert_eq; eauto|].
    rewrite lookup_insert_ne by done. apply (ok_alive _ H). specialize (S3 u Hut). lia.
  - intros u (e & x & Hx & Hth). rewrite S4 in Hx. assert (in_listener u (d_pool d)) as Hu by (by exists e, x).
    assert (u <> t) as Hut by (by intros ->). specialize (S3 u Hut). pose proof (ok_called _ H u Hu). lia.
  - intros u task' b. destruct (decide (u = t)) as [->|Hu].
    + rewrite lookup_insert_eq. intros [= <- <-]. rewrite lookup_insert_eq. eauto.
    + rewrite !lookup_insert_ne by done. apply (ok_started _ H).
  - intros u task' Hin. destruct (ok_pushed _ H _ _ Hin) as [Ha (k & n & Hs & Hd)].
    rewrite !lookup_insert_ne by (by eapply not_eq_sym, Hne). eauto.
  - apply H.
  - intros k u Hin. destruct (S6 _ Hin) as [[= -> ->]|Hin']; [rewrite lookup_insert_eq; eauto|].
    destruct (ok_running _ H _ _ Hin') as [task' Hs]. exists task'. by rewrite lookup_insert_ne by (by eapply not_eq_sym, Hne).
  - intros u n Hd. destruct (ok_due _ H _ _ Hd) as (task' & k & Hs & Hlt). exists task', k.
    by rewrite lookup_insert_ne by (by eapply not_eq_sym, Hne).
  - intros u Hu. apply (ok_taken _ H). destruct Hu as [Hu|[(e & x & Hx & Hth)|(e & x & Hx & Hth)]].
    + left. unfold is_handed in *. by rewrite <- S5.
    + rewrite S4 in Hx. right; left. by exists e, x.
    + rewrite S4 in Hx. right; right. by exists e, x.
Qed.

Lemma delayed_due_ok now top k t p' d :
  delayed_ok d -> getFirstOfRunningTimers (m_runningTimers (d_pool d)) = Some (k, t) -> fire now top (d_pool d) = Some p' ->
  delayed_ok (mkDelayed p' (d_alive d) (d_started d) (d_due d ++ [(t, now)]) (d_pushed d)).
Proof.
  intros H Hf Hfire. destruct (fire_facts _ _ _ _ _ _ (ok_pool _ H) Hf Hfire) as (F1 & F2 & F3 & F4 & F5 & F6 & F7).
  destruct (ok_running _ H _ _ F4) as [task Ht]. split; cbn [d_pool d_alive d_started d_due d_pushed]; try apply H.
  - exact F1.
  - intros u. specialize (F5 u). pose proof (ok_once _ H u). lia.
  - intros u Hu. apply (ok_alive _ H). specialize (F5 u). lia.
  - intros u Hu. specialize (F5 u). pose proof (ok_called _ H u (F6 u Hu)). lia.
  - intros u task' Hin. destruct (ok_pushed _ H _ _ Hin) as [Ha (k' & n & Hs & Hd)]. split; [done|]. exists k', n.
    split; [done|]. apply elem_of_app. by left.
  - intros k' u Hin. by apply (ok_running _ H), F3.
  - intros u n [Hd|[= -> ->]%list_elem_of_singleton]%elem_of_app; [by apply (ok_due _ H)|eauto].
  - intros u Hu. destruct (F7 u Hu) as [Hu'| ->].
    + destruct (ok_taken _ H u Hu') as [n Hd]. exists n. apply elem_of_app. by left.
    + exists now. apply elem_of_app. right. by apply list_elem_of_singleton.
Qed.

Lemma delayed_push_ok e x t task d :
  delayed_ok d -> m_executors (d_pool d) !! e = Some x -> ex_thread x = Handling t -> d_alive d !! t = Some (task, false) ->
  delayed_ok (mkDelayed (d_pool d) (<[t := (task, true)]> (d_alive d)) (d_started d) (d_due d) (d_pushed d ++ [(t, task)])).
Proof.
  intros H Hx Hth Ha. assert (in_listener t (d_pool d)) as Hl by (by exists e, x).
  assert (forall u task', (u, task') ∈ d_pushed d -> u <> t) as Hnew.
  { intros u task' Hin ->. destruct (ok_pushed _ H _ _ Hin) as [Hno _]. by apply (Hno task). }
  split; cbn [d_pool d_alive d_started d_due d_pushed]; try apply H.
  - intros u Hu. destruct (decide (u = t)) as [->|Hut]; [pose proof (ok_called _ H t Hl); lia|].
    rewrite lookup_insert_ne by done. by apply (ok_alive _ H).
  - intros u task' b. destruct (decide (u = t)) as [->|Hu]; [|rewrite lookup_insert_ne by done; apply (ok_started _ H)].
    rewrite lookup_insert_eq. intros [= <- <-]. by apply (ok_started _ H _ _ _ Ha).
  - intros u task' [Hin|[= -> ->]%list_elem_of_singleton]%elem_of_app.
    + destruct (ok_pushed _ H _ _ Hin) as [Hno Hd]. split; [|done]. rewrite lookup_insert_ne; [done|]. by eapply not_eq_sym, Hnew.
    + split; [intros task''; by rewrite lookup_insert_eq|]. destruct (ok_started _ H _ _ _ Ha) as [k Hk].
      destruct (ok_taken _ H t) as [now Hd]; [by right; left|]. eauto.
  - rewrite fmap_app. apply NoDup_app. split; [apply H|]. split; [|apply NoDup_singleton].
    intros u ([u' task'] & -> & Hin)%list_elem_of_fmap Hu. cbn in Hu. apply list_elem_of_singleton in Hu. by eapply Hnew.
Qed.

Lemma delayed_step_ok d d' : delayed_ok d -> delayed_step d d' -> delayed_ok d'.
Proof.
  intros H Hst. destruct Hst as [task after now t d Hn|now top k t p' d Hf Hfire|p' d Hq|e x t task d Hx Hth Ha
    |e x t task p' d Hx Hth Ha Hr|e x t p' d Hx Hth Ha Hr].
  - by apply delayed_start_ok.
  - by eapply delayed_due_ok.
  - apply moves_ok; [done|]. apply quiet_moves; [apply H|done].
  - by eapply delayed_push_ok.
  - assert (moves (d_pool d) p') as Hm by (eapply remove_own_moves; eauto using ok_pool).
    pose proof (moves_ok _ _ H Hm) as H'. assert (in_listener t (d_pool d)) as Hl by (by exists e, x).
    split; cbn [d_pool d_alive d_started d_due d_pushed]; try apply H'.
    + intros u Hu. destruct (decide (u = t)) as [->|Hut]; [|rewrite lookup_delete_ne by done; by apply (ok_alive _ H')].
      pose proof (ok_called _ H t Hl). pose proof (mv_events _ _ Hm t). cbn in Hu. lia.
    + intros u task' b [_ Hd]%lookup_delete_Some. by apply (ok_started _ H' _ _ _ Hd).
    + intros u task' Hin. destruct (ok_pushed _ H _ _ Hin) as [Hno Hd]. split; [|done].
      intros task'' [_ Hd']%lookup_delete_Some. by apply (Hno task'').
  - apply moves_ok; [done|]. eapply exec_end_moves; eauto using ok_pool.
Qed.

Lemma delayed_new_ok n : delayed_ok (Delayed_new n).
Proof.
  assert (forall e x, m_executors (Pool_new n) !! e = Some x -> x = Executor_new) as Hnew by (intros e x [-> _]%lookup_replicate; done).
  assert (forall t, events t (Pool_new n) = 0%nat) as He.
  { intros t. unfold events, is_running, is_handed. cbn. set (k := if (0 <? n)%Z then _ else _). by induction k. }
  assert (forall t, ~ taken t (Pool_new n)) as Ht.
  { intros t [H|[(e & x & ->%Hnew & H)|(e & x & ->%Hnew & H)]]; done. }
  split; cbn [d_pool d_alive d_started d_due d_pushed Delayed_new].
  - split; [split; constructor|]. apply Forall_lookup. intros e x ->%Hnew. by split_and!; cbn; [|intros []|].
  - intros t. rewrite He. lia.
  - intros t. rewrite He. lia.
  - intros t _. apply He.
  - done.
  - intros t task Hin. inversion Hin.
  - constructor.
  - intros k t Hin. inversion Hin.
  - intros t now Hin. inversion Hin.
  - intros t H. by apply Ht in H.
Qed.

Lemma delayed_runs_ok n d : rtc delayed_step (Delayed_new n) d -> delayed_ok d.
Proof.
  intros H. remember (Delayed_new n) as d0 eqn:E. assert (delayed_ok d0) as H0 by (subst; apply delayed_new_ok). clear E.
  induction H; eauto using delayed_step_ok.
Qed.

(** C38: under every interleaving of the threads that ask for delays, the
    management thread and the executors, each task is pushed at most once,
    and only after the clock has passed the time it was asked for; and an
    executor about to call a listener has one that is not deleted and has
    not been called. *)
Theorem delayed_task_pushed_once n d :
  rtc delayed_step (Delayed_new n) d ->
  NoDup (d_pushed d).*1
  /\ (forall t task, (t, task) ∈ d_pushed d -> exists target now,
        d_started d !! t = Some (task, target) /\ (t, now) ∈ d_due d /\ ts_lt target now = true)
  /\ (forall e x t, m_executors (d_pool d) !! e = Some x -> ex_thread x = Fetching t ->
        exists task, d_alive d !! t = Some (task, false)).
Proof.
  intros Hr. pose proof (delayed_runs_ok _ _ Hr) as H. split; [apply H|]. split.
  - intros t task Hin. destruct (ok_pushed _ H _ _ Hin) as [_ (k & now & Hs & Hd)]. exists k, now. split_and!; [done..|].
    destruct (ok_due _ H _ _ Hd) as (task' & k' & Hs' & Hlt). congruence.
  - intros e x t Hx Hth. apply (ok_alive _ H). destruct (exec_is_ok _ _ _ (ok_pool _ H) Hx) as (_ & Hc & Ht).
    specialize (Ht _ Hth). specialize (Hc ltac:(by rewrite Ht)).
    assert (ticks t x <= events t (d_pool d))%nat as Hle.
    { unfold events. pose proof (sum_list_with_insert (ticks t) _ _ _ Executor_new Hx). assert (ticks t Executor_new = 0%nat) by done. lia. }
    unfold ticks in Hle. rewrite Ht, Hth, bool_decide_eq_true_2, bool_decide_eq_false_2 in Hle by done. lia.
Qed.

(** A timer with no event left: its task is never pushed any more. *)
Definition lost (t : Timer) (d : Delayed) : Prop :=
  has_started t d /\ events t (d_pool d) = 0%nat /\ ~ in_listener t (d_pool d) /\ t ∉ (d_pushed d).*1.

Lemma moves_lost t d p' : moves (d_pool d) p' -> lost t d -> lost t (set_pool p' d).
Proof.
  intros [_ M2 M3 _ _] (L1 & L2 & L3 & L4). split_and!; cbn; try done; [specialize (M2 t); lia|].
  intros H. destruct (M3 t H) as [|Hz]; [done|lia].
Qed.

Lemma step_lost t d d' : delayed_ok d -> delayed_step d d' -> lost t d -> lost t d'.
Proof.
  intros H Hst HL. destruct Hst as [task after now u d Hn|now top k u p' d Hf Hfire|p' d Hq|e x u task d Hx Hth Ha
    |e x u task p' d Hx Hth Ha Hr|e x u p' d Hx Hth Ha Hr].
  - destruct HL as (L1 & L2 & L3 & L4). assert (t <> u) as Htu by (intros ->; unfold has_started in L1; rewrite Hn in L1; by destruct L1).
    destruct (fresh_timer u d H Hn) as (He & _ & _).
    destruct (start_facts (getTargetTime now after) u (d_pool d) (ok_pool _ H) He) as (_ & _ & S3 & S4 & _ & _).
    split_and!; cbn; try done.
    + unfold has_started. cbn. by rewrite lookup_insert_ne.
    + specialize (S3 t Htu). lia.
    + intros (e & x & Hx & Hth). apply L3. exists e, x. by rewrite <- S4.
  - destruct HL as (L1 & L2 & L3 & L4).
    destruct (fire_facts _ _ _ _ _ _ (ok_pool _ H) Hf Hfire) as (_ & _ & _ & _ & F5 & F6 & _).
    split_and!; cbn; [done| |by intros ?%F6|done]. specialize (F5 t). lia.
  - apply moves_lost; [|done]. apply quiet_moves; [apply H|done].
  - destruct HL as (L1 & L2 & L3 & L4). split_and!; cbn; [done..|].
    rewrite fmap_app. intros [Hin|Hin]%elem_of_app; [done|]. apply list_elem_of_singleton in Hin. cbn in Hin. subst.
    apply L3. by exists e, x.
  - destruct (moves_lost t d p') as (L1 & L2 & L3 & L4); [eapply remove_own_moves; eauto using ok_pool|done|by split_and!].
  - apply moves_lost; [|done]. eapply exec_end_moves; eauto using ok_pool.
Qed.

Lemma lost_for_good t d d' : delayed_ok d -> lost t d -> rtc delayed_step d d' -> forall task, (t, task) ∉ d_pushed d'.
Proof.
  intros H HL Hr. assert (lost t d') as (_ & _ & _ & Hno).
  { induction Hr as [d|d d1 d' Hs _ IH]; [done|]. apply IH; [by eapply delayed_step_ok|by eapply step_lost]. }
  intros task Hin. apply Hno, list_elem_of_fmap. by exists (t, task).
Qed.
End delayed.

(** ** Concrete runs *)

Section runs.
Context {Task : Type}.
Implicit Types (d : Delayed (Task := Task)).

(** A step of the pool alone, of the clock, and the two of a listener. *)
Definition after (act : Pool -> option Pool) d : Delayed := set_pool (default (d_pool d) (act (d_pool d))) d.
Definition due_at (now : timespec) (top : nat) (t : Timer) d : Delayed :=
  mkDelayed (default (d_pool d) (fire now top (d_pool d))) (d_alive d) (d_started d) (d_due d ++ [(t, now)]) (d_pushed d).
Definition pushing (t : Timer) (task : Task) d : Delayed :=
  mkDelayed (d_pool d) (<[t := (task, true)]> (d_alive d)) (d_started d) (d_due d) (d_pushed d ++ [(t, task)]).
Definition deleting (e : nat) (t : Timer) d : Delayed :=
  mkDelayed (default (d_pool d) (remove_own e (d_pool d))) (delete t (d_alive d)) (d_started d) (d_due d) (d_pushed d).

(** Timer 1 is due and its listener has pushed the task. *)
Definition first_called d : Delayed := after (exec_fetch 0) (after (exec_begin 0) (after hand (due_at (at_sec 6) 0 1 d))).
Definition two_asked (a b : Task) : Delayed := TimerListenerImpl a 5 (at_sec 0) 1 (TimerListenerImpl b 7 (at_sec 0) 2 (Delayed_new 1)).
Definition first_pushed (a b : Task) : Delayed := pushing 1 a (first_called (two_asked a b)).
(** It deletes itself, timer 2 is due and handed over, and the call ends. *)
Definition second_lost (a b : Task) : Delayed :=
  after (exec_end 0) (after hand (due_at (at_sec 8) 0 2 (deleting 0 1 (first_pushed a b)))).

Lemma after_step act d :
  (forall p p', act p = Some p' -> quiet p p') -> is_Some (act (d_pool d)) -> delayed_step d (after act d).
Proof. intros Hq [p' E]. unfold after. rewrite E. by apply Threads, Hq. Qed.
Lemma due_step now top k t d :
  getFirstOfRunningTimers (m_runningTimers (d_pool d)) = Some (k, t) -> is_Some (fire now top (d_pool d)) ->
  delayed_step d (due_at now top t d).
Proof. intros Hf [p' E]. unfold due_at. rewrite E. by eapply Due. Qed.
Lemma deleting_step e t x task d :
  m_executors (d_pool d) !! e = Some x -> ex_thread x = Handling t -> d_alive d !! t = Some (task, true) ->
  is_Some (remove_own e (d_pool d)) -> delayed_step d (deleting e t d).
Proof. intros Hx Hth Ha [p' E]. unfold deleting. rewrite E. by eapply DeleteThis. Qed.
Lemma end_step e t x d :
  m_executors (d_pool d) !! e = Some x -> ex_thread x = Handling t -> d_alive d !! t = None ->
  is_Some (exec_end e (d_pool d)) -> delayed_step d (after (exec_end e) d).
Proof. intros Hx Hth Ha [p' E]. unfold after. rewrite E. by eapply EndEvent. Qed.

Lemma first_pushed_runs (a b : Task) : rtc delayed_step (Delayed_new 1) (first_pushed a b).
Proof.
  eapply rtc_l; [apply (StartLater b 7 (at_sec 0) 2); reflexivity|].
  eapply rtc_l; [apply (StartLater a 5 (at_sec 0) 1); reflexivity|].
  eapply rtc_l; [apply (due_step (at_sec 6) 0 (at_sec 5) 1); vm_compute; eauto|].
  eapply rtc_l; [apply (after_step hand); [apply q_hand|vm_compute; eauto]|].
  eapply rtc_l; [apply (after_step (exec_begin 0)); [apply q_begin|vm_compute; eauto]|].
  eapply rtc_l; [apply (after_step (exec_fetch 0)); [apply q_fetch|vm_compute; eauto]|].
  apply rtc_once, (PushTask 0 (mkExecutor (Some 1) 1 (Handling 1)) 1 a); vm_compute; reflexivity.
Qed.

Lemma second_lost_runs (a b : Task) : rtc delayed_step (first_pushed a b) (second_lost a b).
Proof.
  eapply rtc_l; [apply (deleting_step 0 1 (mkExecutor (Some 1) 1 (Handling 1)) a); vm_compute; eauto|].
  eapply rtc_l; [apply (due_step (at_sec 8) 0 (at_sec 7) 2); vm_compute; eauto|].
  eapply rtc_l; [apply (after_step hand); [apply q_hand|vm_compute; eauto]|].
  apply rtc_once, (end_step 0 1 (mkExecutor (Some 2) 1 (Handling 1))); vm_compute; eauto.
Qed.

Lemma second_is_lost (a b : Task) : lost 2 (second_lost a b).
Proof.
  assert (d_pushed (second_lost a b) = [(1, a)]) as Hp by reflexivity.
  assert (m_executors (d_pool (second_lost a b)) = [Executor_new]) as He by (vm_compute; reflexivity).
  split_and!.
  - by eexists.
  - vm_compute. reflexivity.
  - intros (e & x & Hx & Hth). rewrite He in Hx. by apply list_lookup_singleton_Some in Hx as [_ <-].
  - rewrite Hp. intros H%list_elem_of_singleton. done.
Qed.

(** Two tasks are asked for, seven and five seconds from now, of a pool with
    one executor.  The listener of the first that is due deletes its timer
    and itself; while its executor is still in the call, the second is handed
    to that executor, which forgets it when the call ends: the task is never
    pushed, however the threads go on. *)
Theorem delayed_task_lost (a b : Task) :
  exists d, rtc delayed_step (Delayed_new 1) d
    /\ d_started d !! 2 = Some (b, at_sec 7) /\ (2, at_sec 8) ∈ d_due d
    /\ forall d', rtc delayed_step d d' -> forall task, (2, task) ∉ d_pushed d'.
Proof.
  pose proof (transitivity (first_pushed_runs a b) (second_lost_runs a b)) as Hr.
  exists (second_lost a b). split_and!; [exact Hr|reflexivity|right; left|].
  intros d' Hd'. eapply lost_for_good; [by eapply delayed_runs_ok|apply second_is_lost|exact Hd'].
Qed.
End runs.

(** ** Witness *)

Lemma delayed_task_pushed_once_witness :
  rtc delayed_step (Delayed_new 1) (first_pushed 10 20) /\ exists target now,
    d_started (first_pushed 10 20) !! 1 = Some (10, target) /\ (1, now) ∈ d_due (first_pushed 10 20)
    /\ ts_lt target now = true.
Proof.
  split; [apply first_pushed_runs|].
  apply (delayed_task_pushed_once 1 (first_pushed 10 20) (first_pushed_runs 10 20)). left.
Defined.
