(* ===== verification/Translate.v ===== *)
(** * Translation of messages (blockchain_gradido_translate.cpp)

    The protobuf messages that arrive from a topic become batches of fixed
    size records.  Module [pb] holds the messages as the generated classes
    show them: a message field may be absent and reads as its default, a
    [oneof] is an option of a sum, an enumeration is open.  Parsing is a
    parameter: the source ignores its result and takes what it left.

    [memcpy] from a string that is too short, into a field that is too
    short, and the conversion of an amount that no [uint64_t] holds are
    undefined. *)

From stdpp Require Import base gmap list strings.
From Stdlib Require Import ZArith Lia SpecFloat.
From S2P Require Import Prelude GradidoDef BlockchainBase GroupRegister BlockchainGradido.
Local Open Scope Z_scope.
Local Open Scope node_scope.

(** ** Protobuf messages *)

Module pb.
Record Timestamp := mkTimestamp { seconds : Z; nanos : Z }.
Record AccountID := mkAccountID { acc_shardnum : Z; acc_realmnum : Z; acc_accountnum : Z }.
Record TopicID := mkTopicID { top_shardnum : Z; top_realmnum : Z; top_topicnum : Z }.
Record TransactionID := mkTransactionID
  { transactionvalidstart : option Timestamp; accountid : option AccountID }.
Record ConsensusTopicResponse := mkConsensusTopicResponse
  { consensustimestamp : option Timestamp; message : bytes; runninghash : bytes;
    sequencenumber : N; runninghashversion : Z }.

Inductive SignatureData := ed25519 (s : bytes) | ed25519_ref10 (s : bytes).
Record SignaturePair := mkSignaturePair { pub_key : bytes; sig_data : option SignatureData }.
Abbreviation SignatureMap := (list SignaturePair).

Record Amount := mkAmount { pubkey : bytes; amount : spec_float }.
Record LocalTransfer := mkLocalTransfer { lt_sender : option Amount; lt_receiver : bytes }.
Record CrossGroupTransfer := mkCrossGroupTransfer
  { ct_sender : option Amount; ct_receiver : bytes; ct_other_group : bytes;
    ct_paired_transaction_id : option Timestamp }.
Inductive GradidoTransfer :=
| local (t : LocalTransfer) | inbound (t : CrossGroupTransfer) | outbound (t : CrossGroupTransfer).
Record GroupFriendsUpdate := mkGroupFriendsUpdate { group : bytes; action : Z }.
Record GroupMemberUpdate := mkGroupMemberUpdate
  { user_pubkey : bytes; member_update_type : Z;
    gm_paired_transaction_id : option Timestamp; target_group : bytes }.

(** [other] stands for the alternatives no code reads: header,
    administrators, nodes, the end of initialisation. *)
Inductive BodyData :=
| transfer (t : option GradidoTransfer)
| creation (receiver : option Amount)
| group_friends_update (u : GroupFriendsUpdate)
| group_member_update (u : GroupMemberUpdate)
| debug_reset_blockchain_mark
| other.
Record TransactionBody := mkTransactionBody
  { memo : bytes; version_number : Z; data : option BodyData }.
Record GradidoTransaction := mkGradidoTransaction { sig_map : SignatureMap; body_bytes : bytes }.
Record AddGroupToRegister := mkAddGroupToRegister
  { alias : bytes; topic_id : option TopicID; reset_group_register : bool }.

Definition get_Timestamp : option Timestamp -> Timestamp := default (mkTimestamp 0 0).
Definition get_AccountID : option AccountID -> AccountID := default (mkAccountID 0 0 0).
Definition get_TopicID : option TopicID -> TopicID := default (mkTopicID 0 0 0).
Definition get_Amount : option Amount -> Amount := default (mkAmount [] (S754_zero false)).
Definition get_ed25519 (p : SignaturePair) : bytes :=
  match sig_data p with Some (ed25519 s) => s | _ => [] end.
End pb.

(** ** Identifiers and signatures *)

Definition translate_Timestamp_from_pb (ts : pb.Timestamp) : HederaTimestamp :=
  mkHederaTimestamp (pb.seconds ts) (pb.nanos ts).
Definition translate_Timestamp_to_pb (ts : HederaTimestamp) : pb.Timestamp :=
  pb.mkTimestamp (seconds ts) (nanos ts).

Definition translate_AccountID_from_pb (val : pb.AccountID) : HederaAccountID :=
  mkHederaAccountID (pb.acc_shardnum val) (pb.acc_realmnum val) (pb.acc_accountnum val).
Definition translate_AccountID_to_pb (val : HederaAccountID) : pb.AccountID :=
  pb.mkAccountID (acc_shardNum val) (acc_realmNum val) (acc_accountNum val).

Definition translate_TopicID_from_pb (val : pb.TopicID) : HederaTopicID :=
  mkHederaTopicID (pb.top_shardnum val) (pb.top_realmnum val) (pb.top_topicnum val).
Definition translate_TopicID_to_pb (val : HederaTopicID) : pb.TopicID :=
  pb.mkTopicID (topic_shardNum val) (topic_realmNum val) (topic_topicNum val).

Definition translate_TransactionID_from_pb (val : pb.TransactionID) : HederaTransactionID :=
  mkHederaTransactionID
    (translate_Timestamp_from_pb (pb.get_Timestamp (pb.transactionvalidstart val)))
    (translate_AccountID_from_pb (pb.get_AccountID (pb.accountid val))).
Definition translate_TransactionID_to_pb (val : HederaTransactionID) : pb.TransactionID :=
  pb.mkTransactionID (Some (translate_Timestamp_to_pb (transactionValidStart val)))
    (Some (translate_AccountID_to_pb (accountID val))).

Definition translate_HederaTransaction_from_pb (val : pb.ConsensusTopicResponse)
    : option HederaTransaction :=
  h ← c_str_read 48 (pb.runninghash val);
  Some (mkHederaTransaction
    (translate_Timestamp_from_pb (pb.get_Timestamp (pb.consensustimestamp val)))
    h (pb.sequencenumber val) (pb.runninghashversion val)).
Definition translate_HederaTransaction_to_pb (val : HederaTransaction) : pb.ConsensusTopicResponse :=
  pb.mkConsensusTopicResponse (Some (translate_Timestamp_to_pb (consensusTimestamp val))) []
    (runningHash val) (sequenceNumber val) (runningHashVersion val).

Definition translate_Signature_from_pb (sig_pair : pb.SignaturePair) : option Signature :=
  k ← c_str_read PUB_KEY_LENGTH (pb.pub_key sig_pair);
  s ← c_str_read SIGNATURE_LENGTH (pb.get_ed25519 sig_pair);
  Some (mkSignature k s).
Definition translate_Signature_to_pb (sig_map : pb.SignatureMap) (s : Signature) : pb.SignatureMap :=
  sig_map ++ [pb.mkSignaturePair (sig_pubkey s) (Some (pb.ed25519 (sig_signature s)))].

(** ** Sizes

    The packed structs have no padding; the union of [Transaction] is as
    large as a cross group transfer. *)

Definition sizeof_GradidoValue : nat := 8 + 4.
Definition sizeof_HederaTimestamp : nat := 8 + 4.
Definition sizeof_HederaTransaction : nat := sizeof_HederaTimestamp + HEDERA_RUNNING_HASH_LENGTH + 8 + 8.
Definition sizeof_Signature : nat := PUB_KEY_LENGTH + SIGNATURE_LENGTH.
Definition sizeof_UserTransfer : nat := PUB_KEY_LENGTH + (sizeof_GradidoValue + 8).
Definition sizeof_PairedTransaction : nat := sizeof_HederaTimestamp + PUB_KEY_LENGTH.
Definition sizeof_GradidoCreation : nat := sizeof_UserTransfer + sizeof_GradidoValue.
Definition sizeof_MoveUser : nat := PUB_KEY_LENGTH + sizeof_PairedTransaction + (sizeof_GradidoValue + 8).
Definition sizeof_LocalTransfer : nat := sizeof_GradidoValue + 2 * sizeof_UserTransfer.
Definition sizeof_InboundTransfer : nat :=
  sizeof_GradidoValue + sizeof_PairedTransaction + PUB_KEY_LENGTH + sizeof_UserTransfer.
Definition sizeof_GradidoHeader : nat := GROUP_ALIAS_LENGTH + 1 + PUB_KEY_LENGTH.
Definition sizeof_TransactionCommonHeader : nat := 4 + 4 + sizeof_HederaTimestamp + sizeof_HederaTransaction.
Definition sizeof_Transaction : nat :=
  sizeof_TransactionCommonHeader + sizeof_Signature + 1 + 1
  + foldr Nat.max O [sizeof_GradidoCreation; PUB_KEY_LENGTH; sizeof_MoveUser; sizeof_LocalTransfer;
                     sizeof_InboundTransfer; sizeof_GradidoHeader]
  + 1 + MEMO_MAIN_SIZE.

Definition SIGNATURES_IN_MAIN_PART : nat := 1.
Definition MAX_RECORD_PARTS : nat := 5.
Definition NON_SIGNATURE_PARTS : nat := 2.
Definition MEMO_PART_SIZE : nat := Nat.max sizeof_Transaction (MEMO_FULL_SIZE - MEMO_MAIN_SIZE).
Definition SIGNATURES_PER_RECORD : nat := sizeof_Transaction / sizeof_Signature.
Definition MINIMUM_SIGNATURE_COUNT : Z := 1.
Definition MAXIMUM_SIGNATURE_COUNT : Z :=
  Z.of_nat (SIGNATURES_PER_RECORD * (MAX_RECORD_PARTS - NON_SIGNATURE_PARTS) + SIGNATURES_IN_MAIN_PART).

(** ** Amounts

    [uint64_t] from [double]: truncated towards zero; undefined when the
    result does not fit. *)

Definition double_to_u64 (f : spec_float) : option Z :=
  match f with
  | S754_zero _ => Some 0
  | S754_finite s m e =>
      let z := Z.shiftl (Zpos m) e in
      if if s then z =? 0 else z <? 2 ^ 64 then Some z else None
  | S754_infinity _ | S754_nan => None
  end.
Definition whole_amount (a : pb.Amount) : option GradidoValue :=
  z ← double_to_u64 (pb.amount a); Some (mkGradidoValue z 0).

(** ** The body of a transaction *)

Definition group_zero : bytes := replicate PUB_KEY_LENGTH 0.
Definition user_transfer (user : bytes) : UserTransfer := mkUserTransfer user UserState_zero.
Definition translate_key (s : bytes) : option bytes := c_str_read PUB_KEY_LENGTH s.
Definition translate_paired (ts : option pb.Timestamp) (g : bytes) : option PairedTransaction :=
  g ← field_write group_zero g;
  Some (mkPairedTransaction (translate_Timestamp_from_pb (pb.get_Timestamp ts)) g).

Definition translate_creation (receiver : option pb.Amount) : option TransactionBody :=
  let r := pb.get_Amount receiver in
  a ← whole_amount r;
  u ← translate_key (pb.pubkey r);
  Some (TB_gradido_creation (mkGradidoCreation (user_transfer u) a)).

Definition translate_friends_update (u : pb.GroupFriendsUpdate) : option TransactionBody :=
  g ← field_write group_zero (pb.group u);
  Some (if pb.action u =? 0 then TB_add_group_friend g else TB_remove_group_friend g).

Definition translate_member_update (m : pb.GroupMemberUpdate) : option TransactionBody :=
  let mut := u8 (pb.member_update_type m) in
  u ← translate_key (pb.user_pubkey m);
  if mut =? 0 then Some (TB_add_user u)
  else
    p ← translate_paired (pb.gm_paired_transaction_id m) (pb.target_group m);
    let v := mkMoveUser u p UserState_zero in
    Some (if mut =? 1 then TB_move_user_inbound v else TB_move_user_outbound v).

Definition translate_transfer (g2 : option pb.GradidoTransfer) : option TransactionBody :=
  match g2 with
  | Some (pb.local t) =>
      let s := pb.get_Amount (pb.lt_sender t) in
      a ← whole_amount s;
      u0 ← translate_key (pb.pubkey s);
      u1 ← translate_key (pb.lt_receiver t);
      Some (TB_local_transfer (mkLocalTransfer a (user_transfer u0) (user_transfer u1)))
  | Some (pb.inbound t) =>
      let s := pb.get_Amount (pb.ct_sender t) in
      a ← whole_amount s;
      u0 ← translate_key (pb.pubkey s);
      u1 ← translate_key (pb.ct_receiver t);
      p ← translate_paired (pb.ct_paired_transaction_id t) (pb.ct_other_group t);
      Some (TB_inbound_transfer (mkInboundTransfer a p u0 (user_transfer u1)))
  | Some (pb.outbound t) =>
      let s := pb.get_Amount (pb.ct_sender t) in
      a ← whole_amount s;
      u0 ← translate_key (pb.pubkey s);
      u1 ← translate_key (pb.ct_receiver t);
      p ← translate_paired (pb.ct_paired_transaction_id t) (pb.ct_other_group t);
      Some (TB_outbound_transfer (mkOutboundTransfer a p (user_transfer u0) u1))
  | None => Some (TB_other 0)
  end.

(** Every alternative but the reset mark. *)
Definition translate_data (d : option pb.BodyData) : option TransactionBody :=
  match d with
  | Some (pb.creation r) => translate_creation r
  | Some (pb.group_friends_update u) => translate_friends_update u
  | Some (pb.group_member_update u) => translate_member_update u
  | Some (pb.transfer t) => translate_transfer t
  | Some pb.debug_reset_blockchain_mark | Some pb.other | None => Some (TB_other 0)
  end.

Section translate.
(** What [ParseFromString] leaves in a fresh message. *)
Context (parse_GradidoTransaction : bytes -> pb.GradidoTransaction).
Context (parse_TransactionBody : bytes -> pb.TransactionBody).
Context (parse_AddGroupToRegister : bytes -> pb.AddGroupToRegister).

(** ** Messages of the group register *)

(** [strcpy(tt->alias, s.c_str())]. *)
Definition write_alias (s : bytes) : option bytes :=
  field_write (replicate GROUP_ALIAS_LENGTH 0) (cstr s ++ [0]).

Definition set_batch {T} (b : Batch T) : M (Batch T) unit := modify (fun _ => b).
Definition set_reset {T} : M (Batch T) unit := modify (fun b => mkBatch (buff b) true).

Definition try_translate_register (t : pb.ConsensusTopicResponse) : M (Batch GroupRegisterRecord) unit :=
  let tb := parse_AddGroupToRegister (pb.message t) in
  if pb.reset_group_register tb then set_reset
  else
    let! alias := of_option (write_alias (pb.alias tb)) in
    let topic := translate_TopicID_from_pb (pb.get_TopicID (pb.topic_id tb)) in
    let! ht := of_option (translate_HederaTransaction_from_pb t) in
    set_batch (mkBatch [mkGroupRegisterRecord GROUP_RECORD_code
                          (mkGroupRecord alias topic false ht Signature_zero)] false).

(** [translate_from_ctr], for the register. *)
Definition translate_from_ctr_register (t : pb.ConsensusTopicResponse) : M (Batch GroupRegisterRecord) unit :=
  set_batch (mkBatch [] false) ;;;
  try_catch (try_translate_register t) set_reset.

(** ** Messages of a ledger *)

(** The signatures of one record: at most [j], until [count] are copied;
    with the index after the last. *)
Fixpoint signature_record (pairs : pb.SignatureMap) (j cs count : nat) : option (list Signature * nat) :=
  match j with
  | O => Some ([], cs)
  | S j' =>
      p ← pairs !! cs;
      s ← translate_Signature_from_pb p;
      if (S cs =? count)%nat then Some ([s], S cs)
      else r ← signature_record pairs j' (S cs) count; Some (s :: r.1, r.2)
  end.

(** The array of a zeroed record, with its first elements set. *)
Definition signature_array (l : list Signature) : list Signature :=
  l ++ replicate (SIGNATURES_PER_RECORD - length l) Signature_zero.

Fixpoint signature_records (pairs : pb.SignatureMap) (n cs count : nat) : option (list GradidoRecord) :=
  match n with
  | O => Some []
  | S n' =>
      r ← signature_record pairs SIGNATURES_PER_RECORD cs count;
      rest ← signature_records pairs n' r.2 count;
      Some (GR_signatures (signature_array r.1) :: rest)
  end.

Definition sig_part_count (count : Z) : Z :=
  if count <=? Z.of_nat SIGNATURES_IN_MAIN_PART then 0
  else Z.quot (count - Z.of_nat SIGNATURES_IN_MAIN_PART - 1) (Z.of_nat SIGNATURES_PER_RECORD) + 1.

Definition multipart_memo (memo : bytes) : bool := (MEMO_MAIN_SIZE - 1 <? length memo)%nat.

(** The memo field of the transaction. *)
Definition memo_main (memo : bytes) : option bytes :=
  if multipart_memo memo then c_str_read MEMO_MAIN_SIZE memo
  else field_write (replicate MEMO_MAIN_SIZE 0) memo.

(** The record that holds the rest of a long memo. *)
Definition memo_records (memo : bytes) : option (list GradidoRecord) :=
  if multipart_memo memo then
    let other_part := take (MEMO_PART_SIZE - 1) (drop MEMO_MAIN_SIZE memo) in
    m ← field_write (replicate MEMO_PART_SIZE 0) other_part;
    Some [GR_memo m]
  else Some [].

Definition try_translate_gradido (t : pb.ConsensusTopicResponse) : M (Batch GradidoRecord) unit :=
  let gt := parse_GradidoTransaction (pb.message t) in
  let tb := parse_TransactionBody (pb.body_bytes gt) in
  let pairs := pb.sig_map gt in
  let count := u8 (Z.of_nat (length pairs)) in
  if count <? MINIMUM_SIGNATURE_COUNT then throw "need at least one signature for any transaction"
  else if MAXIMUM_SIGNATURE_COUNT <? count then throw "too many signatures"
  else
    let! sig := of_option (p ← pairs !! O; translate_Signature_from_pb p) in
    let! ht := of_option (translate_HederaTransaction_from_pb t) in
    match pb.data tb with
    | Some pb.debug_reset_blockchain_mark => set_reset
    | d =>
        let! body := of_option (translate_data d) in
        let! memo := of_option (memo_main (pb.memo tb)) in
        let parts := 1 + (if multipart_memo (pb.memo tb) then 1 else 0) + sig_part_count count in
        let tt := mkTransaction (u32 (pb.version_number tb)) (u32 parts) HederaTimestamp_zero ht sig count
                    body UNKNOWN memo in
        let! memos := of_option (memo_records (pb.memo tb)) in
        let! sigs := of_option (signature_records pairs (Z.to_nat (sig_part_count count))
                                  SIGNATURES_IN_MAIN_PART (Z.to_nat count)) in
        set_batch (mkBatch (GR_transaction tt :: memos ++ sigs) false)
    end.

(** [translate_from_ctr], for a ledger. *)
Definition translate_from_ctr (t : pb.ConsensusTopicResponse) : M (Batch GradidoRecord) unit :=
  set_batch (mkBatch [] false) ;;;
  try_catch (try_translate_gradido t) set_reset.

(** [PushTransactionsTask::run]: a message from the topic goes to its
    blockchain. *)
Definition PushTransactionsTask_run {T St X} (translate : pb.ConsensusTopicResponse -> M (Batch T) unit)
    (add : Batch T -> M (Base T St X) unit) (transaction : pb.ConsensusTopicResponse) : M (Base T St X) unit :=
  fun b =>
    match translate transaction (mkBatch [] false) with
    | Ret _ batch => add batch b
    | Throw e _ => Throw e b
    | Undef => Undef
    end.

(** ** Reading a batch back

    The signatures and the memo of a transaction from its parts: a memo
    field that does not end with a null goes on in the record that
    follows. *)

Definition record_signatures (r : GradidoRecord) : list Signature :=
  match r with GR_signatures l => l | _ => [] end.
Definition read_signatures (l : list GradidoRecord) : list Signature :=
  match l with
  | GR_transaction tr :: rest =>
      take (Z.to_nat (signature_count tr)) (signature tr :: concat (map record_signatures rest))
  | _ => []
  end.

(** As dump_transaction_in_json reads the two fields. *)
Definition memo_text (tr : Transaction) : bytes :=
  if default 0 (memo tr !! (MEMO_MAIN_SIZE - 1)%nat) =? 0 then cstr (memo tr) else take MEMO_MAIN_SIZE (memo tr).
Definition read_memo (l : list GradidoRecord) : bytes :=
  match l with
  | GR_transaction tr :: GR_memo m :: _ => memo_text tr ++ cstr m
  | GR_transaction tr :: _ => memo_text tr
  | _ => []
  end.

(** ** Types

    What the sizes of the fields say of a record. *)

Definition key_typed (k : bytes) : Prop := length k = PUB_KEY_LENGTH.
Definition signature_typed (s : Signature) : Prop :=
  key_typed (sig_pubkey s) /\ length (sig_signature s) = SIGNATURE_LENGTH.
Definition hedera_typed (h : HederaTransaction) : Prop := length (runningHash h) = HEDERA_RUNNING_HASH_LENGTH.
Definition paired_typed (p : PairedTransaction) : Prop := key_typed (other_group p).
Definition body_typed (b : TransactionBody) : Prop :=
  match b with
  | TB_gradido_creation gc => key_typed (ut_user (gc_user gc)) /\ GradidoValue_wf (gc_amount gc)
  | TB_add_group_friend g | TB_remove_group_friend g => key_typed g
  | TB_add_user u => key_typed u
  | TB_move_user_inbound mu | TB_move_user_outbound mu => key_typed (mu_user mu) /\ paired_typed (mu_paired mu)
  | TB_local_transfer lt =>
      GradidoValue_wf (lt_amount lt) /\ key_typed (ut_user (lt_sender lt)) /\ key_typed (ut_user (lt_receiver lt))
  | TB_inbound_transfer it =>
      GradidoValue_wf (it_amount it) /\ paired_typed (it_paired it)
      /\ key_typed (it_sender it) /\ key_typed (ut_user (it_receiver it))
  | TB_outbound_transfer ot =>
      GradidoValue_wf (ot_amount ot) /\ paired_typed (ot_paired ot)
      /\ key_typed (ut_user (ot_sender ot)) /\ key_typed (ot_receiver ot)
  | TB_other c => c = 0
  end.
Record transaction_typed (tr : Transaction) : Prop := {
  tt_version : 0 <= version_number tr < 2 ^ 32;
  tt_hedera : hedera_typed (hedera_transaction tr);
  tt_signature : signature_typed (signature tr);
  tt_count : MINIMUM_SIGNATURE_COUNT <= signature_count tr <= MAXIMUM_SIGNATURE_COUNT;
  tt_body : body_typed (body tr);
  tt_result : tr_result tr = UNKNOWN;
  tt_memo : length (memo tr) = MEMO_MAIN_SIZE }.
Definition part_typed (r : GradidoRecord) : Prop :=
  match r with
  | GR_memo m => length m = MEMO_PART_SIZE /\ (length (cstr m) < MEMO_PART_SIZE)%nat
  | GR_signatures l => length l = SIGNATURES_PER_RECORD /\ Forall signature_typed l
  | _ => False
  end.

(** ** Lemmas *)

Lemma SIGNATURES_PER_RECORD_3 : SIGNATURES_PER_RECORD = 3%nat. Proof. reflexivity. Qed.
Lemma MAXIMUM_SIGNATURE_COUNT_10 : MAXIMUM_SIGNATURE_COUNT = 10. Proof. reflexivity. Qed.

Lemma translate_Signature_typed p s : translate_Signature_from_pb p = Some s -> signature_typed s.
Proof.
  unfold translate_Signature_from_pb. intros (k & Hk & H)%bind_Some. apply bind_Some in H as (x & Hx & [= <-]).
  split; [exact (length_c_str_read _ _ _ Hk)|exact (length_c_str_read _ _ _ Hx)].
Qed.

Lemma double_to_u64_range f z : double_to_u64 f = Some z -> 0 <= z < 2 ^ 64.
Proof.
  destruct f as [|? | |s m e]; cbn [double_to_u64]; try discriminate; [intros [= <-]; lia|].
  destruct s.
  - destruct (Z.eqb_spec (Z.shiftl (Zpos m) e) 0); [intros [= <-]; lia|discriminate].
  - destruct (Z.ltb_spec (Z.shiftl (Zpos m) e) (2 ^ 64)); [intros [= <-]|discriminate].
    split; [|done]. now apply Z.shiftl_nonneg.
Qed.

Lemma whole_amount_wf a v : whole_amount a = Some v -> GradidoValue_wf v.
Proof.
  unfold whole_amount. intros (z & Hz & [= <-])%bind_Some. apply double_to_u64_range in Hz.
  unfold GradidoValue_wf, GRADIDO_VALUE_DECIMAL_AMOUNT_BASE. cbn. lia.
Qed.

Lemma translate_key_typed s k : translate_key s = Some k -> key_typed k.
Proof. apply length_c_str_read. Qed.

Lemma translate_group_typed g x : field_write group_zero g = Some x -> key_typed x.
Proof. apply length_field_write. Qed.

Lemma translate_paired_typed ts g p : translate_paired ts g = Some p -> paired_typed p.
Proof. unfold translate_paired. intros (x & Hx & [= <-])%bind_Some. exact (translate_group_typed _ _ Hx). Qed.

Ltac inv_binds :=
  repeat match goal with
  | H : (_ ≫= _) = Some _ |- _ => apply bind_Some in H as (? & ? & H)
  | H : (if ?c then _ else _) = Some _ |- _ => destruct c
  | H : Some (if ?c then _ else _) = Some _ |- _ => destruct c
  end; simplify_eq/=.

Lemma translate_data_typed d b : translate_data d = Some b -> body_typed b.
Proof.
  destruct d as [[[[t|t|t]|]|r|u|u| |]|]; cbn [translate_data translate_transfer];
    unfold translate_creation, translate_friends_update, translate_member_update; cbv zeta; intros H; inv_binds;
    repeat match goal with |- _ /\ _ => split end;
    eauto using translate_key_typed, translate_paired_typed, translate_group_typed, whole_amount_wf.
Qed.

(** *** Signatures *)

Lemma signature_record_spec pairs sigs count :
  mapM translate_Signature_from_pb pairs = Some sigs -> (count <= length pairs)%nat ->
  forall j cs, (cs < count)%nat ->
  signature_record pairs j cs count = Some (take j (drop cs (take count sigs)), (cs + Nat.min j (count - cs))%nat).
Proof.
  intros Hm Hc j. apply mapM_Some_1 in Hm. induction j as [|j IH]; intros cs Hcs; cbn [signature_record].
  - rewrite take_0. do 2 f_equal. lia.
  - destruct (lookup_lt_is_Some_2 pairs cs) as [p Hp]; [lia|].
    destruct (Forall2_lookup_l _ _ _ _ _ Hm Hp) as (s & Hs & Hps). rewrite Hp. cbn [mbind option_bind]. rewrite Hps.
    cbn [mbind option_bind].
    assert (drop cs (take count sigs) = s :: drop (S cs) (take count sigs)) as ->.
    { apply drop_S. rewrite lookup_take_lt by lia. exact Hs. }
    cbn [take]. destruct (Nat.eqb_spec (S cs) count) as [E|E].
    + rewrite (drop_ge (take count sigs)) by (rewrite length_take; lia). rewrite take_nil. do 2 f_equal. lia.
    + rewrite IH by lia. cbn [mbind option_bind fst snd]. do 2 f_equal. lia.
Qed.

Lemma signature_array_typed l :
  Forall signature_typed l -> (length l <= SIGNATURES_PER_RECORD)%nat -> part_typed (GR_signatures (signature_array l)).
Proof.
  intros H Hl. unfold signature_array. split; [rewrite length_app, length_replicate; lia|].
  apply Forall_app. split; [done|]. now apply Forall_replicate.
Qed.

Lemma signature_records_spec pairs sigs count :
  mapM translate_Signature_from_pb pairs = Some sigs -> (count <= length pairs)%nat ->
  forall n cs, (cs <= count)%nat -> (count - cs <= 3 * n)%nat -> (n = O \/ 3 * (n - 1) < count - cs)%nat ->
  exists rs pad, signature_records pairs n cs count = Some rs /\ length rs = n
    /\ concat (map record_signatures rs) = drop cs (take count sigs) ++ pad.
Proof.
  intros Hm Hc n. induction n as [|n IH]; intros cs Hcs Hle Hlt; cbn [signature_records].
  - exists [], []. split; [done|]. split; [done|]. rewrite drop_ge; [done|]. rewrite length_take. lia.
  - destruct Hlt as [?|Hlt]; [done|].
    rewrite (signature_record_spec _ _ _ Hm Hc) by lia. rewrite SIGNATURES_PER_RECORD_3. cbn [mbind option_bind fst snd].
    destruct (IH (cs + Nat.min 3 (count - cs))%nat) as (rs & pad & -> & Hl & E); [lia..|].
    cbn [mbind option_bind].
    assert (length sigs = length pairs) as Hls by (symmetry; eapply Forall2_length, mapM_Some_1, Hm).
    assert (length (drop cs (take count sigs)) = count - cs)%nat as HD by (rewrite length_drop, length_take; lia).
    destruct (Nat.le_gt_cases (count - cs) 3) as [H3|H3]; eexists _, _;
      (split; [reflexivity|]; split; [cbn; lia|]); cbn [map concat record_signatures]; rewrite E; unfold signature_array.
    + rewrite (take_ge _ 3) by lia. rewrite (drop_ge _ (cs + _)) by (rewrite length_take; lia).
      rewrite <- (assoc_L (++)). reflexivity.
    + rewrite length_take, SIGNATURES_PER_RECORD_3, HD, !Nat.min_l, Nat.sub_diag by lia. cbn [replicate].
      rewrite app_nil_r, (assoc_L (++)). f_equal. now rewrite <- drop_drop, take_drop.
Qed.

Lemma signature_record_typed pairs j : forall cs count l cs',
  signature_record pairs j cs count = Some (l, cs') -> Forall signature_typed l /\ (length l <= j)%nat.
Proof.
  induction j as [|j IH]; intros cs count l cs'; cbn [signature_record]; [intros [= <- <-]; now split|].
  intros (p & Hp & (s & Hs & H)%bind_Some)%bind_Some. apply translate_Signature_typed in Hs.
  destruct (S cs =? count)%nat; [injection H as <- <-; split; [now constructor|cbn; lia]|].
  apply bind_Some in H as ([l' c'] & Hr & [= <- <-]). apply IH in Hr as [Hr Hl].
  split; [now constructor|cbn; lia].
Qed.

Lemma signature_records_typed pairs n : forall cs count rs,
  signature_records pairs n cs count = Some rs -> Forall part_typed rs /\ length rs = n.
Proof.
  induction n as [|n IH]; intros cs count rs; cbn [signature_records]; [intros [= <-]; now split|].
  intros ([l c] & Hl & (rest & Hr & [= <-])%bind_Some)%bind_Some. apply IH in Hr as [Hr Hn].
  apply signature_record_typed in Hl as [Hl Hlen].
  split; [constructor; [now apply signature_array_typed|done]|cbn; lia].
Qed.

Definition only_signatures (r : GradidoRecord) : Prop := match r with GR_signatures _ => True | _ => False end.

Lemma signature_records_only pairs n : forall cs count rs,
  signature_records pairs n cs count = Some rs -> Forall only_signatures rs.
Proof.
  induction n as [|n IH]; intros cs count rs; cbn [signature_records]; [now intros [= <-]|].
  intros (l & _ & (rest & Hr & [= <-])%bind_Some)%bind_Some. constructor; [done|]. eapply IH, Hr.
Qed.

Lemma sig_part_count_bounds c :
  1 <= c <= MAXIMUM_SIGNATURE_COUNT ->
  0 <= sig_part_count c <= 3 /\ c - 1 <= 3 * sig_part_count c
  /\ (sig_part_count c = 0 \/ 3 * (sig_part_count c - 1) < c - 1).
Proof.
  rewrite MAXIMUM_SIGNATURE_COUNT_10. unfold sig_part_count, SIGNATURES_IN_MAIN_PART. rewrite SIGNATURES_PER_RECORD_3.
  intros H. destruct (Z.leb_spec c (Z.of_nat 1)); [lia|].
  rewrite Z.quot_div_nonneg by lia. divmod_lia.
Qed.

(** *** Memos *)

Definition other_part (m : bytes) : bytes := take (MEMO_PART_SIZE - 1) (drop MEMO_MAIN_SIZE m).

Lemma memo_records_eq m :
  memo_records m = Some (if multipart_memo m
    then [GR_memo (other_part m ++ replicate (MEMO_PART_SIZE - length (other_part m)) 0)] else []).
Proof.
  unfold memo_records. destruct (multipart_memo m); [|done]. fold (other_part m).
  rewrite field_write_fits; [cbn [mbind option_bind]; now rewrite drop_replicate|].
  unfold other_part. rewrite length_take, length_replicate. lia.
Qed.

Lemma memo_main_eq m :
  memo_main m = Some (if multipart_memo m then take MEMO_MAIN_SIZE m
                      else m ++ replicate (MEMO_MAIN_SIZE - length m) 0).
Proof.
  unfold memo_main. destruct (multipart_memo m) eqn:E.
  - apply Nat.ltb_lt in E. apply c_str_read_fits. unfold MEMO_MAIN_SIZE in *. lia.
  - apply Nat.ltb_ge in E. rewrite field_write_fits by (rewrite length_replicate; unfold MEMO_MAIN_SIZE in *; lia).
    now rewrite drop_replicate.
Qed.

Lemma memo_records_typed m rs :
  memo_records m = Some rs -> Forall part_typed rs /\ length rs = (if multipart_memo m then 1 else 0)%nat.
Proof.
  rewrite memo_records_eq. intros [= <-]. destruct (multipart_memo m); [|by split].
  split; [|done]. apply Forall_singleton.
  assert (length (other_part m) <= MEMO_PART_SIZE - 1)%nat as Ho by (unfold other_part; rewrite length_take; lia).
  assert (0 < MEMO_PART_SIZE)%nat as Hp by (apply Nat.ltb_lt; reflexivity).
  split; [rewrite length_app, length_replicate; lia|].
  destruct (MEMO_PART_SIZE - length (other_part m))%nat as [|k] eqn:E; [lia|]. cbn [replicate].
  pose proof (length_cstr_null (other_part m) (replicate k 0)). lia.
Qed.

Lemma memo_main_typed m x : memo_main m = Some x -> length x = MEMO_MAIN_SIZE.
Proof.
  rewrite memo_main_eq. intros [= <-]. destruct (multipart_memo m) eqn:E.
  - apply Nat.ltb_lt in E. rewrite length_take. unfold MEMO_MAIN_SIZE in *. lia.
  - apply Nat.ltb_ge in E. rewrite length_app, length_replicate. unfold MEMO_MAIN_SIZE in *. lia.
Qed.

(** ** What the translation of a ledger's message gives *)

(** A translation that succeeds, taken apart. *)
Lemma translate_Ret t b0 b :
  translate_from_ctr t b0 = Ret tt b ->
  let gt := parse_GradidoTransaction (pb.message t) in
  let tb := parse_TransactionBody (pb.body_bytes gt) in
  let count := u8 (Z.of_nat (length (pb.sig_map gt))) in
  b = mkBatch [] true
  \/ exists p sig ht body memo memos sigs,
       MINIMUM_SIGNATURE_COUNT <= count <= MAXIMUM_SIGNATURE_COUNT
       /\ pb.sig_map gt !! O = Some p /\ translate_Signature_from_pb p = Some sig
       /\ translate_HederaTransaction_from_pb t = Some ht
       /\ translate_data (pb.data tb) = Some body
       /\ memo_main (pb.memo tb) = Some memo /\ memo_records (pb.memo tb) = Some memos
       /\ signature_records (pb.sig_map gt) (Z.to_nat (sig_part_count count)) SIGNATURES_IN_MAIN_PART
            (Z.to_nat count) = Some sigs
       /\ b = mkBatch (GR_transaction (mkTransaction (u32 (pb.version_number tb))
              (u32 (1 + (if multipart_memo (pb.memo tb) then 1 else 0) + sig_part_count count))
              HederaTimestamp_zero ht sig count body UNKNOWN memo) :: memos ++ sigs) false.
Proof.
  unfold translate_from_ctr, set_batch, bind, modify, try_catch. unfold try_translate_gradido. cbv zeta.
  set (gt := parse_GradidoTransaction _). set (tb := parse_TransactionBody _). set (count := u8 _).
  destruct (Z.ltb_spec count MINIMUM_SIGNATURE_COUNT) as [_|Hmin]; [intros [= <-]; now left|].
  destruct (Z.ltb_spec MAXIMUM_SIGNATURE_COUNT count) as [_|Hmax]; [intros [= <-]; now left|].
  destruct (pb.sig_map gt !! O) as [p|] eqn:Ep; cbn [mbind option_bind of_option]; [|discriminate].
  destruct (translate_Signature_from_pb p) as [sig|] eqn:Es; [|discriminate]. unfold bind, of_option, ret.
  destruct (translate_HederaTransaction_from_pb t) as [ht|] eqn:Eh; [|discriminate].
  destruct (pb.data tb) as [[]|] eqn:Ed; try (intros [= <-]; now left); intros H.
  all: destruct (translate_data _) as [body|] eqn:Eb in H; [|discriminate].
  all: destruct (memo_main _) as [memo|] eqn:Em in H; [|discriminate].
  all: destruct (memo_records _) as [memos|] eqn:Er in H; [|discriminate].
  all: destruct (signature_records _ _ _ _) as [sigs|] eqn:Eg in H; [|discriminate].
  all: injection H as <-; right; exists p, sig, ht, body, memo, memos, sigs; split; [lia|]; by split_and!.
Qed.

(** ** Which messages are within bounds *)

(** [n] bytes can be copied from [s.c_str()]. *)
Definition readable (n : nat) (s : bytes) : bool := (n <=? length s + 1)%nat.
(** The group name fits its field. *)
Definition group_fits (g : bytes) : bool := (length g <=? PUB_KEY_LENGTH)%nat.
Definition pair_readable (p : pb.SignaturePair) : bool :=
  readable PUB_KEY_LENGTH (pb.pub_key p) && readable SIGNATURE_LENGTH (pb.get_ed25519 p).
(** The amount, cut to a whole number, fits 64 bits. *)
Definition amount_readable (a : option pb.Amount) : bool :=
  bool_decide (is_Some (double_to_u64 (pb.amount (pb.get_Amount a))))
  && readable PUB_KEY_LENGTH (pb.pubkey (pb.get_Amount a)).
Definition cross_readable (t : pb.CrossGroupTransfer) : bool :=
  amount_readable (pb.ct_sender t) && readable PUB_KEY_LENGTH (pb.ct_receiver t) && group_fits (pb.ct_other_group t).

Definition data_in_bounds (d : option pb.BodyData) : bool :=
  match d with
  | Some (pb.creation r) => amount_readable r
  | Some (pb.group_friends_update u) => group_fits (pb.group u)
  | Some (pb.group_member_update u) =>
      readable PUB_KEY_LENGTH (pb.user_pubkey u)
      && ((u8 (pb.member_update_type u) =? 0) || group_fits (pb.target_group u))
  | Some (pb.transfer (Some (pb.local t))) =>
      amount_readable (pb.lt_sender t) && readable PUB_KEY_LENGTH (pb.lt_receiver t)
  | Some (pb.transfer (Some (pb.inbound t))) | Some (pb.transfer (Some (pb.outbound t))) => cross_readable t
  | Some (pb.transfer None) | Some pb.debug_reset_blockchain_mark | Some pb.other | None => true
  end.

Definition message_pairs (t : pb.ConsensusTopicResponse) : pb.SignatureMap :=
  pb.sig_map (parse_GradidoTransaction (pb.message t)).
Definition message_body (t : pb.ConsensusTopicResponse) : pb.TransactionBody :=
  parse_TransactionBody (pb.body_bytes (parse_GradidoTransaction (pb.message t))).
(** The number of signatures, as the byte that counts them has it. *)
Definition counted (t : pb.ConsensusTopicResponse) : Z := u8 (Z.of_nat (length (message_pairs t))).
Definition badly_signed (t : pb.ConsensusTopicResponse) : bool :=
  (counted t <? MINIMUM_SIGNATURE_COUNT) || (MAXIMUM_SIGNATURE_COUNT <? counted t).
Definition reset_marked (t : pb.ConsensusTopicResponse) : bool :=
  match pb.data (message_body t) with Some pb.debug_reset_blockchain_mark => true | _ => false end.

Definition in_bounds (t : pb.ConsensusTopicResponse) : bool :=
  badly_signed t
  || readable 48 (pb.runninghash t)
     && forallb pair_readable (take (if reset_marked t then 1 else Z.to_nat (counted t)) (message_pairs t))
     && data_in_bounds (pb.data (message_body t)).

Lemma is_Some_bind {A B} (m : option A) (f : A -> option B) :
  is_Some (m ≫= f) <-> is_Some m /\ forall a, m = Some a -> is_Some (f a).
Proof using.
  destruct m as [a|]; cbn.
  - split; [intros H; split; [eauto|by intros ? [= <-]]|intros [_ H]; by apply H].
  - split; [intros [? ?]; done|intros [[? ?] _]; done].
Qed.

Lemma readable_spec n s : is_Some (c_str_read n s) <-> readable n s = true.
Proof using.
  unfold c_str_read, readable. destruct (n <=? length s + 1)%nat; split; first [done|eauto|by intros [? ?]].
Qed.

Lemma group_fits_spec g : is_Some (field_write group_zero g) <-> group_fits g = true.
Proof using.
  unfold field_write, group_fits, group_zero. rewrite length_replicate.
  destruct (length g <=? PUB_KEY_LENGTH)%nat; split; first [done|eauto|by intros [? ?]].
Qed.

Lemma pair_readable_spec p : is_Some (translate_Signature_from_pb p) <-> pair_readable p = true.
Proof using.
  unfold translate_Signature_from_pb, pair_readable. rewrite andb_true_iff, <- !readable_spec, is_Some_bind.
  split; intros [[k Hk] H]; (split; [by eexists|]).
  - specialize (H k Hk). by apply is_Some_bind in H as [H _].
  - intros k' _. apply is_Some_bind. split; [done|]. eauto.
Qed.

(** A chain of copies is defined when each of them is. *)
Lemma defined_bind {A B} (m : option A) (f : A -> option B) (p q : bool) :
  (is_Some m <-> p = true) -> (forall a, is_Some (f a) <-> q = true) -> (is_Some (m ≫= f) <-> p && q = true).
Proof using.
  intros Hm Hf. rewrite is_Some_bind, andb_true_iff, Hm. split; intros [H1 H2]; (split; [done|]).
  - apply Hm in H1 as [a Ha]. by apply (Hf a), H2.
  - intros a _. by apply Hf.
Qed.

Lemma defined_ret {A} (a : A) : is_Some (Some a) <-> true = true.
Proof using. split; eauto. Qed.

Lemma amount_spec (a : pb.Amount) :
  is_Some (whole_amount a) <-> bool_decide (is_Some (double_to_u64 (pb.amount a))) = true.
Proof using.
  unfold whole_amount. rewrite bool_decide_eq_true, is_Some_bind. split; [by intros []|]. intros H. split; [done|]. intros a' _. by eexists.
Qed.

Lemma paired_spec ts g : is_Some (translate_paired ts g) <-> group_fits g = true.
Proof using.
  unfold translate_paired. rewrite is_Some_bind, group_fits_spec. split; [by intros []|]. intros H. split; [done|]. intros a' _. by eexists.
Qed.

Lemma data_in_bounds_spec d : is_Some (translate_data d) <-> data_in_bounds d = true.
Proof using.
  destruct d as [[[[t|t|t]|]|r|u|u| |]|]; cbn [translate_data translate_transfer data_in_bounds];
    try apply defined_ret.
  - unfold amount_readable. rewrite <- andb_assoc. apply defined_bind; [apply amount_spec|intros ?].
    apply defined_bind; [apply readable_spec|intros ?]. rewrite <- (andb_true_r (readable _ _)).
    apply defined_bind; [apply readable_spec|intros ?]. apply defined_ret.
  - unfold cross_readable, amount_readable. rewrite <- !andb_assoc. apply defined_bind; [apply amount_spec|intros ?].
    do 2 (apply defined_bind; [apply readable_spec|intros ?]). rewrite <- (andb_true_r (group_fits _)).
    apply defined_bind; [apply paired_spec|intros ?]. apply defined_ret.
  - unfold cross_readable, amount_readable. rewrite <- !andb_assoc. apply defined_bind; [apply amount_spec|intros ?].
    do 2 (apply defined_bind; [apply readable_spec|intros ?]). rewrite <- (andb_true_r (group_fits _)).
    apply defined_bind; [apply paired_spec|intros ?]. apply defined_ret.
  - unfold translate_creation, amount_readable. cbv zeta. apply defined_bind; [apply amount_spec|intros ?].
    rewrite <- (andb_true_r (readable _ _)). apply defined_bind; [apply readable_spec|intros ?]. apply defined_ret.
  - unfold translate_friends_update. rewrite <- (andb_true_r (group_fits _)).
    apply defined_bind; [apply group_fits_spec|intros ?]. apply defined_ret.
  - unfold translate_member_update. cbv zeta. apply defined_bind; [apply readable_spec|intros ?].
    destruct (_ =? 0); [apply defined_ret|]. cbn [orb]. rewrite <- (andb_true_r (group_fits _)).
    apply defined_bind; [apply paired_spec|intros ?]. apply defined_ret.
Qed.

Lemma signature_record_defined pairs j count : forall cs,
  (cs < count <= length pairs)%nat ->
  if forallb pair_readable (take j (drop cs (take count pairs)))
  then exists l, signature_record pairs j cs count = Some (l, (cs + Nat.min j (count - cs))%nat)
  else signature_record pairs j cs count = None.
Proof using.
  induction j as [|j IH]; intros cs Hcs; cbn [signature_record].
  { rewrite take_0. eexists. do 2 f_equal. lia. }
  destruct (lookup_lt_is_Some_2 pairs cs) as [p Hp]; [lia|]. rewrite Hp. cbn [mbind option_bind].
  rewrite (drop_S (take count pairs) p cs) by (rewrite lookup_take_lt by lia; exact Hp).
  cbn [take forallb]. destruct (pair_readable p) eqn:Er.
  2:{ destruct (translate_Signature_from_pb p) eqn:Es; [|done].
      rewrite (proj1 (pair_readable_spec p)) in Er by eauto. done. }
  apply pair_readable_spec in Er as [s ->]. cbn [andb mbind option_bind]. destruct (Nat.eqb_spec (S cs) count) as [E|E].
  - rewrite (drop_ge (take count pairs)) by (rewrite length_take; lia). rewrite take_nil. cbn [forallb].
    eexists. do 2 f_equal. lia.
  - specialize (IH (S cs) ltac:(lia)). destruct (forallb _ _).
    + destruct IH as [l ->]. eexists. cbn [mbind option_bind fst snd]. do 2 f_equal. lia.
    + by rewrite IH.
Qed.

Lemma signature_records_defined pairs count n : forall cs,
  (cs <= count <= length pairs)%nat -> (count - cs <= 3 * n)%nat -> (n = O \/ 3 * (n - 1) < count - cs)%nat ->
  is_Some (signature_records pairs n cs count) <-> forallb pair_readable (drop cs (take count pairs)) = true.
Proof using.
  induction n as [|n IH]; intros cs Hcs Hle Hlt; cbn [signature_records].
  { rewrite drop_ge by (rewrite length_take; lia). apply defined_ret. }
  destruct Hlt as [?|Hlt]; [done|]. pose proof (signature_record_defined pairs 3 count cs ltac:(lia)) as H1.
  rewrite SIGNATURES_PER_RECORD_3. rewrite <- (take_drop 3 (drop cs (take count pairs))), forallb_app.
  destruct (forallb pair_readable (take 3 _)); [destruct H1 as [l ->]|rewrite H1; cbn; split; [intros [? ?]; done|done]].
  cbn [mbind option_bind fst snd andb]. rewrite is_Some_bind, drop_drop, IH by lia.
  destruct (Nat.le_gt_cases (count - cs) 3) as [H3|H3].
  - rewrite !drop_ge by (rewrite length_take; lia). split; [done|]. intros _. split; [done|]. intros a' _. by eexists.
  - rewrite Nat.min_l by lia. rewrite (Nat.add_comm cs). split; [by intros []|]. intros H. split; [done|]. intros a' _. by eexists.
Qed.

Lemma counted_le t : counted t <= Z.of_nat (length (message_pairs t)).
Proof using. unfold counted, u8, uwrap. apply Z.mod_le; lia. Qed.

(** The copies of a message with the right number of signatures. *)
Lemma copies_defined t p :
  badly_signed t = false -> message_pairs t !! O = Some p ->
  in_bounds t = true <->
  is_Some (translate_Signature_from_pb p) /\ is_Some (translate_HederaTransaction_from_pb t)
  /\ (reset_marked t = false ->
      is_Some (translate_data (pb.data (message_body t)))
      /\ is_Some (signature_records (message_pairs t) (Z.to_nat (sig_part_count (counted t)))
           SIGNATURES_IN_MAIN_PART (Z.to_nat (counted t)))).
Proof using.
  intros Hs Hp. unfold in_bounds. rewrite Hs. cbn [orb]. rewrite !andb_true_iff, <- data_in_bounds_spec.
  unfold badly_signed in Hs. apply orb_false_iff in Hs as [H1 H2]. apply Z.ltb_ge in H1, H2.
  assert (is_Some (translate_HederaTransaction_from_pb t) <-> readable 48 (pb.runninghash t) = true) as ->.
  { unfold translate_HederaTransaction_from_pb. rewrite is_Some_bind, readable_spec.
    split; [by intros []|]. intros H. split; [done|]. intros a' _. by eexists. }
  pose proof (counted_le t) as Hc. unfold MINIMUM_SIGNATURE_COUNT in H1.
  destruct (sig_part_count_bounds _ (conj H1 H2)) as (Hn & Hn1 & Hn2).
  unfold SIGNATURES_IN_MAIN_PART. rewrite signature_records_defined by lia.
  assert (forall n, (0 < n)%nat -> forallb pair_readable (take n (message_pairs t)) = true
    <-> is_Some (translate_Signature_from_pb p) /\ forallb pair_readable (drop 1 (take n (message_pairs t))) = true) as Hf.
  { intros n Hn'. rewrite pair_readable_spec. destruct (message_pairs t) as [|q ps]; [done|]. injection Hp as ->.
    destruct n as [|n]; [lia|]. cbn [take drop forallb]. rewrite andb_true_iff. by rewrite drop_0. }
  rewrite Hf by (destruct (reset_marked t); lia). destruct (reset_marked t) eqn:Em.
  - assert (is_Some (translate_data (pb.data (message_body t)))) as Hd.
    { apply data_in_bounds_spec. unfold reset_marked in Em. by destruct (pb.data (message_body t)) as [[]|]. }
    assert (forallb pair_readable (drop 1 (take 1 (message_pairs t))) = true) as Hr.
    { by rewrite drop_ge by (rewrite length_take; lia). }
    intuition discriminate.
  - intuition.
Qed.

Lemma out_of_bounds t P : (in_bounds t = true <-> P) -> ~ P -> in_bounds t = false.
Proof using. intros H HP. apply not_true_iff_false. by rewrite H. Qed.

(** A message is translated exactly when it is within bounds. *)
Lemma translate_defined t b0 :
  if in_bounds t
  then exists b, translate_from_ctr t b0 = Ret tt b
         /\ (b = mkBatch [] true <-> badly_signed t || reset_marked t = true)
  else translate_from_ctr t b0 = Undef.
Proof using.
  unfold translate_from_ctr, set_batch, bind at 1, modify, try_catch, try_translate_gradido. cbv zeta.
  fold (message_pairs t) (message_body t). fold (counted t).
  destruct (badly_signed t) eqn:Hs.
  { unfold in_bounds. rewrite Hs. cbn [orb]. exists (mkBatch [] true). split; [|done]. unfold badly_signed in Hs.
    destruct (counted t <? MINIMUM_SIGNATURE_COUNT); [done|]. cbn in Hs. by rewrite Hs. }
  pose proof Hs as Hs'. unfold badly_signed in Hs'. apply orb_false_iff in Hs' as [H1 H2]. rewrite H1, H2.
  assert (exists p, message_pairs t !! O = Some p) as [p Hp].
  { apply Z.ltb_ge in H1. pose proof (counted_le t). unfold MINIMUM_SIGNATURE_COUNT in H1.
    apply lookup_lt_is_Some_2. lia. }
  pose proof (copies_defined t p Hs Hp) as Hd. rewrite Hp. cbn [mbind option_bind orb].
  destruct (translate_Signature_from_pb p) as [sig|]; [|by rewrite (out_of_bounds t _ Hd) by (intros [[? ?] _]; done)].
  destruct (translate_HederaTransaction_from_pb t) as [ht|];
    [|by rewrite (out_of_bounds t _ Hd) by (intros (_ & [? ?] & _); done)].
  unfold reset_marked in *. rewrite memo_main_eq, memo_records_eq.
  destruct (pb.data (message_body t)) as [[]|] eqn:Ed.
  5:{ rewrite (proj2 Hd) by (split; [eauto|split; [eauto|done]]). by exists (mkBatch [] true). }
  all: destruct (translate_data _) as [bd|];
    [|rewrite (out_of_bounds t _ Hd); [done|intros (_ & _ & H); destruct (H eq_refl) as [[? ?] _]; done]].
  all: destruct (signature_records _ _ _ _) as [sigs|];
    [|rewrite (out_of_bounds t _ Hd); [done|intros (_ & _ & H); destruct (H eq_refl) as [_ [? ?]]; done]].
  all: rewrite (proj2 Hd) by (split; [eauto|split; [eauto|intros _; split; eauto]]);
    eexists; split; [reflexivity|]; split; discriminate.
Qed.

(** C23: a message from the topic is translated exactly when every copy it
    asks for is within bounds (keys, signatures and the running hash are not
    cut off by more than the null behind them, group names fit their field,
    amounts fit 64 bits); otherwise memory outside the strings and fields is
    touched.  A message with a wrong number of signatures, or with the reset
    mark, gives the request to start the blockchain anew, with no record;
    every other one a transaction followed by its parts: every array has the
    size of its field, amounts are well-formed, between one and ten
    signatures are counted, the result is open, every part is a
    null-terminated memo or a full array of signatures, and the field that
    tells the number of parts is right and at most five. *)
Theorem translate_well_typed t b0 :
  if in_bounds t then
    exists b, translate_from_ctr t b0 = Ret tt b
    /\ if badly_signed t || reset_marked t then b = mkBatch [] true
       else exists tr rest, b = mkBatch (GR_transaction tr :: rest) false
           /\ transaction_typed tr /\ Forall part_typed rest
           /\ parts tr = Z.of_nat (length (buff b)) /\ (length (buff b) <= MAX_RECORD_PARTS)%nat
  else translate_from_ctr t b0 = Undef.
Proof.
  pose proof (translate_defined t b0) as H. destruct (in_bounds t); [|done]. destruct H as (b & E & Hb).
  exists b. split; [done|]. destruct (_ || _); [by apply Hb|].
  apply translate_Ret in E as [->|(p & sig & ht & body & memo & memos & sigs & Hc & Hp & Hs & Hh & Hd & Hm & Hr & Hg & ->)];
    [by discriminate (proj1 Hb eq_refl)|]. eexists _, _. split; [reflexivity|].
  destruct (memo_records_typed _ _ Hr) as [Hr1 Hr2]. destruct (signature_records_typed _ _ _ _ _ Hg) as [Hg1 Hg2].
  destruct (sig_part_count_bounds _ Hc) as (Hn & _). split; [|split].
  - split; cbn; eauto using memo_main_typed, translate_data_typed, translate_Signature_typed.
    + now apply uwrap_range.
    + apply bind_Some in Hh as (h & Hh & [= <-]). exact (length_c_str_read _ _ _ Hh).
  - by apply Forall_app.
  - cbn [buff parts length]. rewrite length_app, Hr2, Hg2. unfold MAX_RECORD_PARTS.
    rewrite uwrap_small; destruct (multipart_memo _); lia.
Qed.

(** ** Messages with the documented sizes *)

Definition pair_ok (p : pb.SignaturePair) : Prop :=
  length (pb.pub_key p) = PUB_KEY_LENGTH /\ length (pb.get_ed25519 p) = SIGNATURE_LENGTH.
Definition amount_ok (a : option pb.Amount) : Prop :=
  length (pb.pubkey (pb.get_Amount a)) = PUB_KEY_LENGTH /\ is_Some (double_to_u64 (pb.amount (pb.get_Amount a))).
Definition cross_ok (t : pb.CrossGroupTransfer) : Prop :=
  amount_ok (pb.ct_sender t) /\ length (pb.ct_receiver t) = PUB_KEY_LENGTH
  /\ (length (pb.ct_other_group t) <= PUB_KEY_LENGTH)%nat.
Definition data_ok (d : option pb.BodyData) : Prop :=
  match d with
  | Some (pb.creation r) => amount_ok r
  | Some (pb.group_friends_update u) => (length (pb.group u) <= PUB_KEY_LENGTH)%nat
  | Some (pb.group_member_update u) =>
      length (pb.user_pubkey u) = PUB_KEY_LENGTH /\ (length (pb.target_group u) <= PUB_KEY_LENGTH)%nat
  | Some (pb.transfer (Some (pb.local t))) => amount_ok (pb.lt_sender t) /\ length (pb.lt_receiver t) = PUB_KEY_LENGTH
  | Some (pb.transfer (Some (pb.inbound t))) | Some (pb.transfer (Some (pb.outbound t))) => cross_ok t
  | Some pb.debug_reset_blockchain_mark => False
  | Some (pb.transfer None) | Some pb.other | None => True
  end.
Definition message_ok (t : pb.ConsensusTopicResponse) : Prop :=
  let gt := parse_GradidoTransaction (pb.message t) in
  length (pb.runninghash t) = HEDERA_RUNNING_HASH_LENGTH
  /\ Forall pair_ok (pb.sig_map gt)
  /\ data_ok (pb.data (parse_TransactionBody (pb.body_bytes gt))).

Definition sig_of (p : pb.SignaturePair) : Signature := mkSignature (pb.pub_key p) (pb.get_ed25519 p).

Lemma c_str_read_exact n s : length s = n -> c_str_read n s = Some s.
Proof. intros H. rewrite c_str_read_fits by lia. f_equal. apply take_ge. lia. Qed.

Lemma translate_Signature_exact p : pair_ok p -> translate_Signature_from_pb p = Some (sig_of p).
Proof. intros [Hk Hs]. unfold translate_Signature_from_pb. now rewrite (c_str_read_exact _ _ Hk), (c_str_read_exact _ _ Hs). Qed.

Lemma translate_Signatures_exact l :
  Forall pair_ok l -> mapM translate_Signature_from_pb l = Some (map sig_of l).
Proof. induction 1 as [|p l Hp _ IH]; [done|]. cbn. now rewrite (translate_Signature_exact _ Hp), IH. Qed.

Lemma whole_amount_ok a :
  amount_ok a -> is_Some (whole_amount (pb.get_Amount a)) /\ is_Some (translate_key (pb.pubkey (pb.get_Amount a))).
Proof.
  intros [Hk [z Hz]]. unfold whole_amount, translate_key. rewrite Hz, (c_str_read_exact _ _ Hk). cbn. by split; eexists.
Qed.

Lemma translate_paired_ok ts g : (length g <= PUB_KEY_LENGTH)%nat -> is_Some (translate_paired ts g).
Proof. intros H. unfold translate_paired. rewrite field_write_fits; [by eexists|exact H]. Qed.

Ltac some_binds :=
  repeat match goal with
  | H : is_Some ?x |- context [?x] => let y := fresh in destruct H as [y ->]; cbn [mbind option_bind]
  end.

Lemma translate_data_ok d : data_ok d -> is_Some (translate_data d).
Proof.
  assert (forall s, length s = PUB_KEY_LENGTH -> is_Some (translate_key s)) as Hkey
    by (intros s Hs; unfold translate_key; rewrite (c_str_read_exact _ _ Hs); by eexists).
  destruct d as [[[[t|t|t]|]|r|u|u| |]|]; cbn [data_ok translate_data translate_transfer]; try (by eexists).
  - intros [[Ha Hk]%whole_amount_ok Hr%Hkey]. cbv zeta. some_binds. by eexists.
  - intros ([Ha Hk]%whole_amount_ok & Hr%Hkey & Hg). apply (translate_paired_ok (pb.ct_paired_transaction_id t)) in Hg.
    cbv zeta. some_binds. by eexists.
  - intros ([Ha Hk]%whole_amount_ok & Hr%Hkey & Hg). apply (translate_paired_ok (pb.ct_paired_transaction_id t)) in Hg.
    cbv zeta. some_binds. by eexists.
  - intros [Ha Hk]%whole_amount_ok. unfold translate_creation. cbv zeta. some_binds. by eexists.
  - intros Hg. unfold translate_friends_update. rewrite field_write_fits by exact Hg. by eexists.
  - intros [Hk%Hkey Hg]. apply (translate_paired_ok (pb.gm_paired_transaction_id u)) in Hg.
    unfold translate_member_update. cbv zeta. some_binds. destruct (_ =? 0); by eexists.
Qed.

Lemma message_ok_data t :
  let d := pb.data (parse_TransactionBody (pb.body_bytes (parse_GradidoTransaction (pb.message t)))) in
  message_ok t -> d <> Some pb.debug_reset_blockchain_mark.
Proof. intros d (_ & _ & H). fold d in H. intros E. now rewrite E in H. Qed.

(** The batch of such a message: the transaction, the rest of the memo, and
    the first [count] signatures, with zeroes after them. *)
Lemma translate_ok t b0 :
  let gt := parse_GradidoTransaction (pb.message t) in
  let tb := parse_TransactionBody (pb.body_bytes gt) in
  let count := u8 (Z.of_nat (length (pb.sig_map gt))) in
  message_ok t -> MINIMUM_SIGNATURE_COUNT <= count <= MAXIMUM_SIGNATURE_COUNT ->
  exists tr memos sigs pad,
    translate_from_ctr t b0 = Ret tt (mkBatch (GR_transaction tr :: memos ++ sigs) false)
    /\ signature_count tr = count /\ translate_data (pb.data tb) = Some (body tr)
    /\ hedera_transaction tr = mkHederaTransaction
         (translate_Timestamp_from_pb (pb.get_Timestamp (pb.consensustimestamp t)))
         (pb.runninghash t) (pb.sequencenumber t) (pb.runninghashversion t)
    /\ memo_main (pb.memo tb) = Some (memo tr) /\ memo_records (pb.memo tb) = Some memos
    /\ signature tr :: concat (map record_signatures sigs)
       = take (Z.to_nat count) (map sig_of (pb.sig_map gt)) ++ pad
    /\ Forall only_signatures sigs.
Proof.
  intros gt tb count Hok Hc. pose proof (message_ok_data t Hok) as Hd. destruct Hok as (Hh & Hp & Hdata).
  fold gt in Hp, Hdata, Hd. fold tb in Hdata, Hd. set (pairs := pb.sig_map gt) in *.
  assert (count = u8 (Z.of_nat (length pairs))) as Ecount by reflexivity.
  assert (exists p ps, pairs = p :: ps) as (p & ps & Eps).
  { destruct pairs as [|p ps] eqn:E; [|by eexists _, _]. exfalso.
    assert (count = 0) as Hz by exact Ecount. unfold MINIMUM_SIGNATURE_COUNT in Hc. lia. }
  assert (Z.to_nat count <= length pairs)%nat as Hle by (rewrite Ecount; unfold uwrap; divmod_lia).
  destruct (translate_data_ok _ Hdata) as [body Hb].
  destruct (sig_part_count_bounds _ Hc) as (Hn0 & Hn1 & Hn2). unfold MINIMUM_SIGNATURE_COUNT in Hc.
  destruct (signature_records_spec pairs _ (Z.to_nat count) (translate_Signatures_exact _ Hp) Hle
    (Z.to_nat (sig_part_count count)) SIGNATURES_IN_MAIN_PART) as (rs & pad & Hrs & _ & Hpad);
    [unfold SIGNATURES_IN_MAIN_PART; lia..|].
  assert (translate_HederaTransaction_from_pb t = Some (mkHederaTransaction
         (translate_Timestamp_from_pb (pb.get_Timestamp (pb.consensustimestamp t)))
         (pb.runninghash t) (pb.sequencenumber t) (pb.runninghashversion t))) as Hht.
  { unfold translate_HederaTransaction_from_pb. rewrite (c_str_read_exact 48); [done|exact Hh]. }
  eexists (mkTransaction _ _ _ _ _ _ _ _ _), _, rs, pad. cbn [signature_count GradidoDef.body hedera_transaction memo signature].
  split; [|split; [reflexivity|split; [exact Hb|split; [reflexivity|split; [apply memo_main_eq|split; [apply memo_records_eq|]]]]]].
  - unfold translate_from_ctr, set_batch, bind, modify, try_catch, try_translate_gradido. cbv zeta.
    fold gt. fold tb. fold pairs. fold count.
    rewrite (proj2 (Z.ltb_ge count _)), (proj2 (Z.ltb_ge _ count)) by (unfold MINIMUM_SIGNATURE_COUNT; lia).
    replace (pairs !! O) with (Some p) by now rewrite Eps. cbn [mbind option_bind].
    rewrite (translate_Signature_exact p) by (rewrite Eps in Hp; now inversion Hp).
    unfold of_option, bind, ret. rewrite Hht.
    destruct (pb.data tb) as [[]|]; try (by destruct Hd); rewrite Hb, memo_main_eq, memo_records_eq, Hrs; reflexivity.
  - split; [|eapply signature_records_only, Hrs].
    rewrite Hpad, Eps. destruct (Z.to_nat count) as [|k] eqn:Ek; [lia|]. cbn [map take drop]. reflexivity.
Qed.

(** Reading the memo back from the two fields. *)
Lemma read_memo_ok tr m memos sigs :
  Forall (fun b => b <> 0) m -> (length m <= MEMO_MAIN_SIZE + (MEMO_PART_SIZE - 1))%nat ->
  memo_main m = Some (memo tr) -> memo_records m = Some memos ->
  Forall only_signatures sigs ->
  read_memo (GR_transaction tr :: memos ++ sigs) = m.
Proof.
  rewrite memo_main_eq, memo_records_eq. intros Hnn Hlen [= Hm] [= <-] Hs.
  destruct (multipart_memo m) eqn:E.
  - apply Nat.ltb_lt in E. cbn [app read_memo]. unfold memo_text. rewrite <- Hm.
    destruct (lookup_lt_is_Some_2 m (MEMO_MAIN_SIZE - 1)) as [b Hb]; [unfold MEMO_MAIN_SIZE in *; lia|].
    rewrite lookup_take_lt, Hb by (unfold MEMO_MAIN_SIZE; lia). cbn [from_option id default].
    rewrite (proj2 (Z.eqb_neq b 0)) by (eapply Forall_lookup_1 in Hnn; [exact Hnn|exact Hb]).
    rewrite take_take, Nat.min_id, cstr_zero_padded by (unfold other_part; apply Forall_take, Forall_drop, Hnn).
    unfold other_part. rewrite (take_ge (drop _ _)) by (rewrite length_drop; lia). apply take_drop.
  - apply Nat.ltb_ge in E.
    assert (memo_text tr = m) as Ht.
    { unfold memo_text. rewrite <- Hm, lookup_app_r by exact E. rewrite lookup_replicate_2 by (unfold MEMO_MAIN_SIZE in *; lia).
      cbn. now apply cstr_zero_padded. }
    destruct Hs as [|[] sigs H _]; cbn [app read_memo]; done.
Qed.

Lemma read_signatures_ok tr m memos sigs l pad :
  memo_records m = Some memos -> signature tr :: concat (map record_signatures sigs) = l ++ pad ->
  length l = Z.to_nat (signature_count tr) -> read_signatures (GR_transaction tr :: memos ++ sigs) = l.
Proof.
  rewrite memo_records_eq. intros [= <-] Hs Hl. unfold read_signatures. rewrite map_app, concat_app, <- Hl.
  replace (concat (map record_signatures _)) with (@nil Signature) by now destruct (multipart_memo m).
  cbn [app]. rewrite Hs. now apply take_app_length'.
Qed.

Definition memo_ok (m : bytes) : Prop :=
  Forall (fun b => b <> 0) m /\ (length m <= MEMO_MAIN_SIZE + (MEMO_PART_SIZE - 1))%nat.

Lemma translate_reads_back t b0 :
  message_ok t -> (1 <= length (message_pairs t) <= 10)%nat -> memo_ok (pb.memo (message_body t)) ->
  exists tr rest, translate_from_ctr t b0 = Ret tt (mkBatch (GR_transaction tr :: rest) false)
    /\ read_signatures (GR_transaction tr :: rest) = map sig_of (message_pairs t)
    /\ read_memo (GR_transaction tr :: rest) = pb.memo (message_body t)
    /\ translate_data (pb.data (message_body t)) = Some (body tr)
    /\ sequenceNumber (hedera_transaction tr) = pb.sequencenumber t
    /\ runningHash (hedera_transaction tr) = pb.runninghash t.
Proof.
  intros Hok Hn [Hm1 Hm2]. unfold message_pairs in Hn.
  destruct (translate_ok t b0 Hok) as (tr & memos & sigs & pad & E & Hcount & Hb & Hh & Hm & Hr & Hs & Hns).
  { rewrite uwrap_small by lia. rewrite MAXIMUM_SIGNATURE_COUNT_10. unfold MINIMUM_SIGNATURE_COUNT. lia. }
  exists tr, (memos ++ sigs). split; [exact E|]. split; [|split; [|split; [exact Hb|rewrite Hh; by split]]].
  - rewrite take_ge in Hs by (rewrite length_map, uwrap_small by lia; lia).
    eapply read_signatures_ok; [exact Hr|exact Hs|]. rewrite length_map, Hcount, uwrap_small by lia. now rewrite Nat2Z.id.
  - by eapply read_memo_ok.
Qed.

(** C25: a message with keys, signatures and groups of the documented sizes,
    one to ten signatures and a memo of at most 370 bytes without nulls is
    translated without undefined behaviour, and the batch holds what came
    in: reading it back gives every signature in order and the whole memo,
    and the consensus data are those of the response. *)
Theorem translate_keeps_message t b0 :
  message_ok t -> (1 <= length (message_pairs t) <= 10)%nat -> memo_ok (pb.memo (message_body t)) ->
  exists tr rest, translate_from_ctr t b0 = Ret tt (mkBatch (GR_transaction tr :: rest) false)
    /\ read_signatures (GR_transaction tr :: rest) = map sig_of (message_pairs t)
    /\ read_memo (GR_transaction tr :: rest) = pb.memo (message_body t)
    /\ translate_data (pb.data (message_body t)) = Some (body tr)
    /\ sequenceNumber (hedera_transaction tr) = pb.sequencenumber t
    /\ runningHash (hedera_transaction tr) = pb.runninghash t.
Proof. exact (translate_reads_back t b0). Qed.

(** The count of signatures is kept in one byte: a message with 257 to
    266 signatures is accepted, and only its first ones, 256 fewer than it
    has, are stored. *)
Theorem signature_count_wraps t b0 :
  message_ok t -> (257 <= length (message_pairs t) <= 266)%nat ->
  exists tr rest, translate_from_ctr t b0 = Ret tt (mkBatch (GR_transaction tr :: rest) false)
    /\ signature_count tr = Z.of_nat (length (message_pairs t)) - 256
    /\ read_signatures (GR_transaction tr :: rest)
       = take (length (message_pairs t) - 256) (map sig_of (message_pairs t)).
Proof.
  intros Hok Hn. unfold message_pairs in Hn |- *. set (k := length _) in *.
  assert (u8 (Z.of_nat k) = Z.of_nat (k - 256)) as Hk by (unfold uwrap; divmod_lia).
  destruct (translate_ok t b0 Hok) as (tr & memos & sigs & pad & E & Hcount & _ & _ & _ & Hr & Hs & _).
  { fold k. rewrite Hk, MAXIMUM_SIGNATURE_COUNT_10. unfold MINIMUM_SIGNATURE_COUNT. lia. }
  fold k in Hcount, Hs. rewrite Hk in Hcount, Hs. rewrite Nat2Z.id in Hs.
  exists tr, (memos ++ sigs). split; [exact E|]. split; [rewrite Hcount; lia|].
  eapply read_signatures_ok; [exact Hr|exact Hs|]. rewrite length_take, length_map, Hcount, Nat2Z.id. fold k. lia.
Qed.

(** ** From the topic to the ledger *)

Lemma malformed_translated t b0 :
  let count := u8 (Z.of_nat (length (message_pairs t))) in
  count < MINIMUM_SIGNATURE_COUNT \/ MAXIMUM_SIGNATURE_COUNT < count ->
  translate_from_ctr t b0 = Ret tt (mkBatch [] true).
Proof.
  intros count H. unfold message_pairs in count. unfold translate_from_ctr, set_batch, bind, modify, try_catch, try_translate_gradido.
  cbv zeta. fold count. destruct (Z.ltb_spec count MINIMUM_SIGNATURE_COUNT); [done|].
  destruct (Z.ltb_spec MAXIMUM_SIGNATURE_COUNT count); [done|lia].
Qed.

Section ledger.
Context {St : Type} `{STO : !Storage GradidoRecord St}.
Context {F : Type} `{MP : !GradidoMath.Mpfr F}.
Context (get_group_blockchain : bytes -> option IBlockchain).
Context (rep : St -> list (list GradidoRecord * bytes) -> Prop) `{SL : !StorageLaws rep}.
Context (allowed : bool) (batch_size : nat).
#[local] Existing Instance BlockchainGradido_Child.
Abbreviation B := (Base GradidoRecord St BlockchainGradido).

Definition push_transaction (t : pb.ConsensusTopicResponse) : M B unit :=
  PushTransactionsTask_run translate_from_ctr
    (add_transaction (CH := BlockchainGradido_Child get_group_blockchain) (Deprecated allowed) batch_size) t.

(** A message whose signature count, in one byte, is not between one and
    ten is taken for a request to start anew: where topics may be reset it
    truncates the ready blockchain and empties its indexes, elsewhere the
    task throws. *)
Theorem malformed_message_resets_ledger t (b : B) bs :
  let count := u8 (Z.of_nat (length (message_pairs t))) in
  count < MINIMUM_SIGNATURE_COUNT \/ MAXIMUM_SIGNATURE_COUNT < count ->
  b_state b = READY -> b_inbound b = [] -> (0 < batch_size)%nat -> rep (b_storage b) bs ->
  if allowed then
    exists b', push_transaction t b = Ret tt b' /\ st_truncate 0 (b_storage b) = Ret tt (b_storage b')
      /\ user_index (b_child b') = ∅ /\ friend_group_index (b_child b') = ∅
  else exists e b', push_transaction t b = Throw e b'.
Proof.
  intros count Hc Hst Hq Hbs Hrep. unfold push_transaction, PushTransactionsTask_run.
  rewrite (malformed_translated t _ Hc). destruct allowed.
  - destruct (law_truncate _ _ Hrep) as [s' Es].
    exists (set_b_child (set_outbound ∅ (set_friends ∅ (set_user_index ∅ (b_child b))))
      (set_b_indexed_blocks 0 (set_b_storage s' b))).
    split; [apply add_when_idle; [done|done|done| |exact Hq]|split; [exact Es|by split]].
    unfold process_batch. cbn [reset_blockchain negb]. rewrite (stor_bind _ _ _ _ _ Es), b_modify. reflexivity.
  - destruct batch_size as [|n]; [lia|]. unfold add_transaction, inbound_push. rewrite bind_assoc, b_gets, Hq.
    cbn [pq_push]. rewrite b_modify. unfold continue_with_transactions. rewrite b_gets.
    cbn [b_state set_b_inbound]. rewrite Hst, bool_decide_eq_true_2 by done. cbn [negb transaction_loop].
    rewrite bind_assoc, b_gets. by eexists _, _.
Qed.

(** Messages the ledger settles by itself, see [settled]. *)
Definition good_topic_message (t : pb.ConsensusTopicResponse) : Prop :=
  message_ok t /\ (1 <= length (message_pairs t) <= 10)%nat /\ memo_ok (pb.memo (message_body t))
  /\ (forall bd, translate_data (pb.data (message_body t)) = Some bd -> settled (with_body bd Transaction_zero) = true).

Fixpoint numbers_follow (n : N) (l : list pb.ConsensusTopicResponse) : Prop :=
  match l with
  | [] => True
  | t :: l' => pb.sequencenumber t = (n + 1)%N /\ numbers_follow (n + 1) l'
  end.

(** The records of a message as the blockchain keeps them. *)
Definition holds_message (recs : list GradidoRecord) (t : pb.ConsensusTopicResponse) : Prop :=
  read_signatures recs = map sig_of (message_pairs t) /\ read_memo recs = pb.memo (message_body t)
  /\ exists tr rest, recs = GR_transaction tr :: rest /\ sequenceNumber (hedera_transaction tr) = pb.sequencenumber t.

(** What the transaction gets from the ledger does not change what is read
    back. *)
Lemma same_origin_reads tr tr' rest :
  same_origin tr' tr ->
  read_signatures (GR_transaction tr' :: rest) = read_signatures (GR_transaction tr :: rest)
  /\ read_memo (GR_transaction tr' :: rest) = read_memo (GR_transaction tr :: rest).
Proof. intros ->. destruct rest as [|[] ?]; by split. Qed.

(** One such message, the next one. *)
Lemma push_settled t (b : B) bs :
  b_state b = READY -> b_inbound b = [] -> (0 < batch_size)%nat -> rep (b_storage b) bs ->
  waiting_for_paired (b_child b) = false -> in_step b bs -> good_topic_message t ->
  pb.sequencenumber t = (default 0 (BlockchainGradido_latest (Blockchain.bc_log bs)) + 1)%N ->
  (default 0 (BlockchainGradido_latest (Blockchain.bc_log bs)) + 1 < 2 ^ 64)%N ->
  exists b' bs' recs, push_transaction t b = Ret tt b'
    /\ b_state b' = READY /\ b_inbound b' = [] /\ b_effects b' = b_effects b /\ rep (b_storage b') bs'
    /\ waiting_for_paired (b_child b') = false /\ in_step b' bs'
    /\ BlockchainGradido_latest (Blockchain.bc_log bs') = Some (pb.sequencenumber t)
    /\ Blockchain.bc_log bs' = Blockchain.bc_log bs ++ recs /\ holds_message recs t.
Proof.
  intros Hst Hq Hbs Hrep Hw Hin (Hok & Hn & Hm & Hset) Hseq Hlt.
  destruct (translate_reads_back t (mkBatch [] false) Hok Hn Hm) as (tr & rest & E & Hs & Hmemo & Hb & Hq1 & _).
  assert (Forall (fun r => transaction_seq r = None) rest) as Hrest.
  { pose proof (translate_Ret _ _ _ E) as [?|H]; [done|].
    destruct H as (p & sig & ht & bd & memo & memos & sigs & _ & _ & _ & _ & _ & _ & Hr & Hg & [= -> ->]).
    apply Forall_app. split; [|eapply Forall_impl; [eapply signature_records_only, Hg|by intros []]].
    eapply Forall_impl; [eapply memo_records_typed, Hr|by intros []]. }
  destruct (add_settled get_group_blockchain rep allowed batch_size (mkMessage tr rest) b bs Hst Hq Hbs Hrep Hw)
    as (b1 & bs1 & E1 & Hst1 & Hi1 & He1 & Hrep1 & Hw1 & Hin1 & Hlat & tr' & Ho & Hlog).
  { split; [|exact Hrest]. specialize (Hset _ Hb). exact Hset. }
  { exact Hin. }
  { unfold is_next, message_seq. cbn [m_tr]. rewrite Hq1, Hseq.
    destruct (BlockchainGradido_latest (Blockchain.bc_log bs)); cbn [from_option id default] in *;
      [rewrite N.mod_small by lia; apply N.eqb_refl|apply orb_true_r]. }
  unfold message_seq in Hlat. cbn [m_tr] in Hlat. rewrite Hq1 in Hlat.
  exists b1, bs1, (stored tr' (mkMessage tr rest)). split; [|split_and!; try done].
  - unfold push_transaction, PushTransactionsTask_run. rewrite E. exact E1.
  - destruct (same_origin_reads tr tr' rest Ho) as [H1 H2].
    unfold holds_message, stored. cbn [m_parts]. rewrite H1, H2. split_and!; [done|done|].
    eexists _, _. split; [reflexivity|]. now rewrite (same_origin_hedera _ _ Ho).
Qed.

(** Messages from the topic, of the documented sizes, signed one to ten
    times, of the kinds the ledger settles by itself, and numbered from the
    last stored one on: pushing them one after the other stores every one of
    them, in order, with all its signatures and its whole memo. *)
Theorem topic_messages_stored l : forall (b : B) bs,
  b_state b = READY -> b_inbound b = [] -> (0 < batch_size)%nat -> rep (b_storage b) bs ->
  waiting_for_paired (b_child b) = false -> in_step b bs -> Forall good_topic_message l ->
  numbers_follow (default 0%N (BlockchainGradido_latest (Blockchain.bc_log bs))) l ->
  (default 0 (BlockchainGradido_latest (Blockchain.bc_log bs)) + N.of_nat (length l) < 2 ^ 64)%N ->
  exists b' bs' recs, for_each l push_transaction b = Ret tt b'
    /\ b_state b' = READY /\ rep (b_storage b') bs' /\ in_step b' bs'
    /\ Blockchain.bc_log bs' = Blockchain.bc_log bs ++ concat recs /\ Forall2 holds_message recs l.
Proof.
  induction l as [|t l IH]; intros b bs Hst Hq Hbs Hrep Hw Hin Hgood Hnum Hlt; cbn [for_each].
  { exists b, bs, []. rewrite app_nil_r. by split_and!. }
  apply Forall_cons in Hgood as [Ht Hl]. destruct Hnum as [Hseq Hnum]. cbn [length] in Hlt.
  destruct (push_settled t b bs Hst Hq Hbs Hrep Hw Hin Ht Hseq ltac:(lia))
    as (b1 & bs1 & recs1 & E1 & Hst1 & Hi1 & _ & Hrep1 & Hw1 & Hin1 & Hlat & Hlog & Hrecs1).
  destruct (IH b1 bs1) as (b' & bs' & recs & E' & Hst' & Hrep' & Hin' & Hlog' & Hrecs); try done;
    try (rewrite Hlat; cbn [from_option id default]; rewrite Hseq; done || lia).
  exists b', bs', (recs1 :: recs). split; [by rewrite (bind_Ret _ _ _ _ _ E1)|]. split_and!; try done; [|by constructor].
  rewrite Hlog', Hlog. cbn [concat]. now rewrite (assoc_L (++)).
Qed.
End ledger.

(** ** The register *)

Lemma write_alias_spec s :
  write_alias s = if (length (cstr s) <? GROUP_ALIAS_LENGTH)%nat then Some (padded (cstr s)) else None.
Proof.
  unfold write_alias, field_write. rewrite length_app, length_replicate. cbn [length].
  destruct (Nat.ltb_spec (length (cstr s)) GROUP_ALIAS_LENGTH);
    [rewrite (proj2 (Nat.leb_le _ _)) by lia|now rewrite (proj2 (Nat.leb_gt _ _)) by lia].
  unfold padded. rewrite drop_replicate, <- (assoc_L (++)). f_equal. f_equal.
  replace (GROUP_ALIAS_LENGTH - length (cstr s))%nat with (S (GROUP_ALIAS_LENGTH - (length (cstr s) + 1)))%nat by lia.
  reflexivity.
Qed.

Lemma cstr_nonnull s : Forall (fun c => c <> 0) (cstr s).
Proof. induction s as [|b s IH]; [constructor|]. cbn [cstr]. destruct (Z.eqb_spec b 0); now constructor. Qed.

(** A group registered through the topic gets one record with its topic,
    its number and an alias that reads back as it was sent, provided the
    alias has fewer than 16 characters; a longer one is copied past its
    field.  A message that asks for a reset gives no record. *)
Theorem register_message_translated t b0 :
  let tb := parse_AddGroupToRegister (pb.message t) in
  length (pb.runninghash t) = HEDERA_RUNNING_HASH_LENGTH ->
  if pb.reset_group_register tb then translate_from_ctr_register t b0 = Ret tt (mkBatch [] true)
  else if (length (cstr (pb.alias tb)) <? GROUP_ALIAS_LENGTH)%nat then
    exists g, translate_from_ctr_register t b0 = Ret tt (mkBatch [mkGroupRegisterRecord GROUP_RECORD_code g] false)
      /\ length (gr_alias g) = GROUP_ALIAS_LENGTH /\ field_string (gr_alias g) = Some (cstr (pb.alias tb))
      /\ translate_TopicID_to_pb (gr_topic_id g) = pb.get_TopicID (pb.topic_id tb)
      /\ sequenceNumber (gr_hedera_transaction g) = pb.sequencenumber t /\ gr_success g = false
  else translate_from_ctr_register t b0 = Undef.
Proof.
  intros tb Hh. unfold translate_from_ctr_register, set_batch, bind, modify, try_catch, try_translate_register.
  cbv zeta. fold tb. destruct (pb.reset_group_register tb); [done|]. rewrite write_alias_spec.
  destruct (Nat.ltb_spec (length (cstr (pb.alias tb))) GROUP_ALIAS_LENGTH) as [Hl|Hl]; [|done].
  unfold of_option, bind, ret, translate_HederaTransaction_from_pb. rewrite (c_str_read_exact 48) by exact Hh.
  cbn [mbind option_bind]. eexists. split; [reflexivity|]. cbn.
  assert (length (padded (cstr (pb.alias tb))) = GROUP_ALIAS_LENGTH) as Hpad
    by (unfold padded; rewrite length_app, length_replicate; lia).
  split; [exact Hpad|]. split; [|by destruct (pb.get_TopicID _)].
  unfold field_string. rewrite cstr_padded by apply cstr_nonnull. rewrite Hpad. now rewrite (proj2 (Nat.ltb_lt _ _)).
Qed.
End translate.

(** ** Identifiers *)

Lemma mapM_snoc {A B} (f : A -> option B) l x :
  mapM f (l ++ [x]) = (l' ← mapM f l; y ← f x; Some (l' ++ [y])).
Proof.
  induction l as [|a l IH]; cbn; [by destruct (f x)|]. destruct (f a); [|done]. cbn. rewrite IH.
  destruct (mapM f l); [|done]. cbn. by destruct (f x).
Qed.

(** Identifiers, consensus data and signatures written to a message and
    read back are the same; so are identifiers the other way round. *)
Theorem identifiers_roundtrip (ts : pb.Timestamp) (acc : pb.AccountID) (top : pb.TopicID)
    (id : HederaTransactionID) (h : HederaTransaction) (m : pb.SignatureMap) (s : Signature) :
  hedera_typed h -> signature_typed s ->
  translate_Timestamp_to_pb (translate_Timestamp_from_pb ts) = ts
  /\ translate_AccountID_to_pb (translate_AccountID_from_pb acc) = acc
  /\ translate_TopicID_to_pb (translate_TopicID_from_pb top) = top
  /\ translate_TransactionID_from_pb (translate_TransactionID_to_pb id) = id
  /\ translate_HederaTransaction_from_pb (translate_HederaTransaction_to_pb h) = Some h
  /\ mapM translate_Signature_from_pb (translate_Signature_to_pb m s)
     = (l ← mapM translate_Signature_from_pb m; Some (l ++ [s])).
Proof.
  intros Hh [Hk Hs]. split; [by destruct ts|]. split; [by destruct acc|]. split; [by destruct top|].
  split; [by destruct id as [[] []]|]. split.
  - unfold translate_HederaTransaction_from_pb. cbn [translate_HederaTransaction_to_pb pb.runninghash].
    rewrite (c_str_read_exact 48) by exact Hh. by destruct h as [[] ? ? ?].
  - unfold translate_Signature_to_pb. rewrite mapM_snoc, translate_Signature_exact by by split. by destruct s.
Qed.

(** An amount of [m / 2 ^ k] gradidos is recorded as whole gradidos
    rounded down: never more than was sent, and less than one gradido
    below. *)
Theorem amount_rounded_down key m k v :
  0 <= k -> whole_amount (pb.mkAmount key (S754_finite false m (- k))) = Some v ->
  decimal_amount v = 0
  /\ micro v * 2 ^ k <= GRADIDO_VALUE_DECIMAL_AMOUNT_BASE * Zpos m < (micro v + GRADIDO_VALUE_DECIMAL_AMOUNT_BASE) * 2 ^ k.
Proof.
  intros Hk. unfold whole_amount. cbn [pb.amount double_to_u64].
  destruct (_ <? _); [|discriminate]. intros [= <-]. unfold micro, GRADIDO_VALUE_DECIMAL_AMOUNT_BASE.
  cbn [amount decimal_amount]. split; [done|]. rewrite Z.shiftl_div_pow2 by lia. rewrite Z.opp_involutive.
  assert (0 < 2 ^ k) by now apply Z.pow_pos_nonneg.
  pose proof (Z.mul_div_le (Zpos m) (2 ^ k)). pose proof (Z.mul_succ_div_gt (Zpos m) (2 ^ k)). nia.
Qed.

(** ** Witnesses *)

#[local] Existing Instances Blockchain.demo_sort Blockchain.demo_bad Blockchain.demo_names GradidoMath.exact_mpfr demo_ledger_storage demo_ledger_laws.

Definition demo_sig_pair (c : Z) : pb.SignaturePair :=
  pb.mkSignaturePair (replicate PUB_KEY_LENGTH c) (Some (pb.ed25519 (replicate SIGNATURE_LENGTH c))).
Definition demo_message (n : N) : pb.ConsensusTopicResponse :=
  pb.mkConsensusTopicResponse (Some (pb.mkTimestamp 5 6)) [1] (replicate 48 9) n 1.
Definition demo_memo : bytes := replicate 20 65.
Definition demo_member : pb.GroupMemberUpdate := pb.mkGroupMemberUpdate (replicate 32 7) 0 None [].
Definition demo_parse_gt (n : nat) (_ : bytes) : pb.GradidoTransaction :=
  pb.mkGradidoTransaction (map (fun i => demo_sig_pair (Z.of_nat i)) (seq 1 n)) [2].
Definition demo_parse_tb (_ : bytes) : pb.TransactionBody :=
  pb.mkTransactionBody demo_memo 1 (Some (pb.group_member_update demo_member)).

Lemma demo_pairs_ok (l : list nat) : Forall pair_ok (map (fun i => demo_sig_pair (Z.of_nat i)) l).
Proof. induction l; constructor; [by split|done]. Qed.

Lemma demo_message_ok n k : message_ok (demo_parse_gt n) demo_parse_tb (demo_message k).
Proof. split; [done|]. split; [apply demo_pairs_ok|]. split; [done|]. apply Nat.leb_le. reflexivity. Qed.

Lemma demo_memo_ok : memo_ok demo_memo.
Proof. split; [by repeat constructor|]. apply Nat.leb_le. reflexivity. Qed.

Lemma translate_keeps_message_witness :
  exists tr rest, translate_from_ctr (demo_parse_gt 5) demo_parse_tb (demo_message 1) (mkBatch [] false)
      = Ret tt (mkBatch (GR_transaction tr :: rest) false)
    /\ read_signatures (GR_transaction tr :: rest) = map sig_of (map (fun i => demo_sig_pair (Z.of_nat i)) (seq 1 5))
    /\ read_memo (GR_transaction tr :: rest) = demo_memo /\ body tr = TB_add_user (replicate 32 7).
Proof.
  destruct (translate_keeps_message (demo_parse_gt 5) demo_parse_tb (demo_message 1) (mkBatch [] false)
    (demo_message_ok 5 1) ltac:(cbn; lia) demo_memo_ok) as (tr & rest & E & Hs & Hm & Hb & _).
  exists tr, rest. split; [exact E|]. split; [exact Hs|]. split; [exact Hm|]. vm_compute in Hb. now injection Hb.
Defined.

Lemma signature_count_wraps_witness :
  exists tr rest, translate_from_ctr (demo_parse_gt 258) demo_parse_tb (demo_message 1) (mkBatch [] false)
      = Ret tt (mkBatch (GR_transaction tr :: rest) false)
    /\ signature_count tr = 2
    /\ read_signatures (GR_transaction tr :: rest) = [sig_of (demo_sig_pair 1); sig_of (demo_sig_pair 2)].
Proof.
  exact (signature_count_wraps (demo_parse_gt 258) demo_parse_tb (demo_message 1) (mkBatch [] false)
    (demo_message_ok 258 1) (conj (proj1 (Nat.leb_le 257 258) eq_refl) (proj1 (Nat.leb_le 258 266) eq_refl))).
Defined.

Lemma malformed_message_resets_ledger_witness :
  exists b', push_transaction (demo_parse_gt 0) demo_parse_tb no_groups true 10 (demo_message 1) demo_b = Ret tt b'
    /\ st_truncate 0 (b_storage demo_b) = Ret tt (b_storage b')
    /\ user_index (b_child b') = ∅ /\ friend_group_index (b_child b') = ∅.
Proof.
  exact (malformed_message_resets_ledger (demo_parse_gt 0) demo_parse_tb no_groups Blockchain_rep true 10
    (demo_message 1) demo_b [demo_ledger_block] (or_introl eq_refl) eq_refl eq_refl
    (proj1 (Nat.ltb_lt 0 10) eq_refl) demo_ledger_rep).
Defined.

Lemma demo_topic_good k : good_topic_message (demo_parse_gt 2) demo_parse_tb (demo_message k).
Proof.
  split; [apply demo_message_ok|]. split; [cbn; lia|]. split; [exact demo_memo_ok|].
  intros bd H. vm_compute in H. now injection H as <-.
Qed.

Lemma topic_messages_stored_witness :
  exists b' bs' recs,
    for_each [demo_message 6; demo_message 7]
      (push_transaction (demo_parse_gt 2) demo_parse_tb no_groups false 10)
      (demo_ledger BlockchainGradido_new demo_ledger_chain) = Ret tt b'
    /\ b_state b' = READY /\ Blockchain_rep (b_storage b') bs' /\ in_step b' bs'
    /\ Blockchain.bc_log bs' = Blockchain.bc_log [demo_ledger_block] ++ concat recs
    /\ Forall2 (holds_message (demo_parse_gt 2) demo_parse_tb) recs [demo_message 6; demo_message 7].
Proof.
  exact (topic_messages_stored (demo_parse_gt 2) demo_parse_tb no_groups Blockchain_rep false 10
    [demo_message 6; demo_message 7] (demo_ledger BlockchainGradido_new demo_ledger_chain) [demo_ledger_block]
    eq_refl eq_refl (proj1 (Nat.ltb_lt 0 10) eq_refl) demo_ledger_rep eq_refl
    (ex_intro _ BlockchainGradido_new (conj eq_refl (conj eq_refl eq_refl)))
    (Forall_cons_2 _ _ _ (demo_topic_good 6) (Forall_cons_2 _ _ _ (demo_topic_good 7) (Forall_nil_2 _))) ltac:(repeat split) eq_refl).
Defined.

Lemma register_message_translated_witness :
  exists g, translate_from_ctr_register (fun _ => pb.mkAddGroupToRegister [65; 66] None false) (demo_message 3)
      (mkBatch [] true) = Ret tt (mkBatch [mkGroupRegisterRecord GROUP_RECORD_code g] false)
    /\ length (gr_alias g) = GROUP_ALIAS_LENGTH /\ field_string (gr_alias g) = Some [65; 66]
    /\ translate_TopicID_to_pb (gr_topic_id g) = pb.mkTopicID 0 0 0
    /\ sequenceNumber (gr_hedera_transaction g) = 3%N /\ gr_success g = false.
Proof.
  exact (register_message_translated (fun _ => pb.mkAddGroupToRegister [65; 66] None false) (demo_message 3)
    (mkBatch [] true) eq_refl).
Defined.

Lemma identifiers_roundtrip_witness :
  mapM translate_Signature_from_pb (translate_Signature_to_pb [demo_sig_pair 1] Signature_zero)
  = Some [sig_of (demo_sig_pair 1); Signature_zero].
Proof.
  destruct (identifiers_roundtrip (pb.mkTimestamp 1 2) (pb.mkAccountID 1 2 3) (pb.mkTopicID 1 2 3)
    (mkHederaTransactionID HederaTimestamp_zero (mkHederaAccountID 1 2 3)) HederaTransaction_zero [demo_sig_pair 1]
    Signature_zero eq_refl (conj eq_refl eq_refl)) as (_ & _ & _ & _ & _ & H).
  exact H.
Defined.

(** Two and a half gradidos: two are recorded. *)
Lemma amount_rounded_down_witness :
  whole_amount (pb.mkAmount [] (S754_finite false 5 (- 1))) = Some (mkGradidoValue 2 0)
  /\ micro (mkGradidoValue 2 0) * 2 ^ 1 <= GRADIDO_VALUE_DECIMAL_AMOUNT_BASE * 5.
Proof.
  split; [reflexivity|].
  exact (proj1 (proj2 (amount_rounded_down [] 5 1 (mkGradidoValue 2 0) ltac:(lia) eq_refl))).
Defined.
