(* ===== verification/Factory.v ===== *)
(** * Factories of transactions (versioned.cpp)

    [TransactionFactory_1] builds the records of a transaction from
    identifiers in hexadecimal, an amount and a memo.  A result is an exit
    code with the records and the length written out, [None] undefined
    behaviour.

    [FactoryBase::check_id] has no return statement for a good identifier.
    What the compiled function gives then is the parameter [no_return] of
    the model; the theorems hold for every value. *)

From stdpp Require Import base list.
From Stdlib Require Import ZArith Lia.
From S2P Require Import Prelude GradidoDef CoreUtils Translate.
Local Open Scope Z_scope.

Inductive ExitCode := OK | ID_BAD_LENGTH | ID_NOT_A_HEX | MEMO_TOO_LONG | MEMO_CONTAINS_ZERO_CHAR.

#[export] Instance ExitCode_eq_dec : EqDecision ExitCode.
Proof. solve_decision. Defined.

Definition PUB_KEY_LENGTH_HEX : nat := PUB_KEY_LENGTH * 2.
Definition MAX_TOTAL_MEMO_LENGTH : nat := MEMO_FULL_SIZE * 5 + MEMO_MAIN_SIZE.

(** What a factory writes through [out] and [out_length].  The type of the
    first record is never set and stays 0; the member of its union that was
    written is kept beside it. *)
Record Made := mkMade
  { made_records : list Transaction; made_member : option TransactionBody; made_length : nat }.
Definition result : Type := option (ExitCode * option Made).

Definition with_memo (m : bytes) (t : Transaction) : Transaction :=
  mkTransaction (version_number t) (parts t) (transaction_id t) (hedera_transaction t)
    (signature t) (signature_count t) (body t) (tr_result t) m.

Section factory.
Context (no_return : ExitCode) (get_timestamp : HederaTimestamp).

Definition check_id (user : bytes) : ExitCode :=
  if negb (length user =? PUB_KEY_LENGTH_HEX)%nat then ID_BAD_LENGTH
  else if negb (is_hex user) then ID_NOT_A_HEX
  else no_return.

(** The further records: [n] of them, from position [cp] of the memo. *)
Fixpoint memo_part_recs (memo : bytes) (n cp : nat) : option (list Transaction) :=
  match n with
  | O => Some []
  | S n' =>
      let cp2 := Nat.min MEMO_FULL_SIZE (length memo - cp) in
      m ← field_write (replicate MEMO_MAIN_SIZE 0) (take cp2 (drop cp memo));
      rest ← memo_part_recs memo n' (cp + cp2);
      Some (with_memo m Transaction_zero :: rest)
  end.

Definition memo_parts (memo : bytes) : nat :=
  if (length memo <? MEMO_MAIN_SIZE)%nat then 0
  else (length memo - MEMO_MAIN_SIZE) / MEMO_FULL_SIZE + 1.

(** [r[0]] before its memo. *)
Definition first_rec : Transaction :=
  mkTransaction 1 0 get_timestamp HederaTransaction_zero Signature_zero 0 (TB_other 0) SUCCESS
    (replicate MEMO_MAIN_SIZE 0).

Definition prepare_memo_recs (memo : bytes) : result :=
  if (MAX_TOTAL_MEMO_LENGTH <? length memo)%nat then Some (MEMO_TOO_LONG, None)
  else if contains_null memo then Some (MEMO_CONTAINS_ZERO_CHAR, None)
  else
    let n := memo_parts memo in
    recs ← (if (n =? 0)%nat then
              m ← field_write (replicate MEMO_MAIN_SIZE 0) memo;
              Some [with_memo m first_rec]
            else
              m ← field_write (replicate MEMO_MAIN_SIZE 0) (take MEMO_MAIN_SIZE memo);
              rest ← memo_part_recs memo n MEMO_MAIN_SIZE;
              Some (with_memo m first_rec :: rest));
    Some (OK, Some (mkMade recs None (sizeof_Transaction * (1 + n)))).

(** The identifiers one after the other, then the memo, then the fields of
    the first record. *)
Fixpoint check_ids (ids : list bytes) : ExitCode :=
  match ids with
  | [] => OK
  | id :: ids' => if bool_decide (check_id id = OK) then check_ids ids' else check_id id
  end.

Definition create (ids : list bytes) (memo : bytes) (member : option TransactionBody) : result :=
  if negb (bool_decide (check_ids ids = OK)) then Some (check_ids ids, None)
  else
    r ← prepare_memo_recs memo;
    match r with
    | (OK, Some (mkMade recs _ n)) => b ← member; Some (OK, Some (mkMade recs (Some b) n))
    | _ => Some r
    end.

(** [memcpy(field, id.c_str(), PUB_KEY_LENGTH_HEX)] into a key field. *)
Definition write_id (id : bytes) : option bytes :=
  s ← c_str_read PUB_KEY_LENGTH_HEX id; field_write group_zero s.

Definition paired (g : bytes) : PairedTransaction := mkPairedTransaction HederaTimestamp_zero g.
Definition value (a : Z) : GradidoValue := mkGradidoValue a 0.

Definition create_gradido_creation (user : bytes) (amount : Z) (memo : bytes) : result :=
  create [user] memo (
    u ← write_id user;
    Some (TB_gradido_creation (mkGradidoCreation (user_transfer u) (value amount)))).

Definition create_local_transfer (user0 user1 : bytes) (amount : Z) (memo : bytes) : result :=
  create [user0; user1] memo (
    u0 ← write_id user0;
    u1 ← write_id user1;
    Some (TB_local_transfer (mkLocalTransfer (value amount) (user_transfer u0) (user_transfer u1)))).

Definition create_inbound_transfer (user0 user1 other_group : bytes) (amount : Z) (memo : bytes) : result :=
  create [user0; user1; other_group] memo (
    u0 ← write_id user0;
    u1 ← write_id user1;
    g ← write_id other_group;
    Some (TB_inbound_transfer (mkInboundTransfer (value amount) (paired g) u0 (user_transfer u1)))).

Definition create_outbound_transfer (user0 user1 other_group : bytes) (amount : Z) (memo : bytes) : result :=
  create [user0; user1; other_group] memo (
    u0 ← write_id user0;
    u1 ← write_id user1;
    g ← write_id other_group;
    Some (TB_outbound_transfer (mkOutboundTransfer (value amount) (paired g) (user_transfer u0) u1))).

Definition add_group_friend (id memo : bytes) : result :=
  create [id] memo (g ← write_id id; Some (TB_add_group_friend g)).
Definition remove_group_friend (id memo : bytes) : result :=
  create [id] memo (g ← write_id id; Some (TB_remove_group_friend g)).
Definition add_user (id memo : bytes) : result :=
  create [id] memo (u ← write_id id; Some (TB_add_user u)).

(** Both copy the user's identifier into the field of the other group. *)
Definition move_user_inbound (id other_group memo : bytes) : result :=
  create [id; other_group] memo (
    u ← write_id id; g ← write_id id;
    Some (TB_move_user_inbound (mkMoveUser u (paired g) UserState_zero))).
Definition move_user_outbound (id other_group memo : bytes) : result :=
  create [id; other_group] memo (
    u ← write_id id; g ← write_id id;
    Some (TB_move_user_outbound (mkMoveUser u (paired g) UserState_zero))).

(** ** Requests *)

Inductive Request :=
| RGradidoCreation (user : bytes) (amount : Z) (memo : bytes)
| RLocalTransfer (user0 user1 : bytes) (amount : Z) (memo : bytes)
| RInboundTransfer (user0 user1 other_group : bytes) (amount : Z) (memo : bytes)
| ROutboundTransfer (user0 user1 other_group : bytes) (amount : Z) (memo : bytes)
| RAddGroupFriend (id memo : bytes)
| RRemoveGroupFriend (id memo : bytes)
| RAddUser (id memo : bytes)
| RMoveUserInbound (id other_group memo : bytes)
| RMoveUserOutbound (id other_group memo : bytes).

Definition make (r : Request) : result :=
  match r with
  | RGradidoCreation u a m => create_gradido_creation u a m
  | RLocalTransfer u0 u1 a m => create_local_transfer u0 u1 a m
  | RInboundTransfer u0 u1 g a m => create_inbound_transfer u0 u1 g a m
  | ROutboundTransfer u0 u1 g a m => create_outbound_transfer u0 u1 g a m
  | RAddGroupFriend i m => add_group_friend i m
  | RRemoveGroupFriend i m => remove_group_friend i m
  | RAddUser i m => add_user i m
  | RMoveUserInbound i g m => move_user_inbound i g m
  | RMoveUserOutbound i g m => move_user_outbound i g m
  end.
Definition request_ids (r : Request) : list bytes :=
  match r with
  | RGradidoCreation u _ _ => [u]
  | RLocalTransfer u0 u1 _ _ => [u0; u1]
  | RInboundTransfer u0 u1 g _ _ | ROutboundTransfer u0 u1 g _ _ => [u0; u1; g]
  | RAddGroupFriend i _ | RRemoveGroupFriend i _ | RAddUser i _ => [i]
  | RMoveUserInbound i g _ | RMoveUserOutbound i g _ => [i; g]
  end.
Definition request_memo (r : Request) : bytes :=
  match r with
  | RGradidoCreation _ _ m | RLocalTransfer _ _ _ m | RInboundTransfer _ _ _ _ m | ROutboundTransfer _ _ _ _ m
  | RAddGroupFriend _ m | RRemoveGroupFriend _ m | RAddUser _ m | RMoveUserInbound _ _ m | RMoveUserOutbound _ _ m => m
  end.

(** ** Lemmas *)

Lemma check_id_OK id : check_id id = OK -> length id = PUB_KEY_LENGTH_HEX /\ is_hex id = true.
Proof.
  unfold check_id. destruct (Nat.eqb_spec (length id) PUB_KEY_LENGTH_HEX) as [H|H]; [|discriminate].
  cbn [negb]. destruct (is_hex id); [by split|discriminate].
Qed.

(** An identifier in hexadecimal has twice the length of the field. *)
Lemma write_id_overruns id : check_id id = OK -> write_id id = None.
Proof.
  intros [Hl _]%check_id_OK. unfold write_id. rewrite c_str_read_fits by lia. cbn [mbind option_bind].
  unfold field_write. rewrite length_take, Hl. reflexivity.
Qed.

(** The exit code of the memo, or records. *)
Definition memo_code (memo : bytes) : ExitCode :=
  if (MAX_TOTAL_MEMO_LENGTH <? length memo)%nat then MEMO_TOO_LONG
  else if contains_null memo then MEMO_CONTAINS_ZERO_CHAR else OK.

Lemma prepare_memo_code memo r :
  prepare_memo_recs memo = Some r -> r.1 = memo_code memo /\ (r.1 = OK -> is_Some r.2).
Proof.
  unfold prepare_memo_recs, memo_code. destruct (_ <? _)%nat; [intros [= <-]; by split|].
  destruct (contains_null memo); [intros [= <-]; by split|]. cbv zeta. intros (recs & _ & [= <-])%bind_Some.
  by split; [|eexists].
Qed.

Lemma create_overruns id ids memo (k : bytes -> option TransactionBody) :
  check_ids (id :: ids) = OK ->
  create (id :: ids) memo (u ← write_id id; k u) = (if bool_decide (memo_code memo = OK) then None else Some (memo_code memo, None)).
Proof.
  intros H. unfold create. rewrite bool_decide_eq_true_2 by done. cbn [negb].
  cbn [check_ids] in H. destruct (bool_decide_reflect (check_id id = OK)) as [Hid|Hid]; [|by destruct Hid].
  rewrite (write_id_overruns _ Hid). cbn [mbind option_bind].
  unfold prepare_memo_recs, memo_code. destruct (_ <? _)%nat; [done|]. destruct (contains_null memo); [done|].
  cbv zeta. rewrite bool_decide_eq_true_2 by done. by destruct (if (_ =? 0)%nat then _ else _).
Qed.

(** No factory ever succeeds, whatever the missing return of check_id
    gives: the code of the first bad identifier (or what check_id gave for a
    good one) is returned, then the code of the memo, and a request with
    nothing wrong copies an identifier of 64 characters into a field of
    32. *)
Theorem factories_never_succeed r :
  make r = if bool_decide (check_ids (request_ids r) = OK)
           then if bool_decide (memo_code (request_memo r) = OK) then None
                else Some (memo_code (request_memo r), None)
           else Some (check_ids (request_ids r), None).
Proof.
  destruct (bool_decide_reflect (check_ids (request_ids r) = OK)) as [H|H].
  - destruct r; now apply create_overruns.
  - destruct r; unfold make, create_gradido_creation, create_local_transfer, create_inbound_transfer,
      create_outbound_transfer, add_group_friend, remove_group_friend, add_user, move_user_inbound,
      move_user_outbound, create; cbn [request_ids] in H; now rewrite (bool_decide_eq_false_2 _ H).
Qed.

(** ** Memos *)

Lemma memo_parts_small memo :
  (length memo <= 2 * MEMO_MAIN_SIZE)%nat -> memo_parts memo = if (length memo <? MEMO_MAIN_SIZE)%nat then 0%nat else 1%nat.
Proof.
  unfold memo_parts, MEMO_MAIN_SIZE, MEMO_FULL_SIZE. intros H. destruct (Nat.ltb_spec (length memo) 16); [done|].
  rewrite Nat.div_small by lia. done.
Qed.

(** Reading the memo back from the records. *)
Definition read_memo_recs (l : list Transaction) : bytes := concat (map (fun t => cstr (memo t)) l).

Lemma contains_null_false m : Forall (fun c => c <> 0) m -> contains_null m = false.
Proof.
  intros H. unfold contains_null. pose proof (cstr_zero_padded m 0 H) as E. cbn [replicate] in E.
  rewrite app_nil_r in E. now rewrite E, Nat.eqb_refl.
Qed.

Lemma memo_field m : (length m <= MEMO_MAIN_SIZE)%nat ->
  field_write (replicate MEMO_MAIN_SIZE 0) m = Some (m ++ replicate (MEMO_MAIN_SIZE - length m) 0).
Proof. intros H. rewrite field_write_fits by (rewrite length_replicate; lia). now rewrite drop_replicate. Qed.

Lemma memo_field_overruns m : (MEMO_MAIN_SIZE < length m)%nat -> field_write (replicate MEMO_MAIN_SIZE 0) m = None.
Proof. intros H. unfold field_write. rewrite length_replicate. now rewrite (proj2 (Nat.leb_gt _ _)). Qed.

(** A memo without nulls of at most 32 bytes is laid out in one record,
    or two from 16 bytes on, from which it reads back; the length written
    out is that of the records.  A longer one, up to the 766 bytes the
    factory accepts, is copied past the memo field of a record. *)
Theorem memo_recs_bounds m :
  Forall (fun c => c <> 0) m -> (length m <= MAX_TOTAL_MEMO_LENGTH)%nat ->
  if (length m <=? 2 * MEMO_MAIN_SIZE)%nat then
    exists recs, prepare_memo_recs m = Some (OK, Some (mkMade recs None (sizeof_Transaction * length recs)))
      /\ length recs = (if (length m <? MEMO_MAIN_SIZE)%nat then 1 else 2)%nat
      /\ read_memo_recs recs = m /\ Forall (fun t => length (memo t) = MEMO_MAIN_SIZE) recs
  else prepare_memo_recs m = None.
Proof.
  intros Hnn Hmax. unfold prepare_memo_recs. rewrite (proj2 (Nat.ltb_ge _ _) Hmax), (contains_null_false m Hnn). cbv zeta.
  assert (forall k, Forall (fun c => c <> 0) (take k m) /\ Forall (fun c => c <> 0) (drop k m)) as Hsub
    by (intros k; split; [now apply Forall_take|now apply Forall_drop]).
  destruct (Nat.leb_spec (length m) (2 * MEMO_MAIN_SIZE)) as [H|H].
  - rewrite (memo_parts_small m H). destruct (Nat.ltb_spec (length m) MEMO_MAIN_SIZE) as [H1|H1]; cbn [Nat.eqb].
    + rewrite memo_field by lia. cbn [mbind option_bind]. eexists [_]. split; [reflexivity|]. split; [done|].
      split; [unfold read_memo_recs; cbn; rewrite app_nil_r; now apply cstr_zero_padded|].
      apply Forall_singleton. cbn [with_memo memo]. rewrite length_app, length_replicate. lia.
    + rewrite memo_field by (rewrite length_take; lia). cbn [mbind option_bind memo_part_recs].
      assert (Nat.min MEMO_FULL_SIZE (length m - MEMO_MAIN_SIZE) = length m - MEMO_MAIN_SIZE)%nat as ->
        by (unfold MEMO_FULL_SIZE, MEMO_MAIN_SIZE in *; lia).
      rewrite (take_ge (drop _ _)) by (rewrite length_drop; lia). rewrite memo_field by (rewrite length_drop; lia).
      cbn [mbind option_bind]. eexists [_; _]. split; [reflexivity|]. split; [done|]. split.
      * unfold read_memo_recs. cbn [map concat with_memo memo]. rewrite !cstr_zero_padded by apply Hsub.
        rewrite app_nil_r. apply take_drop.
      * repeat constructor; cbn [with_memo memo]; rewrite length_app, length_replicate, ?length_take, ?length_drop; lia.
  - destruct (memo_parts m) as [|n] eqn:En; [exfalso|].
    { unfold memo_parts in En. destruct (Nat.ltb_spec (length m) MEMO_MAIN_SIZE); lia. }
    cbn [Nat.eqb]. rewrite memo_field by (rewrite length_take; lia). cbn [mbind option_bind memo_part_recs].
    rewrite (memo_field_overruns (take _ (drop _ m))); [done|].
    rewrite length_take, length_drop. unfold MEMO_FULL_SIZE, MEMO_MAIN_SIZE in *. lia.
Qed.
End factory.

Lemma memo_recs_bounds_witness :
  exists recs, prepare_memo_recs HederaTimestamp_zero (replicate 20 65)
      = Some (OK, Some (mkMade recs None (sizeof_Transaction * length recs)))
    /\ length recs = 2%nat /\ read_memo_recs recs = replicate 20 65
    /\ Forall (fun t => length (memo t) = MEMO_MAIN_SIZE) recs.
Proof.
  exact (memo_recs_bounds HederaTimestamp_zero (replicate 20 65) ltac:(repeat constructor; discriminate)
    (proj1 (Nat.leb_le 20 MAX_TOTAL_MEMO_LENGTH) eq_refl)).
Defined.
