(* ===== verification/Communications.v ===== *)
(** * Streams between nodes (communications.cpp, gradido_events.h)

    Every rpc is a stream of replies, ended by a reply without success.  On
    the serving side an [AbstractCallData] is driven by the completion queue:
    each completed operation calls [proceed], which pushes a task; the task
    fills the reply and writes it.  On the asking side a subscriber is driven
    by the queue of a [PollService].

    Both sides are step relations.  The network is gRPC as documented: an
    operation that was started completes later, with [ok] or without; the
    completion is an event in the queue.  The thread that polls the queue and
    the thread that runs the task interleave, so [write_ready] and [got_data]
    are two steps each: starting the operation, and what the source does
    after. *)

From stdpp Require Import base gmap list relations strings.
From Stdlib Require Import ZArith Lia.
From S2P Require Import Prelude GradidoDef FileTile Fnr Blockchain BlockchainBase GroupRegister.
Local Open Scope node_scope.

(** ** Handlers

    What a handler class is to the call: its constructor, which sets the
    context once, and [run], from the context, [get_writes_done] and the
    reply the last run left.  A factory that knows no handler for the call
    gives a null pointer ([p_handler] is [false]). *)

Record Provider (S C R : Type) := mkHandler
  { p_handler : bool;
    p_new : option C -> M S (option C);
    p_run : option C -> N -> R -> M S (R * option C);
    p_success : R -> bool }.
Arguments mkHandler {S C R} _ _ _ _.
Arguments p_handler {S C R} _.
Arguments p_new {S C R} _ _ _.
Arguments p_run {S C R} _ _ _ _ _.
Arguments p_success {S C R} _ _.
Abbreviation mkProvider := (mkHandler true).

(** ** The serving side *)

Module Server.

Inductive CallStatus := CREATE | PROCESS | FINISH.
(** Operations in flight. *)
Inductive Op (R : Type) := OpRequest | OpWrite (r : R) | OpFinish (r : R).
Arguments OpRequest {R}.
Arguments OpWrite {R} _.
Arguments OpFinish {R} _.
(** The task of the call: none, waiting in the worker pool, or past the
    start of its write, with whether it ended the stream. *)
Inductive Task := NoTask | Queued | Written (finished : bool).

Section server.
Context {S C R : Type} (P : Provider S C R).

(** The object. *)
Record CallData := mkCallData
  { status_ : CallStatus; first_call : bool; done : bool; handler_ctx : option C; writes_done : N; reply_ : R }.

(** The network: the operation in flight, the completions in the queue, the
    replies given to it, whether the stream was ended, and whether an
    operation was started while another was in flight or after the end. *)
Record Net := mkNet
  { op : option (Op R); events : list bool; wire : list R; ended : bool; misuse : bool }.

(** [call]: none once the object is deleted.  [clones]: objects created for
    the calls to come.  [looping]: the loop of [RpcsService::run], shared by
    all calls, is at work. *)
Record Server := mkServer
  { call : option CallData; net : Net; task : Task; state : S; clones : nat; looping : bool }.

Definition start_op (o : Op R) (n : Net) : Net :=
  let bad := match op n with Some _ => true | None => ended n end in
  mkNet (Some o) (events n)
    (wire n ++ match o with OpRequest => [] | OpWrite r | OpFinish r => [r] end)
    (match o with OpFinish _ => true | _ => ended n end) (misuse n || bad).

(** The constructor calls [proceed]: the request is asked for. *)
Definition CallData_new (r : R) : CallData := mkCallData PROCESS true false None 0 r.
Definition Server_new (r : R) (s : S) : Server :=
  mkServer (Some (CallData_new r)) (start_op OpRequest (mkNet None [] [] false false)) NoTask s 0 true.

(** [do_process]: the handler is constructed and its task pushed. *)
Definition do_process (c : CallData) (s : S) : outcome S (option CallData) :=
  if done c || negb (p_handler P) then Ret None s
  else
    match p_new P (handler_ctx c) s with
    | Ret x s' => Ret (Some (mkCallData (status_ c) (first_call c) (done c) x (writes_done c) (reply_ c))) s'
    | Throw e s' => Throw e s'
    | Undef => Undef
    end.

(** [AbstractCallData::proceed], for an object that asked for its
    request. *)
Definition proceed (n : Net) (v : Server) : option Server :=
  match call v with
  | None => None
  | Some c =>
      match status_ c with
      | CREATE => None
      | PROCESS =>
          let k := if first_call c then Datatypes.S (clones v) else clones v in
          let c1 := mkCallData PROCESS false (done c) (handler_ctx c) (writes_done c) (reply_ c) in
          match do_process c1 (state v) with
          | Ret None s => Some (mkServer (Some (mkCallData FINISH false (done c) (handler_ctx c) (writes_done c) (reply_ c)))
                                  n (task v) s k (looping v))
          | Ret (Some c2) s => Some (mkServer (Some c2) n Queued s k (looping v))
          | Throw _ _ | Undef => None
          end
      | FINISH => Some (mkServer None n (task v) (state v) (clones v) (looping v))
      end
  end.

(** [run] of the handler up to the operation [write_ready] starts. *)
Definition run_task (v : Server) : option Server :=
  match task v, call v with
  | Queued, Some c =>
      match p_run P (handler_ctx c) (writes_done c) (reply_ c) (state v) with
      | Ret (r, x) s =>
          let fin := negb (p_success P r) in
          Some (mkServer (Some (mkCallData (status_ c) (first_call c) (done c) x (writes_done c + 1) r))
                  (start_op (if fin then OpFinish r else OpWrite r) (net v)) (Written fin) s (clones v) (looping v))
      | Throw _ _ | Undef => None
      end
  | _, _ => None
  end.

(** The rest of [write_ready]. *)
Definition end_task (v : Server) : option Server :=
  match task v, call v with
  | Written fin, Some c =>
      Some (mkServer (Some (mkCallData (status_ c) (first_call c) (done c || fin) (handler_ctx c) (writes_done c) (reply_ c)))
              (net v) NoTask (state v) (clones v) (looping v))
  | _, _ => None
  end.

(** The operation in flight completes. *)
Definition complete (ok : bool) (v : Server) : option Server :=
  match op (net v) with
  | Some _ =>
      let n := net v in
      Some (mkServer (call v) (mkNet None (events n ++ [ok]) (wire n) (ended n) (misuse n))
              (task v) (state v) (clones v) (looping v))
  | None => None
  end.

(** One round of the loop of [RpcsService::run]. *)
Definition rpcs_poll (v : Server) : option Server :=
  let n := net v in
  match events n, looping v with
  | ok :: es, true =>
      let n' := mkNet (op n) es (wire n) (ended n) (misuse n) in
      if (ok : bool) then proceed n' v
      else Some (mkServer (call v) n' (task v) (state v) (clones v) false)
  | _, _ => None
  end.

(** All interleavings. *)
Inductive step : Server -> Server -> Prop :=
| StComplete ok v v' : complete ok v = Some v' -> step v v'
| StPoll v v' : rpcs_poll v = Some v' -> step v v'
| StRun v v' : run_task v = Some v' -> step v v'
| StEnd v v' : end_task v = Some v' -> step v v'.

(** Those in which no operation fails and every task is over before the
    queue is polled again. *)
Inductive calm_step : Server -> Server -> Prop :=
| CalmComplete v v' : complete true v = Some v' -> calm_step v v'
| CalmPoll v v' : task v = NoTask -> rpcs_poll v = Some v' -> calm_step v v'
| CalmRun v v' : run_task v = Some v' -> calm_step v v'
| CalmEnd v v' : end_task v = Some v' -> calm_step v v'.

(** The replies of a call, from a context, a number of writes, the last reply
    and the state of the node; [None] when it does not end within [fuel]
    replies, throws or is undefined. *)
Fixpoint answers (fuel : nat) (x : option C) (w : N) (r : R) (s : S) : option (list R) :=
  match fuel with
  | O => None
  | Datatypes.S f =>
      match p_new P x s with
      | Ret x1 s1 =>
          match p_run P x1 w r s1 with
          | Ret (r', x2) s2 =>
              if p_success P r' then rest ← answers f x2 (w + 1) r' s2; Some (r' :: rest) else Some [r']
          | Throw _ _ | Undef => None
          end
      | Throw _ _ | Undef => None
      end
  end.

(** The replies from a handler that is constructed. *)
Definition answers_run (f : nat) (x : option C) (w : N) (r : R) (s : S) : option (list R) :=
  match p_run P x w r s with
  | Ret (r', x2) s2 =>
      if p_success P r' then rest ← answers f x2 (w + 1) r' s2; Some (r' :: rest) else Some [r']
  | Throw _ _ | Undef => None
  end.

Lemma answers_inv f x w r s l :
  answers f x w r s = Some l ->
  exists f' x1 s1, p_new P x s = Ret x1 s1 /\ answers_run f' x1 w r s1 = Some l.
Proof.
  destruct f as [|f]; cbn [answers]; [discriminate|]. destruct (p_new P x s) as [x1 s1| |]; try discriminate.
  intros H. by exists f, x1, s1.
Qed.

Lemma answers_run_nonempty f x w r s l : answers_run f x w r s = Some l -> (0 < length l)%nat.
Proof.
  unfold answers_run. destruct (p_run P x w r s) as [[r' x2] s2| |]; try discriminate.
  destruct (p_success P r'); [intros (rest & _ & [= <-])%bind_Some|intros [= <-]]; cbn; lia.
Qed.

(** What a handler keeps of its state holds after any steps of a call. *)
Lemma call_invariant (J : option C -> N -> R -> S -> Prop) r s v :
  (forall x w r s x' s', J x w r s -> p_new P x s = Ret x' s' -> J x' w r s') ->
  (forall x w r s r' x' s', J x w r s -> p_run P x w r s = Ret (r', x') s' -> J x' (w + 1)%N r' s') ->
  J None 0%N r s -> rtc step (Server_new r s) v ->
  match call v with
  | Some c => J (handler_ctx c) (writes_done c) (reply_ c) (state v) /\ writes_done c = N.of_nat (length (wire (net v)))
  | None => True
  end.
Proof.
  intros Hnew Hrun H0 Hr. remember (Server_new r s) as v0 eqn:E0.
  assert (match call v0 with
    | Some c => J (handler_ctx c) (writes_done c) (reply_ c) (state v0) /\ writes_done c = N.of_nat (length (wire (net v0)))
    | None => True end) as Hv0 by (by subst v0).
  clear E0. induction Hr as [|v0 v1 v Hs _ IH]; [done|]. apply IH. clear IH.
  destruct Hs as [ok v0 v1 E|v0 v1 E|v0 v1 E|v0 v1 E]; destruct v0 as [[c|] n t s0 k lo]; cbn in Hv0.
  - unfold complete in E. cbn in E. destruct (op n); [|done]. by injection E as <-.
  - unfold complete in E. cbn in E. destruct (op n); [|done]. by injection E as <-.
  - unfold rpcs_poll in E. cbn in E. destruct (events n) as [|[] es], lo; try done; [|by injection E as <-].
    unfold proceed, do_process in E. destruct c as [[] fc d x w r0]; cbn in E, Hv0; [done| |by injection E as <-].
    destruct (d || negb (p_handler P)); [by injection E as <-|].
    destruct (p_new P x s0) as [x' s'| |] eqn:En; try done. injection E as <-. cbn. split; [|apply Hv0].
    eapply Hnew; [apply Hv0|exact En].
  - unfold rpcs_poll in E. cbn in E. destruct (events n) as [|[] es], lo; try done. by injection E as <-.
  - unfold run_task in E. cbn in E. destruct t; try done.
    destruct (p_run P _ _ _ s0) as [[r' x'] s'| |] eqn:Er; try done. injection E as <-. cbn.
    split; [eapply Hrun; [apply Hv0|exact Er]|]. destruct Hv0 as [_ ->]. rewrite length_app.
    destruct (p_success P r'); cbn; lia.
  - unfold run_task in E. by destruct t.
  - unfold end_task in E. cbn in E. destruct t; try done. by injection E as <-.
  - unfold end_task in E. by destruct t.
Qed.

Lemma calm_nsteps k v v' : nsteps calm_step k v v' -> nsteps step k v v'.
Proof.
  induction 1 as [|k v v1 v' Hs _ IH]; [constructor|]. econstructor; [|exact IH].
  destruct Hs; by econstructor; eassumption.
Qed.
Lemma calm_steps k v v' : nsteps calm_step k v v' -> rtc step v v'.
Proof. intros H. by eapply rtc_nsteps_2, calm_nsteps. Qed.

(** A call the node has no handler for gets no reply and is not ended
    either: the request is read, nothing is started, and the object stays
    for ever. *)
Theorem unserved_call_hangs r s k v :
  p_handler P = false -> nsteps step k (Server_new r s) v ->
  wire (net v) = [] /\ ended (net v) = false /\ call v <> None /\ (k <= 2)%nat /\ (k = 2%nat -> forall v', ~ step v v').
Proof.
  intros Hp Hk. destruct k as [|k].
  { inversion Hk; subst. cbn. split_and!; done || lia. }
  inversion Hk as [|? ? v1 ? H1 Hk1]; subst. inversion H1 as [ok ? ? E|? ? E|? ? E|? ? E]; subst; try discriminate E.
  cbn in E. injection E as <-. destruct k as [|k].
  { inversion Hk1; subst. cbn. split_and!; done || lia. }
  inversion Hk1 as [|? ? v2 ? H2 Hk2]; subst. inversion H2 as [ok2 ? ? E|? ? E|? ? E|? ? E]; subst; try discriminate E.
  assert (wire (net v2) = [] /\ ended (net v2) = false /\ call v2 <> None /\ forall v', ~ step v2 v') as (Hw & He & Hc & Hs).
  { unfold rpcs_poll, proceed, do_process in E. cbn in E. rewrite Hp in E.
    destruct ok; injection E as <-; split_and!; try done; intros v' H'; inversion H'; by subst. }
  destruct k as [|k]; [inversion Hk2; subst; split_and!; done || lia|].
  inversion Hk2 as [|? ? v3 ? H3 _]; subst. by destruct (Hs v3).
Qed.

(** ** One call served in calm

    [served A k v]: the call will have given the replies [A] after [k] more
    steps. *)
Definition in_flight (n : Net) (k : nat) : Prop :=
  match k with
  | O => op n = None /\ events n = [true]
  | 1%nat => (exists o, op n = Some o) /\ events n = []
  | _ => False
  end.
Definition writing (v : Task) (fin : bool) (k : nat) : Prop :=
  match k with O => v = NoTask | 1%nat => v = Written fin | _ => False end.

Inductive served (A : list R) (m : nat) : Server -> Prop :=
| ServedWait f fc x w r n t s k rest kf kt :
    answers f x w r s = Some rest -> A = wire n ++ rest -> ended n = false -> misuse n = false ->
    in_flight n kf -> writing t false kt -> m = (kf + 1 + kt + 4 * length rest)%nat ->
    served A m (mkServer (Some (mkCallData PROCESS fc false x w r)) n t s k true)
| ServedQueued f fc x w r n s k rest :
    answers_run f x w r s = Some rest -> A = wire n ++ rest -> ended n = false -> misuse n = false ->
    op n = None -> events n = [] -> m = (4 * length rest)%nat ->
    served A m (mkServer (Some (mkCallData PROCESS fc false x w r)) n Queued s k true)
| ServedEnding fc x w r n t s k kf kt :
    wire n = A -> misuse n = false -> in_flight n kf -> writing t true kt -> m = (kf + 1 + kt)%nat ->
    served A m (mkServer (Some (mkCallData PROCESS fc (bool_decide (kt = O)) x w r)) n t s k true)
| ServedOver c n s k :
    wire n = A -> misuse n = false -> op n = None -> events n = [] -> status_ c = FINISH -> m = O ->
    served A m (mkServer (Some c) n NoTask s k true).

Context (given : p_handler P = true).

Ltac inv_flight kf := destruct kf as [|[|kf]]; [| |done].

Lemma served_complete A m v v' : served A m v -> complete true v = Some v' -> exists k, m = Datatypes.S k /\ served A k v'.
Proof.
  unfold complete. intros [f fc x w r n t s j rest kf kt Ha HA He Hm Hf Hw Hk
    |f fc x w r n s j rest Ha HA He Hm Ho Hev Hk|fc x w r n t s j kf kt HA Hm Hf Hw Hk
    |c n s j HA Hm Ho Hev Hc Hk] E; cbn [net call task state clones looping] in E; try by rewrite Ho in E.
  - inv_flight kf; destruct Hf as [Hf1 Hf2]; [by rewrite Hf1 in E|]. destruct Hf1 as [o Hf1].
    rewrite Hf1, Hf2 in E. injection E as <-. exists (m - 1)%nat. split; [lia|].
    apply (ServedWait A _ f fc x w r _ t s j rest 0 kt); try done. cbn. lia.
  - inv_flight kf; destruct Hf as [Hf1 Hf2]; [by rewrite Hf1 in E|]. destruct Hf1 as [o Hf1].
    rewrite Hf1, Hf2 in E. injection E as <-. exists (m - 1)%nat. split; [lia|].
    apply (ServedEnding A _ fc x w r _ t s j 0 kt); try done. cbn. lia.
Qed.

Lemma served_poll A m v v' :
  served A m v -> task v = NoTask -> rpcs_poll v = Some v' -> exists k, m = Datatypes.S k /\ served A k v'.
Proof.
  unfold rpcs_poll. intros [f fc x w r n t s j rest kf kt Ha HA He Hm Hf Hw Hk
    |f fc x w r n s j rest Ha HA He Hm Ho Hev Hk|fc x w r n t s j kf kt HA Hm Hf Hw Hk
    |c n s j HA Hm Ho Hev Hc Hk] Ht E; cbn [net call task state clones looping] in E, Ht; try by rewrite Hev in E.
  - subst t. inv_flight kf; destruct Hf as [Hf1 Hf2]; rewrite Hf2 in E; [|done]. inv_flight kt; [|done].
    destruct (answers_inv _ _ _ _ _ _ Ha) as (f' & x1 & s1 & Hn & Hr).
    unfold proceed, do_process in E. cbn in E. rewrite given, Hn in E. injection E as <-. exists (m - 1)%nat. split; [lia|].
    eapply ServedQueued; cbn; try done. lia.
  - subst t. inv_flight kf; destruct Hf as [Hf1 Hf2]; rewrite Hf2 in E; [|done]. inv_flight kt; [|done].
    unfold proceed, do_process in E. cbn in E. injection E as <-. exists (m - 1)%nat. split; [lia|].
    apply ServedOver; cbn; try done. lia.
Qed.

Lemma served_run A m v v' : served A m v -> run_task v = Some v' -> exists k, m = Datatypes.S k /\ served A k v'.
Proof.
  unfold run_task. intros [f fc x w r n t s j rest kf kt Ha HA He Hm Hf Hw Hk
    |f fc x w r n s j rest Ha HA He Hm Ho Hev Hk|fc x w r n t s j kf kt HA Hm Hf Hw Hk
    |c n s j HA Hm Ho Hev Hc Hk] E; cbn [net call task state clones looping] in E; try done.
  - inv_flight kt; cbn in Hw; by subst t.
  - unfold answers_run in Ha. cbn in E. destruct (p_run P x w r s) as [[r' x2] s2| |]; try discriminate.
    injection E as <-. unfold start_op. rewrite Ho, He, Hm, Hev.
    destruct (p_success P r') eqn:Hs; cbn [negb].
    + apply bind_Some in Ha as (rest' & Ha & [= <-]). exists (m - 1)%nat. split; [cbn in Hk; lia|].
      apply (ServedWait A _ f fc x2 (w + 1) r' _ (Written false) s2 j rest' 1 1); cbn; try done.
      * by rewrite <- (assoc_L (++)).
      * split; [by eexists|done].
      * cbn in Hk. lia.
    + injection Ha as <-. exists (m - 1)%nat. split; [cbn in Hk; lia|].
      apply (ServedEnding A _ fc x2 (w + 1) r' _ (Written true) s2 j 1 1); cbn; try done.
      * split; [by eexists|done].
      * cbn in Hk. lia.
  - inv_flight kt; cbn in Hw; by subst t.
Qed.

Lemma served_end A m v v' : served A m v -> end_task v = Some v' -> exists k, m = Datatypes.S k /\ served A k v'.
Proof.
  unfold end_task. intros [f fc x w r n t s j rest kf kt Ha HA He Hm Hf Hw Hk
    |f fc x w r n s j rest Ha HA He Hm Ho Hev Hk|fc x w r n t s j kf kt HA Hm Hf Hw Hk
    |c n s j HA Hm Ho Hev Hc Hk] E; cbn [net call task state clones looping] in E; try done.
  - inv_flight kt; cbn in Hw; subst t; [done|]. injection E as <-. exists (m - 1)%nat. split; [lia|].
    apply (ServedWait A _ f fc x w r n NoTask s j rest kf 0); try done. lia.
  - inv_flight kt; cbn in Hw; subst t; [done|]. injection E as <-. exists (m - 1)%nat. split; [lia|].
    apply (ServedEnding A _ fc x w r n NoTask s j kf 0); try done. lia.
Qed.

Lemma served_step A m v v' : served A m v -> calm_step v v' -> exists k, m = Datatypes.S k /\ served A k v'.
Proof.
  intros H Hs. destruct Hs as [v v' E|v v' Ht E|v v' E|v v' E];
    [eapply served_complete|eapply served_poll|eapply served_run|eapply served_end]; eassumption.
Qed.

(** A call that is not over goes on. *)
Lemma served_progress A m v : served A (Datatypes.S m) v -> exists v', calm_step v v'.
Proof.
  inversion 1 as [f fc x w r n t s j rest kf kt Ha HA He Hm Hf Hw Hk
    |f fc x w r n s j rest Ha HA He Hm Ho Hev Hk|fc x w r n t s j kf kt HA Hm Hf Hw Hk
    |c n s j HA Hm Ho Hev Hc Hk]; subst v; [| | |lia].
  - inv_flight kf; destruct Hf as [Hf1 Hf2].
    + inv_flight kt; cbn in Hw; subst t; [|eexists; by eapply CalmEnd].
      destruct (answers_inv _ _ _ _ _ _ Ha) as (f' & x1 & s1 & Hn & Hr).
      eexists. eapply CalmPoll; [done|]. unfold rpcs_poll. cbn. rewrite Hf2. unfold proceed, do_process. cbn. by rewrite given, Hn.
    + destruct Hf1 as [o Hf1]. eexists. apply CalmComplete. unfold complete. cbn. by rewrite Hf1.
  - unfold answers_run in Ha. destruct (p_run P x w r s) as [[r' x2] s2| |] eqn:E; try discriminate.
    eexists. apply CalmRun. unfold run_task. cbn. by rewrite E.
  - inv_flight kf; destruct Hf as [Hf1 Hf2].
    + inv_flight kt; cbn in Hw; subst t; [|eexists; by eapply CalmEnd].
      eexists. eapply CalmPoll; [done|]. unfold rpcs_poll. cbn. by rewrite Hf2.
    + destruct Hf1 as [o Hf1]. eexists. apply CalmComplete. unfold complete. cbn. by rewrite Hf1.
Qed.

Lemma served_new A f r s : answers f None 0 r s = Some A -> served A (2 + 4 * length A) (Server_new r s).
Proof.
  intros H. apply (ServedWait A _ f true None 0 r _ NoTask s 0 A 1 0); cbn; try done; by split; [eexists|].
Qed.

Lemma served_runs A m v k v' : served A m v -> nsteps calm_step k v v' -> (k <= m)%nat /\ served A (m - k) v'.
Proof.
  intros H Hk. revert m H. induction Hk as [v|k v v1 v' Hs Hk IH]; intros m H; [split; [lia|by rewrite Nat.sub_0_r]|].
  destruct (served_step _ _ _ _ H Hs) as (m' & -> & H'). destruct (IH _ H') as [Hle Hv']. split; [lia|]. exact Hv'.
Qed.

Lemma served_prefix A m v : served A m v -> misuse (net v) = false /\ wire (net v) `prefix_of` A.
Proof. intros [f fc x w r n t s k rest kf kt Ha -> | | |]; cbn; subst; split; try done; by eexists. Qed.

Lemma served_over A v : served A 0 v -> wire (net v) = A.
Proof.
  inversion 1; subst; try done; try lia.
  match goal with H : answers_run _ _ _ _ _ = Some _ |- _ => apply answers_run_nonempty in H end. lia.
Qed.

Lemma calm_serves A f r s k v :
  answers f None 0 r s = Some A -> nsteps calm_step k (Server_new r s) v ->
  misuse (net v) = false /\ wire (net v) `prefix_of` A /\ (k <= 2 + 4 * length A)%nat
  /\ ((k < 2 + 4 * length A)%nat -> exists v', calm_step v v')
  /\ (k = (2 + 4 * length A)%nat -> wire (net v) = A /\ call v <> None /\ forall v', ~ calm_step v v').
Proof.
  intros HA Hk. destruct (served_runs _ _ _ _ _ (served_new A f r s HA) Hk) as [Hle Hv].
  destruct (served_prefix _ _ _ Hv) as [Hm Hp]. split; [done|]. split; [done|]. split; [done|]. split.
  - intros Hlt. apply (served_progress A (2 + 4 * length A - k - 1)).
    by replace (Datatypes.S _) with (2 + 4 * length A - k)%nat by lia.
  - intros ->. rewrite Nat.sub_diag in Hv. split; [|split].
    + exact (served_over A v Hv).
    + by inversion Hv.
    + intros v' Hs. destruct (served_step _ _ _ _ Hv Hs) as (k & Hz & _). lia.
Qed.

(** *** All interleavings *)

Lemma start_op_wire o n : wire n `prefix_of` wire (start_op o n).
Proof using. by eexists. Qed.

Lemma step_wire v v' : step v v' -> wire (net v) `prefix_of` wire (net v').
Proof using.
  intros [ok a b E|a b E|a b E|a b E].
  - unfold complete in E. destruct (op (net a)); [|done]. by injection E as <-.
  - unfold rpcs_poll in E. destruct (events (net a)) as [|[] es]; [done| |]; (destruct (looping a); [|done]);
      [|by injection E as <-]. unfold proceed in E. destruct (call a) as [c|]; [|done].
    destruct (status_ c); [done| |by injection E as <-].
    destruct (do_process _ _) as [[c2|] s| |]; [by injection E as <-..|done|done].
  - unfold run_task in E. destruct (task a), (call a); try done. destruct (p_run _ _ _ _ _) as [[r x] s| |]; [|done|done].
    injection E as <-. apply start_op_wire.
  - unfold end_task in E. destruct (task a), (call a); try done. by injection E as <-.
Qed.

(** A call that has not given all its replies is waiting for the completion
    of an operation, or its handler is queued. *)
Inductive going (A : list R) : Server -> Prop :=
| GoWait f fc x w r n t s k rest lo :
    answers f x w r s = Some rest -> A = wire n ++ rest -> misuse n = false -> ended n = false ->
    t = NoTask \/ t = Written false -> (is_Some (op n) -> events n = []) -> (length (events n) <= 1)%nat ->
    going A (mkServer (Some (mkCallData PROCESS fc false x w r)) n t s k lo)
| GoQueued f fc x w r n s k rest lo :
    answers_run f x w r s = Some rest -> A = wire n ++ rest -> misuse n = false -> ended n = false ->
    op n = None -> events n = [] ->
    going A (mkServer (Some (mkCallData PROCESS fc false x w r)) n Queued s k lo)
| GoOver v : A `prefix_of` wire (net v) -> going A v.

Lemma going_step A v v' : going A v -> step v v' -> going A v'.
Proof.
  intros H Hs. pose proof (step_wire _ _ Hs) as Hw.
  destruct H as [f fc x w r n t s k rest lo Ha HA Hm He Ht Hop Hev|f fc x w r n s k rest lo Ha HA Hm He Hop Hev|v HA];
    [..|apply GoOver; by etrans].
  - inversion Hs as [ok a b E Ea Eb|a b E Ea Eb|a b E Ea Eb|a b E Ea Eb]; subst a b; clear Hs Hw.
    + unfold complete in E. cbn in E. destruct (op n) as [o|] eqn:Eo; [|done]. injection E as <-. rewrite Hop by eauto.
      apply (GoWait A f fc x w r _ t s k rest lo); try done. by intros [? ?].
    + unfold rpcs_poll in E. cbn in E. destruct (events n) as [|ok [|]] eqn:Ee; [done| |cbn in Hev; lia].
      destruct lo; [|done]. assert (op n = None) as Hn.
      { destruct (op n); [by discriminate Hop|done]. }
      destruct ok; [|injection E as <-; apply (GoWait A f fc x w r _ t s k rest false); cbn; try done; lia].
      destruct (answers_inv _ _ _ _ _ _ Ha) as (f' & x1 & s1 & Hnew & Hr).
      unfold proceed, do_process in E. cbn in E. rewrite given, Hnew in E. cbn in E. injection E as <-.
      by apply (GoQueued A f' false x1 w r _ s1 _ rest true).
    + unfold run_task in E. cbn in E. by destruct Ht as [-> | ->].
    + unfold end_task in E. cbn in E. destruct Ht as [-> | ->]; [done|]. injection E as <-.
      apply (GoWait A f fc x w r n NoTask s k rest lo); auto.
  - inversion Hs as [ok a b E Ea Eb|a b E Ea Eb|a b E Ea Eb|a b E Ea Eb]; subst a b; clear Hs Hw.
    + unfold complete in E. cbn in E. by rewrite Hop in E.
    + unfold rpcs_poll in E. cbn in E. by rewrite Hev in E.
    + unfold run_task in E. cbn in E. unfold answers_run in Ha.
      destruct (p_run P x w r s) as [[r' x2] s2| |]; [|done|done]. destruct (p_success P r').
      * apply bind_Some in Ha as (rest' & Ha & [= <-]). injection E as <-. cbn [negb].
        apply (GoWait A f fc x2 (w + 1) r' _ (Written false) s2 k rest' lo); cbn; try done.
        -- by rewrite <- (assoc_L (++)).
        -- by rewrite Hm, Hop, He.
        -- auto.
        -- rewrite Hev. cbn. lia.
      * injection Ha as <-. injection E as <-. apply GoOver. cbn. by rewrite HA.
    + done.
Qed.

Lemma going_new A f r s : answers f None 0 r s = Some A -> going A (Server_new r s).
Proof using. intros H. apply (GoWait A f true None 0 r _ NoTask s 0 A true); cbn; auto. Qed.

Lemma going_wire A v : going A v ->
  (misuse (net v) = false /\ wire (net v) `prefix_of` A) \/ A `prefix_of` wire (net v).
Proof using.
  intros [f fc x w r n t s k rest lo _ HA Hm _ _ _ _|f fc x w r n s k rest lo _ HA Hm _ _ _|v' HA]; [left..|by right];
    cbn; (split; [done|]); by exists rest.
Qed.

(** C29: in every interleaving, operations that fail included, a call gives
    the network the replies of its handler in order, up to the first one
    without success, and starts no operation while another is in flight
    before it has given them all.  When moreover no operation fails and
    every task is over before the queue is polled again, the call is over
    after exactly four steps per reply and two for the request, with these
    replies and no other; no step is possible then, and the object is still
    there. *)
Theorem call_serves_answers A f r s :
  answers f None 0 r s = Some A ->
  (forall v, rtc step (Server_new r s) v ->
     (misuse (net v) = false /\ wire (net v) `prefix_of` A) \/ A `prefix_of` wire (net v))
  /\ (forall k v, nsteps calm_step k (Server_new r s) v ->
       misuse (net v) = false /\ wire (net v) `prefix_of` A /\ (k <= 2 + 4 * length A)%nat
       /\ ((k < 2 + 4 * length A)%nat -> exists v', calm_step v v')
       /\ (k = (2 + 4 * length A)%nat -> wire (net v) = A /\ call v <> None /\ forall v', ~ calm_step v v')).
Proof.
  intros HA. split.
  { intros v Hv. apply going_wire. pose proof (going_new A f r s HA) as H0. remember (Server_new r s) as v0 eqn:E. clear E.
    induction Hv as [|v0 v1 v Hs _ IH]; [done|]. apply IH. by eapply going_step. }
  intros k v Hk. by eapply calm_serves.
Qed.

(** ** Threads that race *)

(** The flag that ends a call is set after the last write is started.
    When the completion of that write is polled before, the handler is run
    once more, on a stream that is ended. *)
Theorem end_of_call_races c n s k r x s' x2 s2 r2 x3 s3 :
  done c = false -> status_ c = PROCESS -> ended n = false -> misuse n = false -> op n = None -> events n = [] ->
  p_run P (handler_ctx c) (writes_done c) (reply_ c) s = Ret (r, x) s' -> p_success P r = false ->
  p_new P x s' = Ret x2 s2 -> p_run P x2 (writes_done c + 1) r s2 = Ret (r2, x3) s3 ->
  exists v, rtc step (mkServer (Some c) n Queued s k true) v
    /\ misuse (net v) = true /\ wire (net v) = wire n ++ [r; r2].
Proof.
  intros Hd Hst He Hm Ho Hev Hr Hs Hn Hr2. destruct c as [st fc d ctx w rep]. cbn in *. subst d st.
  eexists. split.
  - eapply rtc_l; [eapply StRun; unfold run_task; cbn; rewrite Hr, Hs; reflexivity|]. unfold start_op. rewrite Ho, He, Hm, Hev.
    eapply rtc_l; [eapply (StComplete true); reflexivity|].
    eapply rtc_l; [eapply StPoll; unfold rpcs_poll, proceed, do_process; cbn; rewrite given, Hn; reflexivity|].
    eapply rtc_l; [eapply StRun; unfold run_task; cbn; rewrite Hr2; reflexivity|]. apply rtc_refl.
  - cbn. rewrite <- (assoc_L (++)). split; [|by destruct (p_success P r2)].
    by destruct (p_success P r2).
Qed.

(** A single operation that does not complete, such as a write to a
    client that is gone, ends the loop that serves all calls: from then on
    no request is answered. *)
Theorem failed_operation_stops_server v v1 v2 v3 :
  complete false v = Some v1 -> events (net v) = [] -> rpcs_poll v1 = Some v2 -> rtc step v2 v3 ->
  looping v3 = false /\ rpcs_poll v3 = None /\ clones v3 = clones v.
Proof.
  unfold complete. intros H1 He H2 H3. destruct (op (net v)); [|done]. injection H1 as <-.
  unfold rpcs_poll in H2. cbn in H2. rewrite He in H2. cbn in H2. destruct (looping v); [|done]. injection H2 as <-.
  assert (looping v3 = false /\ clones v3 = clones v) as [Hl Hc].
  { remember (mkServer (call v) _ (task v) (state v) (clones v) false) as v2 eqn:E2.
    assert (looping v2 = false /\ clones v2 = clones v) as H0 by by subst v2. clear E2.
    induction H3 as [a|a b c Hab Hbc IH]; [done|]. apply IH. destruct H0 as [Hl Hc]. clear IH Hbc.
    destruct Hab as [ok a b E|a b E|a b E|a b E].
    - unfold complete in E. destruct (op (net a)); [|done]. by injection E as <-.
    - unfold rpcs_poll in E. rewrite Hl in E. by destruct (events (net a)).
    - unfold run_task in E. destruct (task a); try done. destruct (call a); [|done].
      destruct (p_run _ _ _ _ _) as [[? ?] ?| |]; try done. by injection E as <-.
    - unfold end_task in E. destruct (task a); try done. destruct (call a); [|done]. by injection E as <-. }
  split; [done|]. split; [|done]. unfold rpcs_poll. rewrite Hl. by destruct (events (net v3)).
Qed.
End server.
End Server.

(** ** The asking side *)

Module Client.
Section client.
Context {R : Type} (success : R -> bool).

(** [AbstractSubscriber] with its stream: [reading] while a read is in
    flight into [buffer]; [incoming] what the server sends, not read yet;
    [delivering] between the start of the next read in [got_data] and the
    call of the listener; [delivered] what the listener got.  [removed]: the
    [PollService] erased it. *)
Record Subscriber := mkSubscriber
  { sub_done : bool; first_message : bool; buffer : option R; reading : bool; incoming : list R;
    sub_events : list bool; delivering : bool; delivered : list R; removed : bool }.

(** After [StartCall]: its completion is in the queue. *)
Definition Subscriber_new (l : list R) : Subscriber :=
  mkSubscriber false true None false l [true] false [] false.

(** The read in flight completes: with the next message, or not [ok] when
    the server ended the stream. *)
Definition arrive (c : Subscriber) : option Subscriber :=
  if reading c then
    match incoming c with
    | r :: l => Some (mkSubscriber (sub_done c) (first_message c) (Some r) false l (sub_events c ++ [true])
                        (delivering c) (delivered c) (removed c))
    | [] => Some (mkSubscriber (sub_done c) (first_message c) (buffer c) false [] (sub_events c ++ [false])
                    (delivering c) (delivered c) (removed c))
    end
  else None.

(** One round of [PollService::run] up to the start of the read in
    [got_data]. *)
Definition poll_client (c : Subscriber) : option Subscriber :=
  if delivering c then None
  else
    match sub_events c with
    | [] => None
    | false :: es => Some (mkSubscriber (sub_done c) (first_message c) (buffer c) (reading c) (incoming c) es false
                             (delivered c) (removed c))
    | true :: es =>
        if sub_done c
        then Some (mkSubscriber true (first_message c) (buffer c) (reading c) (incoming c) es false (delivered c) true)
        else Some (mkSubscriber false (first_message c) (buffer c) true (incoming c) es true (delivered c) (removed c))
    end.

(** The rest of [got_data]. *)
Definition deliver (c : Subscriber) : option Subscriber :=
  if delivering c then
    if first_message c
    then Some (mkSubscriber (sub_done c) false (buffer c) (reading c) (incoming c) (sub_events c) false
                 (delivered c) (removed c))
    else
      match buffer c with
      | Some r => Some (mkSubscriber (sub_done c || negb (success r)) false (buffer c) (reading c) (incoming c)
                          (sub_events c) false (delivered c ++ [r]) (removed c))
      | None => None
      end
  else None.

Inductive step : Subscriber -> Subscriber -> Prop :=
| StArrive c c' : arrive c = Some c' -> step c c'
| StPoll c c' : poll_client c = Some c' -> step c c'
| StDeliver c c' : deliver c = Some c' -> step c c'.

(** No message arrives inside [got_data]. *)
Inductive calm_step : Subscriber -> Subscriber -> Prop :=
| CalmArrive c c' : delivering c = false -> arrive c = Some c' -> calm_step c c'
| CalmPoll c c' : poll_client c = Some c' -> calm_step c c'
| CalmDeliver c c' : deliver c = Some c' -> calm_step c c'.

(** A stream the server ends with its only message without success. *)
Definition ended_stream (l : list R) : Prop :=
  exists l' r, l = l' ++ [r] /\ Forall (fun x => success x = true) l' /\ success r = false.

(** The part of the stream that is delivered, buffered, or still to come. *)
Record fed (l : list R) (m : nat) (c : Subscriber) : Prop := {
  fed_alive : removed c = false;
  fed_done : sub_done c = existsb (fun r => negb (success r)) (delivered c);
  fed_phase :
    (* the start of the call is to be polled *)
    (sub_events c = [true] /\ reading c = false /\ first_message c = true /\ delivering c = false
      /\ delivered c = [] /\ incoming c = l /\ m = (3 * length l + 4)%nat)
    (* its first read was started *)
    \/ (sub_events c = [] /\ reading c = true /\ first_message c = true /\ delivering c = true
      /\ delivered c = [] /\ incoming c = l /\ m = (3 * length l + 3)%nat)
    (* a read is in flight *)
    \/ (sub_events c = [] /\ reading c = true /\ first_message c = false /\ delivering c = false
      /\ l = delivered c ++ incoming c /\ m = (3 * length (incoming c) + 2)%nat)
    (* a message has arrived *)
    \/ (exists r, buffer c = Some r /\ sub_events c = [true] /\ reading c = false /\ first_message c = false
      /\ delivering c = false /\ l = delivered c ++ r :: incoming c /\ m = (3 * length (incoming c) + 4)%nat)
    (* the next read was started *)
    \/ (exists r, buffer c = Some r /\ sub_events c = [] /\ reading c = true /\ first_message c = false
      /\ delivering c = true /\ l = delivered c ++ r :: incoming c /\ m = (3 * length (incoming c) + 3)%nat)
    (* the end of the stream has arrived, or was polled *)
    \/ (reading c = false /\ first_message c = false /\ delivering c = false /\ l = delivered c /\ incoming c = []
      /\ ((sub_events c = [false] /\ m = 1%nat) \/ (sub_events c = [] /\ m = 0%nat))) }.

(** Before the last message nothing without success is delivered. *)
Definition alive_stream (l : list R) : Prop :=
  forall d r rest, l = d ++ r :: rest -> existsb (fun x => negb (success x)) d = false.

Lemma ended_alive l : ended_stream l -> alive_stream l.
Proof.
  intros (l' & z & -> & Hl & Hz) d r rest E. destruct rest as [|y rest _] using rev_ind.
  - apply app_inj_tail in E as [-> ->]. clear Hz. induction Hl as [|x l Hx _ IH]; [done|]. cbn. by rewrite Hx.
  - rewrite app_comm_cons, (assoc_L (++)) in E. apply app_inj_tail in E as [-> _].
    apply Forall_app in Hl as [Hd _]. clear Hz. induction Hd as [|x l Hx _ IH]; [done|]. cbn. by rewrite Hx.
Qed.

Ltac phases H :=
  destruct H as [(He & Hr & Hf & Hd & Hdel & Hin & Hm)|[(He & Hr & Hf & Hd & Hdel & Hin & Hm)
    |[(He & Hr & Hf & Hd & Hl & Hm)|[(r & Hb & He & Hr & Hf & Hd & Hl & Hm)
    |[(r & Hb & He & Hr & Hf & Hd & Hl & Hm)|(Hr & Hf & Hd & Hl & Hin & [[He Hm]|[He Hm]])]]]]].

Lemma fed_arrive l m c c' :
  fed l m c -> delivering c = false -> arrive c = Some c' -> exists k, m = S k /\ fed l k c'.
Proof.
  intros [Ha Hdone Hph] Hcalm E. unfold arrive in E.
  phases Hph; rewrite Hr in E; try discriminate; try congruence.
  rewrite He, Hd in E. destruct (incoming c) as [|r i] eqn:Ei; injection E as <-; exists (m - 1)%nat; cbn in Hm.
  - split; [lia|]. split; [done|done|]. do 5 right. rewrite app_nil_r in Hl. cbn. split_and!; try done. left. split; [done|lia].
  - split; [lia|]. split; [done|done|]. do 3 right. left. exists r. cbn. split_and!; try done. lia.
Qed.

Lemma fed_poll l m c c' : alive_stream l -> fed l m c -> poll_client c = Some c' -> exists k, m = S k /\ fed l k c'.
Proof.
  intros Hs [Ha Hdone Hph] E. unfold poll_client in E.
  phases Hph; rewrite Hd in E; try discriminate; rewrite He in E; try discriminate.
  - rewrite Hdone, Hdel in E. injection E as <-. exists (m - 1)%nat. split; [lia|]. split; [done|done|].
    right. left. cbn. split_and!; try done. lia.
  - assert (sub_done c = false) as Hnd by (rewrite Hdone; by eapply Hs). rewrite Hnd in E. injection E as <-.
    exists (m - 1)%nat. split; [lia|]. split; [done|cbn; by rewrite <- Hdone|].
    do 4 right. left. exists r. cbn. split_and!; try done. lia.
  - injection E as <-. exists (m - 1)%nat. split; [lia|]. split; [done|done|]. do 5 right. cbn. split_and!; try done.
    right. split; [done|lia].
Qed.

Lemma fed_deliver l m c c' : fed l m c -> deliver c = Some c' -> exists k, m = S k /\ fed l k c'.
Proof.
  intros [Ha Hdone Hph] E. unfold deliver in E.
  phases Hph; rewrite Hd in E; try discriminate; rewrite Hf, ?Hb in E; injection E as <-; exists (m - 1)%nat;
    (split; [lia|]); split; try done.
  - do 2 right. left. cbn. rewrite Hdel. split_and!; try done. rewrite Hin. lia.
  - cbn [sub_done delivered]. rewrite existsb_app, Hdone. cbn. by rewrite orb_false_r.
  - do 2 right. left. cbn. rewrite <- (assoc_L (++)). split_and!; try done. lia.
Qed.

Lemma fed_step l m c c' : alive_stream l -> fed l m c -> calm_step c c' -> exists k, m = S k /\ fed l k c'.
Proof.
  intros Hs H Hst. destruct Hst as [c c' Hd E|c c' E|c c' E];
    [eapply fed_arrive|eapply fed_poll|eapply fed_deliver]; eassumption.
Qed.

Lemma fed_progress l m c : fed l (S m) c -> exists c', calm_step c c'.
Proof.
  intros [Ha Hdone Hph]. phases Hph; try lia.
  - destruct (sub_done c) eqn:Es; eexists; apply CalmPoll; unfold poll_client; by rewrite Hd, He, Es.
  - eexists. apply CalmDeliver. unfold deliver. by rewrite Hd, Hf.
  - destruct (incoming c) eqn:Ei; eexists; (apply CalmArrive; [done|]); unfold arrive; by rewrite Hr, Ei.
  - destruct (sub_done c) eqn:Es; eexists; apply CalmPoll; unfold poll_client; by rewrite Hd, He, Es.
  - eexists. apply CalmDeliver. unfold deliver. by rewrite Hd, Hf, Hb.
  - eexists. apply CalmPoll. unfold poll_client. by rewrite Hd, He.
Qed.

Lemma fed_runs l m c k c' : ended_stream l -> fed l m c -> nsteps calm_step k c c' -> (k <= m)%nat /\ fed l (m - k) c'.
Proof.
  intros Hs H Hk. revert m H. induction Hk as [c|k c c1 c' Hst Hk IH]; intros m H; [split; [lia|by rewrite Nat.sub_0_r]|].
  destruct (fed_step _ _ _ _ (ended_alive _ Hs) H Hst) as (m' & -> & H'). destruct (IH _ H') as [Hle Hc']. split; [lia|]. exact Hc'.
Qed.

Lemma fed_new l : fed l (3 * length l + 4) (Subscriber_new l).
Proof. split; [done|done|]. left. cbn. by split_and!. Qed.

Lemma fed_prefix l m c : fed l m c -> delivered c `prefix_of` l /\ (m = O -> delivered c = l).
Proof.
  intros [Ha Hdone Hph]. phases Hph; try (rewrite Hdel; split; [by exists l|lia]);
    try (split; [by rewrite Hl; eexists|lia]); by rewrite Hl.
Qed.

(** A stream that stays open: its end does not arrive. *)
Inductive open_step : Subscriber -> Subscriber -> Prop :=
| OpenArrive c c' : delivering c = false -> incoming c <> [] -> arrive c = Some c' -> open_step c c'
| OpenPoll c c' : poll_client c = Some c' -> open_step c c'
| OpenDeliver c c' : deliver c = Some c' -> open_step c c'.

Lemma open_over l c : fed l 2 c ->
  delivered c = l /\ incoming c = [] /\ sub_events c = [] /\ delivering c = false /\ reading c = true.
Proof.
  intros [Ha Hdone Hph]. phases Hph; try lia. assert (incoming c = []) as Hi by (destruct (incoming c); [done|cbn in Hm; lia]).
  by rewrite Hl, Hi, app_nil_r.
Qed.

Lemma open_fed l j c c' : alive_stream l -> fed l (2 + j) c -> open_step c c' -> exists i, j = S i /\ fed l (2 + i) c'.
Proof.
  intros Hs H Hst. assert (calm_step c c') as Hc by (destruct Hst; by constructor).
  destruct j as [|i].
  - destruct (open_over _ _ H) as (_ & Hi & He & Hd & Hr). exfalso.
    destruct Hst as [c c' _ Hn E|c c' E|c c' E]; [done|unfold poll_client in E|unfold deliver in E]; by rewrite Hd, ?He in E.
  - exists i. split; [done|]. destruct (fed_step _ _ _ _ Hs H Hc) as (m & [= <-] & H'). exact H'.
Qed.

Lemma open_progress l j c : fed l (2 + S j) c -> exists c', open_step c c'.
Proof.
  intros H. destruct (fed_progress l (2 + j) c) as [c' Hc]; [by rewrite <- Nat.add_succ_r|].
  exists c'. destruct Hc as [c c' Hdl E|c c' E|c c' E]; [|by apply OpenPoll|by apply OpenDeliver].
  apply OpenArrive; [done| |done]. intros Hi. destruct H as [Ha Hdone Hph].
  unfold arrive in E. phases Hph; rewrite Hr in E; try congruence; rewrite Hi in Hm; cbn in Hm; lia.
Qed.

Lemma open_delivered c c' : open_step c c' -> delivered c' = delivered c \/ exists r, delivered c' = delivered c ++ [r].
Proof.
  intros [d d' _ _ E|d d' E|d d' E]; [unfold arrive in E|unfold poll_client in E|unfold deliver in E].
  - destruct (reading d); [|done]. destruct (incoming d); injection E as <-; by left.
  - destruct (delivering d); [done|]. destruct (sub_events d) as [|[] ?]; [done| |injection E as <-; by left].
    destruct (sub_done d); injection E as <-; by left.
  - destruct (delivering d); [|done]. destruct (first_message d); [injection E as <-; by left|].
    destruct (buffer d) as [r|]; [injection E as <-; right; by exists r|done].
Qed.

(** As long as no message arrives while the one before is being handed
    on, a subscriber gives its listener the messages of a stream that ends
    with a message without success, each once and in order, in three steps
    per message and four for its start and its end; it is not removed then,
    and never will be. *)
Theorem subscriber_delivers_stream l k c :
  ended_stream l -> nsteps calm_step k (Subscriber_new l) c ->
  delivered c `prefix_of` l /\ removed c = false /\ (k <= 3 * length l + 4)%nat
  /\ ((k < 3 * length l + 4)%nat -> exists c', calm_step c c')
  /\ (k = (3 * length l + 4)%nat -> delivered c = l /\ forall c', ~ calm_step c c').
Proof.
  intros Hs Hk. destruct (fed_runs _ _ _ _ _ Hs (fed_new l) Hk) as [Hle Hc].
  destruct (fed_prefix _ _ _ Hc) as [Hp Hall]. split; [done|]. split; [by apply Hc|]. split; [done|]. split.
  - intros Hlt. apply (fed_progress l (3 * length l + 4 - k - 1)).
    by replace (S _) with (3 * length l + 4 - k)%nat by lia.
  - intros ->. rewrite Nat.sub_diag in *. split; [by apply Hall|]. intros c' Hst.
    destruct (fed_step _ _ _ _ (ended_alive _ Hs) Hc Hst) as (j & Hz & _). lia.
Qed.

(** The next read is started, into the same buffer, before the message is
    handed on.  When the next message arrives in between, the listener gets
    that one, twice, and never the one before. *)
Theorem next_message_overwrites r1 r2 l c :
  sub_done c = false -> first_message c = false -> delivering c = false -> reading c = false ->
  buffer c = Some r1 -> sub_events c = [true] -> incoming c = r2 :: l -> success r2 = true ->
  exists c', rtc step c c' /\ delivered c' = delivered c ++ [r2; r2] /\ incoming c' = l.
Proof.
  destruct c as [dn fm bf rd inc ev dl de rm]. cbn. intros -> -> -> -> -> -> -> Hs. eexists. split.
  - eapply rtc_l; [eapply StPoll; reflexivity|]. eapply rtc_l; [eapply StArrive; reflexivity|].
    eapply rtc_l; [eapply StDeliver; reflexivity|]. eapply rtc_l; [eapply StPoll; cbn; rewrite Hs; reflexivity|].
    eapply rtc_l; [eapply StDeliver; reflexivity|]. apply rtc_refl.
  - cbn. by rewrite <- (assoc_L (++)).
Qed.
End client.
End Client.

(** ** Distribution of subscribers over the polling threads *)

(** [get_poll_service]: the service and the counter after; [None] divides by
    zero or reads past the services. *)
Definition get_poll_service (services counter : nat) : option (nat * nat) :=
  if (services =? 0)%nat then None
  else if (services <=? counter)%nat then None
  else Some (counter, ((counter + 1) mod services)%nat).

Fixpoint get_poll_services (services calls counter : nat) : option (list nat) :=
  match calls with
  | O => Some []
  | S k =>
      r ← get_poll_service services counter;
      l ← get_poll_services services k r.2;
      Some (r.1 :: l)
  end.

(** With at least one polling thread the calls after the start go to the
    threads in turn, never to one that does not exist. *)
Theorem poll_services_in_turn services calls :
  (0 < services)%nat ->
  get_poll_services services calls 0 = Some (map (fun i => i mod services)%nat (seq 0 calls)).
Proof.
  intros Hs. assert (forall k i, get_poll_services services k (i mod services)
    = Some (map (fun i => i mod services)%nat (seq i k))) as H;
    [|rewrite <- (H calls 0%nat); by rewrite Nat.Div0.mod_0_l].
  intros k. induction k as [|k IH]; intros i; [done|]. cbn [get_poll_services seq map]. unfold get_poll_service.
  rewrite (proj2 (Nat.eqb_neq services 0)) by lia.
  rewrite (proj2 (Nat.leb_gt _ _)) by (apply Nat.mod_upper_bound; lia). cbn [mbind option_bind fst snd].
  replace ((i mod services + 1) mod services)%nat with (S i mod services)%nat
    by (rewrite Nat.Div0.add_mod_idemp_l; f_equal; lia).
  by rewrite IH.
Qed.

Lemma poll_services_in_turn_witness : get_poll_services 3 7 0 = Some [0; 1; 2; 0; 1; 2; 0]%nat.
Proof. exact (poll_services_in_turn 3 7 ltac:(lia)). Defined.

(** ** Handlers that stream a blockchain *)

Section providers.
Context {T St X : Type} (payload_bytes : T -> bytes) `{STO : !Storage T St}.
(** The bytes of a checksum record read as a payload. *)
Context (reinterpret : bytes -> T).
Abbreviation B := (Base T St X).
Implicit Types (b : B).

(** [found]: [get_any_blockchain] knows the blockchain. *)
Definition block_record_of (rec : Rec T) (last : BlockRecord T) : BlockRecord T :=
  mkBlockRecord true
    match rec_u rec with
    | UPayload p => p
    | UChecksum c => reinterpret c
    | UZero => br_record last
    end.

(** [BlockProvider]; the context counts the records. *)
Definition BlockProvider (found : bool) (block_id : N) : Provider B N (BlockRecord T) :=
  mkProvider
    (fun ctx => ret (Some (default 0%N ctx)))
    (fun ctx writes_done reply =>
       let records_provided := default 0%N ctx in
       let offset := (GRADIDO_BLOCK_SIZE * block_id)%N in
       let seq_num := ((records_provided + offset) mod 2 ^ 64)%N in
       let ctx' := Some ((records_provided + 1) mod 2 ^ 32)%N in
       if negb found || (writes_done =? GRADIDO_BLOCK_SIZE)%N
       then ret (mkBlockRecord false (br_record reply), ctx')
       else
         let! o := get_block_record seq_num in
         ret (match o with
              | Some rec => block_record_of rec reply
              | None => mkBlockRecord false (br_record reply)
              end, ctx'))
    br_success.

(** [ChecksumProvider]; the context holds the blocks and counts them. *)
Definition ChecksumProvider (found : bool) : Provider B (list BlockInfo * N) BlockChecksum :=
  mkProvider
    (fun ctx =>
       match ctx with
       | Some c => ret (Some c)
       | None => let! bis := if found then get_checksums payload_bytes else ret [] in ret (Some (bis, 0%N))
       end)
    (fun ctx writes_done reply =>
       match ctx with
       | None => undef
       | Some (bis, records_provided) =>
           if negb found || (records_provided =? N.of_nat (length bis))%N
           then ret (mkBlockChecksum false (bcs_block_size reply) (bcs_checksum reply), ctx)
           else
             match bis !! N.to_nat records_provided with
             | None => throw "out_of_range"
             | Some bi => ret (mkBlockChecksum true (bi_size bi) (bi_checksum bi), Some (bis, (records_provided + 1) mod 2 ^ 32)%N)
             end
       end)
    bcs_success.

(** [PingReceiver]; the reply is its success. *)
Definition PingReceiver : Provider B unit bool :=
  mkProvider (fun ctx => ret ctx) (fun ctx writes_done reply => ret ((writes_done =? 0)%N, ctx)) id.

(** [UsersProvider]: [users] is what [get_users] of the group gives; [None]
    when the group is not known. *)
Record UserData := mkUserData { ud_success : bool; ud_pubkey : bytes }.
Definition UsersProvider (get_users : option (M B (list bytes))) : Provider B (list bytes) UserData :=
  mkProvider
    (fun ctx =>
       match ctx, get_users with
       | Some c, _ => ret (Some c)
       | None, Some g => let! l := g in ret (Some l)
       | None, None => ret None
       end)
    (fun ctx writes_done reply =>
       match ctx with
       | None => ret (mkUserData false (ud_pubkey reply), ctx)
       | Some users =>
           if (N.of_nat (length users) <=? writes_done)%N then ret (mkUserData false (ud_pubkey reply), ctx)
           else match users !! N.to_nat writes_done with
                | None => throw "out_of_range"
                | Some u => ret (mkUserData true u, ctx)
                end
       end)
    ud_success.

Context (rep : St -> list (list T * bytes) -> Prop) `{SL : !StorageLaws rep}.

(** *** The records of a block *)

Lemma mk_block_lookup (x : list T * bytes) j :
  (length x.1 <= BLOCK - 1)%nat -> (j < BLOCK)%nat ->
  mk_block BLOCK x !! j = Some (match x.1 !! j with
                                | Some p => payload_rec p
                                | None => if (j =? length x.1)%nat then checksum_rec x.2 else zero_rec
                                end).
Proof.
  intros Hl Hj. unfold mk_block. destruct (x.1 !! j) as [p|] eqn:E.
  - rewrite lookup_app_l by (rewrite length_map; by eapply lookup_lt_Some). rewrite list_lookup_fmap, E. done.
  - apply lookup_ge_None in E. rewrite lookup_app_r by (rewrite length_map; lia). rewrite length_map.
    destruct (Nat.eqb_spec j (length x.1)) as [->|Hne]; [by rewrite Nat.sub_diag|].
    destruct (j - length x.1)%nat as [|i] eqn:Ei; [lia|]. cbn. apply lookup_replicate_2. lia.
Qed.

Lemma get_block_record_run b bs i x j :
  rep (b_storage b) bs -> bs !! i = Some x -> (N.of_nat i < 2 ^ 32)%N -> (j < BLOCK)%nat ->
  exists s', get_block_record (N.of_nat j + GRADIDO_BLOCK_SIZE * N.of_nat i) b
    = Ret (match x.1 !! j with
           | Some p => Some (payload_rec p)
           | None => if (j =? length x.1)%nat then Some (checksum_rec x.2) else None
           end) (set_b_storage s' b) /\ rep s' bs.
Proof.
  intros Hrep Hx Hi Hj. unfold get_block_record.
  assert ((N.of_nat j + GRADIDO_BLOCK_SIZE * N.of_nat i) / GRADIDO_BLOCK_SIZE = N.of_nat i
          /\ (N.of_nat j + GRADIDO_BLOCK_SIZE * N.of_nat i) mod GRADIDO_BLOCK_SIZE = N.of_nat j)%N as [-> ->].
  { unfold GRADIDO_BLOCK_SIZE in *. split.
    - rewrite (N.mul_comm 1000), N.div_add, N.div_small by lia. lia.
    - rewrite (N.mul_comm 1000), N.Div0.mod_add, N.mod_small by lia. done. }
  rewrite N.mod_small by done. cbv zeta.
  rewrite (stor_pure_bind _ _ _ _ (law_block_count _ _ Hrep)).
  rewrite (proj2 (N.leb_gt _ _)) by (apply lookup_lt_Some in Hx; lia).
  destruct (law_get_block _ _ _ _ Hrep Hx) as (s' & E & Hrep'). rewrite (stor_bind _ _ _ _ _ E). cbn [fst mbind option_bind].
  pose proof (law_sizes _ _ _ _ Hrep Hx) as Hsz. rewrite Nat2N.id, mk_block_lookup by lia.
  exists s'. split; [|done]. destruct (x.1 !! j) as [p|]; [done|]. by destruct (j =? length x.1)%nat.
Qed.

Lemma block_answers_drop junk (x : list T * bytes) j :
  drop j (block_answers junk x)
  = match x.1 !! j with
    | Some p => mkBlockRecord true p :: drop (S j) (block_answers junk x)
    | None => if (j =? length x.1)%nat then mkBlockRecord true junk :: drop (S j) (block_answers junk x)
              else if (j =? S (length x.1))%nat then [mkBlockRecord false junk] else []
    end.
Proof.
  unfold block_answers. destruct (x.1 !! j) as [p|] eqn:E.
  - apply drop_S. rewrite lookup_app_l by (rewrite length_map; by eapply lookup_lt_Some). by rewrite list_lookup_fmap, E.
  - apply lookup_ge_None in E. rewrite !drop_app, !(drop_ge (map _ _)), !length_map by (rewrite length_map; lia).
    destruct (Nat.eqb_spec j (length x.1)) as [->|H1]; [by rewrite Nat.sub_diag, Nat.sub_succ_l, Nat.sub_diag by lia|].
    destruct (Nat.eqb_spec j (S (length x.1))) as [->|H2]; [by rewrite Nat.sub_succ_l, Nat.sub_diag by lia|].
    apply drop_ge. cbn. lia.
Qed.

Lemma block_answers_from bs i x n : forall j fuel r b,
  rep (b_storage b) bs -> bs !! i = Some x -> (N.of_nat i < 2 ^ 32)%N ->
  (n + j = length x.1 + 2)%nat -> (0 < n <= fuel)%nat ->
  (j = S (length x.1) -> br_record r = reinterpret x.2) ->
  Server.answers (BlockProvider true (N.of_nat i)) fuel (Some (N.of_nat j)) (N.of_nat j) r b
  = Some (drop j (block_answers (reinterpret x.2) x)).
Proof.
  induction n as [|n IH]; intros j fuel r b Hrep Hx Hi Hn Hf Hr; [lia|].
  pose proof (law_sizes _ _ _ _ Hrep Hx) as Hsz. destruct fuel as [|fuel]; [lia|].
  cbn [Server.answers BlockProvider p_new p_run p_success negb orb from_option id default]. unfold ret at 1.
  rewrite block_answers_drop.
  destruct (N.eqb_spec (N.of_nat j) GRADIDO_BLOCK_SIZE) as [Hj|Hj].
  { unfold ret. cbn [br_success]. unfold GRADIDO_BLOCK_SIZE in *. rewrite lookup_ge_None_2 by lia.
    rewrite (proj2 (Nat.eqb_neq j (length x.1))), (proj2 (Nat.eqb_eq j (S (length x.1)))) by lia.
    by rewrite Hr by lia. }
  change (default 0%N (Some (N.of_nat j))) with (N.of_nat j).
  rewrite N.mod_small by (unfold GRADIDO_BLOCK_SIZE in *; lia).
  destruct (get_block_record_run b bs i x j Hrep Hx Hi) as (s' & E & Hrep'); [unfold GRADIDO_BLOCK_SIZE in *; lia|].
  rewrite (bind_Ret _ _ _ _ _ E). unfold ret. rewrite (N.mod_small _ (2 ^ 32)) by (unfold GRADIDO_BLOCK_SIZE in *; lia).
  replace (N.of_nat j + 1)%N with (N.of_nat (S j)) by lia.
  destruct (x.1 !! j) as [p|] eqn:Ep.
  - apply lookup_lt_Some in Ep. cbn [block_record_of payload_rec rec_u br_success].
    by rewrite (IH (S j) fuel) by (done || lia || (intros; lia)).
  - apply lookup_ge_None in Ep. destruct (Nat.eqb_spec j (length x.1)) as [E1|E1]; cbn [br_success block_record_of].
    + by rewrite (IH (S j) fuel) by (done || lia).
    + rewrite (proj2 (Nat.eqb_eq j (S (length x.1)))) by lia. by rewrite Hr by lia.
Qed.

Lemma block_stream bs i x fuel r b :
  rep (b_storage b) bs -> bs !! i = Some x -> (N.of_nat i < 2 ^ 32)%N -> (length x.1 + 2 <= fuel)%nat ->
  Server.answers (BlockProvider true (N.of_nat i)) fuel None 0 r b = Some (block_answers (reinterpret x.2) x).
Proof.
  intros Hrep Hx Hi Hf.
  pose proof (block_answers_from bs i x (length x.1 + 2) 0 fuel r b Hrep Hx Hi ltac:(lia) ltac:(lia) ltac:(lia)) as H.
  destruct fuel as [|fuel]; [lia|]. exact H.
Qed.

Lemma block_answers_ended junk (x : list T * bytes) : Client.ended_stream br_success (block_answers junk x).
Proof.
  exists (map (mkBlockRecord true) x.1 ++ [mkBlockRecord true junk]), (mkBlockRecord false junk).
  unfold block_answers. rewrite <- (assoc_L (++)). split; [done|]. split; [|done].
  apply Forall_app. split; [by apply Forall_map, Forall_true|by repeat constructor].
Qed.

(** *** The other streams *)

Lemma users_from g l n : forall j fuel r b,
  (n + j = length l)%nat -> (n < fuel)%nat ->
  Server.answers (UsersProvider g) fuel (Some l) (N.of_nat j) r b
  = Some (map (mkUserData true) (drop j l) ++ [mkUserData false (ud_pubkey (default r (last (mkUserData true <$> drop j l))))]).
Proof.
  induction n as [|n IH]; intros j fuel r b Hn Hf; (destruct fuel as [|fuel]; [lia|]);
    cbn [Server.answers UsersProvider p_new p_run p_success]; unfold ret.
  - rewrite (proj2 (N.leb_le _ _)) by lia. cbn [ud_success]. by rewrite drop_ge by lia.
  - rewrite (proj2 (N.leb_gt _ _)) by lia. rewrite Nat2N.id.
    destruct (lookup_lt_is_Some_2 l j) as [u Hu]; [lia|]. rewrite Hu. cbn [ud_success].
    replace (N.of_nat j + 1)%N with (N.of_nat (S j)) by lia. rewrite (IH (S j) fuel) by lia.
    rewrite (drop_S _ _ _ Hu). cbn [mbind option_bind map app fmap list_fmap]. rewrite last_cons.
    by destruct (last _).
Qed.

(** The stream of a group's users is the list [get_users] gives, one reply
    per user, and an end mark; a ping is answered once. *)
Theorem users_streamed g l fuel r b b' :
  g b = Ret l b' -> (length l < fuel)%nat ->
  exists e, Server.answers (UsersProvider (Some g)) fuel None 0 r b = Some (map (mkUserData true) l ++ [e])
    /\ ud_success e = false
    /\ Server.answers PingReceiver 2 None 0 false b = Some [true; false].
Proof using.
  intros Hg Hf. destruct fuel as [|fuel]; [lia|].
  exists (mkUserData false (ud_pubkey (default r (last (mkUserData true <$> l))))). split; [|by split].
  pose proof (users_from (Some g) l (length l) 0 (S fuel) r b' ltac:(lia) Hf) as H. rewrite drop_0 in H.
  cbn [Server.answers UsersProvider p_new] in H |- *. rewrite (bind_Ret _ _ _ _ _ Hg). exact H.
Qed.

(** ** From one node to another *)

Context {X2 : Type} `{CH : !Child T St X2} `{CL : !ChildLaws (T := T) (St := St) (X := X2)} (name : string).

(** A node that asks a sibling for the first block of its chain, after it
    was told that this is the only one: once the call is served and the
    subscriber has polled its queue empty, the listener was given the records
    of the block in order, the payloads are in the store of the node, and it
    asks for the next block. *)
Theorem block_reaches_sibling (a : B) bs (x : list T * bytes) r v c (b : Base T St X2) :
  let n := (length x.1 + 2)%nat in
  rep (b_storage a) bs -> bs !! 0%nat = Some x ->
  nsteps (Server.calm_step (BlockProvider true 0)) (2 + 4 * n) (Server.Server_new r a) v ->
  nsteps (Client.calm_step br_success) (3 * n + 4) (Client.Subscriber_new (Server.wire (Server.net v))) c ->
  b_state b = FETCHING_BLOCKS -> rep (b_storage b) [] -> b_fetched_data_count b = 0%N -> b_block_to_fetch b = 0%N ->
  length (b_fetched_checksums b) = 1%nat -> b_fetched_record_count b = N.of_nat (S (length x.1)) ->
  exists (b' : Base T St X2) bs', for_each (Client.delivered c) (on_block_record name) b = Ret tt b'
    /\ rep (b_storage b') bs' /\ bc_log bs' = x.1
    /\ b_effects b' = b_effects b ++ [RequireBlockData (b_fetch_endpoint b) name 1].
Proof.
  intros n Hrep Hx Hv Hc Hst Hb Hdc Htf Hnc Hrc.
  pose proof (law_sizes _ _ _ _ Hrep Hx) as Hsz. set (junk := reinterpret x.2).
  pose proof (block_stream bs 0 x n r a Hrep Hx ltac:(done) ltac:(lia)) as HA. fold junk in HA.
  assert (length (block_answers junk x) = n) as HlA by (unfold block_answers; rewrite length_app, length_map; cbn; lia).
  destruct (Server.served_runs (BlockProvider true 0) eq_refl _ _ _ _ _ (Server.served_new _ _ _ _ _ HA) Hv) as [_ Hs].
  rewrite HlA, Nat.sub_diag in Hs. apply Server.served_over in Hs. rewrite Hs in Hc.
  destruct (Client.fed_runs _ _ _ _ _ _ (block_answers_ended junk x) (Client.fed_new _ _) Hc) as [_ Hd].
  rewrite HlA, Nat.sub_diag in Hd. apply Client.fed_prefix in Hd as [_ Hd]. rewrite (Hd eq_refl). clear Hc Hd Hs Hv HA.
  unfold block_answers. rewrite for_each_app.
  destruct (block_payloads_append name rep x.1 b [] Hst Hb) as (s' & bs' & E & Hrep' & Hl); [lia|lia|].
  rewrite (bind_Ret _ _ _ _ _ E). clear E. cbn [for_each]. set (b1 := set_b_blocks _ _ _).
  rewrite (bind_Ret _ _ _ _ _ (block_record_skip name rep b1 junk Hst ltac:(right; cbn; lia))).
  set (b2 := set_b_blocks _ _ b1).
  rewrite (bind_Ret _ _ _ _ _ (block_end_next name rep b2 junk Hst ltac:(cbn; lia) ltac:(cbn; lia))).
  eexists _, bs'. split; [reflexivity|]. cbn. by rewrite Hl, Htf.
Qed.
End providers.

(** ** Schedules, for the witnesses *)

Lemma some_default {A} (o : option A) d : (if o then true else false) = true -> o = Some (default d o).
Proof. by destruct o. Qed.

Section schedules.
Context {S C R : Type} (P : Provider S C R).

(** The steps of a calm run, whichever is possible. *)
Definition server_next (v : Server.Server) : option Server.Server :=
  match Server.end_task v with
  | Some v' => Some v'
  | None =>
      match Server.run_task P v with
      | Some v' => Some v'
      | None => match Server.complete true v with
                | Some v' => Some v'
                | None => match Server.task v with Server.NoTask => Server.rpcs_poll P v | _ => None end
                end
      end
  end.
Fixpoint server_runs (k : nat) (v : Server.Server) : option Server.Server :=
  match k with O => Some v | Datatypes.S k' => server_next v ≫= server_runs k' end.

Lemma server_runs_calm k v v' : server_runs k v = Some v' -> nsteps (Server.calm_step P) k v v'.
Proof.
  revert v. induction k as [|k IH]; intros v; cbn [server_runs]; [intros [= <-]; constructor|].
  intros (v1 & E & H)%bind_Some. econstructor; [|by apply IH]. unfold server_next in E.
  destruct (Server.end_task v) eqn:E1; [injection E as <-; by apply Server.CalmEnd|].
  destruct (Server.run_task P v) eqn:E2; [injection E as <-; by apply Server.CalmRun|].
  destruct (Server.complete true v) eqn:E3; [injection E as <-; by apply Server.CalmComplete|].
  destruct (Server.task v) eqn:E4; try done. by apply Server.CalmPoll.
Qed.

Context (success : R -> bool).
Definition client_next (c : Client.Subscriber) : option Client.Subscriber :=
  match Client.deliver success c with
  | Some c' => Some c'
  | None =>
      match Client.poll_client c with
      | Some c' => Some c'
      | None => if Client.delivering c then None else Client.arrive c
      end
  end.
Fixpoint client_runs (k : nat) (c : Client.Subscriber) : option Client.Subscriber :=
  match k with O => Some c | Datatypes.S k' => client_next c ≫= client_runs k' end.

Lemma client_runs_calm k c c' : client_runs k c = Some c' -> nsteps (Client.calm_step success) k c c'.
Proof.
  revert c. induction k as [|k IH]; intros c; cbn [client_runs]; [intros [= <-]; constructor|].
  intros (c1 & E & H)%bind_Some. econstructor; [|by apply IH]. unfold client_next in E.
  destruct (Client.deliver success c) eqn:E1; [injection E as <-; by apply Client.CalmDeliver|].
  destruct (Client.poll_client c) eqn:E2; [injection E as <-; by apply Client.CalmPoll|].
  destruct (Client.delivering c) eqn:E3; [done|]. by apply Client.CalmArrive.
Qed.
End schedules.

(** ** Witnesses *)

#[local] Existing Instances demo_sort demo_bad demo_names demo_group_storage demo_group_laws.

Definition demo_reinterpret (c : bytes) : GroupRegisterRecord := demo_group 0 c.
Definition demo_serving : Base GroupRegisterRecord GSt GroupRegister := demo_register READY [] demo_group_chain.
Definition demo_block_provider : Provider (Base GroupRegisterRecord GSt GroupRegister) N (BlockRecord GroupRegisterRecord) :=
  BlockProvider demo_reinterpret true 0.
Definition demo_reply : BlockRecord GroupRegisterRecord := mkBlockRecord false (demo_group 0 []).
Definition demo_call := Server.Server_new (C := N) demo_reply demo_serving.
Definition demo_served := default demo_call (server_runs demo_block_provider 14 demo_call).
Definition demo_asked : Client.Subscriber := Client.Subscriber_new (Server.wire (Server.net demo_served)).
Definition demo_fed : Client.Subscriber := default demo_asked (client_runs br_success 13 demo_asked).

(** A register that was told of one block of two records. *)
Definition demo_fetching : Base GroupRegisterRecord GSt GroupRegister :=
  set_b_checksums [[1%Z]] 2 true (set_b_state FETCHING_BLOCKS (demo_register READY [] empty_chain)).

Lemma demo_served_runs : nsteps (Server.calm_step demo_block_provider) 14 demo_call demo_served.
Proof. apply server_runs_calm, some_default. vm_compute. reflexivity. Qed.
Lemma demo_fed_runs : nsteps (Client.calm_step br_success) 13 demo_asked demo_fed.
Proof. apply client_runs_calm, some_default. vm_compute. reflexivity. Qed.

Lemma block_reaches_sibling_witness :
  exists b' bs', for_each (Client.delivered demo_fed) (on_block_record "group-register") demo_fetching = Ret tt b'
    /\ Blockchain_rep (b_storage b') bs' /\ bc_log bs' = demo_group_block.1
    /\ b_effects b' = [RequireBlockData "" "group-register" 1].
Proof.
  exact (block_reaches_sibling demo_reinterpret Blockchain_rep "group-register" demo_serving [demo_group_block]
    demo_group_block demo_reply demo_served demo_fed demo_fetching demo_group_rep eq_refl demo_served_runs demo_fed_runs
    eq_refl demo_empty_rep eq_refl eq_refl eq_refl eq_refl).
Defined.

Lemma call_serves_answers_witness :
  Server.wire (Server.net demo_served) = block_answers (demo_reinterpret [1%Z]) demo_group_block
  /\ Server.call demo_served <> None /\ forall v', ~ Server.calm_step demo_block_provider demo_served v'.
Proof.
  exact (proj2 (proj2 (proj2 (proj2 (proj2 (Server.call_serves_answers demo_block_provider eq_refl
    (block_answers (demo_reinterpret [1%Z]) demo_group_block) 3 demo_reply demo_serving
    (block_stream demo_reinterpret Blockchain_rep [demo_group_block] 0 demo_group_block 3 demo_reply demo_serving
       demo_group_rep eq_refl eq_refl ltac:(cbn; lia))) 14 demo_served demo_served_runs)))) eq_refl).
Defined.

Lemma subscriber_delivers_stream_witness :
  Client.delivered demo_fed = Server.wire (Server.net demo_served)
  /\ forall c', ~ Client.calm_step br_success demo_fed c'.
Proof.
  refine (proj2 (proj2 (proj2 (proj2 (Client.subscriber_delivers_stream br_success
    (Server.wire (Server.net demo_served)) 13 demo_fed _ demo_fed_runs)))) _).
  - exists [mkBlockRecord true (demo_group 5 [65%Z]); mkBlockRecord true (demo_reinterpret [1%Z])],
      (mkBlockRecord false (demo_reinterpret [1%Z])). vm_compute. split; [reflexivity|]. split; [repeat constructor|reflexivity].
  - vm_compute. reflexivity.
Defined.

Lemma next_message_overwrites_witness :
  exists c', rtc (Client.step id) (Client.mkSubscriber false false (Some true) false [true; false] [true] false [] false) c'
    /\ Client.delivered c' = [true; true] /\ Client.incoming c' = [false].
Proof.
  exact (Client.next_message_overwrites id true true [false]
    (Client.mkSubscriber false false (Some true) false [true; false] [true] false [] false)
    eq_refl eq_refl eq_refl eq_refl eq_refl eq_refl eq_refl eq_refl).
Defined.

(** A ping that was answered once and is to end. *)
Definition demo_ping : Provider (Base GroupRegisterRecord GSt GroupRegister) unit bool := PingReceiver.

Lemma end_of_call_races_witness :
  exists v, rtc (Server.step demo_ping) (Server.mkServer
      (Some (Server.mkCallData Server.PROCESS false false None 1 true)) (Server.mkNet None [] [true] false false)
      Server.Queued demo_serving 1 true) v
    /\ Server.misuse (Server.net v) = true /\ Server.wire (Server.net v) = [true; false; false].
Proof.
  exact (Server.end_of_call_races demo_ping eq_refl (Server.mkCallData Server.PROCESS false false None 1 true)
    (Server.mkNet None [] [true] false false) demo_serving 1 false None demo_serving None demo_serving false None demo_serving
    eq_refl eq_refl eq_refl eq_refl eq_refl eq_refl eq_refl eq_refl eq_refl eq_refl).
Defined.

(** The client of a ping is gone before the request is read. *)
Lemma failed_operation_stops_server_witness :
  let v := Server.Server_new (C := unit) false demo_serving in
  let v2 := Server.mkServer (Server.call v) (Server.mkNet None [] [] false false) Server.NoTask demo_serving 0 false in
  Server.looping v2 = false /\ Server.rpcs_poll demo_ping v2 = None /\ Server.clones v2 = Server.clones v.
Proof.
  exact (Server.failed_operation_stops_server demo_ping (Server.Server_new false demo_serving)
    (Server.mkServer (Some (Server.CallData_new false)) (Server.mkNet None [false] [] false false) Server.NoTask demo_serving 0 true)
    (Server.mkServer (Some (Server.CallData_new false)) (Server.mkNet None [] [] false false) Server.NoTask demo_serving 0 false)
    (Server.mkServer (Some (Server.CallData_new false)) (Server.mkNet None [] [] false false) Server.NoTask demo_serving 0 false)
    eq_refl eq_refl eq_refl (rtc_refl _ _)).
Defined.

Lemma users_streamed_witness :
  exists e, Server.answers (UsersProvider (T := GroupRegisterRecord) (X := GroupRegister) (Some (ret [[1%Z]; [2%Z]]))) 3 None 0
      (mkUserData false []) demo_serving = Some [mkUserData true [1%Z]; mkUserData true [2%Z]; e]
    /\ ud_success e = false
    /\ Server.answers demo_ping 2 None 0 false demo_serving = Some [true; false].
Proof.
  exact (users_streamed (ret [[1%Z]; [2%Z]]) [[1%Z]; [2%Z]] 3 (mkUserData false []) demo_serving demo_serving
    eq_refl ltac:(cbn; lia)).
Defined.
