(* ===== verification/TopicStream.v ===== *)
(** * From a topic to the ledger (communications.cpp, blockchain_base_deprecated.h, gradido_events.h)

    The subscriber of a topic, the queue of tasks, the worker threads and
    the ledger together: each message a subscriber is given becomes a task,
    and a worker that runs it takes the lock of the ledger twice, to queue
    the translated batch and to process the queue.  With one worker the
    ledger stores the stream, as long as no message arrives while the one
    before is being handed on; when one does, the message before is lost and
    the blockchain starts over.  With two workers the second message can be
    processed first, with the same effect. *)

From stdpp Require Import base gmap list strings.
From Stdlib Require Import ZArith Lia SpecFloat.
From S2P Require Import Prelude GradidoDef Blockchain BlockchainBase GroupRegister BlockchainGradido Translate Communications.
Local Open Scope node_scope.
Set Default Proof Using "Type".

Section stream.
Context {St : Type} `{STO : !Storage GradidoRecord St}.
Context {F : Type} `{MP : !GradidoMath.Mpfr F}.
Context (parse_gt : bytes -> pb.GradidoTransaction) (parse_tb : bytes -> pb.TransactionBody).
Context (get_group_blockchain : bytes -> option IBlockchain).
Context (allowed : bool) (batch_size : nat).
#[local] Existing Instance BlockchainGradido_Child.
Abbreviation Message := pb.ConsensusTopicResponse.
Abbreviation B := (Base GradidoRecord St BlockchainGradido).
Abbreviation CHILD := (BlockchainGradido_Child get_group_blockchain).
Abbreviation translated := (translate_from_ctr parse_gt parse_tb).
Abbreviation push := (push_transaction parse_gt parse_tb get_group_blockchain allowed batch_size).
Abbreviation good := (good_topic_message parse_gt parse_tb).
Abbreviation holds := (holds_message parse_gt parse_tb).

(** ** Tasks and threads *)

Inductive Task := PushTransactionsTask (transaction : Message) | ContinueTransactionsTask.

(** A worker between two tasks, before and inside the second part of
    [add_transaction]. *)
Inductive Worker := Idle | Translating (transaction : Message) | Continuing.

Record Node := mkNode
  { subscriber : Client.Subscriber (R := Message); tasks : list Task; workers : list Worker; ledger : B }.

(** [TopicSubscriber::got_data] is never done. *)
Definition topic_success (t : Message) : bool := true.

(** [on_transaction] for what the subscriber has delivered meanwhile. *)
Definition on_transaction (c c' : Client.Subscriber (R := Message)) (q : list Task) : list Task :=
  q ++ map PushTransactionsTask (drop (length (Client.delivered c)) (Client.delivered c')).

Definition start (t : Task) : Worker :=
  match t with PushTransactionsTask tr => Translating tr | ContinueTransactionsTask => Continuing end.

(** [PushTransactionsTask::run] up to the end of the first lock in
    [add_transaction]. *)
Definition translate_and_push (t : Message) : M B unit :=
  PushTransactionsTask_run translated inbound_push t.

Definition continue : M B unit := continue_with_transactions (CH := CHILD) (Deprecated allowed) batch_size.

(** Tasks the ledger has pushed meanwhile. *)
Definition pushed_tasks (b b' : B) : list Task :=
  omap (fun e => match e with PushContinueTransactions => Some ContinueTransactionsTask | _ => None end)
    (drop (length (b_effects b)) (b_effects b')).

(** The steps of the threads: a message arrives whenever a read is in
    flight, also while the one before is being handed on. *)
Inductive step : Node -> Node -> Prop :=
| Receive c q w b c' :
    Client.step topic_success c c' -> step (mkNode c q w b) (mkNode c' (on_transaction c c' q) w b)
| Take c t q w b i :
    w !! i = Some Idle -> step (mkNode c (t :: q) w b) (mkNode c q (<[i := start t]> w) b)
| Push c q w b i t b' :
    w !! i = Some (Translating t) -> translate_and_push t b = Ret tt b' ->
    step (mkNode c q w b) (mkNode c q (<[i := Continuing]> w) b')
| Continue c q w b i b' :
    w !! i = Some Continuing -> continue b = Ret tt b' ->
    step (mkNode c q w b) (mkNode c (q ++ pushed_tasks b b') (<[i := Idle]> w) b').

(** No read completes while [got_data] hands a message on, and none without
    a message: the stream stays open. *)
Definition orderly (n n' : Node) : Prop :=
  Client.reading (subscriber n) = true -> Client.reading (subscriber n') = false ->
  Client.delivering (subscriber n) = false /\ Client.incoming (subscriber n) <> [].
Definition orderly_step (n n' : Node) : Prop := step n n' /\ orderly n n'.

Lemma orderly_open c c' : Client.step topic_success c c' ->
  (Client.reading c = true -> Client.reading c' = false -> Client.delivering c = false /\ Client.incoming c <> []) ->
  Client.open_step topic_success c c'.
Proof.
  intros [d d' E|d d' E|d d' E] H; [|by apply Client.OpenPoll|by apply Client.OpenDeliver].
  unfold Client.arrive in E. destruct (Client.reading d) eqn:Er; [|done].
  destruct H as [H1 H2]; [done|by destruct (Client.incoming d); injection E as <-|].
  apply Client.OpenArrive; [done|done|]. unfold Client.arrive. by rewrite Er.
Qed.

Lemma open_orderly c c' q q' w w' b b' : Client.open_step topic_success c c' ->
  Client.step topic_success c c' /\ orderly (mkNode c q w b) (mkNode c' q' w' b').
Proof.
  intros [d d' H1 H2 E|d d' E|d d' E]; (split; [by constructor|]); intros Hr Hr'; cbn in *; [done|exfalso..].
  - unfold Client.poll_client in E. destruct (Client.delivering d); [done|].
    destruct (Client.sub_events d) as [|[] ?]; [done| |injection E as <-; cbn in *; congruence].
    destruct (Client.sub_done d); injection E as <-; cbn in *; congruence.
  - unfold Client.deliver in E. destruct (Client.delivering d); [|done].
    destruct (Client.first_message d); [injection E as <-; cbn in *; congruence|].
    destruct (Client.buffer d); [|done]. injection E as <-. cbn in *. congruence.
Qed.

Lemma orderly_same c q q' w w' b b' : orderly (mkNode c q w b) (mkNode c q' w' b').
Proof. intros H1 H2. cbn in *. congruence. Qed.

Definition Node_new (l : list Message) (worker_count : nat) (b : B) : Node :=
  mkNode (Client.Subscriber_new l) [] (replicate worker_count Idle) b.

(** The task in one piece is its two parts. *)
Lemma push_in_parts t b : push t b = (translate_and_push t ;;; continue) b.
Proof.
  unfold push_transaction, translate_and_push, PushTransactionsTask_run, bind. by destruct (translated t _) as [? ?| |].
Qed.

Lemma push_effects t b b' : translate_and_push t b = Ret tt b' -> b_effects b' = b_effects b.
Proof.
  unfold translate_and_push, PushTransactionsTask_run, inbound_push, bind, gets.
  destruct (translated t _) as [? x| |]; [|done|done]. destruct (pq_push x (b_inbound b)); [|done]. by intros [= <-].
Qed.

(** ** One worker *)

Lemma numbered_at n l1 t l2 : numbers_follow n (l1 ++ t :: l2) -> pb.sequencenumber t = (n + N.of_nat (length l1) + 1)%N.
Proof.
  revert n. induction l1 as [|x l1 IH]; intros n [H1 H2]; cbn in *; [by rewrite H1; lia|]. rewrite (IH _ H2). lia.
Qed.

Section one_worker.
Context (rep : St -> list (list GradidoRecord * bytes) -> Prop) `{SL : !StorageLaws rep}.
Context (l : list Message) (Hl : Forall good l) (Hbatch : (0 < batch_size)%nat).
Context (b0 : B) (bs0 : list (list GradidoRecord * bytes)).
Abbreviation latest bs := (default 0%N (BlockchainGradido_latest (Blockchain.bc_log bs))).
Context (Hnum : numbers_follow (latest bs0) l) (Hlt : (latest bs0 + N.of_nat (length l) < 2 ^ 64)%N).

(** The ledger has stored the first messages [l1]. *)
Definition stored_upto (l1 : list Message) (b : B) : Prop :=
  exists bs recs, b_state b = READY /\ b_inbound b = [] /\ rep (b_storage b) bs
    /\ waiting_for_paired (b_child b) = false /\ in_step b bs /\ b_effects b = b_effects b0
    /\ latest bs = (latest bs0 + N.of_nat (length l1))%N
    /\ Blockchain.bc_log bs = Blockchain.bc_log bs0 ++ concat recs /\ Forall2 holds recs l1.

Lemma stored_next l1 t l2 b : l = l1 ++ t :: l2 -> stored_upto l1 b ->
  exists b', push t b = Ret tt b' /\ b_effects b' = b_effects b /\ stored_upto (l1 ++ [t]) b'.
Proof using All.
  intros E (bs & recs & Hst & Hq & Hrep & Hw & Hin & He & Hlat & Hlog & Hrecs).
  rewrite E in Hl, Hnum, Hlt. apply Forall_app in Hl as [_ [Ht _]%Forall_cons].
  apply numbered_at in Hnum. rewrite length_app in Hlt. cbn [length] in Hlt.
  destruct (push_settled parse_gt parse_tb get_group_blockchain rep allowed batch_size t b bs Hst Hq Hbatch Hrep Hw Hin Ht)
    as (b' & bs' & r & E' & Hst' & Hq' & He' & Hrep' & Hw' & Hin' & Hlat' & Hlog' & Hr); [lia|lia|].
  exists b'. split; [exact E'|]. split; [exact He'|]. exists bs', (recs ++ [r]). split_and!; try done.
  - congruence.
  - rewrite Hlat', length_app. cbn. lia.
  - rewrite Hlog', Hlog, concat_app. cbn. by rewrite app_nil_r, (assoc_L (++)).
  - apply Forall2_app; [done|by constructor].
Qed.

(** What the worker holds of the stream: the messages stored, those it is
    busy with, those in the queue, and its own steps to come. *)
Inductive working : list Message -> list Message -> nat -> Worker -> B -> Prop :=
| WorkIdle l1 b : stored_upto l1 b -> working l1 [] 0 Idle b
| WorkTranslating l1 t b : stored_upto l1 b -> working l1 [t] 2 (Translating t) b
| WorkContinuing l1 t b b1 b' :
    stored_upto l1 b -> translate_and_push t b = Ret tt b1 -> push t b = Ret tt b' ->
    b_effects b1 = b_effects b -> working l1 [t] 1 Continuing b1.

(** Each message still to be delivered takes the worker three steps. *)
Inductive on_the_way : nat -> Node -> Prop :=
| OnTheWay c w b l1 busy rest j k :
    Client.fed topic_success l (2 + j) c -> working l1 busy k w b -> Client.delivered c = l1 ++ busy ++ rest ->
    on_the_way (j + 3 * (length l - length (Client.delivered c)) + 3 * length rest + k)
      (mkNode c (map PushTransactionsTask rest) [w] b).

Lemma topic_alive : Client.alive_stream topic_success l.
Proof using All. intros d r rest _. by induction d. Qed.

Lemma way_new : stored_upto [] b0 -> on_the_way (6 * length l + 2) (Node_new l 1 b0).
Proof using All.
  intros H. replace (6 * length l + 2)%nat with ((3 * length l + 2) + 3 * (length l - 0) + 0 + 0)%nat by lia.
  apply (OnTheWay (Client.Subscriber_new l) Idle b0 [] [] [] (3 * length l + 2) 0); [|by constructor|done].
  replace (2 + (3 * length l + 2))%nat with (3 * length l + 4)%nat by lia. apply Client.fed_new.
Qed.

Lemma continue_of t b b1 b' : translate_and_push t b = Ret tt b1 -> push t b = Ret tt b' -> continue b1 = Ret tt b'.
Proof using All. intros E. by rewrite push_in_parts, (bind_Ret _ _ _ _ _ E). Qed.

Lemma way_receive c c' q w b m : on_the_way m (mkNode c q [w] b) -> Client.open_step topic_success c c' ->
  exists k, m = S k /\ on_the_way k (mkNode c' (on_transaction c c' q) [w] b).
Proof using All.
  intros H Hst. inversion H as [? ? ? l1 busy rest j k Hf Hw Hd E1 [E2 E3 E4 E5]]; subst.
  destruct (Client.open_fed _ _ _ _ _ topic_alive Hf Hst) as (i & -> & Hf').
  unfold on_transaction. destruct (Client.open_delivered _ _ _ Hst) as [E|[r E]].
  - rewrite E, drop_all, app_nil_r. exists (i + 3 * (length l - length (Client.delivered c)) + 3 * length rest + k)%nat.
    split; [lia|]. rewrite <- E. by eapply OnTheWay; [|eassumption|congruence].
  - rewrite E, drop_app_length, <- map_app. pose proof (Client.fed_prefix _ _ _ _ Hf') as [[z Hz] _].
    assert (length (Client.delivered c) + 1 <= length l)%nat as Hle.
    { rewrite Hz, E, !length_app. cbn. lia. }
    exists (i + 3 * (length l - length (Client.delivered c')) + 3 * length (rest ++ [r]) + k)%nat.
    split; [rewrite E, !length_app; cbn; lia|]. eapply OnTheWay; [done|eassumption|].
    by rewrite E, Hd, <- !(assoc_L (++)).
Qed.

Lemma way_step m n n' : on_the_way m n -> orderly_step n n' -> exists k, m = S k /\ on_the_way k n'.
Proof using All.
  intros H [Hst Ho]. destruct Hst as [c q w b c' Hst|c t q w b i Hi|c q w b i t b' Hi E|c q w b i b' Hi E].
  - apply orderly_open in Hst; [|exact Ho]. inversion H; subst. by eapply way_receive.
  - inversion H as [? w' ? l1 busy rest j k Hf Hw Hd E1 [E2 E3 E4 E5]]; subst.
    destruct rest as [|t' rest]; [done|]. injection E3 as <- <-. apply list_lookup_singleton_Some in Hi as [-> ->].
    inversion Hw; subst. cbn [app] in Hd. eexists. split.
    2:{ eapply OnTheWay; [exact Hf|by apply WorkTranslating|exact Hd]. }
    cbn [length]. lia.
  - inversion H as [? w' ? l1 busy rest j k Hf Hw Hd E1 [E2 E3 E4 E5]]; subst. clear H.
    apply list_lookup_singleton_Some in Hi as [-> ->]. inversion Hw as [|? ? ? Hs|]; subst.
    pose proof (Client.fed_prefix _ _ _ _ Hf) as [[z Hz] _]. rewrite Hd, <- !(assoc_L (++)) in Hz.
    destruct (stored_next l1 t (rest ++ z) b Hz Hs) as (b2 & E2 & _ & _). eexists. split.
    2:{ eapply OnTheWay; [exact Hf|eapply WorkContinuing; try eassumption|exact Hd]. by eapply push_effects. }
    lia.
  - inversion H as [? w' ? l1 busy rest j k Hf Hw Hd E1 [E2 E3 E4 E5]]; subst. clear H.
    apply list_lookup_singleton_Some in Hi as [-> ->]. inversion Hw as [| |? t b2 ? b3 Hs Ep Eb He]; subst.
    pose proof (Client.fed_prefix _ _ _ _ Hf) as [[z Hz] _]. rewrite Hd, <- !(assoc_L (++)) in Hz.
    destruct (stored_next l1 t (rest ++ z) b2 Hz Hs) as (b4 & E4 & He4 & Hs4).
    pose proof (continue_of _ _ _ _ Ep E4) as Ec. rewrite Ec in E. injection E as ->. 
    unfold pushed_tasks. rewrite He4, He, drop_all. cbn [omap list_omap]. rewrite app_nil_r. eexists. split.
    2:{ eapply OnTheWay; [exact Hf|by apply WorkIdle|]. rewrite Hd, <- !(assoc_L (++)). done. }
    lia.
Qed.
Lemma way_progress m n : on_the_way (S m) n -> exists n', orderly_step n n'.
Proof using All.
  intros H. remember (S m) as sm eqn:Em. destruct H as [c w b l1 busy rest j k Hf Hw Hd].
  pose proof (Client.fed_prefix _ _ _ _ Hf) as [[z Hz] _]. rewrite Hd, <- !(assoc_L (++)) in Hz.
  destruct Hw as [l1 b Hs|l1 t b Hs|l1 t b b1 b' Hs Ep Eb He].
  - destruct rest as [|t rest]; [|eexists; split; [by apply (Take _ _ _ _ _ 0)|apply orderly_same]]. destruct j as [|j].
    + destruct (Client.open_over _ _ _ Hf) as [Hall _]. rewrite Hall in Em. cbn [length] in Em. lia.
    + destruct (Client.open_progress _ _ _ _ Hf) as [c' Hc]. eexists.
      split; [apply Receive; by eapply (open_orderly _ _ [] [] [] [] b b)|by apply open_orderly].
  - destruct (stored_next l1 t (rest ++ z) b Hz Hs) as (b' & E & _). rewrite push_in_parts in E.
    apply bind_Ret_inv in E as ([] & b1 & E & _). eexists.
    split; [eapply (Push _ _ _ _ 0); [done|exact E]|apply orderly_same].
  - eexists. split; [apply (Continue _ _ _ _ 0); [done|]; by eapply continue_of|apply orderly_same].
Qed.

Lemma way_runs m n k n' : on_the_way m n -> nsteps orderly_step k n n' -> (k <= m)%nat /\ on_the_way (m - k) n'.
Proof using All.
  intros H Hk. revert m H. induction Hk as [n|k n n1 n' Hst Hk IH]; intros m H; [split; [lia|by rewrite Nat.sub_0_r]|].
  destruct (way_step _ _ _ H Hst) as (m' & -> & H'). destruct (IH _ H') as [Hle Hn']. split; [lia|]. exact Hn'.
Qed.

Lemma way_over n : on_the_way 0 n -> stored_upto l (ledger n).
Proof using All.
  intros H. remember 0%nat as m eqn:Em. destruct H as [c w b l1 busy rest j k Hf Hw Hd].
  assert (j = 0 /\ rest = [] /\ k = 0)%nat as (-> & -> & ->).
  { split; [lia|]. split; [|lia]. destruct rest; [done|cbn in Em; lia]. }
  inversion Hw; subst. destruct (Client.open_over _ _ _ Hf) as [Hl' _]. rewrite <- Hl', Hd, app_nil_r. done.
Qed.

End one_worker.

(** ** A message that does not follow *)

(** A message two numbers after the last stored one. *)
Lemma hole_resets (rep : St -> list (list GradidoRecord * bytes) -> Prop) `{SL : !StorageLaws rep} t b bs n :
  (0 < batch_size)%nat -> b_state b = READY -> b_inbound b = [] -> rep (b_storage b) bs ->
  BlockchainGradido_latest (Blockchain.bc_log bs) = Some n -> (n + 2 < 2 ^ 64)%N ->
  message_ok parse_gt parse_tb t -> (1 <= length (message_pairs parse_gt t) <= 10)%nat ->
  memo_ok (pb.memo (message_body parse_gt parse_tb t)) -> pb.sequencenumber t = (n + 2)%N ->
  exists b1 b', translate_and_push t b = Ret tt b1 /\ continue b1 = Ret tt b' /\ b_state b' = INITIAL
    /\ b_effects b' = b_effects b ++ [PushContinueValidation BLOCKCHAIN_RESET_TIMEOUT_SECONDS]
    /\ exists s, rep s bs /\ st_truncate 0 s = Ret tt (b_storage b').
Proof.
  intros Hbs Hst Hq Hrep Hn Hlt Hok Hp Hm Hseq.
  destruct (translate_reads_back parse_gt parse_tb t (mkBatch [] false) Hok Hp Hm) as (tr & rest & E & _ & _ & _ & Hq2 & _).
  set (x := mkBatch (GR_transaction tr :: rest) false) in *.
  assert (translate_and_push t b = Ret tt (set_b_inbound [x] b)) as Ep.
  { unfold translate_and_push, PushTransactionsTask_run. rewrite E. unfold inbound_push. by rewrite b_gets, Hq. }
  destruct (process_hole (CH := CHILD) (Deprecated allowed) rep BlockchainGradido_latest
    (BlockchainGradido_latest_ok rep) x (n + 2) b bs) as (b' & E' & Hst' & _ & He & Hs).
  - split; [|done]. unfold batch_seq, x. cbn. by rewrite Hq2, Hseq.
  - exact Hrep.
  - unfold is_next. rewrite Hn, N.mod_small by lia. apply N.eqb_neq. lia.
  - unfold is_old. rewrite Hn. apply N.leb_gt. lia.
  - by rewrite Hq.
  - exists (set_b_inbound [x] b), b'. split; [exact Ep|]. split; [|done].
    unfold continue. eapply continue_stops; [done|reflexivity|done|].
    assert (set_b_inbound [] (set_b_inbound [x] b) = b) as -> by (destruct b; cbn in *; now subst). exact E'.
Qed.

(** ** Two workers *)

(** C31: two workers take two messages that follow each other, and the one
    with the second is faster.  To the ledger its number is a hole: it drops
    its blocks and is to fetch them anew. *)
Theorem second_worker_overtakes (rep : St -> list (list GradidoRecord * bytes) -> Prop) `{SL : !StorageLaws rep}
    c t1 t2 q w b bs i j n :
  w !! i = Some Idle -> w !! j = Some Idle -> i <> j -> (0 < batch_size)%nat ->
  b_state b = READY -> b_inbound b = [] -> rep (b_storage b) bs ->
  BlockchainGradido_latest (Blockchain.bc_log bs) = Some n -> (n + 2 < 2 ^ 64)%N ->
  message_ok parse_gt parse_tb t2 -> (1 <= length (message_pairs parse_gt t2) <= 10)%nat ->
  memo_ok (pb.memo (message_body parse_gt parse_tb t2)) -> pb.sequencenumber t2 = (n + 2)%N ->
  exists n', rtc step (mkNode c (PushTransactionsTask t1 :: PushTransactionsTask t2 :: q) w b) n'
    /\ workers n' !! i = Some (Translating t1)
    /\ b_state (ledger n') = INITIAL
    /\ (exists s, rep s bs /\ st_truncate 0 s = Ret tt (b_storage (ledger n')))
    /\ b_effects (ledger n') = b_effects b ++ [PushContinueValidation BLOCKCHAIN_RESET_TIMEOUT_SECONDS].
Proof.
  intros Hi Hj Hij Hbs Hst Hq Hrep Hn Hlt Hok Hp Hm Hseq.
  destruct (hole_resets rep t2 b bs n Hbs Hst Hq Hrep Hn Hlt Hok Hp Hm Hseq) as (b1 & b' & Ep & Ec & Hst' & He & Hs).
  eexists. split.
  - eapply rtc_l; [by apply (Take _ _ _ _ _ i)|].
    eapply rtc_l; [apply (Take _ _ _ _ _ j); by rewrite list_lookup_insert_ne|].
    eapply rtc_l; [apply (Push _ _ _ _ j t2); [apply list_lookup_insert_eq; rewrite length_insert; by eapply lookup_lt_Some|exact Ep]|].
    eapply rtc_l; [eapply (Continue _ _ _ _ j)|apply rtc_refl]; [|exact Ec].
    apply list_lookup_insert_eq; rewrite !length_insert; by eapply lookup_lt_Some.
  - cbn [workers ledger]. split_and!; try done.
    rewrite !list_lookup_insert_ne by done. apply list_lookup_insert_eq. by eapply lookup_lt_Some.
Qed.

(** ** A message that arrives inside [got_data] *)


(** ** A schedule, for the witnesses: the worker first *)

Definition net_next (c : Client.Subscriber (R := Message)) : option Client.Subscriber :=
  match Client.deliver topic_success c with
  | Some c' => Some c'
  | None =>
      match Client.poll_client c with
      | Some c' => Some c'
      | None => if Client.delivering c then None else if (length (Client.incoming c) =? 0)%nat then None else Client.arrive c
      end
  end.
Definition next (n : Node) : option Node :=
  let '(mkNode c q w b) := n in
  match w !! 0, q with
  | Some Idle, t :: q' => Some (mkNode c q' (<[0 := start t]> w) b)
  | Some (Translating t), _ =>
      match translate_and_push t b with Ret _ b' => Some (mkNode c q (<[0 := Continuing]> w) b') | _ => None end
  | Some Continuing, _ =>
      match continue b with Ret _ b' => Some (mkNode c (q ++ pushed_tasks b b') (<[0 := Idle]> w) b') | _ => None end
  | _, _ => (fun c' => mkNode c' (on_transaction c c' q) w b) <$> net_next c
  end.
Fixpoint runs (k : nat) (n : Node) : option Node :=
  match k with O => Some n | S k' => next n ≫= runs k' end.

Lemma net_next_open c c' : net_next c = Some c' -> Client.open_step topic_success c c'.
Proof.
  unfold net_next. destruct (Client.deliver _ c) eqn:E1; [intros [= <-]; by apply Client.OpenDeliver|].
  destruct (Client.poll_client c) eqn:E2; [intros [= <-]; by apply Client.OpenPoll|].
  destruct (Client.delivering c) eqn:E3; [done|]. destruct (Nat.eqb_spec (length (Client.incoming c)) 0) as [|Hn]; [done|].
  intros E. apply Client.OpenArrive; [done| |done]. intros Hi. by rewrite Hi in Hn.
Qed.

Lemma next_step n n' : next n = Some n' -> orderly_step n n'.
Proof.
  destruct n as [c q w b]. cbn [next].
  assert (forall c', net_next c = Some c' -> orderly_step (mkNode c q w b) (mkNode c' (on_transaction c c' q) w b)) as Hnet.
  { intros c' H. apply net_next_open in H. destruct (open_orderly _ _ q (on_transaction c c' q) w w b b H) as [H1 H2].
    split; [by apply Receive|done]. }
  destruct (w !! 0) as [[|t|]|] eqn:Ew.
  - destruct q as [|t q]; [intros (c' & Hc & ->)%fmap_Some; auto|]. intros [= <-]. split; [by apply Take|apply orderly_same].
  - destruct (translate_and_push t b) as [[] b'| |] eqn:E; [|done|done]. intros [= <-]. split; [by eapply Push|apply orderly_same].
  - destruct (continue b) as [[] b'| |] eqn:E; [|done|done]. intros [= <-]. split; [by apply Continue|apply orderly_same].
  - intros (c' & Hc & ->)%fmap_Some; auto.
Qed.

Lemma runs_steps k n n' : runs k n = Some n' -> nsteps orderly_step k n n'.
Proof.
  revert n. induction k as [|k IH]; intros n; cbn [runs]; [intros [= <-]; constructor|].
  intros (n1 & E & H)%bind_Some. econstructor; [by apply next_step|by apply IH].
Qed.
End stream.

(** ** Witnesses *)

#[local] Existing Instances Blockchain.demo_sort Blockchain.demo_bad Blockchain.demo_names GradidoMath.exact_mpfr demo_ledger_storage demo_ledger_laws.

Definition demo_stream : list pb.ConsensusTopicResponse := [demo_message 6; demo_message 7].
Definition demo_node := Node_new demo_stream 1 (demo_ledger BlockchainGradido_new demo_ledger_chain).
Definition demo_done := default demo_node (runs (demo_parse_gt 2) demo_parse_tb no_groups false 10 14 demo_node).
Lemma demo_done_runs : nsteps (orderly_step (demo_parse_gt 2) demo_parse_tb no_groups false 10) 14 demo_node demo_done.
Proof. apply runs_steps, some_default. vm_compute. reflexivity. Qed.


Lemma second_worker_overtakes_witness :
  exists n', rtc (step (demo_parse_gt 2) demo_parse_tb no_groups false 10)
      (mkNode (Client.Subscriber_new []) [PushTransactionsTask (demo_message 6); PushTransactionsTask (demo_message 7)] [Idle; Idle]
         (demo_ledger BlockchainGradido_new demo_ledger_chain)) n'
    /\ b_state (ledger n') = INITIAL
    /\ b_effects (ledger n') = [PushContinueValidation BLOCKCHAIN_RESET_TIMEOUT_SECONDS].
Proof.
  destruct (second_worker_overtakes (demo_parse_gt 2) demo_parse_tb no_groups false 10 Blockchain_rep
    (Client.Subscriber_new []) (demo_message 6) (demo_message 7) [] [Idle; Idle]
    (demo_ledger BlockchainGradido_new demo_ledger_chain) [demo_ledger_block] 0 1 5%N eq_refl eq_refl ltac:(lia)
    (proj1 (Nat.ltb_lt 0 10) eq_refl) eq_refl eq_refl demo_ledger_rep eq_refl eq_refl
    (demo_message_ok 2 7) ltac:(cbn; lia) demo_memo_ok eq_refl) as (n' & H1 & _ & H2 & _ & H3).
  exists n'. split; [exact H1|]. split; [exact H2|exact H3].
Defined.

