(* ===== verification/Handshake.v ===== *)
(** * Launching a node: the handshake (handshake_handler.cpp)

    A new node gets a key pair and waits.  The launcher sends h0, the node
    answers h1 and sends h2, the launcher answers h3, which holds a signed
    request to enter the node into the subcluster blockchain; the node signs
    it too and submits it (or keeps it, when it hosts that blockchain), and
    then starts.  Modelled here: the two handlers, the part of [NodeFacade]
    they act on, the tasks that carry the messages (gradido_events.h), and
    [Versioned_1] (versioned.cpp), which builds and reads the messages.

    [gf->exit] raises SIGTERM, which ends the process: it is a [Throw]. *)

From stdpp Require Import base gmap list strings numbers relations.
From Stdlib Require Import ZArith Lia.
From S2P Require Import Prelude.
Local Open Scope node_scope.
Set Default Proof Using "Type*".

(** ** Messages (gradido.proto)

    The classes protobuf generates: the messages as records, and the type of
    time stamps and of signature maps, which are passed around only. *)

Section handshake.
Context {Timestamp SignatureMap : Type}.

Record Transaction := mkTransaction
  { version_number : Z; body_bytes : bytes; success : bool; sigMap : SignatureMap }.
Record Handshake0 := mkHandshake0 { h0_transaction_id : Timestamp; h0_starter_endpoint : bytes }.
Record Handshake1 := mkHandshake1 { h1_transaction_id : Timestamp; h1_pub_key : bytes }.
Record Handshake2 := mkHandshake2
  { h2_transaction_id : Timestamp; h2_pub_key : bytes; h2_type : bytes }.
Record Handshake3 := mkHandshake3 { h3_transaction_id : Timestamp; h3_sb_transaction : bytes }.

Definition set_success (v : bool) (t : Transaction) : Transaction :=
  mkTransaction (version_number t) (body_bytes t) v (sigMap t).

(** What the handlers use of [IVersioned].  An output parameter is fresh at
    every call, so it is the result; [None] when the method returns
    [false]. *)
Record IVersioned := mkIVersioned {
  request_sig_h0 : Transaction -> bool;
  request_sig_h2 : Transaction -> bool;
  response_sig_h0 : Transaction -> bool;
  response_sig_h2 : Transaction -> bool;
  sign : Transaction -> Transaction;
  translate_h0 : Transaction -> option Handshake0;
  translate_h1 : Transaction -> option Handshake1;
  translate_h2 : Transaction -> option Handshake2;
  translate_h3 : Transaction -> option Handshake3;
  translate_sb_transaction : bytes -> option Transaction;
  prepare_h0 : Timestamp -> bytes -> option Transaction;
  prepare_h1 : Timestamp -> bytes -> option Transaction;
  prepare_h2 : Timestamp -> bytes -> bytes -> option Transaction;
  prepare_h3 : Timestamp -> Transaction -> option Transaction;
  prepare_add_node : Timestamp -> bytes -> option Transaction;
}.

(** Initial values of fresh messages. *)
Class MessageDefaults := { ts_default : Timestamp; sig_default : SignatureMap }.
Context {DEF : MessageDefaults}.

Definition Transaction_new : Transaction := mkTransaction 0 [] false sig_default.

(** ** The node ([NodeFacade] with its [HandshakeHandler]) *)

(** The configuration and the node's type. *)
Record NodeConf := mkNodeConf
  { launch_token_is_present : bool;
    is_sb_host : bool;
    grpc_endpoint : bytes;
    conf_sb_ordering_node_endpoint : bytes;
    sb_ordering_node_pub_key : bytes;
    sb_pub_key : bytes;
    node_type_str : bytes }.

(** What the node does to others: the subcluster blockchain is created and
    initialised, a task is pushed with a delay in seconds, an entry is
    submitted. *)
Inductive NodeEffect :=
| StartSb (sb_key endpoint ordering_key : bytes)
| PushSendH2 (starter_endpoint : bytes) (h2 : Transaction) (after_seconds : Z)
| SubmitToBlockchain (endpoint : bytes) (t : Transaction).

Record Node := mkNode
  { handshake_ongoing : bool;
    sb_started : bool;
    kp_identity : option (bytes * bytes);
    h3_ts : Timestamp;
    h2_complete : bool;
    h3_signed : Transaction;
    node_effects : list NodeEffect }.

Definition Node_new (kp : option (bytes * bytes)) : Node :=
  mkNode false false kp ts_default false Transaction_new [].

Definition set_handshake_ongoing v n :=
  mkNode v (sb_started n) (kp_identity n) (h3_ts n) (h2_complete n) (h3_signed n) (node_effects n).
Definition set_sb_started v n :=
  mkNode (handshake_ongoing n) v (kp_identity n) (h3_ts n) (h2_complete n) (h3_signed n) (node_effects n).
Definition set_kp_identity v n :=
  mkNode (handshake_ongoing n) (sb_started n) v (h3_ts n) (h2_complete n) (h3_signed n) (node_effects n).
Definition set_h3_ts v n :=
  mkNode (handshake_ongoing n) (sb_started n) (kp_identity n) v (h2_complete n) (h3_signed n) (node_effects n).
Definition set_h2_complete v n :=
  mkNode (handshake_ongoing n) (sb_started n) (kp_identity n) (h3_ts n) v (h3_signed n) (node_effects n).
Definition set_h3_signed v n :=
  mkNode (handshake_ongoing n) (sb_started n) (kp_identity n) (h3_ts n) (h2_complete n) v (node_effects n).
Definition emit_effect (e : NodeEffect) (n : Node) : Node :=
  mkNode (handshake_ongoing n) (sb_started n) (kp_identity n) (h3_ts n) (h2_complete n) (h3_signed n)
    (node_effects n ++ [e]).

Section node.
Variable (conf : NodeConf).
(** [get_versioned], after the conversion of the number to [int]. *)
Variable (versioneds : Z -> option IVersioned).

Definition get_versioned (t : Transaction) : option IVersioned := versioneds (i32 (version_number t)).

(** The empty string when there is no key pair. *)
Definition kp_get_pub_key (n : Node) : bytes :=
  match kp_identity n with Some (_, pub) => pub | None => [] end.

Definition start_sb : M Node unit :=
  let! started := gets sb_started in
  if started then ret tt
  else
    let! key := gets kp_get_pub_key in
    (if is_sb_host conf
     then modify (emit_effect (StartSb (sb_pub_key conf) (grpc_endpoint conf) key))
     else modify (emit_effect (StartSb (sb_pub_key conf) (conf_sb_ordering_node_endpoint conf)
                                  (sb_ordering_node_pub_key conf)))) ;;;
    modify (set_sb_started true).

(** [created]: the result of [create_kp_identity]. *)
Definition NodeFacade_init (created : option (bytes * bytes)) : M Node unit :=
  let! kp := gets kp_identity in
  if launch_token_is_present conf then
    if bool_decide (is_Some kp) then throw "key pair identity already exists; delete both key files manually and redeploy launch token"
    else
      match created with
      | None => throw "cannot create kp identity"
      | Some k => modify (set_kp_identity (Some k)) ;;; modify (set_handshake_ongoing true)
      end
  else
    if bool_decide (is_Some kp) then start_sb else throw "no identity; provide launch token".

Definition get_sb_ordering_node_endpoint : bytes :=
  if is_sb_host conf then grpc_endpoint conf else conf_sb_ordering_node_endpoint conf.

Definition continue_init_after_handshake_done : M Node unit :=
  modify (set_handshake_ongoing false) ;;; start_sb.

(** [get_handshake_handler]: whether there is a handler. *)
Definition get_handshake_handler (force : bool) (n : Node) : bool := handshake_ongoing n || force.

Definition SbRecordAdded_on_transaction (t : Transaction) : M Node unit :=
  if negb (success t) then throw "success == false in a request"
  else
    match get_versioned t with
    | None => throw "unsupported version_number"
    | Some ve =>
        if negb (response_sig_h0 ve t) then throw "cannot validate signature"
        else continue_init_after_handshake_done
    end.

Definition HandshakeHandler_on_transaction (t : Transaction) : M Node unit :=
  let! complete := gets h2_complete in
  if complete then
    if success t then throw "handshake expected to have single h3 response" else ret tt
  else if negb (success t) then throw "success == false in a request"
  else
    match get_versioned t with
    | None => throw "unsupported version_number"
    | Some ve =>
        if negb (response_sig_h2 ve t) then throw "cannot validate signature"
        else
          match translate_h3 ve t with
          | None => throw "cannot acquire Handshake3"
          | Some h3 =>
              match translate_sb_transaction ve (h3_sb_transaction h3) with
              | None => throw "h3 bytes is not transaction"
              | Some t2 =>
                  let t2 := sign ve t2 in
                  modify (set_h2_complete true) ;;;
                  if is_sb_host conf then
                    modify (set_h3_signed t2) ;;;
                    continue_init_after_handshake_done
                  else
                    modify (emit_effect (SubmitToBlockchain get_sb_ordering_node_endpoint t2))
              end
          end
    end.

Definition H1_H2_SETTLE_TIME_SECONDS : Z := 1.

(** [now]: the result of [get_current_time]. *)
Definition HandshakeHandler_get_response_h0 (now : Timestamp) (req : Transaction) (ve : IVersioned)
    : M Node Transaction :=
  match translate_h0 ve req with
  | None => throw "cannot translate h0"
  | Some h0 =>
      let! kp_pub_key := gets kp_get_pub_key in
      match prepare_h1 ve (h0_transaction_id h0) kp_pub_key with
      | None => throw "cannot prepare h1"
      | Some res =>
          let res := sign ve (set_success true res) in
          modify (set_h3_ts now) ;;;
          match prepare_h2 ve now (node_type_str conf) kp_pub_key with
          | None => throw "cannot prepare h2"
          | Some t2 =>
              modify (emit_effect (PushSendH2 (h0_starter_endpoint h0) (sign ve t2) H1_H2_SETTLE_TIME_SECONDS)) ;;;
              ret res
          end
      end
  end.

Definition did_handshake_occur (n : Node) : bool := h2_complete n.
Definition get_h3_signed_contents (n : Node) : Transaction := h3_signed n.
End node.

(** ** The launcher ([NodeLauncher] with its [StarterHandshakeHandler]) *)

Record Launcher := mkLauncher { h0_complete : bool; finalize_pushed : bool }.

Definition Launcher_new : Launcher := mkLauncher false false.
Definition set_h0_complete v l := mkLauncher v (finalize_pushed l).
Definition set_finalize_pushed v l := mkLauncher (h0_complete l) v.

Definition DEFAULT_VERSION_NUMBER : Z := 1.

Section launcher.
Variable (versioned : IVersioned).

(** [exit] on a wrong number. *)
Definition launcher_get_versioned (t : Transaction) : M Launcher IVersioned :=
  if (i32 (version_number t) =? DEFAULT_VERSION_NUMBER)%Z then ret versioned else throw "wrong version number".

Definition StarterHandshakeHandler_on_transaction (t : Transaction) : M Launcher unit :=
  let! complete := gets h0_complete in
  if complete then
    if success t then throw "handshake expected to have single h1 response" else ret tt
  else if negb (success t) then throw "success == false in a request"
  else
    let! ve := launcher_get_versioned t in
    if negb (response_sig_h0 ve t) then throw "cannot validate signature"
    else
      match translate_h1 ve t with
      | None => throw "cannot acquire Handshake1"
      | Some _ => modify (set_h0_complete true)
      end.

Definition StarterHandshakeHandler_get_response_h2 (req : Transaction) (ve : IVersioned)
    : M Launcher Transaction :=
  let! complete := gets h0_complete in
  if negb complete then throw "h0 not yet completed"
  else
    match translate_h2 ve req with
    | None => throw "cannot translate h2"
    | Some h2 =>
        match prepare_add_node ve (h2_transaction_id h2) (h2_type h2) with
        | None => throw "cannot prepare sb_transaction"
        | Some sb_transaction =>
            match prepare_h3 ve (h2_transaction_id h2) (sign ve sb_transaction) with
            | None => throw "cannot prepare h3"
            | Some t2 => ret (sign ve t2)
            end
        end
    end.

(** [SendH0::run]: the request; its result is not looked at. *)
Definition SendH0_run (now : Timestamp) (own_endpoint : bytes) : Transaction :=
  sign versioned (default Transaction_new (prepare_h0 versioned now own_endpoint)).
End launcher.

(** ** Receiving tasks ([TransactionReceiver::do_run])

    [writes_done] counts the replies already written to the stream; the
    result is the reply. *)

Section receiver.
Context {S : Type}.
Variable (has_handler : S -> bool) (versioned_of : Transaction -> M S (option IVersioned)).
Variable (validate_sig : IVersioned -> bool) (process : IVersioned -> bool -> Transaction -> M S Transaction).

Definition do_run (handshake_expected : bool) (req : Transaction) (writes_done : N) : M S Transaction :=
  let reply := set_success false Transaction_new in
  if negb (success req) && (writes_done =? 0)%N then ret reply
  else
    let! hh := gets has_handler in
    if negb (Bool.eqb handshake_expected hh) then ret reply
    else
      let! ve := versioned_of req in
      match ve with
      | None => ret reply
      | Some ve =>
          if negb (validate_sig ve) && (writes_done =? 0)%N then ret (sign ve reply)
          else
            let! reply := process ve hh reply in
            ret (sign ve reply)
      end.
End receiver.

Definition Handshake0Receiver_run (conf : NodeConf) (versioneds : Z -> option IVersioned) (now : Timestamp)
    (req : Transaction) (writes_done : N) : M Node Transaction :=
  do_run (get_handshake_handler false) (fun t => ret (get_versioned versioneds t))
    (fun ve => if (writes_done =? 0)%N then request_sig_h0 ve req else true)
    (fun ve hh reply =>
       if hh && (writes_done =? 0)%N then HandshakeHandler_get_response_h0 conf now req ve else ret reply)
    true req writes_done.

Definition Handshake2Receiver_run (versioned : IVersioned) (req : Transaction) (writes_done : N)
    : M Launcher Transaction :=
  do_run (fun _ => true) (fun t => let! ve := launcher_get_versioned versioned t in ret (Some ve))
    (fun ve => if (writes_done =? 0)%N then request_sig_h2 ve req else true)
    (fun ve hh reply =>
       if hh && (writes_done =? 0)%N then
         let! reply := StarterHandshakeHandler_get_response_h2 req ve in
         modify (set_finalize_pushed true) ;;;
         ret reply
       else ret reply)
    true req writes_done.

(** ** Version 1 of the messages ([Versioned_1])

    [Protobuf]: what the generated classes do.  [parse_h0] is what
    [ParseFromString] leaves in a fresh message; its result is ignored. *)
Class Protobuf := {
  serialize_h0 : Handshake0 -> bytes;
  parse_h0 : bytes -> Handshake0;
  serialize_h1 : Handshake1 -> bytes;
  serialize_h2 : Handshake2 -> bytes;
  serialize_h3 : Handshake3 -> bytes;
  serialize_transaction : Transaction -> bytes;
}.
Section version1.
Context {PB : Protobuf}.

Definition vnum : Z := 1.

Definition prepared (body : bytes) : option Transaction := Some (mkTransaction vnum body true sig_default).

Definition Versioned_1 : IVersioned :=
  {| request_sig_h0 := fun _ => true;
     request_sig_h2 := fun _ => true;
     response_sig_h0 := fun _ => true;
     response_sig_h2 := fun _ => true;
     sign := fun t => t;
     translate_h0 := fun t => Some (parse_h0 (body_bytes t));
     translate_h1 := fun _ => Some (mkHandshake1 ts_default []);
     translate_h2 := fun _ => Some (mkHandshake2 ts_default [] []);
     translate_h3 := fun _ => Some (mkHandshake3 ts_default []);
     translate_sb_transaction := fun _ => Some Transaction_new;
     prepare_h0 := fun ts endpoint => prepared (serialize_h0 (mkHandshake0 ts endpoint));
     prepare_h1 := fun ts key => prepared (serialize_h1 (mkHandshake1 ts key));
     prepare_h2 := fun ts type key => prepared (serialize_h2 (mkHandshake2 ts key type));
     prepare_h3 := fun ts sb => prepared (serialize_h3 (mkHandshake3 ts (serialize_transaction sb)));
     prepare_add_node := fun _ _ => Some Transaction_new |}.
End version1.

(** ** The whole handshake *)

(** The messages in their order; [None] when a side stops. *)
Definition run_handshake (conf : NodeConf) (versioneds : Z -> option IVersioned) (ve : IVersioned)
    (now0 now2 : Timestamp) (launcher_endpoint : bytes) (n : Node) (l : Launcher) : option (Node * Launcher) :=
  match Handshake0Receiver_run conf versioneds now2 (SendH0_run ve now0 launcher_endpoint) 0 n with
  | Ret h1 n1 =>
      match StarterHandshakeHandler_on_transaction ve h1 l, last (node_effects n1) with
      | Ret _ l1, Some (PushSendH2 endpoint h2 _) =>
          match Handshake2Receiver_run ve h2 0 l1 with
          | Ret h3 l2 =>
              match HandshakeHandler_on_transaction conf versioneds h3 n1 with
              | Ret _ n2 => Some (n2, l2)
              | _ => None
              end
          | _ => None
          end
      | _, _ => None
      end
  | _ => None
  end.

(** What the handlers rely on: signing adds signatures only, signed messages
    are accepted, and messages read back as they were prepared.  The one
    implementation there is does not meet it ([version1_breaks_laws]). *)
Class VersionedLaws (ve : IVersioned) := {
  vl_sign t : version_number (sign ve t) = version_number t /\ success (sign ve t) = success t
    /\ body_bytes (sign ve t) = body_bytes t;
  vl_sigs t : request_sig_h0 ve (sign ve t) = true /\ request_sig_h2 ve (sign ve t) = true
    /\ response_sig_h0 ve (sign ve t) = true /\ response_sig_h2 ve (sign ve t) = true;
  vl_h0 ts ep : exists t, prepare_h0 ve ts ep = Some t /\ version_number t = 1%Z /\ success t = true
    /\ forall t', body_bytes t' = body_bytes t -> translate_h0 ve t' = Some (mkHandshake0 ts ep);
  vl_h1 ts key : exists t, prepare_h1 ve ts key = Some t /\ version_number t = 1%Z /\ success t = true
    /\ forall t', body_bytes t' = body_bytes t -> translate_h1 ve t' = Some (mkHandshake1 ts key);
  vl_h2 ts type key : exists t, prepare_h2 ve ts type key = Some t /\ version_number t = 1%Z /\ success t = true
    /\ forall t', body_bytes t' = body_bytes t -> translate_h2 ve t' = Some (mkHandshake2 ts key type);
  vl_h3 ts sb : exists t b, prepare_h3 ve ts sb = Some t /\ version_number t = 1%Z /\ success t = true
    /\ (forall t', body_bytes t' = body_bytes t -> translate_h3 ve t' = Some (mkHandshake3 ts b))
    /\ translate_sb_transaction ve b = Some sb;
  vl_add_node ts type : is_Some (prepare_add_node ve ts type);
}.

(** A node that waits for its handshake. *)
Definition waiting (n : Node) : Prop :=
  handshake_ongoing n = true /\ h2_complete n = false /\ sb_started n = false /\ is_Some (kp_identity n).

(** ** The handshake, step by step *)

Section complete.
Context (ve : IVersioned) (LAWS : VersionedLaws ve).
Context (conf : NodeConf) (versioneds : Z -> option IVersioned) (Hve : versioneds 1%Z = Some ve).

(** A message of version 1, accepted and not refused. *)
Definition good (t : Transaction) : Prop := version_number t = 1%Z /\ success t = true.

Lemma sign_good t : good t -> good (sign ve t).
Proof. intros [H1 H2]. destruct (vl_sign t) as (E1 & E2 & _). split; congruence. Qed.

Lemma good_versioned t : good t -> get_versioned versioneds t = Some ve.
Proof. intros [H _]. unfold get_versioned. now rewrite H. Qed.

Lemma sign_body t : body_bytes (sign ve t) = body_bytes t.
Proof. apply vl_sign. Qed.

(** h0 is answered with h1, and h2 is sent to the launcher. *)
Lemma h0_answered now0 now2 ep n :
  waiting n ->
  exists h1 t2, Handshake0Receiver_run conf versioneds now2 (SendH0_run ve now0 ep) 0 n
      = Ret (sign ve (sign ve h1)) (emit_effect (PushSendH2 ep (sign ve t2) H1_H2_SETTLE_TIME_SECONDS) (set_h3_ts now2 n))
    /\ good h1 /\ (forall t', body_bytes t' = body_bytes h1 -> is_Some (translate_h1 ve t'))
    /\ good t2 /\ (forall t', body_bytes t' = body_bytes t2 ->
         translate_h2 ve t' = Some (mkHandshake2 now2 (kp_get_pub_key n) (node_type_str conf))).
Proof.
  intros (Ho & _ & _ & _). destruct (vl_h0 now0 ep) as (t0 & E0 & V0 & S0 & T0).
  destruct (vl_h1 now0 (kp_get_pub_key n)) as (t1 & E1 & V1 & S1 & T1).
  destruct (vl_h2 now2 (node_type_str conf) (kp_get_pub_key n)) as (t2 & E2 & V2 & S2 & T2).
  assert (set_success true t1 = t1) as Es by (destruct t1; cbn in S1; now subst).
  assert (good (sign ve t0)) as Hg by (now apply sign_good).
  exists t1, t2. unfold Handshake0Receiver_run, SendH0_run, do_run. rewrite E0. change (default Transaction_new (Some t0)) with t0.
  destruct Hg as [Hgv Hgs]. rewrite Hgs. cbn [negb andb]. cbn [bind gets]. unfold bind, gets, get_handshake_handler.
  rewrite Ho. cbn [orb Bool.eqb negb ret]. unfold ret. rewrite good_versioned by done.
  destruct (vl_sigs t0) as (-> & _). cbn [N.eqb negb andb]. unfold HandshakeHandler_get_response_h0.
  rewrite (T0 _ (sign_body t0)). unfold bind, gets, modify. cbn [h0_transaction_id h0_starter_endpoint].
  rewrite E1, E2, Es. cbn. split_and!; try done. intros t' Ht'. rewrite (T1 _ Ht'). eauto.
Qed.

(** The launcher accepts h1. *)
Lemma h1_accepted h1 :
  good h1 -> (forall t', body_bytes t' = body_bytes h1 -> is_Some (translate_h1 ve t')) ->
  StarterHandshakeHandler_on_transaction ve (sign ve (sign ve h1)) Launcher_new = Ret tt (mkLauncher true false).
Proof.
  intros Hg Ht. unfold StarterHandshakeHandler_on_transaction, bind, gets, launcher_get_versioned.
  destruct (sign_good _ (sign_good _ Hg)) as [Hv Hs]. cbn [Launcher_new h0_complete]. rewrite Hs, Hv.
  change (i32 1 =? DEFAULT_VERSION_NUMBER)%Z with true. cbn [negb ret]. unfold ret.
  destruct (vl_sigs (sign ve h1)) as (_ & _ & -> & _).
  destruct (Ht (sign ve (sign ve h1))) as [x Ex]; [now rewrite !sign_body|]. now rewrite Ex.
Qed.

(** The launcher answers h2 with h3. *)
Lemma h2_answered t2 now2 key type :
  good t2 -> (forall t', body_bytes t' = body_bytes t2 -> translate_h2 ve t' = Some (mkHandshake2 now2 key type)) ->
  exists add h3 b, prepare_add_node ve now2 type = Some add
    /\ Handshake2Receiver_run ve (sign ve t2) 0 (mkLauncher true false) = Ret (sign ve (sign ve h3)) (mkLauncher true true)
    /\ good h3 /\ (forall t', body_bytes t' = body_bytes h3 -> translate_h3 ve t' = Some (mkHandshake3 now2 b))
    /\ translate_sb_transaction ve b = Some (sign ve add).
Proof.
  intros Hg Ht. destruct (vl_add_node now2 type) as [add Ea].
  destruct (vl_h3 now2 (sign ve add)) as (h3 & b & E3 & V3 & S3 & T3 & Tb). exists add, h3, b.
  split; [done|]. split; [|done]. unfold Handshake2Receiver_run, do_run, launcher_get_versioned.
  destruct (sign_good _ Hg) as [Hv Hs]. rewrite Hs, Hv. change (i32 1 =? DEFAULT_VERSION_NUMBER)%Z with true.
  unfold bind, gets, ret, modify. cbn.
  destruct (vl_sigs t2) as (_ & -> & _). cbn. unfold StarterHandshakeHandler_get_response_h2, bind, gets, ret. cbn.
  rewrite (Ht _ (sign_body t2)). cbn. now rewrite Ea, E3.
Qed.

(** The node after h3. *)
Definition node_done (add : Transaction) (n : Node) : Node :=
  if is_sb_host conf
  then set_sb_started true
         (emit_effect (StartSb (sb_pub_key conf) (grpc_endpoint conf) (kp_get_pub_key n))
            (set_handshake_ongoing false (set_h3_signed (sign ve (sign ve add)) (set_h2_complete true n))))
  else emit_effect (SubmitToBlockchain (conf_sb_ordering_node_endpoint conf) (sign ve (sign ve add)))
         (set_h2_complete true n).

Lemma h3_accepted h3 now2 b add n :
  h2_complete n = false -> sb_started n = false ->
  good h3 -> (forall t', body_bytes t' = body_bytes h3 -> translate_h3 ve t' = Some (mkHandshake3 now2 b)) ->
  translate_sb_transaction ve b = Some (sign ve add) ->
  HandshakeHandler_on_transaction conf versioneds (sign ve (sign ve h3)) n = Ret tt (node_done add n).
Proof.
  intros Hc Hn Hg Ht Hb. unfold HandshakeHandler_on_transaction, bind, gets. rewrite Hc.
  pose proof (sign_good _ (sign_good _ Hg)) as Hg2. rewrite (good_versioned _ Hg2). destruct Hg2 as [_ ->]. cbn [negb].
  destruct (vl_sigs (sign ve h3)) as (_ & _ & _ & ->). cbn [negb].
  rewrite Ht by (now rewrite !sign_body). cbn [h3_sb_transaction]. rewrite Hb. unfold node_done, modify.
  destruct (is_sb_host conf) eqn:Eh.
  - unfold continue_init_after_handshake_done, start_sb, bind, modify, gets, ret. cbn. rewrite Hn, Eh. cbn. reflexivity.
  - unfold get_sb_ordering_node_endpoint. now rewrite Eh.
Qed.

(** The handshake completes: from a waiting node and a fresh launcher, the
    four messages lead to a node that has done its handshake; the node's
    entry, prepared by the launcher for the node's type and signed by both,
    has been submitted to the ordering node, or, on the host of the
    subcluster blockchain, kept, with the blockchain started; and the
    launcher is about to end. *)
Theorem handshake_completes now0 now2 ep n :
  waiting n ->
  exists n2 add h2,
    run_handshake conf versioneds ve now0 now2 ep n Launcher_new = Some (n2, mkLauncher true true)
    /\ prepare_add_node ve now2 (node_type_str conf) = Some add
    /\ did_handshake_occur n2 = true
    /\ if is_sb_host conf
       then get_h3_signed_contents n2 = sign ve (sign ve add) /\ get_handshake_handler false n2 = false
         /\ node_effects n2 = node_effects n ++
              [PushSendH2 ep h2 1; StartSb (sb_pub_key conf) (grpc_endpoint conf) (kp_get_pub_key n)]
       else get_handshake_handler false n2 = true
         /\ node_effects n2 = node_effects n ++
              [PushSendH2 ep h2 1; SubmitToBlockchain (conf_sb_ordering_node_endpoint conf) (sign ve (sign ve add))].
Proof.
  intros Hw. destruct (h0_answered now0 now2 ep n Hw) as (h1 & t2 & E1 & G1 & T1 & G2 & T2).
  destruct (h2_answered _ _ _ _ G2 T2) as (add & h3 & b & Ea & E2 & G3 & T3 & Tb).
  destruct Hw as (Ho & Hc & Hs & Hk).
  set (n1 := emit_effect (PushSendH2 ep (sign ve t2) H1_H2_SETTLE_TIME_SECONDS) (set_h3_ts now2 n)) in *.
  exists (node_done add n1), add, (sign ve t2). split; [|split; [done|]].
  - unfold run_handshake. rewrite E1, (h1_accepted _ G1 T1). subst n1. cbn [node_effects emit_effect set_h3_ts].
    rewrite last_snoc, E2. now rewrite (h3_accepted h3 now2 b add) by done.
  - unfold node_done, did_handshake_occur, get_handshake_handler. destruct (is_sb_host conf); cbn; rewrite <- !(assoc_L (++)).
    + split_and!; done.
    + split_and!; [done|now rewrite Ho|done].
Qed.

End complete.

(** ** All runs of a launched node *)

Section runs.
Context (conf : NodeConf) (versioneds : Z -> option IVersioned).

Definition is_submit (e : NodeEffect) : bool := match e with SubmitToBlockchain _ _ => true | _ => false end.
Definition is_start (e : NodeEffect) : bool := match e with StartSb _ _ _ => true | _ => false end.
Definition is_send_h2 (e : NodeEffect) : bool := match e with PushSendH2 _ _ _ => true | _ => false end.
Definition count_effects (f : NodeEffect -> bool) (n : Node) : nat := length (List.filter f (node_effects n)).

(** A request h0 may come at any time; answers come only to a request the
    node has sent. *)
Inductive node_step : Node -> Node -> Prop :=
| ns_h0 now req writes_done reply n n' :
    Handshake0Receiver_run conf versioneds now req writes_done n = Ret reply n' -> node_step n n'
| ns_h3 t n n' :
    existsb is_send_h2 (node_effects n) = true ->
    HandshakeHandler_on_transaction conf versioneds t n = Ret tt n' -> node_step n n'
| ns_added t n n' :
    existsb is_submit (node_effects n) = true ->
    SbRecordAdded_on_transaction conf versioneds t n = Ret tt n' -> node_step n n'.

Record node_ok (k : bytes * bytes) (n : Node) : Prop := {
  no_key : kp_identity n = Some k;
  no_submits : count_effects is_submit n = if h2_complete n && negb (is_sb_host conf) then 1%nat else 0%nat;
  no_starts : count_effects is_start n = if sb_started n then 1%nat else 0%nat;
  no_order : sb_started n = true -> h2_complete n = true;
  no_ongoing : handshake_ongoing n = negb (sb_started n);
}.

Lemma count_effects_snoc f n e :
  count_effects f (emit_effect e n) = (count_effects f n + if f e then 1 else 0)%nat.
Proof.
  unfold count_effects. cbn. rewrite List.filter_app, length_app. cbn. destruct (f e); cbn; lia.
Qed.

Lemma no_submit_before n : count_effects is_submit n = 0%nat -> existsb is_submit (node_effects n) = false.
Proof.
  unfold count_effects. induction (node_effects n) as [|e l IH]; [done|]. cbn.
  destruct (is_submit e); cbn; [discriminate|exact IH].
Qed.

(** The end of the start-up, after a complete handshake. *)
Lemma continue_init_ok k n n' :
  kp_identity n = Some k -> h2_complete n = true ->
  count_effects is_submit n = (if negb (is_sb_host conf) then 1%nat else 0%nat) ->
  count_effects is_start n = (if sb_started n then 1%nat else 0%nat) ->
  continue_init_after_handshake_done conf n = Ret tt n' -> node_ok k n'.
Proof.
  intros Hk Hc Hsub Hst H. unfold continue_init_after_handshake_done, start_sb, bind, modify, gets, ret in H.
  cbn in H. destruct (sb_started n) eqn:Es.
  - injection H as <-. split; cbn; rewrite ?Hc, ?Es; try done.
  - destruct (is_sb_host conf) eqn:Eh; injection H as <-; split; cbn; rewrite ?Hc; try done;
      unfold count_effects in *; cbn; rewrite List.filter_app, length_app; cbn; cbn in Hsub; rewrite ?Hsub, ?Hst, ?Eh; done || lia.
Qed.

Lemma h0_ok k now req w reply n n' :
  node_ok k n -> Handshake0Receiver_run conf versioneds now req w n = Ret reply n' -> node_ok k n'.
Proof.
  intros Hn H. unfold Handshake0Receiver_run, do_run, bind, gets, ret in H.
  destruct (negb (success req) && (w =? 0)%N); [now injection H as _ <-|].
  destruct (negb (Bool.eqb true (get_handshake_handler false n))); [now injection H as _ <-|].
  destruct (get_versioned versioneds req) as [ve|]; [|now injection H as _ <-].
  destruct (negb _ && (w =? 0)%N); [now injection H as _ <-|].
  destruct (get_handshake_handler false n && (w =? 0)%N); [|now injection H as _ <-].
  unfold HandshakeHandler_get_response_h0, bind, gets, modify, ret, throw in H.
  destruct (translate_h0 ve req); [|discriminate]. destruct (prepare_h1 ve _ _); [|discriminate].
  destruct (prepare_h2 ve _ _ _); [|discriminate]. injection H as _ <-.
  destruct Hn as [Hk Hs Ht Ho Hg]. split; [done| | |done|done];
    rewrite count_effects_snoc; cbn [is_submit is_start]; rewrite Nat.add_0_r; done.
Qed.

Lemma h3_ok k t n n' :
  node_ok k n -> HandshakeHandler_on_transaction conf versioneds t n = Ret tt n' -> node_ok k n'.
Proof.
  intros [Hk Hs Ht Ho Hg] H. unfold HandshakeHandler_on_transaction in H. unfold bind at 1, gets in H.
  destruct (h2_complete n) eqn:Ec.
  { destruct (success t); [discriminate|]. injection H as <-. split; rewrite ?Ec; done. }
  destruct (negb (success t)); [discriminate|]. destruct (get_versioned versioneds t) as [ve|]; [|discriminate].
  destruct (negb (response_sig_h2 ve t)); [discriminate|]. destruct (translate_h3 ve t) as [h3|]; [|discriminate].
  destruct (translate_sb_transaction ve _) as [t2|]; [|discriminate].
  assert (sb_started n = false) as Es.
  { destruct (sb_started n); [|done]. discriminate (Ho eq_refl). }
  rewrite Es in Ht. cbn [andb] in Hs. unfold bind at 1, modify at 1 in H. destruct (is_sb_host conf) eqn:Eh.
  - unfold bind at 1, modify at 1 in H. revert H. apply continue_init_ok; cbn; rewrite ?Eh, ?Es; done.
  - unfold modify in H. injection H as <-. split; [done| | |done|done]; rewrite count_effects_snoc;
      cbn [is_submit is_start].
    + change (count_effects is_submit (set_h2_complete true n)) with (count_effects is_submit n). rewrite Hs. cbn. now rewrite Eh.
    + change (count_effects is_start (set_h2_complete true n)) with (count_effects is_start n). rewrite Ht. cbn. now rewrite Es.
Qed.

Lemma added_ok k t n n' :
  node_ok k n -> existsb is_submit (node_effects n) = true ->
  SbRecordAdded_on_transaction conf versioneds t n = Ret tt n' -> node_ok k n'.
Proof.
  intros [Hk Hs Ht Ho Hg] Hex H. unfold SbRecordAdded_on_transaction in H.
  destruct (negb (success t)); [discriminate|]. destruct (get_versioned versioneds t) as [ve|]; [|discriminate].
  destruct (negb (response_sig_h0 ve t)); [discriminate|].
  assert (h2_complete n = true /\ is_sb_host conf = false) as [Ec Eh].
  { destruct (h2_complete n && negb (is_sb_host conf)) eqn:E.
    - apply andb_prop in E as [? ?%negb_true_iff]. done.
    - apply no_submit_before in Hs. congruence. }
  rewrite Ec, Eh in Hs. revert H. apply continue_init_ok; try done. now rewrite Eh.
Qed.

Lemma node_runs_ok k n n' : node_ok k n -> rtc node_step n n' -> node_ok k n'.
Proof.
  intros Hn H. induction H as [|n n1 n' H _ IH]; [done|]. apply IH. destruct H; eauto using h0_ok, h3_ok, added_ok.
Qed.

End runs.

(** The launcher gives out a node's entry only after its own request h0
    was answered, and only in the first reply of a stream. *)
Theorem launcher_answers_after_h1 (ve : IVersioned) (LAWS : VersionedLaws ve) req w l reply l' :
  Handshake2Receiver_run ve req w l = Ret reply l' -> success reply = true ->
  h0_complete l = true /\ w = 0%N /\ success req = true /\ request_sig_h2 ve req = true.
Proof.
  intros H Hs. unfold Handshake2Receiver_run, do_run, bind, gets, ret, launcher_get_versioned in H.
  assert (success (sign ve (set_success false Transaction_new)) = false) as Hno by apply vl_sign.
  destruct (success req), (N.eqb_spec w 0) as [->|Hw]; cbn [negb andb] in H; try (injection H as <- _; discriminate Hs).
  all: destruct (i32 (version_number req) =? DEFAULT_VERSION_NUMBER)%Z; unfold ret in H; [|discriminate H].
  all: rewrite ?andb_false_r in H; cbn [negb Bool.eqb andb] in H; try (injection H as <- _; congruence).
  destruct (request_sig_h2 ve req); cbn [negb andb] in H; [|injection H as <- _; congruence].
  unfold StarterHandshakeHandler_get_response_h2, bind, gets in H.
  destruct (h0_complete l); [done|discriminate H].
Qed.

Lemma launcher_version (ve : IVersioned) t l :
  version_number t = 1%Z -> launcher_get_versioned ve t l = Ret ve l.
Proof. intros H. unfold launcher_get_versioned. now rewrite H. Qed.

(** Version 1 does not keep what the handlers rely on: the key of h1, for
    one, does not read back. *)
Theorem version1_breaks_laws {PB : Protobuf} : ~ VersionedLaws Versioned_1.
Proof.
  intros L. destruct (@vl_h1 _ L ts_default [1%Z]) as (t & _ & _ & _ & H).
  discriminate (H t eq_refl).
Qed.

End handshake.
Arguments Transaction : clear implicits.
Arguments Handshake0 : clear implicits.
Arguments Handshake1 : clear implicits.
Arguments Handshake2 : clear implicits.
Arguments Handshake3 : clear implicits.
Arguments IVersioned : clear implicits.
Arguments Node : clear implicits.
Arguments NodeEffect : clear implicits.
Arguments MessageDefaults : clear implicits.
Arguments Protobuf : clear implicits.
Arguments VersionedLaws {_ _} ve.

(** ** Concrete messages

    Time stamps are numbers, a signature map is a list of numbers, and
    messages are written field by field, with the length of the first of two
    fields of variable length. *)

#[local] Instance demo_defaults : MessageDefaults Z (list Z) := {| ts_default := 0%Z; sig_default := [] |}.

Definition write2 (a b : bytes) : bytes := Z.of_nat (length a) :: a ++ b.
Definition read2 (l : bytes) : bytes * bytes :=
  match l with
  | n :: l => (take (Z.to_nat n) l, drop (Z.to_nat n) l)
  | [] => ([], [])
  end.

Lemma read_write2 a b : read2 (write2 a b) = (a, b).
Proof. unfold read2, write2. rewrite Nat2Z.id, take_app_length, drop_app_length. done. Qed.

Definition write_transaction (t : Transaction (list Z)) : bytes :=
  version_number t :: (if success t then 1 else 0)%Z :: write2 (body_bytes t) (sigMap t).
Definition read_transaction (l : bytes) : option (Transaction (list Z)) :=
  match l with
  | v :: s :: l => let '(b, sig) := read2 l in Some (mkTransaction v b (s =? 1)%Z sig)
  | _ => None
  end.

Lemma read_write_transaction t : read_transaction (write_transaction t) = Some t.
Proof.
  unfold read_transaction, write_transaction. rewrite read_write2. now destruct t as [v b [] sig].
Qed.

Definition read_ts {A} (f : Z -> bytes -> A) (l : bytes) : option A :=
  match l with ts :: l => Some (f ts l) | [] => None end.

#[local] Instance demo_protobuf : Protobuf Z (list Z) :=
  {| serialize_h0 := fun z => h0_transaction_id z :: h0_starter_endpoint z;
     parse_h0 := fun l => default (mkHandshake0 0%Z []) (read_ts mkHandshake0 l);
     serialize_h1 := fun z => h1_transaction_id z :: h1_pub_key z;
     serialize_h2 := fun z => h2_transaction_id z :: write2 (h2_pub_key z) (h2_type z);
     serialize_h3 := fun z => h3_transaction_id z :: h3_sb_transaction z;
     serialize_transaction := write_transaction |}.

(** A version of the messages that reads what it writes; a signature is a
    mark in the map. *)
Definition demo_versioned : IVersioned Z (list Z) :=
  {| request_sig_h0 := fun t => bool_decide (sigMap t <> []);
     request_sig_h2 := fun t => bool_decide (sigMap t <> []);
     response_sig_h0 := fun t => bool_decide (sigMap t <> []);
     response_sig_h2 := fun t => bool_decide (sigMap t <> []);
     sign := fun t => mkTransaction (version_number t) (body_bytes t) (success t) (7%Z :: sigMap t);
     translate_h0 := fun t => read_ts mkHandshake0 (body_bytes t);
     translate_h1 := fun t => read_ts mkHandshake1 (body_bytes t);
     translate_h2 := fun t => read_ts (fun ts l => let '(k, ty) := read2 l in mkHandshake2 ts k ty) (body_bytes t);
     translate_h3 := fun t => read_ts mkHandshake3 (body_bytes t);
     translate_sb_transaction := read_transaction;
     prepare_h0 := fun ts ep => prepared (serialize_h0 (mkHandshake0 ts ep));
     prepare_h1 := fun ts key => prepared (serialize_h1 (mkHandshake1 ts key));
     prepare_h2 := fun ts type key => prepared (serialize_h2 (mkHandshake2 ts key type));
     prepare_h3 := fun ts sb => prepared (serialize_h3 (mkHandshake3 ts (serialize_transaction sb)));
     prepare_add_node := fun ts type => prepared (ts :: type) |}.

#[local] Instance demo_laws : VersionedLaws demo_versioned.
Proof.
  split.
  - done.
  - done.
  - intros ts ep. eexists. split; [reflexivity|]. split_and!; [done|done|]. intros t' E. cbn in *. now rewrite E.
  - intros ts key. eexists. split; [reflexivity|]. split_and!; [done|done|]. intros t' E. cbn in *. now rewrite E.
  - intros ts type key. eexists. split; [reflexivity|]. split_and!; [done|done|]. intros t' E. cbn -[read2 write2] in *.
    rewrite E. cbn -[read2 write2]. now rewrite read_write2.
  - intros ts sb. eexists _, _. split; [reflexivity|]. split_and!; [done|done| |apply read_write_transaction].
    intros t' E. cbn -[write_transaction] in *. now rewrite E.
  - intros ts type. cbn. eauto.
Defined.

Definition demo_conf (host : bool) : NodeConf := mkNodeConf true host [1%Z] [2%Z] [3%Z] [5%Z] [4%Z].
Definition demo_versioneds (ve : IVersioned Z (list Z)) (n : Z) : option (IVersioned Z (list Z)) :=
  if (n =? 1)%Z then Some ve else None.

(** A node after [init] with a launch token. *)
Definition demo_waiting : Node Z (list Z) := set_handshake_ongoing true (Node_new (Some ([11%Z], [12%Z]))).

Lemma demo_waits : waiting demo_waiting.
Proof. repeat split; cbn; eauto. Qed.

Lemma handshake_completes_witness :
  waiting demo_waiting
  /\ exists n2 add h2,
    run_handshake (demo_conf false) (demo_versioneds demo_versioned) demo_versioned 5%Z 6%Z [9%Z] demo_waiting Launcher_new
      = Some (n2, mkLauncher true true)
    /\ prepare_add_node demo_versioned 6%Z [4%Z] = Some add
    /\ node_effects n2 = [PushSendH2 [9%Z] h2 1; SubmitToBlockchain [2%Z] (sign demo_versioned (sign demo_versioned add))].
Proof.
  split; [apply demo_waits|].
  destruct (handshake_completes demo_versioned demo_laws (demo_conf false) (demo_versioneds demo_versioned) eq_refl
              5%Z 6%Z [9%Z] demo_waiting demo_waits) as (n2 & add & h2 & H1 & H2 & _ & _ & H3).
  exists n2, add, h2. split; [exact H1|]. split; [exact H2|exact H3].
Defined.


(** h2 as the launcher receives it. *)
Definition demo_h2 : Transaction (list Z) :=
  sign demo_versioned (default Transaction_new (prepare_h2 demo_versioned 6%Z [4%Z] [12%Z])).

Lemma launcher_answers_after_h1_witness :
  exists reply, Handshake2Receiver_run demo_versioned demo_h2 0 (mkLauncher true false) = Ret reply (mkLauncher true true)
    /\ success reply = true /\ h0_complete (mkLauncher true false) = true.
Proof.
  eexists. split; [vm_compute; reflexivity|]. split; [reflexivity|].
  eapply (launcher_answers_after_h1 demo_versioned demo_laws demo_h2 0 (mkLauncher true false)); [vm_compute; reflexivity|reflexivity].
Defined.

