(* ===== verification/Config.v ===== *)
(** * Configuration (config.cpp, with the key files of utils.cpp)

    What a node keeps in files between two starts: the siblings it knows, a
    folder per group blockchain, and its key pair.  Files and folders are
    part of the state; reading the values of property files is the Poco
    library's. *)

From stdpp Require Import base gmap list strings.
From Stdlib Require Import ZArith Lia Decimal DecimalN.
From S2P Require Import Prelude GradidoDef CoreUtils GroupRegister.
Local Open Scope Z_scope.
Local Open Scope node_scope.

(** ** Text *)

Definition NL : Z := 10.
Definition DOT : Z := 46.

(** Decimal notation, as streams write it and [std::stoul] reads it. *)
Fixpoint uint_text (d : uint) : bytes :=
  match d with
  | Nil => []
  | D0 d => 48 :: uint_text d | D1 d => 49 :: uint_text d | D2 d => 50 :: uint_text d
  | D3 d => 51 :: uint_text d | D4 d => 52 :: uint_text d | D5 d => 53 :: uint_text d
  | D6 d => 54 :: uint_text d | D7 d => 55 :: uint_text d | D8 d => 56 :: uint_text d
  | D9 d => 57 :: uint_text d
  end.
Definition digit_cons (c : Z) (d : uint) : option uint :=
  match c with
  | 48 => Some (D0 d) | 49 => Some (D1 d) | 50 => Some (D2 d) | 51 => Some (D3 d) | 52 => Some (D4 d)
  | 53 => Some (D5 d) | 54 => Some (D6 d) | 55 => Some (D7 d) | 56 => Some (D8 d) | 57 => Some (D9 d)
  | _ => None
  end.
Fixpoint text_uint (s : bytes) : option uint :=
  match s with
  | [] => Some Nil
  | c :: s' => d ← text_uint s'; digit_cons c d
  end.
Definition decimal (z : Z) : bytes :=
  if z <? 0 then 45 :: uint_text (N.to_uint (Z.to_N (- z))) else uint_text (N.to_uint (Z.to_N z)).

(** [static_cast<uint64_t>(std::stoul(s))] into a 64-bit field, for a text
    of digits; [None]: it throws. *)
Definition stoul (s : bytes) : option Z :=
  d ← text_uint s;
  let n := Z.of_N (N.of_uint d) in
  if n <? 2 ^ 64 then Some (i64 n) else None.

Fixpoint span (p : Z -> bool) (s : bytes) : bytes * bytes :=
  match s with
  | [] => ([], [])
  | c :: s' => if p c then let r := span p s' in (c :: r.1, r.2) else ([], s)
  end.

Definition is_digit (c : Z) : bool := (48 <=? c) && (c <=? 57).
Definition is_word (c : Z) : bool :=
  is_digit c || ((65 <=? c) && (c <=? 90)) || ((97 <=? c) && (c <=? 122)) || (c =? 95).

(** A part of the expression: one or more of a class, then a dot. *)
Definition take_part (p : Z -> bool) (s : bytes) : option (bytes * bytes) :=
  match span p s with
  | (c :: a, d :: r) => if d =? DOT then Some (c :: a, r) else None
  | _ => None
  end.

(** Word, three numbers and "bc", with dots between; [$] also matches before
    a newline that ends the name. *)
Definition split_name (s : bytes) : option (bytes * (bytes * bytes * bytes)) :=
  a ← take_part is_word s;
  n1 ← take_part is_digit a.2;
  n2 ← take_part is_digit n1.2;
  n3 ← take_part is_digit n2.2;
  if bool_decide (n3.2 = [98; 99]) || bool_decide (n3.2 = [98; 99; NL])
  then Some (a.1, (n1.1, n2.1, n3.1)) else None.

(** ** Groups and siblings *)

(** [conf_dirs]: the folders below the data root, in the order in which they
    are listed; [conf_sibling_file]: the contents of the sibling file. *)
Record Conf := mkConf
  { conf_gis : list GroupInfo; conf_siblings : list bytes; conf_sibling_file : bytes; conf_dirs : list bytes }.

Definition push_gi (gi : GroupInfo) (c : Conf) : Conf :=
  mkConf (conf_gis c ++ [gi]) (conf_siblings c) (conf_sibling_file c) (conf_dirs c).

(** [GroupInfo::create]. *)
Definition GroupInfo_create (alias : bytes) (topic_id : HederaTopicID) : GroupInfo :=
  let s := cstr (take GROUP_ALIAS_LENGTH alias) in
  mkGroupInfo topic_id (s ++ replicate (GROUP_ALIAS_LENGTH - length s) 0).

(** [GroupInfo::get_directory_name]; [None]: the alias has no null. *)
Definition get_directory_name (gi : GroupInfo) : option bytes :=
  a ← field_string (gi_alias gi);
  let t := gi_topic_id gi in
  Some (a ++ [DOT] ++ decimal (topic_shardNum t) ++ [DOT] ++ decimal (topic_realmNum t) ++ [DOT]
          ++ decimal (topic_topicNum t) ++ [DOT; 98; 99]).

(** The information in one folder name. *)
Definition dir_group_info (fname : bytes) : option (option GroupInfo) :=
  match split_name fname with
  | None => Some None
  | Some (a, (n1, n2, n3)) =>
      if (GROUP_ALIAS_LENGTH - 1 <=? length a)%nat then None
      else
        match stoul n1, stoul n2, stoul n3 with
        | Some z1, Some z2, Some z3 =>
            Some (Some (mkGroupInfo (mkHederaTopicID z1 z2 z3) (a ++ replicate (GROUP_ALIAS_LENGTH - length a) 0)))
        | _, _, _ => None
        end
  end.

Definition reload_group_infos : M Conf unit :=
  let! dirs := gets conf_dirs in
  for_each dirs (fun fname =>
    match dir_group_info fname with
    | None => throw "Couldn't init blockchain groups"
    | Some None => ret tt
    | Some (Some gi) => modify (push_gi gi)
    end).

(** A folder that is there already stays. *)
Definition add_blockchain (gi : GroupInfo) : M Conf unit :=
  let! name := of_option (get_directory_name gi) in
  modify (fun c => mkConf (conf_gis c) (conf_siblings c) (conf_sibling_file c)
                     (if bool_decide (name ∈ conf_dirs c) then conf_dirs c else conf_dirs c ++ [name])) ;;;
  modify (push_gi gi).

(** The lines of a file without the empty ones; [line]: what was read of the
    current one. *)
Fixpoint getlines (line s : bytes) : list bytes :=
  match s with
  | [] => match line with [] => [] | _ => [line] end
  | c :: s' =>
      if c =? NL then match line with [] => getlines [] s' | _ => line :: getlines [] s' end
      else getlines (line ++ [c]) s'
  end.

Definition set_siblings (l : list bytes) (c : Conf) : Conf :=
  mkConf (conf_gis c) l (conf_sibling_file c) (conf_dirs c).
Definition reload_sibling_file : M Conf unit :=
  modify (fun c => set_siblings (getlines [] (conf_sibling_file c)) c).
Definition write_siblings : M Conf unit :=
  modify (fun c => mkConf (conf_gis c) (conf_siblings c)
                     (concat (map (fun s => s ++ [NL]) (conf_siblings c))) (conf_dirs c)).

Definition add_sibling_node (endpoint : bytes) : M Conf bool :=
  let! l := gets conf_siblings in
  if existsb (fun i => bool_decide (i = endpoint)) l then ret false
  else
    modify (set_siblings (l ++ [endpoint])) ;;;
    write_siblings ;;;
    ret true.

(** The list without the endpoint is built and dropped. *)
Definition remove_sibling_node (endpoint : bytes) : M Conf bool :=
  let! l := gets conf_siblings in
  let res := existsb (fun i => bool_decide (i = endpoint)) l in
  if res then write_siblings ;;; ret res else ret res.

(** [init], after the property file was read. *)
Definition conf_init : M Conf unit := reload_sibling_file ;;; reload_group_infos.

(** A node that starts with the files another run left, the folders being
    listed in the order [dirs]. *)
Definition restarted (dirs : list bytes) (c : Conf) : Conf := mkConf [] [] (conf_sibling_file c) dirs.

(** ** The key pair of the node *)

Definition KEY_LENGTH_HEX : nat := PUB_KEY_LENGTH * 2.
Definition is_key (s : bytes) : bool := (length s =? KEY_LENGTH_HEX)%nat && is_hex s.

(** [kp_priv_file], [kp_pub_file]: the two key files, [None] when absent. *)
Record Kp := mkKp
  { kp_present : bool; kp_priv : bytes; kp_pub : bytes;
    kp_priv_file : option bytes; kp_pub_file : option bytes }.

Definition set_priv_file (k : bytes) (s : Kp) : Kp :=
  mkKp (kp_present s) (kp_priv s) (kp_pub s) (Some k) (kp_pub_file s).
Definition set_pub_file (k : bytes) (s : Kp) : Kp :=
  mkKp (kp_present s) (kp_priv s) (kp_pub s) (kp_priv_file s) (Some k).
Definition set_priv (k : bytes) (s : Kp) : Kp :=
  mkKp (kp_present s) k (kp_pub s) (kp_priv_file s) (kp_pub_file s).
Definition set_pub (k : bytes) (s : Kp) : Kp :=
  mkKp (kp_present s) (kp_priv s) k (kp_priv_file s) (kp_pub_file s).
Definition set_present (b : bool) (s : Kp) : Kp :=
  mkKp b (kp_priv s) (kp_pub s) (kp_priv_file s) (kp_pub_file s).

(** Of a file with the given contents. *)
Definition read_key_from_file (contents : bytes) : M Kp bytes :=
  if is_key contents then ret contents else throw "cannot read, not a key".

(** [file]: the file of that name as it is now; [write] fills it. *)
Definition save_key_to_file (key : bytes) (file : Kp -> option bytes) (write : bytes -> Kp -> Kp) : M Kp unit :=
  if negb (is_key key) then throw "cannot write, not a key"
  else
    let! f := gets file in
    match f with
    | Some _ => throw "cannot write, key exists"
    | None => modify (write key)
    end.

(** One of the two halves of [KpIdentity::init]; [true]: the file is there. *)
Definition load_key (file : Kp -> option bytes) (set : bytes -> Kp -> Kp) : M Kp bool :=
  let! f := gets file in
  match f with
  | None => ret false
  | Some contents =>
      let! k := read_key_from_file contents in
      modify (set k) ;;;
      ret true
  end.

Definition kp_init : M Kp unit :=
  let! pr_present := load_key kp_priv_file set_priv in
  let! pu_present := load_key kp_pub_file set_pub in
  if xorb pr_present pu_present then throw "one of kp identity files doesn't exist"
  else modify (set_present (pr_present && pu_present)).

Definition kp_store (pr pu : bytes) : M Kp unit :=
  save_key_to_file pr kp_priv_file set_priv_file ;;;
  save_key_to_file pu kp_pub_file set_pub_file ;;;
  modify (set_priv pr) ;;;
  modify (set_pub pu) ;;;
  modify (set_present true).

(** The object of the next start. *)
Definition kp_restarted (s : Kp) : Kp := mkKp false [] [] (kp_priv_file s) (kp_pub_file s).

(** [NodeLauncherConfig]: its key pair and the two endpoints; reading past the
    end of the parameters is undefined. *)
Record Launcher := mkLauncher { nl_kp : Kp; nl_own_endpoint : bytes; nl_endpoint : bytes }.

Definition launcher_init (params : list bytes) : M Launcher unit :=
  zoom nl_kp (fun k s => mkLauncher k (nl_own_endpoint s) (nl_endpoint s)) kp_init ;;;
  let! has := gets (fun s => kp_present (nl_kp s)) in
  if negb has then throw "need key pair identity"
  else
    match params !! 1%nat with
    | Some (c :: own) =>
        let! target := of_option (params !! 2%nat) in
        match target with
        | [] => throw "required parameters: own_endpoint target_endpoint"
        | _ => modify (fun s => mkLauncher (nl_kp s) (c :: own) target)
        end
    | _ => throw "required parameters: own_endpoint target_endpoint"
    end.

(** ** Lemmas *)

Lemma text_uint_text d : text_uint (uint_text d) = Some d.
Proof. induction d as [|d IH|d IH|d IH|d IH|d IH|d IH|d IH|d IH|d IH|d IH]; cbn; [done|by rewrite IH..]. Qed.

Lemma uint_text_digits d : Forall (fun c => is_digit c = true) (uint_text d).
Proof. induction d; constructor; done. Qed.

Lemma uint_text_nonempty n : exists c s, uint_text (N.to_uint n) = c :: s.
Proof.
  destruct (N.to_uint n) eqn:E; cbn; try by eexists _, _. exfalso.
  pose proof (DecimalN.Unsigned.of_to n) as H. rewrite E in H. cbn in H. subst n. discriminate.
Qed.

Lemma decimal_text z : 0 <= z -> decimal z = uint_text (N.to_uint (Z.to_N z)).
Proof. intros H. unfold decimal. by rewrite (proj2 (Z.ltb_ge z 0)). Qed.

Lemma stoul_decimal z : 0 <= z < 2 ^ 63 -> stoul (decimal z) = Some z.
Proof.
  intros H. rewrite decimal_text by lia. unfold stoul. rewrite text_uint_text. cbn [mbind option_bind].
  rewrite DecimalN.Unsigned.of_to, Z2N.id by lia. rewrite (proj2 (Z.ltb_lt _ _)) by lia.
  by rewrite swrap_small by lia.
Qed.

Lemma span_app p a r c :
  Forall (fun x => p x = true) a -> p c = false -> span p (a ++ c :: r) = (a, c :: r).
Proof. intros H Hc. induction H as [|x a Hx _ IH]; cbn; [by rewrite Hc|]. by rewrite Hx, IH. Qed.

Lemma take_part_app p c a r :
  Forall (fun x => p x = true) (c :: a) -> p DOT = false -> take_part p (c :: a ++ DOT :: r) = Some (c :: a, r).
Proof. intros H Hd. change (c :: a ++ DOT :: r) with ((c :: a) ++ DOT :: r). unfold take_part. rewrite (span_app p _ _ _ H Hd). done. Qed.

Lemma take_part_decimal z r : 0 <= z -> take_part is_digit (decimal z ++ DOT :: r) = Some (decimal z, r).
Proof.
  intros H. rewrite decimal_text by done. pose proof (uint_text_digits (N.to_uint (Z.to_N z))) as Hd.
  destruct (uint_text_nonempty (Z.to_N z)) as (c & s & E). rewrite E in *. by apply take_part_app.
Qed.

(** Aliases as the expression for folder names takes them. *)
Definition word (a : bytes) : Prop := a <> [] /\ Forall (fun c => is_word c = true) a.
Definition topic_ok (t : HederaTopicID) : Prop :=
  0 <= topic_shardNum t < 2 ^ 63 /\ 0 <= topic_realmNum t < 2 ^ 63 /\ 0 <= topic_topicNum t < 2 ^ 63.

Lemma word_nonnull a : word a -> Forall (fun c => c <> 0) a.
Proof. intros [_ H]. eapply Forall_impl; [exact H|]. by intros c Hc ->. Qed.

Lemma cstr_word a : word a -> cstr a = a.
Proof. intros H. pose proof (cstr_zero_padded a 0 (word_nonnull a H)) as E. cbn in E. by rewrite app_nil_r in E. Qed.

Lemma create_alias a t :
  word a -> (length a <= GROUP_ALIAS_LENGTH)%nat ->
  gi_alias (GroupInfo_create a t) = a ++ replicate (GROUP_ALIAS_LENGTH - length a) 0.
Proof. intros Hw Hl. unfold GroupInfo_create. cbn [gi_alias]. by rewrite take_ge, (cstr_word a Hw) by lia. Qed.

Lemma directory_name a t :
  word a -> (length a < GROUP_ALIAS_LENGTH)%nat ->
  get_directory_name (GroupInfo_create a t)
  = Some (a ++ [DOT] ++ decimal (topic_shardNum t) ++ [DOT] ++ decimal (topic_realmNum t) ++ [DOT]
            ++ decimal (topic_topicNum t) ++ [DOT; 98; 99]).
Proof.
  intros Hw Hl. unfold get_directory_name. rewrite create_alias by (done || lia).
  unfold field_string. rewrite cstr_zero_padded by by apply word_nonnull.
  rewrite length_app, length_replicate. by rewrite (proj2 (Nat.ltb_lt _ _)) by lia.
Qed.

Lemma split_directory_name a z1 z2 z3 :
  word a -> 0 <= z1 -> 0 <= z2 -> 0 <= z3 ->
  split_name (a ++ [DOT] ++ decimal z1 ++ [DOT] ++ decimal z2 ++ [DOT] ++ decimal z3 ++ [DOT; 98; 99])
  = Some (a, (decimal z1, decimal z2, decimal z3)).
Proof.
  intros [Hne Hw] H1 H2 H3. destruct a as [|c a]; [done|]. unfold split_name. cbn [Datatypes.app].
  rewrite (take_part_app is_word c a _ Hw eq_refl). cbn [mbind option_bind fst snd].
  rewrite !take_part_decimal by done. cbn [mbind option_bind fst snd].
  rewrite !take_part_decimal by done. cbn [mbind option_bind fst snd]. rewrite take_part_decimal by done. done.
Qed.

Lemma dir_group_info_created a t :
  word a -> topic_ok t -> (length a < GROUP_ALIAS_LENGTH)%nat ->
  exists name, get_directory_name (GroupInfo_create a t) = Some name
    /\ dir_group_info name
       = if (GROUP_ALIAS_LENGTH - 1 <=? length a)%nat then None else Some (Some (GroupInfo_create a t)).
Proof.
  intros Hw (H1 & H2 & H3) Hl. eexists. split; [by apply directory_name|].
  unfold dir_group_info. rewrite split_directory_name by (done || lia).
  destruct (Nat.leb_spec (GROUP_ALIAS_LENGTH - 1) (length a)); [done|].
  rewrite !stoul_decimal by done. unfold GroupInfo_create. rewrite take_ge, (cstr_word a Hw) by lia. by destruct t.
Qed.

Lemma reload_run c gis0 :
  mapM dir_group_info (conf_dirs c) = Some gis0 ->
  reload_group_infos c = Ret tt (mkConf (conf_gis c ++ omap id gis0) (conf_siblings c) (conf_sibling_file c) (conf_dirs c)).
Proof.
  unfold reload_group_infos. unfold bind at 1, gets. set (dirs := conf_dirs c). intros Hm.
  assert (forall l gs s, mapM dir_group_info l = Some gs ->
    for_each l (fun fname => match dir_group_info fname with
      | None => throw "Couldn't init blockchain groups" | Some None => ret tt | Some (Some gi) => modify (push_gi gi) end) s
    = Ret tt (mkConf (conf_gis s ++ omap id gs) (conf_siblings s) (conf_sibling_file s) (conf_dirs s))) as H.
  { intros l. induction l as [|x l IH]; intros gs s; cbn [mapM for_each].
    - intros [= <-]. cbn. rewrite app_nil_r. by destruct s.
    - intros (g & Hg & (gs' & Hgs & [= <-])%bind_Some)%bind_Some. rewrite Hg. unfold bind.
      destruct g as [gi|]; cbn; rewrite (IH gs' _ Hgs); cbn; by rewrite <- ?(assoc_L (++)). }
  by apply H.
Qed.

Lemma reload_throws c :
  mapM dir_group_info (conf_dirs c) = None -> exists c', reload_group_infos c = Throw "Couldn't init blockchain groups" c'.
Proof.
  unfold reload_group_infos. unfold bind at 1, gets. set (s := c) at 3. clearbody s.
  revert s. induction (conf_dirs c) as [|x l IH]; intros s; [done|].
  cbn [mapM for_each]. intros H. unfold bind. destruct (dir_group_info x) as [[gi|]|]; cbn in *; [| |by eexists].
  - apply IH. by destruct (mapM dir_group_info l).
  - apply IH. by destruct (mapM dir_group_info l).
Qed.

Lemma mapM_permuted {A B} (f : A -> option B) l l' r :
  l ≡ₚ l' -> mapM f l = Some r -> exists r', mapM f l' = Some r' /\ r ≡ₚ r'.
Proof.
  setoid_rewrite mapM_Some. intros H. revert r. induction H as [|x l l' _ IH|x y l|l l1 l2 _ IH1 _ IH2]; intros r Hr.
  - inversion Hr; subst. by exists [].
  - inversion Hr as [|? ? ? r0 Hx Hl]; subst. destruct (IH _ Hl) as (r' & H1 & H2). eexists. split; [by constructor|]. by constructor.
  - inversion Hr as [|? ? ? r0 Hx Hl]; subst. inversion Hl as [|? ? ? r1 Hy Hl']; subst.
    eexists. split; [constructor; [exact Hy|by constructor]|]. constructor.
  - destruct (IH1 _ Hr) as (r1 & H1 & E1). destruct (IH2 _ H1) as (r2 & H2 & E2). eexists. split; [done|]. by etrans.
Qed.

Lemma add_blockchain_run c gi name :
  get_directory_name gi = Some name ->
  add_blockchain gi c
  = Ret tt (mkConf (conf_gis c ++ [gi]) (conf_siblings c) (conf_sibling_file c)
              (if bool_decide (name ∈ conf_dirs c) then conf_dirs c else conf_dirs c ++ [name])).
Proof. intros E. unfold add_blockchain. by rewrite E. Qed.

Lemma init_run dirs c gs :
  mapM dir_group_info dirs = Some gs ->
  conf_init (restarted dirs c) = Ret tt (mkConf (omap id gs) (getlines [] (conf_sibling_file c)) (conf_sibling_file c) dirs).
Proof. intros H. unfold conf_init, reload_sibling_file, bind, modify. by rewrite (reload_run _ gs). Qed.

Lemma getlines_line l line s :
  NL ∉ l -> line ++ l <> [] -> getlines line (l ++ NL :: s) = (line ++ l) :: getlines [] s.
Proof.
  revert line. induction l as [|x l IH]; intros line Hl Hne; cbn.
  - rewrite app_nil_r in *. by destruct line.
  - apply not_elem_of_cons in Hl as [Hx Hl]. rewrite (proj2 (Z.eqb_neq x NL)) by congruence.
    rewrite IH, <- (assoc_L (++)); [done|done|]. by destruct line.
Qed.

(** What one line of the sibling file can hold. *)
Definition line_ok (l : bytes) : Prop := l <> [] /\ NL ∉ l.

Lemma getlines_written ls : Forall line_ok ls -> getlines [] (concat (map (fun s => s ++ [NL]) ls)) = ls.
Proof.
  induction 1 as [|l ls [Hne Hl] _ IH]; [done|]. cbn. rewrite <- (assoc_L (++)). cbn. by rewrite getlines_line, IH.
Qed.

Lemma getlines_lines line s : NL ∉ line -> Forall line_ok (getlines line s).
Proof.
  revert line. induction s as [|x s IH]; intros line Hl; cbn.
  - destruct line; by repeat constructor.
  - destruct (Z.eqb_spec x NL).
    + destruct line as [|y line]; [apply IH, not_elem_of_nil|]. constructor; [done|apply IH, not_elem_of_nil].
    + apply IH. intros [|H%list_elem_of_singleton]%elem_of_app; congruence.
Qed.

(** The list in memory and the file agree. *)
Definition siblings_saved (c : Conf) : Prop :=
  Forall line_ok (conf_siblings c) /\ getlines [] (conf_sibling_file c) = conf_siblings c.

Lemma existsb_elem (e : bytes) l : existsb (fun i => bool_decide (i = e)) l = bool_decide (e ∈ l).
Proof.
  induction l as [|x l IH]; cbn; [by rewrite bool_decide_eq_false_2 by apply not_elem_of_nil|].
  rewrite IH, <- bool_decide_or. apply bool_decide_ext. rewrite elem_of_cons. naive_solver.
Qed.

(** A group whose alias has at most 14 letters, digits or underscores is
    found again at the next start: the folder added for it is read back as
    the same alias and topic, together with the groups of the other folders,
    whatever the order in which the folders are listed. *)
Theorem group_survives_restart c a t gis0 dirs name :
  word a -> topic_ok t -> (length a < GROUP_ALIAS_LENGTH - 1)%nat ->
  mapM dir_group_info (conf_dirs c) = Some gis0 ->
  get_directory_name (GroupInfo_create a t) = Some name -> name ∉ conf_dirs c ->
  dirs ≡ₚ conf_dirs c ++ [name] ->
  exists c1 c2, add_blockchain (GroupInfo_create a t) c = Ret tt c1
    /\ conf_dirs c1 ≡ₚ dirs
    /\ conf_init (restarted dirs c1) = Ret tt c2 /\ conf_gis c2 ≡ₚ omap id gis0 ++ [GroupInfo_create a t].
Proof.
  intros Hw Ht Hl Hm En Hnew Hd. destruct (dir_group_info_created a t Hw Ht) as (name' & En' & Ed); [lia|].
  rewrite En in En'. injection En' as <-. rewrite (proj2 (Nat.leb_gt _ _)) in Ed by lia.
  destruct (mapM_permuted dir_group_info (conf_dirs c ++ [name]) dirs (gis0 ++ [Some (GroupInfo_create a t)])) as (gs & Eg & Hp).
  { done. }
  { apply mapM_Some. apply mapM_Some in Hm. apply Forall2_app; [done|]. by repeat constructor. }
  rewrite (add_blockchain_run _ _ _ En), bool_decide_eq_false_2 by done. eexists _, _. split; [done|]. split; [done|].
  split; [by apply init_run|]. cbn. by rewrite <- Hp, omap_app.
Qed.

(** An alias of 15 characters is accepted when the group is added, and
    from then on no start of the node succeeds. *)
Theorem long_alias_stops_next_start c a t dirs name :
  word a -> topic_ok t -> length a = (GROUP_ALIAS_LENGTH - 1)%nat ->
  get_directory_name (GroupInfo_create a t) = Some name ->
  exists c1, add_blockchain (GroupInfo_create a t) c = Ret tt c1 /\ name ∈ conf_dirs c1
    /\ (dirs ≡ₚ conf_dirs c1 -> exists c2, conf_init (restarted dirs c1) = Throw "Couldn't init blockchain groups" c2).
Proof.
  intros Hw Ht Hl En. destruct (dir_group_info_created a t Hw Ht) as (name' & En' & Ed); [vm_compute in Hl |- *; lia|].
  rewrite En in En'. injection En' as <-. rewrite (proj2 (Nat.leb_le _ _)) in Ed by lia.
  rewrite (add_blockchain_run _ _ _ En). eexists. split; [done|]. cbn [conf_dirs].
  assert (name ∈ if bool_decide (name ∈ conf_dirs c) then conf_dirs c else conf_dirs c ++ [name]) as Hin
    by (case_bool_decide; set_solver).
  split; [done|]. intros Hd. unfold conf_init, reload_sibling_file, bind at 1, modify.
  apply reload_throws. cbn [conf_dirs set_siblings restarted].
  destruct (mapM dir_group_info dirs) as [gs|] eqn:E; [|done]. exfalso.
  apply mapM_Some in E. rewrite <- Hd in Hin. apply list_elem_of_lookup_1 in Hin as [i Hi].
  destruct (Forall2_lookup_l _ _ _ _ _ E Hi) as (g & _ & Hg). by rewrite Ed in Hg.
Qed.

(** The sibling file and the list in memory agree after a start and after
    every call that adds a sibling; the new sibling is known once and is
    known after a restart, and a known one changes nothing. *)
Theorem siblings_durable c e :
  siblings_saved c -> line_ok e ->
  exists c1, add_sibling_node e c = Ret (negb (bool_decide (e ∈ conf_siblings c))) c1
    /\ siblings_saved c1 /\ e ∈ conf_siblings c1
    /\ (NoDup (conf_siblings c) -> NoDup (conf_siblings c1))
    /\ (forall dirs gs, mapM dir_group_info dirs = Some gs ->
         exists c2, conf_init (restarted dirs c1) = Ret tt c2 /\ siblings_saved c2
           /\ conf_siblings c2 = conf_siblings c1).
Proof.
  intros [Hl Hs] He. unfold add_sibling_node, bind at 1, gets. rewrite existsb_elem.
  assert (forall c1, siblings_saved c1 -> forall dirs gs, mapM dir_group_info dirs = Some gs ->
         exists c2, conf_init (restarted dirs c1) = Ret tt c2 /\ siblings_saved c2 /\ conf_siblings c2 = conf_siblings c1) as Hi.
  { intros c1 [H1 H2] dirs gs Hg. eexists. split; [by apply init_run|]. split; [|done]. split; cbn; by rewrite H2. }
  case_bool_decide as Hin; cbn [negb].
  - exists c. repeat split; try done. by apply Hi.
  - eexists. split; [reflexivity|].
    assert (siblings_saved (mkConf (conf_gis c) (conf_siblings c ++ [e])
      (concat (map (fun s => s ++ [NL]) (conf_siblings c ++ [e]))) (conf_dirs c))) as Hn.
    { split; cbn; [|rewrite getlines_written; [done|]]; by apply Forall_app_2; [|constructor]. }
    split; [done|]. split; [cbn; set_solver|]. split; [|by apply Hi].
    intros Hnd. cbn. apply NoDup_app. repeat split; [done| |apply NoDup_singleton]. set_solver.
Qed.

(** [remove_sibling_node] of a known sibling answers that it was removed,
    but the list and the file keep it, also across a restart. *)
Theorem removed_sibling_stays c e :
  siblings_saved c -> e ∈ conf_siblings c ->
  exists c1, remove_sibling_node e c = Ret true c1 /\ conf_siblings c1 = conf_siblings c
    /\ (forall dirs gs, mapM dir_group_info dirs = Some gs ->
         exists c2, conf_init (restarted dirs c1) = Ret tt c2 /\ e ∈ conf_siblings c2).
Proof.
  intros [Hl Hs] He. unfold remove_sibling_node, bind at 1, gets. rewrite existsb_elem, bool_decide_eq_true_2 by done.
  eexists. split; [reflexivity|]. split; [done|]. intros dirs gs Hg. eexists. split; [by apply init_run|].
  cbn. by rewrite getlines_written.
Qed.

Lemma is_key_read k s : is_key k = true -> read_key_from_file k s = Ret k s.
Proof. intros H. unfold read_key_from_file. by rewrite H. Qed.

(** A key pair that is stored is the one the next start finds; nothing
    stored earlier is ever overwritten; storing what is not a key pair
    throws. *)
Theorem stored_keys_found s pr pu :
  match kp_store pr pu s with
  | Ret _ s1 => is_key pr = true /\ is_key pu = true /\ kp_priv_file s = None /\ kp_pub_file s = None
      /\ kp_present s1 = true
      /\ exists s2, kp_init (kp_restarted s1) = Ret tt s2 /\ kp_present s2 = true /\ kp_priv s2 = pr /\ kp_pub s2 = pu
  | Throw _ s1 => (is_key pr && is_key pu = false \/ is_Some (kp_priv_file s) \/ is_Some (kp_pub_file s))
      /\ (forall k, kp_priv_file s = Some k -> kp_priv_file s1 = Some k) /\ kp_pub_file s1 = kp_pub_file s
      /\ kp_present s1 = kp_present s
  | Undef => False
  end.
Proof.
  unfold kp_store, save_key_to_file, bind, gets. destruct (is_key pr) eqn:Er; cbn; [|by split_and!; auto; congruence].
  destruct (kp_priv_file s) as [k|] eqn:Ep; cbn; [rewrite Ep; by split_and!; eauto; congruence|].
  destruct (is_key pu) eqn:Eu; cbn; [|by split_and!; auto; congruence].
  destruct (kp_pub_file s) as [k|] eqn:Eq; cbn; [rewrite Eq; by split_and!; eauto; congruence|].
  repeat split; try done. eexists. unfold kp_init, load_key, bind, gets. cbn.
  rewrite is_key_read by done. cbn. rewrite is_key_read by done. cbn. done.
Qed.

(** When the private key is written and the public key is refused, the
    next start does not succeed and the pair cannot be stored again
    until the private key file is removed by hand. *)
Theorem half_stored_pair_blocks s pr pu :
  is_key pr = true -> is_key pu = false -> kp_priv_file s = None -> kp_pub_file s = None ->
  exists s1, kp_store pr pu s = Throw "cannot write, not a key" s1
    /\ (exists s2, kp_init (kp_restarted s1) = Throw "one of kp identity files doesn't exist" s2)
    /\ (forall pr' pu', exists e s2, kp_store pr' pu' (kp_restarted s1) = Throw e s2).
Proof.
  intros Hr Hu Ep Eq. unfold kp_store, save_key_to_file, bind, gets. rewrite Hr, Hu. cbn. rewrite Ep. cbn.
  eexists. split; [reflexivity|]. split.
  - eexists. unfold kp_init, load_key, bind, gets. cbn. rewrite is_key_read by done. cbn. by rewrite Eq.
  - intros pr' pu'. destruct (is_key pr'); cbn; by eexists _, _.
Qed.

(** Started with one endpoint instead of two, the launcher reads past the
    end of its parameters instead of reporting them as missing. *)
Theorem launcher_one_endpoint l prog c own k :
  kp_init (nl_kp l) = Ret tt k -> kp_present k = true ->
  launcher_init [prog; c :: own] l = Undef.
Proof.
  intros H Hp. unfold launcher_init, bind at 1, zoom. rewrite H. unfold bind, gets. cbn. by rewrite Hp.
Qed.

(** ** Witnesses *)

Definition conf_empty : Conf := mkConf [] [] [] [].
Definition topic5 : HederaTopicID := mkHederaTopicID 0 0 5.
Definition name_abc : bytes := [97; 98; 99; 46; 48; 46; 48; 46; 53; 46; 98; 99].
Definition alias15 : bytes := replicate 15 97.
Definition name15 : bytes := alias15 ++ [46; 48; 46; 48; 46; 53; 46; 98; 99].
Definition endpoint_ab : bytes := [97; 58; 49].
Definition conf_ab : Conf := mkConf [] [endpoint_ab] (endpoint_ab ++ [NL]) [].
Definition key_a : bytes := replicate 64 97.
Definition kp_empty : Kp := mkKp false [] [] None None.

Ltac small_word := split; [discriminate|repeat constructor].
Ltac small_topic := repeat split; vm_compute; congruence.

Lemma group_survives_restart_witness :
  exists c1 c2, add_blockchain (GroupInfo_create [97; 98; 99] topic5) conf_empty = Ret tt c1
    /\ conf_dirs c1 ≡ₚ [name_abc]
    /\ conf_init (restarted [name_abc] c1) = Ret tt c2 /\ conf_gis c2 ≡ₚ [GroupInfo_create [97; 98; 99] topic5].
Proof.
  apply (group_survives_restart conf_empty [97; 98; 99] topic5 [] [name_abc] name_abc);
    [small_word|small_topic|vm_compute; lia|reflexivity|vm_compute; reflexivity|apply not_elem_of_nil|reflexivity].
Defined.

Lemma long_alias_stops_next_start_witness :
  exists c1, add_blockchain (GroupInfo_create alias15 topic5) conf_empty = Ret tt c1 /\ name15 ∈ conf_dirs c1
    /\ ([name15] ≡ₚ conf_dirs c1 ->
        exists c2, conf_init (restarted [name15] c1) = Throw "Couldn't init blockchain groups" c2).
Proof.
  apply (long_alias_stops_next_start conf_empty alias15 topic5 [name15] name15);
    [small_word|small_topic|reflexivity|vm_compute; reflexivity].
Defined.

Lemma endpoint_line : line_ok endpoint_ab.
Proof. split; [discriminate|]. unfold endpoint_ab, NL. set_solver by lia. Qed.

Lemma siblings_durable_witness :
  exists c1, add_sibling_node endpoint_ab conf_empty = Ret true c1 /\ siblings_saved c1 /\ endpoint_ab ∈ conf_siblings c1
    /\ (NoDup (conf_siblings conf_empty) -> NoDup (conf_siblings c1))
    /\ (forall dirs gs, mapM dir_group_info dirs = Some gs ->
         exists c2, conf_init (restarted dirs c1) = Ret tt c2 /\ siblings_saved c2
           /\ conf_siblings c2 = conf_siblings c1).
Proof. apply (siblings_durable conf_empty endpoint_ab); [by split|apply endpoint_line]. Defined.

Lemma removed_sibling_stays_witness :
  exists c1, remove_sibling_node endpoint_ab conf_ab = Ret true c1 /\ conf_siblings c1 = conf_siblings conf_ab
    /\ (forall dirs gs, mapM dir_group_info dirs = Some gs ->
         exists c2, conf_init (restarted dirs c1) = Ret tt c2 /\ endpoint_ab ∈ conf_siblings c2).
Proof.
  apply (removed_sibling_stays conf_ab endpoint_ab); [split; [by repeat constructor; apply endpoint_line|done]|by left].
Defined.

Lemma half_stored_pair_blocks_witness :
  exists s1, kp_store key_a [] kp_empty = Throw "cannot write, not a key" s1
    /\ (exists s2, kp_init (kp_restarted s1) = Throw "one of kp identity files doesn't exist" s2)
    /\ (forall pr' pu', exists e s2, kp_store pr' pu' (kp_restarted s1) = Throw e s2).
Proof. apply (half_stored_pair_blocks kp_empty key_a []); reflexivity. Defined.

Lemma launcher_one_endpoint_witness :
  launcher_init [[110]; endpoint_ab] (mkLauncher (mkKp false [] [] (Some key_a) (Some key_a)) [] []) = Undef.
Proof.
  apply (launcher_one_endpoint _ [110] 97 [58; 49] (mkKp true key_a key_a (Some key_a) (Some key_a))); reflexivity.
Defined.
