(* ===== verification/Facades.v ===== *)
(** * Groups and paired transactions (facades_impl.cpp, gradido_events.h)

    The facade that opens the blockchains of groups and fetches, for a ledger
    that waits for it, the other half of a transaction between two groups
    from a sibling node.  Its work is done by tasks of the worker pool, so
    that what happens is a sequence of steps: a ledger asks, a sibling
    answers, a task runs, a call breaks off, a delayed task is lost. *)

From stdpp Require Import base gmap list strings.
From Stdlib Require Import ZArith Lia.
From S2P Require Import Prelude GradidoDef FileTile Fnr Blockchain BlockchainBase GroupRegister GradidoMath BlockchainGradido.
From S2P Require Import Translate Communications Config.
Local Open Scope node_scope.

(** ** Data *)

(** Messages of the protocol. *)
Record OutboundTransactionDescriptor := mkOTD { otd_group : bytes; otd_paired_transaction_id : pb.Timestamp }.
Record OutboundTransaction := mkOutbound { ob_success : bool; ob_data : bytes }.

(** The listener is the blockchain that waits, by its number. *)
Record PairedTransactionData := mkPTD { ptl : nat; ptd_otd : OutboundTransactionDescriptor }.

Inductive Task :=
| AddPairedTask (br : OutboundTransaction) (req : OutboundTransactionDescriptor)
| TryPairedAgainTask (br : OutboundTransaction) (req : OutboundTransactionDescriptor)
| StartBlockchainTask (gi : GroupInfo)
| InitGroupBlockchain (b : nat)
| InitGroupRegister
| ContinueFacadeInit.

(** What is called on the blockchains, which are components of their own. *)
Inductive Call :=
| Init (b : nat)
| PushContinueValidationTask (b : nat)
| OnPairedTransactionDone (b : nat) (t : Transaction).

(** [objects]: the [BlockchainGradido] objects made, with their alias and
    topic; [tasks]: pushed and not run yet, with the seconds to wait;
    [requests]: sent through [require_outbound_transaction], not answered
    yet.  [rng]: the generator of random numbers. *)
Record Facade {Rng : Type} := mkFacade
  { blockchains : gmap bytes nat; objects : list (bytes * HederaTopicID);
    waiting : gmap HederaTimestamp PairedTransactionData;
    group_infos : list GroupInfo; siblings : list bytes;
    tasks : list (Task * N); requests : list (bytes * OutboundTransactionDescriptor);
    calls : list Call; rng : Rng }.
Arguments Facade : clear implicits.
Arguments mkFacade {Rng} _ _ _ _ _ _ _ _ _.

(** [GradidoRecord] is packed: its type, then the largest of its parts. *)
Definition sizeof_StructurallyBadMessage : nat := sizeof_TransactionCommonHeader + 1 + 8 + sizeof_HederaTransaction.
Definition sizeof_GradidoRecord : nat :=
  1 + foldr Nat.max O [sizeof_Transaction; MEMO_PART_SIZE; SIGNATURES_PER_RECORD * sizeof_Signature;
                       sizeof_StructurallyBadMessage]%nat.
(** [Record]: a byte for the type, then the payload. *)
Definition sizeof_Record : nat := 1 + sizeof_GradidoRecord.
(** The payload of a record whose bytes are copied from a message. *)
Definition copied_payload (data : bytes) : option bytes := drop 1 <$> c_str_read sizeof_Record data.

Section facade.
(** [Poco::Random], and the bytes of a payload read as a transaction. *)
Context {Rng : Type} (rng_next : Rng -> nat -> nat * Rng) (transaction_of : bytes -> Transaction).
Abbreviation F := (Facade Rng).
Implicit Types (s : F) (hti : HederaTimestamp).

Definition set_blockchains (m : gmap bytes nat) (o : list (bytes * HederaTopicID)) s : F :=
  mkFacade m o (waiting s) (group_infos s) (siblings s) (tasks s) (requests s) (calls s) (rng s).
Definition set_waiting_map (m : gmap HederaTimestamp PairedTransactionData) s : F :=
  mkFacade (blockchains s) (objects s) m (group_infos s) (siblings s) (tasks s) (requests s) (calls s) (rng s).
Definition set_tasks (l : list (Task * N)) s : F :=
  mkFacade (blockchains s) (objects s) (waiting s) (group_infos s) (siblings s) l (requests s) (calls s) (rng s).
Definition set_requests (l : list (bytes * OutboundTransactionDescriptor)) s : F :=
  mkFacade (blockchains s) (objects s) (waiting s) (group_infos s) (siblings s) (tasks s) l (calls s) (rng s).
Definition add_call (c : Call) s : F :=
  mkFacade (blockchains s) (objects s) (waiting s) (group_infos s) (siblings s) (tasks s) (requests s) (calls s ++ [c]) (rng s).
Definition set_rng (r : Rng) s : F :=
  mkFacade (blockchains s) (objects s) (waiting s) (group_infos s) (siblings s) (tasks s) (requests s) (calls s) r.

(** [push_task], at once or after some seconds. *)
Definition push_task (t : Task) (after_seconds : N) : M F unit :=
  modify (fun s => set_tasks (tasks s ++ [(t, after_seconds)]) s).
Definition require_outbound_transaction (endpoint : bytes) (otd : OutboundTransactionDescriptor) : M F unit :=
  modify (fun s => set_requests (requests s ++ [(endpoint, otd)]) s).

(** ** Group blockchains *)

Definition get_group_blockchain (group : bytes) : M F (option nat) := gets (fun s => blockchains s !! group).

Definition create_group_blockchain (gi : GroupInfo) : M F (option nat) :=
  let! alias := of_option (field_string (gi_alias gi)) in
  let! s := gets id in
  match blockchains s !! alias with
  | Some _ => ret None
  | None =>
      let b := length (objects s) in
      modify (set_blockchains (<[alias := b]> (blockchains s)) (objects s ++ [(alias, gi_topic_id gi)])) ;;;
      push_task (InitGroupBlockchain b) 0 ;;;
      ret (Some b)
  end.

(** The group is looked up; one that is not there is not made. *)
Definition create_or_get_group_blockchain (group : bytes) : M F (option nat) := get_group_blockchain group.

(** [GradidoNodeDeprecated::get_group_register] has no [return]. *)
Definition get_group_register : M F nat := undef.

Definition continue_init_after_group_register_done : M F unit :=
  let! gis := gets group_infos in
  for_each gis (fun gi => push_task (StartBlockchainTask gi) 0).

(** ** Paired transactions *)

Definition get_random_sibling_endpoint : M F (option bytes) :=
  let! s := gets id in
  match siblings s with
  | [] => ret None
  | l =>
      let r := rng_next (rng s) (length l) in
      modify (set_rng r.2) ;;;
      let! res := of_option (l !! r.1) in
      ret (Some res)
  end.

Definition on_block_record (br : OutboundTransaction) (req : OutboundTransactionDescriptor) : M F unit :=
  if ob_success br then push_task (AddPairedTask br req) 0 else push_task (TryPairedAgainTask br req) 1.

(** For repeated requests. *)
Definition exec_once_paired_transaction_done_again (hti : HederaTimestamp) : M F unit :=
  let! se := get_random_sibling_endpoint in
  match se with
  | None => throw "need sibling to get paired transaction"
  | Some se =>
      let! w := gets waiting in
      match w !! hti with
      | None => throw "cannot continue getting paired transaction"
      | Some ptd => require_outbound_transaction se (ptd_otd ptd)
      end
  end.

Definition exec_once_paired_transaction_done (group : bytes) (ptl : nat) (hti : HederaTimestamp) : M F unit :=
  let! se := get_random_sibling_endpoint in
  match se with
  | None => throw "need sibling to get paired transaction"
  | Some se =>
      let! w := gets waiting in
      match w !! hti with
      | Some _ => ret tt
      | None =>
          let otd := mkOTD group (pb.mkTimestamp (seconds hti) (nanos hti)) in
          modify (set_waiting_map (<[hti := mkPTD ptl otd]> w)) ;;;
          require_outbound_transaction se otd
      end
  end.

(** The iterator [wfp] is the key it was found with: using it looks the key up
    in the map as it is then. *)
Definition on_paired_transaction (br : OutboundTransaction) (req : OutboundTransactionDescriptor) : M F unit :=
  let hti := translate_Timestamp_from_pb (otd_paired_transaction_id req) in
  let! w := gets waiting in
  match w !! hti with
  | None => throw "unexpected incoming pair"
  | Some _ =>
      let wfp := hti in
      modify (fun s => set_waiting_map (delete hti (waiting s)) s) ;;;
      let! payload := of_option (copied_payload (ob_data br)) in
      let t := transaction_of payload in
      let! second := gets (fun s => waiting s !! wfp) in
      let! ptd := of_option second in
      modify (add_call (OnPairedTransactionDone (ptl ptd) t))
  end.

(** ** Tasks *)

Definition run (t : Task) : M F unit :=
  match t with
  | AddPairedTask br req => on_paired_transaction br req
  | TryPairedAgainTask br req =>
      exec_once_paired_transaction_done_again (translate_Timestamp_from_pb (otd_paired_transaction_id req))
  | StartBlockchainTask gi => create_group_blockchain gi ;;; ret tt
  | InitGroupBlockchain b => modify (add_call (Init b)) ;;; modify (add_call (PushContinueValidationTask b))
  | InitGroupRegister =>
      let! gr := get_group_register in
      modify (add_call (Init gr)) ;;; modify (add_call (PushContinueValidationTask gr))
  | ContinueFacadeInit => continue_init_after_group_register_done
  end.

(** The next task of the pool, [k] times. *)
Fixpoint run_tasks (k : nat) : M F unit :=
  match k with
  | O => ret tt
  | S k' =>
      let! l := gets tasks in
      match l with
      | [] => ret tt
      | (t, _) :: l' => modify (set_tasks l') ;;; run t ;;; run_tasks k'
      end
  end.

(** A sibling answers a request with a refusal, or with the transaction and
    the end of the stream. *)
Definition is_answer (l : list OutboundTransaction) : Prop :=
  (exists r, l = [r] /\ ob_success r = false)
  \/ (exists r e, l = [r; e] /\ ob_success r = true /\ ob_success e = false).

(** A ledger asks for a pair, a group is added, a sibling answers, or a task
    of the pool runs; a task that throws is over. *)
Inductive sound_step : F -> F -> Prop :=
| StAsk group ptl hti s s' : exec_once_paired_transaction_done group ptl hti s = Ret tt s' -> sound_step s s'
| StCreate gi b s s' : create_group_blockchain gi s = Ret b s' -> sound_step s s'
| StAnswer l1 e otd l2 ans s s' :
    requests s = l1 ++ (e, otd) :: l2 -> is_answer ans ->
    for_each ans (fun br => on_block_record br otd) (set_requests (l1 ++ l2) s) = Ret tt s' -> sound_step s s'
| StRun l1 t d l2 s s' :
    tasks s = l1 ++ (t, d) :: l2 -> run t (set_tasks (l1 ++ l2) s) = Ret tt s' -> sound_step s s'
| StThrow l1 t d l2 e s s' :
    tasks s = l1 ++ (t, d) :: l2 -> run t (set_tasks (l1 ++ l2) s) = Throw e s' -> sound_step s s'.

(** What can go wrong besides: a call to a sibling ends before its answer is
    complete, and [PollService::run] ignores the completion that is not ok;
    and the timers lose a task that is delayed, of which the facade has one
    kind ([DelayedTasks.delayed_task_lost]). *)
Inductive step : F -> F -> Prop :=
| StSound s s' : sound_step s s' -> step s s'
| StBroken l1 e otd l2 full ans s s' :
    requests s = l1 ++ (e, otd) :: l2 -> is_answer full -> ans `prefix_of` full ->
    for_each ans (fun br => on_block_record br otd) (set_requests (l1 ++ l2) s) = Ret tt s' -> step s s'
| StForgotten l1 br req d l2 s :
    tasks s = l1 ++ (TryPairedAgainTask br req, d) :: l2 -> step s (set_tasks (l1 ++ l2) s).

(** A node that starts. *)
Definition Facade_new (gis : list GroupInfo) (sibs : list bytes) (r : Rng) : F :=
  mkFacade ∅ [] ∅ gis sibs [] [] [] r.

(** ** Lemmas *)

Lemma random_sibling_inv s o s' :
  get_random_sibling_endpoint s = Ret o s' ->
  exists r, s' = set_rng r s /\ match o with None => siblings s = [] | Some e => e ∈ siblings s end.
Proof.
  unfold get_random_sibling_endpoint, bind, gets, id. destruct (siblings s) as [|x l] eqn:E.
  - intros [= <- <-]. exists (rng s). by destruct s.
  - cbn. destruct ((x :: l) !! _) as [e|] eqn:El; cbn; [|discriminate]. intros [= <- <-].
    eexists. split; [done|]. by eapply list_elem_of_lookup_2.
Qed.

Lemma random_sibling_throws s e s' : get_random_sibling_endpoint s <> Throw e s'.
Proof.
  unfold get_random_sibling_endpoint, bind, gets, id. destruct (siblings s) as [|x l]; [done|].
  cbn. by destruct ((x :: l) !! _).
Qed.

(** What a request needs: the entry, or a task or request that carries it. *)
Definition otd_hti (otd : OutboundTransactionDescriptor) : HederaTimestamp :=
  translate_Timestamp_from_pb (otd_paired_transaction_id otd).
Definition task_hti (t : Task) : option HederaTimestamp :=
  match t with AddPairedTask _ req | TryPairedAgainTask _ req => Some (otd_hti req) | _ => None end.
Definition pursued s hti : Prop :=
  (exists r, r ∈ requests s /\ otd_hti r.2 = hti) \/ (exists x, x ∈ tasks s /\ task_hti x.1 = Some hti).
Definition paired_ok s : Prop :=
  siblings s <> [] /\ Forall (fun r => r.1 ∈ siblings s) (requests s)
  /\ (forall hti ptd, waiting s !! hti = Some ptd -> otd_hti (ptd_otd ptd) = hti /\ pursued s hti).

Lemma ask_inv group p hti s s' :
  exec_once_paired_transaction_done group p hti s = Ret tt s' ->
  exists r e, e ∈ siblings s /\
    s' = (if waiting s !! hti then set_rng r s
          else let otd := mkOTD group (pb.mkTimestamp (seconds hti) (nanos hti)) in
               set_requests (requests s ++ [(e, otd)])
                 (set_waiting_map (<[hti := mkPTD p otd]> (waiting s)) (set_rng r s))).
Proof.
  unfold exec_once_paired_transaction_done. intros (o & s1 & H & Hk)%bind_Ret_inv.
  apply random_sibling_inv in H as (r & -> & Ho). destruct o as [e|]; [|discriminate]. exists r, e. split; [done|].
  revert Hk. unfold bind at 1, gets. cbn [waiting set_rng]. destruct (waiting s !! hti); cbn; by intros [= <-].
Qed.

Lemma again_inv hti s s' :
  exec_once_paired_transaction_done_again hti s = Ret tt s' ->
  exists r e ptd, e ∈ siblings s /\ waiting s !! hti = Some ptd
    /\ s' = set_requests (requests s ++ [(e, ptd_otd ptd)]) (set_rng r s).
Proof.
  unfold exec_once_paired_transaction_done_again. intros (o & s1 & H & Hk)%bind_Ret_inv.
  apply random_sibling_inv in H as (r & -> & Ho). destruct o as [e|]; [|discriminate]. exists r, e.
  revert Hk. unfold bind at 1, gets. cbn [waiting set_rng]. destruct (waiting s !! hti) as [ptd|]; cbn; [|discriminate].
  intros [= <-]. by exists ptd.
Qed.

Lemma again_throws hti s e s' :
  exec_once_paired_transaction_done_again hti s = Throw e s' ->
  (exists r, s' = set_rng r s) /\ (siblings s = [] \/ waiting s !! hti = None).
Proof.
  unfold exec_once_paired_transaction_done_again, bind at 1.
  destruct (get_random_sibling_endpoint s) as [o s1|e1 s1|] eqn:E; [|by apply random_sibling_throws in E|done].
  apply random_sibling_inv in E as (r & -> & Ho). destruct o as [x|].
  - unfold bind, gets. cbn. destruct (waiting s !! hti); cbn; [discriminate|]. intros [= <- <-]. eauto.
  - intros [= <- <-]. eauto.
Qed.

Lemma create_inv gi s o s' :
  create_group_blockchain gi s = Ret o s' ->
  exists a, field_string (gi_alias gi) = Some a
    /\ match blockchains s !! a with
       | Some _ => o = None /\ s' = s
       | None => o = Some (length (objects s))
           /\ s' = set_tasks (tasks s ++ [(InitGroupBlockchain (length (objects s)), 0%N)])
                     (set_blockchains (<[a := length (objects s)]> (blockchains s)) (objects s ++ [(a, gi_topic_id gi)]) s)
       end.
Proof.
  unfold create_group_blockchain. destruct (field_string (gi_alias gi)) as [a|]; [|discriminate].
  intros H. exists a. split; [done|]. revert H. unfold bind, of_option, ret, gets, id.
  destruct (blockchains s !! a); intros [= <- <-]; done.
Qed.

Lemma create_throws gi s e s' : create_group_blockchain gi s <> Throw e s'.
Proof.
  unfold create_group_blockchain, bind, of_option, gets, id. destruct (field_string _) as [a|]; [|done]. cbn.
  by destruct (blockchains s !! a).
Qed.

(** An answer is never used: the entry is gone when its listener is looked
    up. *)
Lemma on_paired_outcome br req s :
  on_paired_transaction br req s
  = if waiting s !! otd_hti req then Undef else Throw "unexpected incoming pair" s.
Proof.
  unfold on_paired_transaction, bind at 1, gets. fold (otd_hti req). cbv zeta.
  destruct (waiting s !! otd_hti req); [|done]. unfold bind at 1, modify.
  unfold of_option. destruct (copied_payload (ob_data br)); [|done]. cbn. by rewrite lookup_delete_eq.
Qed.

Lemma push_starts gis s :
  for_each gis (fun gi => push_task (StartBlockchainTask gi) 0) s
  = Ret tt (set_tasks (tasks s ++ map (fun gi => (StartBlockchainTask gi, 0%N)) gis) s).
Proof.
  revert s. induction gis as [|gi gis IH]; intros s; cbn.
  - rewrite app_nil_r. by destruct s.
  - unfold bind, push_task, modify. unfold push_task, modify in IH. rewrite IH. cbn. by rewrite <- (assoc_L (++)).
Qed.

Lemma run_Ret t s s' :
  run t s = Ret tt s' ->
  match t with
  | AddPairedTask _ _ | InitGroupRegister => False
  | TryPairedAgainTask _ req => exists r e ptd, e ∈ siblings s /\ waiting s !! otd_hti req = Some ptd
      /\ s' = set_requests (requests s ++ [(e, ptd_otd ptd)]) (set_rng r s)
  | StartBlockchainTask gi => exists o, create_group_blockchain gi s = Ret o s'
  | InitGroupBlockchain b => s' = add_call (PushContinueValidationTask b) (add_call (Init b) s)
  | ContinueFacadeInit => s' = set_tasks (tasks s ++ map (fun gi => (StartBlockchainTask gi, 0%N)) (group_infos s)) s
  end.
Proof.
  destruct t as [br req|br req|gi|b| |]; cbn [run].
  - rewrite on_paired_outcome. by destruct (waiting s !! _).
  - apply again_inv.
  - intros (o & s1 & H & [= <-])%bind_Ret_inv. eauto.
  - by intros [= <-].
  - done.
  - unfold continue_init_after_group_register_done, bind, gets. rewrite push_starts. by intros [= <-].
Qed.

Lemma run_Throw t s e s' :
  run t s = Throw e s' ->
  exists hti r, task_hti t = Some hti /\ s' = set_rng r s /\ (siblings s = [] \/ waiting s !! hti = None).
Proof.
  destruct t as [br req|br req|gi|b| |]; cbn [run].
  - rewrite on_paired_outcome. destruct (waiting s !! otd_hti req) eqn:E; [done|]. intros [= <- <-].
    exists (otd_hti req), (rng s). split; [done|]. split; [by destruct s|auto].
  - intros [[r ->] H]%again_throws. exists (otd_hti req), r. auto.
  - unfold bind. destruct (create_group_blockchain gi s) eqn:E; try done. by apply create_throws in E.
  - done.
  - done.
  - unfold continue_init_after_group_register_done, bind, gets. by rewrite push_starts.
Qed.

(** The tasks an answer pushes. *)
Definition answer_tasks (otd : OutboundTransactionDescriptor) (ans : list OutboundTransaction) : list (Task * N) :=
  map (fun br => if ob_success br then (AddPairedTask br otd, 0%N) else (TryPairedAgainTask br otd, 1%N)) ans.

Lemma answer_run otd ans s :
  for_each ans (fun br => on_block_record br otd) s = Ret tt (set_tasks (tasks s ++ answer_tasks otd ans) s).
Proof.
  revert s. induction ans as [|br ans IH]; intros s; cbn [for_each].
  - cbn. rewrite app_nil_r. by destruct s.
  - unfold bind, on_block_record at 1, push_task, modify.
    destruct (ob_success br) eqn:E; rewrite IH; cbn; rewrite E, <- (assoc_L (++)); done.
Qed.

Lemma answer_task_hti otd ans x : x ∈ answer_tasks otd ans -> task_hti x.1 = Some (otd_hti otd).
Proof. intros (br & -> & _)%list_elem_of_fmap. by destruct (ob_success br). Qed.

Lemma answer_tasks_nonempty otd ans : is_answer ans -> exists x, x ∈ answer_tasks otd ans.
Proof. intros [(r & -> & _)|(r & e & -> & _)]; eexists; left. Qed.

(** ** Pairs that are waited for *)

Lemma pursued_mono s s' hti : requests s ⊆ requests s' -> tasks s ⊆ tasks s' -> pursued s hti -> pursued s' hti.
Proof. intros Hr Ht [(r & Hin & E)|(x & Hin & E)]; [left; exists r|right; exists x]; auto. Qed.

Lemma pursued_take l1 t d l2 s hti :
  tasks s = l1 ++ (t, d) :: l2 -> pursued s hti -> pursued (set_tasks (l1 ++ l2) s) hti \/ task_hti t = Some hti.
Proof.
  intros Et [H|(x & Hin & E)]; [by left; left|]. rewrite Et in Hin.
  apply elem_of_app in Hin as [Hin|[->|Hin]%elem_of_cons]; [left|by right|left]; right; exists x; cbn; set_solver.
Qed.

Lemma pursued_answer l1 e otd l2 ans s hti :
  requests s = l1 ++ (e, otd) :: l2 -> is_answer ans -> pursued s hti ->
  pursued (set_tasks (tasks s ++ answer_tasks otd ans) (set_requests (l1 ++ l2) s)) hti.
Proof.
  intros Er Ha [(r & Hin & E)|(x & Hin & E)].
  - rewrite Er in Hin. apply elem_of_app in Hin as [Hin|[->|Hin]%elem_of_cons]; [left; exists r; set_solver| |left; exists r; set_solver].
    right. destruct (answer_tasks_nonempty otd ans Ha) as [x Hx]. exists x. cbn [tasks set_tasks set_requests].
    split; [set_solver|]. by rewrite (answer_task_hti _ _ _ Hx), <- E.
  - right. exists x. cbn [tasks set_tasks set_requests]. set_solver.
Qed.

Lemma paired_ok_same s s' :
  paired_ok s -> siblings s' = siblings s -> waiting s' = waiting s -> requests s' = requests s -> tasks s ⊆ tasks s' ->
  paired_ok s'.
Proof.
  intros (H1 & H2 & H3) Es Ew Er Ht. unfold paired_ok. rewrite Es, Ew, Er. split_and!; [done..|].
  intros hti ptd Hw. destruct (H3 _ _ Hw) as [Ho Hp]. split; [done|]. eapply pursued_mono; [|exact Ht|exact Hp]. by rewrite Er.
Qed.

Lemma paired_ok_create gi s o s' : paired_ok s -> create_group_blockchain gi s = Ret o s' -> paired_ok s'.
Proof.
  intros H (a & _ & E)%create_inv. destruct (blockchains s !! a); destruct E as [_ ->]; [done|].
  eapply paired_ok_same; eauto. cbn. set_solver.
Qed.

(** A task that is about to run; [t]'s pair may have no other token. *)
Definition paired_ok_but (t : Task) s : Prop :=
  siblings s <> [] /\ Forall (fun r => r.1 ∈ siblings s) (requests s)
  /\ (forall hti ptd, waiting s !! hti = Some ptd ->
       otd_hti (ptd_otd ptd) = hti /\ (pursued s hti \/ task_hti t = Some hti)).

Lemma paired_ok_take l1 t d l2 s : tasks s = l1 ++ (t, d) :: l2 -> paired_ok s -> paired_ok_but t (set_tasks (l1 ++ l2) s).
Proof.
  intros Et (H1 & H2 & H3). split_and!; [done..|]. intros hti ptd Hw. destruct (H3 _ _ Hw) as [Ho Hp].
  split; [done|]. by eapply pursued_take.
Qed.

Lemma paired_ok_but_idle t s : task_hti t = None -> paired_ok_but t s -> paired_ok s.
Proof. intros Ht (H1 & H2 & H3). split_and!; [done..|]. intros hti ptd [Ho [Hp|E]]%H3; [done|congruence]. Qed.

Lemma run_paired_ok t s s' : paired_ok_but t s -> run t s = Ret tt s' -> paired_ok s'.
Proof.
  intros H E%run_Ret. destruct t as [br req|br req|gi|b| |]; try done.
  - destruct E as (r & e & ptd & He & Hw & ->). destruct H as (H1 & H2 & H3). split_and!; cbn; [done| |].
    + apply Forall_app_2; [done|]. by constructor.
    + intros hti ptd' [Ho [Hp|[= <-]]]%H3; (split; [done|]).
      * eapply pursued_mono; [| |exact Hp]; cbn; set_solver.
      * left. eexists. cbn. split; [apply elem_of_app; right; by left|]. cbn. by destruct (H3 _ _ Hw).
  - destruct E as [o E]. eapply paired_ok_create; [|exact E]. by refine (paired_ok_but_idle _ _ _ H).
  - subst s'. eapply paired_ok_same; [by refine (paired_ok_but_idle _ _ _ H)|done..].
  - subst s'. eapply paired_ok_same; [by refine (paired_ok_but_idle _ _ _ H)|done..|]. cbn. set_solver.
Qed.

Lemma step_paired_ok s s' : sound_step s s' -> paired_ok s -> paired_ok s'.
Proof.
  intros Hs H. destruct Hs as [group p hti s s' E|gi b s s' E|l1 e otd l2 ans s s' Er Ha E|l1 t d l2 s s' Et E|l1 t d l2 e s s' Et E].
  - apply ask_inv in E as (r & e & He & ->). destruct (waiting s !! hti) eqn:Ew; [by eapply paired_ok_same|].
    destruct H as (H1 & H2 & H3). split_and!; cbn; [done|apply Forall_app_2; [done|by constructor]|].
    intros h ptd [[<- <-]|[Hne Hw]]%lookup_insert_Some.
    + split; [by destruct hti|]. left. eexists. split; [apply elem_of_app; right; by left|]. by destruct hti.
    + destruct (H3 _ _ Hw) as [Ho Hp]. split; [done|]. eapply pursued_mono; [| |exact Hp]; cbn; set_solver.
  - by eapply paired_ok_create.
  - rewrite answer_run in E. injection E as <-. destruct H as (H1 & H2 & H3). split_and!; cbn; [done| |].
    + rewrite Er in H2. apply Forall_app in H2 as [? [_ ?]%Forall_cons]. by apply Forall_app_2.
    + intros hti ptd [Ho Hp]%H3. split; [done|]. by eapply pursued_answer.
  - eapply run_paired_ok; [|exact E]. by eapply paired_ok_take.
  - apply run_Throw in E as (h & r & Eh & -> & Hn). apply (paired_ok_take l1 t d l2 s Et) in H as (H1 & H2 & H3).
    destruct Hn as [Hn|Hn]; [done|]. split_and!; cbn; [done..|]. intros hti ptd Hw.
    destruct (H3 _ _ Hw) as [Ho [Hp|E]]; [by split; [|exact Hp]|]. cbn in Hn. congruence.
Qed.

Lemma paired_ok_new gis sibs r : sibs <> [] -> paired_ok (Facade_new gis sibs r).
Proof. intros H. split_and!; [done|constructor|]. intros hti ptd [=]. Qed.

(** An entry is filed under the identifier it asks for. *)
Definition keyed_waiting s : Prop := forall hti ptd, waiting s !! hti = Some ptd -> otd_hti (ptd_otd ptd) = hti.

Lemma sound_keyed s s' : sound_step s s' -> keyed_waiting s -> keyed_waiting s'.
Proof.
  intros Hs H. destruct Hs as [group p hti s s' E|gi b s s' E|l1 e otd l2 ans s s' Er Ha E|l1 t d l2 s s' Et E|l1 t d l2 e s s' Et E].
  - apply ask_inv in E as (r & e & He & ->). destruct (waiting s !! hti) eqn:Ew; [done|]. unfold keyed_waiting. cbn.
    intros h ptd [[<- <-]|[Hne Hw]]%lookup_insert_Some; [by destruct hti|by apply H].
  - apply create_inv in E as (a & _ & E). by destruct (blockchains s !! a); destruct E as [_ ->].
  - rewrite answer_run in E. by injection E as <-.
  - apply run_Ret in E. destruct t as [br req|br req|gi|b| |]; try done.
    + by destruct E as (r & e & ptd & _ & _ & ->).
    + destruct E as [o (a & _ & E)%create_inv]. by destruct (blockchains _ !! a); destruct E as [_ ->].
    + by subst s'.
    + by subst s'.
  - by apply run_Throw in E as (h & r & _ & -> & _).
Qed.

Lemma step_keyed s s' : step s s' -> keyed_waiting s -> keyed_waiting s'.
Proof.
  intros [x x' Hs|l1 e otd l2 full ans x x' Er Ha Hp E|l1 br req d l2 x Et] H; [by eapply sound_keyed| |done].
  rewrite answer_run in E. by injection E as <-.
Qed.

Lemma unpursued_mono s s' hti : requests s' ⊆ requests s -> tasks s' ⊆ tasks s -> ~ pursued s hti -> ~ pursued s' hti.
Proof. intros Hr Ht H Hp. apply H. by eapply pursued_mono. Qed.

Lemma unpursued_answer l1 e otd l2 ans s hti :
  requests s = l1 ++ (e, otd) :: l2 -> ~ pursued s hti ->
  ~ pursued (set_tasks (tasks s ++ answer_tasks otd ans) (set_requests (l1 ++ l2) s)) hti.
Proof.
  intros Er H [(r & Hin & E)|(x & Hin & E)]; cbn [requests tasks set_tasks set_requests] in Hin.
  - apply H. left. exists r. rewrite Er. split; [set_solver|done].
  - apply elem_of_app in Hin as [Hin|Hin]; [apply H; right; by exists x|].
    rewrite (answer_task_hti _ _ _ Hin) in E. injection E as E. apply H. left. exists (e, otd). rewrite Er. split; [set_solver|done].
Qed.

Lemma run_unpursued t l1 d l2 s s' hti :
  keyed_waiting s -> tasks s = l1 ++ (t, d) :: l2 -> run t (set_tasks (l1 ++ l2) s) = Ret tt s' ->
  ~ pursued s hti -> ~ pursued s' hti.
Proof.
  intros Hk Et E%run_Ret Hn.
  assert (~ pursued (set_tasks (l1 ++ l2) s) hti) as Hn0.
  { eapply unpursued_mono; [| |exact Hn]; cbn; [done|]. rewrite Et. set_solver. }
  assert (task_hti t = Some hti -> False) as Ht.
  { intros E'. apply Hn. right. exists (t, d). rewrite Et. split; [set_solver|done]. }
  destruct t as [br req|br req|gi|b| |]; try done.
  - destruct E as (r & e & ptd & _ & Hw & ->). intros [(q & Hin & Eq)|Hx]; [|apply Hn0; by right].
    cbn in Hin. apply elem_of_app in Hin as [Hin| ->%list_elem_of_singleton]; [apply Hn0; left; by exists q|].
    cbn in Eq. apply Ht. cbn. by rewrite <- Eq, (Hk _ _ Hw).
  - destruct E as [o (a & _ & E)%create_inv]. cbn in E. destruct (blockchains s !! a); destruct E as [_ ->]; [done|].
    intros [Hx|(x & Hin & Ex)]; [apply Hn0; by left|]. cbn in Hin.
    apply elem_of_app in Hin as [Hin| ->%list_elem_of_singleton]; [apply Hn0; right; by exists x|done].
  - by subst s'.
  - subst s'. intros [Hx|(x & Hin & Ex)]; [apply Hn0; by left|]. cbn in Hin.
    apply elem_of_app in Hin as [Hin|Hin]; [apply Hn0; right; by exists x|].
    apply list_elem_of_fmap in Hin as (gi & -> & _). done.
Qed.

(** A pair that is waited for and no longer pursued stays so. *)
Lemma step_unpursued s s' hti ptd :
  keyed_waiting s -> step s s' -> waiting s !! hti = Some ptd -> ~ pursued s hti -> ~ pursued s' hti.
Proof.
  intros Hk Hs Hw Hn. destruct Hs as [s s' Hs|l1 e otd l2 full ans s s' Er Ha Hp E|l1 br req d l2 s Et].
  - destruct Hs as [group p h s s' E|gi b s s' E|l1 e otd l2 ans s s' Er Ha E|l1 t d l2 s s' Et E|l1 t d l2 e s s' Et E].
    + apply ask_inv in E as (r & e & He & ->). destruct (waiting s !! h) eqn:Ew; [done|].
      intros [(q & Hin & Eq)|Hx]; [|apply Hn; by right]. cbn in Hin.
      apply elem_of_app in Hin as [Hin| ->%list_elem_of_singleton]; [apply Hn; left; by exists q|].
      cbn in Eq. assert (h = hti) as -> by (rewrite <- Eq; by destruct h). congruence.
    + apply create_inv in E as (a & _ & E). destruct (blockchains s !! a); destruct E as [_ ->]; [done|].
      intros [Hx|(x & Hin & Ex)]; [apply Hn; by left|]. cbn in Hin.
      apply elem_of_app in Hin as [Hin| ->%list_elem_of_singleton]; [apply Hn; right; by exists x|done].
    + rewrite answer_run in E. injection E as <-. by eapply unpursued_answer.
    + by eapply run_unpursued.
    + apply run_Throw in E as (h & r & _ & -> & _). eapply unpursued_mono; [| |exact Hn]; cbn; [done|]. rewrite Et. set_solver.
  - rewrite answer_run in E. injection E as <-. by eapply unpursued_answer.
  - eapply unpursued_mono; [| |exact Hn]; cbn; [done|]. rewrite Et. set_solver.
Qed.

Lemma sound_waiting s s' : sound_step s s' -> waiting s ⊆ waiting s'.
Proof.
  intros Hs. destruct Hs as [group p hti s s' E|gi b s s' E|l1 e otd l2 ans s s' Er Ha E|l1 t d l2 s s' Et E|l1 t d l2 e s s' Et E].
  - apply ask_inv in E as (r & e & He & ->). destruct (waiting s !! hti) eqn:Ew; [done|]. by apply insert_subseteq.
  - apply create_inv in E as (a & _ & E). by destruct (blockchains s !! a); destruct E as [_ ->].
  - rewrite answer_run in E. by injection E as <-.
  - apply run_Ret in E. destruct t as [br req|br req|gi|b| |]; try done.
    + by destruct E as (r & e & ptd & _ & _ & ->).
    + destruct E as [o (a & _ & E)%create_inv]. by destruct (blockchains _ !! a); destruct E as [_ ->].
    + by subst s'.
    + by subst s'.
  - by apply run_Throw in E as (h & r & _ & -> & _).
Qed.

Lemma step_waiting s s' : step s s' -> waiting s ⊆ waiting s'.
Proof.
  intros [x x' Hs|l1 e otd l2 full ans x x' Er Ha Hp E|l1 br req d l2 x Et]; [by apply sound_waiting| |done].
  rewrite answer_run in E. by injection E as <-.
Qed.

(** C30: on a node that has siblings, a pair that a ledger waits for is
    pursued as long as no call breaks off and no delayed task is lost, after
    any interleaving of questions, answers and tasks: a request to a sibling
    is under way, or a task that repeats it or takes its answer is pending,
    and repeating it finds the entry and a sibling.  Once a call has broken
    off or a delayed task is lost and nothing pursues the pair any more,
    nothing ever will: the ledger waits for good. *)
Theorem pair_pursued gis sibs r s hti ptd :
  sibs <> [] -> waiting s !! hti = Some ptd ->
  (rtc sound_step (Facade_new gis sibs r) s ->
     Forall (fun q => q.1 ∈ siblings s) (requests s) /\ pursued s hti
     /\ forall br req e s', otd_hti req = hti -> run (TryPairedAgainTask br req) s <> Throw e s')
  /\ (rtc step (Facade_new gis sibs r) s -> ~ pursued s hti ->
     forall s', rtc step s s' -> waiting s' !! hti = Some ptd /\ ~ pursued s' hti).
Proof.
  intros Hs Hw. split.
  - intros Hr. assert (paired_ok s) as (H1 & H2 & H3).
    { apply (paired_ok_new gis sibs r) in Hs. revert Hs. clear Hw. induction Hr as [|x y z Hxy _ IH]; [done|].
      intros H. apply IH. by eapply step_paired_ok. }
    split; [done|]. split; [by apply (H3 _ ptd)|].
    intros br req e s' <- (h & r' & [= <-] & _ & [?|?])%run_Throw; congruence.
  - intros Hr Hn s' Hr'. assert (keyed_waiting s) as Hk.
    { assert (keyed_waiting (Facade_new gis sibs r)) as H0 by (intros h p [=]). revert H0. clear Hw Hn Hr'.
      induction Hr as [|x y z Hxy _ IH]; [done|]. intros H. apply IH. by eapply step_keyed. }
    clear Hr. induction Hr' as [|x y z Hxy _ IH]; [done|]. apply IH.
    + eapply lookup_weaken; [exact Hw|by apply step_waiting].
    + by eapply step_unpursued.
    + by eapply step_keyed.
Qed.

(** The calls a step makes: on a blockchain whose initialisation is taken off
    the pool, or none. *)
Lemma sound_calls s s' :
  sound_step s s' ->
  calls s' = calls s
  \/ exists l1 b d l2, tasks s = l1 ++ (InitGroupBlockchain b, d) :: l2
       /\ s' = add_call (PushContinueValidationTask b) (add_call (Init b) (set_tasks (l1 ++ l2) s)).
Proof.
  intros Hs. destruct Hs as [group p hti s s' E|gi b s s' E|l1 e otd l2 ans s s' Er Ha E|l1 t d l2 s s' Et E|l1 t d l2 e s s' Et E].
  - apply ask_inv in E as (r & e & He & ->). left. by destruct (waiting s !! hti).
  - apply create_inv in E as (a & _ & E). left. by destruct (blockchains s !! a); destruct E as [_ ->].
  - rewrite answer_run in E. left. by injection E as <-.
  - apply run_Ret in E. destruct t as [br req|br req|gi|b| |]; try done.
    + left. by destruct E as (r & e & ptd & _ & _ & ->).
    + left. destruct E as [o (a & _ & E)%create_inv]. by destruct (blockchains _ !! a); destruct E as [_ ->].
    + right. by exists l1, b, d, l2.
    + left. by subst s'.
  - apply run_Throw in E as (h & r & _ & -> & _). by left.
Qed.

Lemma step_calls s s' :
  step s s' ->
  calls s' = calls s
  \/ exists l1 b d l2, tasks s = l1 ++ (InitGroupBlockchain b, d) :: l2
       /\ s' = add_call (PushContinueValidationTask b) (add_call (Init b) (set_tasks (l1 ++ l2) s)).
Proof.
  intros [x x' Hs|l1 e otd l2 full ans x x' Er Ha Hp E|l1 br req d l2 x Et]; [by apply sound_calls| |by left].
  rewrite answer_run in E. injection E as <-. by left.
Qed.

(** No ledger is ever given the pair it waits for: whatever happens, it
    stays among the waiting, the listener is not called, and taking an answer
    to it is undefined (the entry is used after it was erased); an answer
    nobody waits for is refused. *)
Theorem pair_never_delivered s s' b t br req :
  rtc step s s' ->
  waiting s ⊆ waiting s'
  /\ (OnPairedTransactionDone b t ∈ calls s' -> OnPairedTransactionDone b t ∈ calls s)
  /\ on_paired_transaction br req s'
     = if waiting s' !! otd_hti req then Undef else Throw "unexpected incoming pair" s'.
Proof.
  intros H. split; [|split; [|apply on_paired_outcome]].
  - induction H as [|x y z Hxy _ IH]; [done|]. etrans; [by apply step_waiting|done].
  - induction H as [|x y z Hxy _ IH]; [done|]. intros Hin%IH.
    destruct (step_calls _ _ Hxy) as [E|(l1 & b' & d & l2 & _ & ->)]; [by rewrite <- E|]. cbn in Hin. set_solver.
Qed.

(** ** Blockchains of groups *)

Definition is_init (b : nat) (x : Task * N) : bool := match x.1 with InitGroupBlockchain b' => (b =? b')%nat | _ => false end.
Definition is_called (b : nat) (c : Call) : bool := match c with Init b' => (b =? b')%nat | _ => false end.
Definition inits s (b : nat) : nat := length (List.filter (is_init b) (tasks s)) + length (List.filter (is_called b) (calls s)).

(** The map and the objects agree, and every object is initialised once: the
    task is pending or the call was made. *)
Definition opened_once s : Prop :=
  (forall a b, blockchains s !! a = Some b <-> exists t, objects s !! b = Some (a, t))
  /\ (forall b, inits s b = if (b <? length (objects s))%nat then 1 else 0)%nat.

Lemma opened_same s s' :
  opened_once s -> blockchains s' = blockchains s -> objects s' = objects s -> (forall b, inits s' b = inits s b) -> opened_once s'.
Proof. intros [H1 H2] Eb Eo Ei. split; [by rewrite Eb, Eo|]. intros b. by rewrite Ei, H2, Eo. Qed.

Lemma inits_tasks s l b : length (List.filter (is_init b) l) = 0%nat -> inits (set_tasks (tasks s ++ l) s) b = inits s b.
Proof. intros H. unfold inits. cbn. rewrite List.filter_app, length_app. lia. Qed.

Lemma inits_take l1 t d l2 s b :
  tasks s = l1 ++ (t, d) :: l2 -> is_init b (t, d) = false -> inits (set_tasks (l1 ++ l2) s) b = inits s b.
Proof. intros Et H. unfold inits. cbn [tasks set_tasks calls]. rewrite Et, !List.filter_app. cbn [List.filter]. by rewrite H. Qed.

Lemma opened_create gi s o s' : opened_once s -> create_group_blockchain gi s = Ret o s' -> opened_once s'.
Proof.
  intros [H1 H2] (a & _ & E)%create_inv. destruct (blockchains s !! a) eqn:Ea; destruct E as [_ ->]; [done|].
  split; cbn [blockchains objects set_tasks set_blockchains].
  - intros x b. rewrite lookup_insert_Some, H1. split.
    + intros [[<- <-]|[Hne (t & Ht)]]; [exists (gi_topic_id gi); by rewrite lookup_app_r, Nat.sub_diag by lia|].
      exists t. by apply lookup_app_l_Some.
    + intros (t & [Ht|[Hge Ht]]%lookup_app_Some).
      * right. split; [|by exists t]. intros ->. assert (blockchains s !! x = Some b) by (apply H1; eauto). congruence.
      * left. apply list_lookup_singleton_Some in Ht as [? Ht]. injection Ht as -> _. split; [done|lia].
  - intros b. specialize (H2 b). unfold inits in *. cbn [tasks calls set_tasks set_blockchains].
    rewrite List.filter_app, !length_app. cbn [List.filter is_init fst length].
    destruct (Nat.eqb_spec b (length (objects s))), (Nat.ltb_spec b (length (objects s))),
      (Nat.ltb_spec b (length (objects s) + 1)); cbn; lia.
Qed.

Lemma opened_answer l1 l2 otd ans s :
  opened_once s -> opened_once (set_tasks (tasks s ++ answer_tasks otd ans) (set_requests (l1 ++ l2) s)).
Proof.
  intros H. eapply opened_same; [exact H|done..|]. intros b.
  rewrite (inits_tasks (set_requests (l1 ++ l2) s)); [done|].
  unfold answer_tasks. clear. induction ans as [|x l IH]; [done|]. cbn. by destruct (ob_success x).
Qed.

Lemma sound_opened s s' : sound_step s s' -> opened_once s -> opened_once s'.
Proof.
  intros Hs H. destruct Hs as [group p hti s s' E|gi b s s' E|l1 e otd l2 ans s s' Er Ha E|l1 t d l2 s s' Et E|l1 t d l2 e s s' Et E].
  - apply ask_inv in E as (r & e & He & ->). destruct (waiting s !! hti); by eapply opened_same.
  - by eapply opened_create.
  - rewrite answer_run in E. injection E as <-. by apply opened_answer.
  - apply run_Ret in E. destruct t as [br req|br req|gi|b| |]; try done.
    + destruct E as (r & e & ptd & _ & _ & ->). eapply opened_same; [exact H|done..|]. intros b. by eapply inits_take.
    + destruct E as [o E]. eapply opened_create; [|exact E]. eapply opened_same; [exact H|done..|]. intros b. by eapply inits_take.
    + subst s'. eapply opened_same; [exact H|done..|]. intros b'. unfold inits. cbn [tasks calls set_tasks add_call].
      rewrite Et, !List.filter_app, !length_app. cbn [List.filter is_init is_called fst]. destruct (b' =? b)%nat; cbn; lia.
    + subst s'. eapply opened_same; [exact H|done..|]. intros b.
      rewrite (inits_tasks (set_tasks (l1 ++ l2) s)); [by eapply inits_take|].
      clear. cbn [group_infos set_tasks]. induction (group_infos s) as [|x l IH]; [done|]. by cbn.
  - apply run_Throw in E as (h & r & Eh & -> & _). eapply opened_same; [exact H|done..|]. intros b.
    eapply inits_take; [exact Et|]. by destruct t.
Qed.

Lemma step_opened s s' : step s s' -> opened_once s -> opened_once s'.
Proof.
  intros [x x' Hs|l1 e otd l2 full ans x x' Er Ha Hp E|l1 br req d l2 x Et] H; [by eapply sound_opened| |].
  - rewrite answer_run in E. injection E as <-. by apply opened_answer.
  - eapply opened_same; [exact H|done..|]. intros b. by eapply inits_take.
Qed.

Lemma opened_new gis sibs r : opened_once (Facade_new gis sibs r).
Proof. split; [intros a b; split; [done|by intros (t & Ht)]|done]. Qed.

(** C27: whatever happens on a node, each alias has at most one blockchain, the
    one that was made for it, which is initialised exactly once: the task is
    pending or the call was made; adding the group again gives null and
    changes nothing. *)
Theorem blockchain_opened_once gis sibs r s a b :
  rtc step (Facade_new gis sibs r) s -> blockchains s !! a = Some b ->
  (exists t, objects s !! b = Some (a, t))
  /\ (forall a', blockchains s !! a' = Some b -> a' = a)
  /\ (length (List.filter (is_init b) (tasks s)) + length (List.filter (is_called b) (calls s)) = 1)%nat
  /\ (forall gi, field_string (gi_alias gi) = Some a -> create_group_blockchain gi s = Ret None s).
Proof.
  intros Hr Hb. assert (opened_once s) as [H1 H2].
  { pose proof (opened_new gis sibs r) as H. revert H. induction Hr as [|x y z Hxy _ IH]; [done|].
    intros H. by apply IH, (step_opened x). }
  destruct (proj1 (H1 a b) Hb) as [t Ht]. split_and!; [eauto| | |].
  - intros a' [t' Ht']%H1. congruence.
  - fold (inits s b). rewrite H2. apply lookup_lt_Some, Nat.ltb_lt in Ht. by rewrite Ht.
  - intros gi Hg. unfold create_group_blockchain, bind, of_option, ret, gets, id. by rewrite Hg, Hb.
Qed.

Lemma run_tasks_add n m s : run_tasks (n + m) s = bind (run_tasks n) (fun _ => run_tasks m) s.
Proof.
  revert s. induction n as [|n IH]; intros s; [done|]. cbn [run_tasks Nat.add]. unfold bind at 1 2 3 4 5, gets, modify.
  destruct (tasks s) as [|[t d] l] eqn:E.
  - unfold ret. destruct m; [done|]. cbn. unfold bind, gets. by rewrite E.
  - unfold bind. destruct (run t (set_tasks l s)) as [[] s1| |]; [apply IH|done..].
Qed.

Lemma run_tasks_steps k s s' : run_tasks k s = Ret tt s' -> rtc step s s'.
Proof.
  revert s. induction k as [|k IH]; intros s; cbn [run_tasks]; [by intros [= ->]|].
  unfold bind at 1, gets. destruct (tasks s) as [|[t d] l] eqn:E; [by intros [= ->]|].
  unfold bind at 1, modify. intros ([] & s1 & H1 & H2)%bind_Ret_inv.
  eapply rtc_l; [|by apply IH]. by apply StSound, (StRun [] t d l).
Qed.

(** The alias of each group ends inside its field. *)
Definition alias_ok (gi : GroupInfo) : Prop := is_Some (field_string (gi_alias gi)).
Definition start_tasks (gis : list GroupInfo) : list (Task * N) := map (fun gi => (StartBlockchainTask gi, 0%N)) gis.
Definition init_task (x : Task * N) : Prop := exists b, x.1 = InitGroupBlockchain b.
(** The groups of [gis] are open, and no others than before. *)
Record started (gis : list GroupInfo) s s' : Prop := {
  started_new gi a : gi ∈ gis -> field_string (gi_alias gi) = Some a -> is_Some (blockchains s' !! a);
  started_old a b : blockchains s !! a = Some b -> blockchains s' !! a = Some b;
  started_from a t : (a, t) ∈ objects s' ->
    (a, t) ∈ objects s \/ exists gi, gi ∈ gis /\ field_string (gi_alias gi) = Some a /\ gi_topic_id gi = t }.

Lemma run_starts gis : forall s l,
  Forall alias_ok gis -> tasks s = start_tasks gis ++ l -> Forall init_task l ->
  exists s' l', run_tasks (length gis) s = Ret tt s' /\ tasks s' = l ++ l' /\ Forall init_task l'
    /\ (length l' <= length gis)%nat /\ started gis s s'.
Proof.
  induction gis as [|gi gis IH]; intros s l Ha Et Hl.
  - exists s, []. rewrite app_nil_r. split_and!; try done. split; [intros ? ? []%elem_of_nil|done|by left].
  - inversion Ha as [|? ? [a Hg] Hgs]; subst. cbn [length run_tasks]. unfold bind at 1, gets. rewrite Et. cbn [start_tasks map app].
    unfold bind at 1, modify. fold (start_tasks gis). set (s0 := set_tasks (start_tasks gis ++ l) s).
    assert (exists s1 l1, run (StartBlockchainTask gi) s0 = Ret tt s1 /\ tasks s1 = start_tasks gis ++ l ++ l1
      /\ Forall init_task l1 /\ (length l1 <= 1)%nat /\ started [gi] s s1) as (s1 & l1 & E1 & Et1 & Hi1 & Hn1 & S1).
    { cbn [run]. unfold create_group_blockchain. rewrite Hg. unfold bind, of_option, ret, gets, id. cbn [blockchains s0 set_tasks].
      destruct (blockchains s !! a) as [b|] eqn:Eb; (eexists _, _; split; [reflexivity|]).
      - split; [cbn; by rewrite app_nil_r|]. split_and!; [constructor|cbn; lia|].
        split; [|done|by left]. intros gi' a' ->%list_elem_of_singleton. rewrite Hg. intros [= <-]. by exists b.
      - split; [cbn; by rewrite <- (assoc_L (++))|]. split_and!; [by repeat econstructor|cbn; lia|]. split; cbn.
        + intros gi' a' ->%list_elem_of_singleton. rewrite Hg. intros [= <-]. rewrite lookup_insert_eq. eauto.
        + intros a' b' Hb'. by rewrite lookup_insert_ne by congruence.
        + intros a' t [Hin|[= -> ->]%list_elem_of_singleton]%elem_of_app; [by left|]. right. exists gi. split_and!; [by left|done..]. }
    unfold bind. rewrite E1. destruct (IH s1 (l ++ l1) Hgs) as (s' & l' & E & Et' & Hi & Hn & S2); [done|by apply Forall_app_2|].
    exists s', (l1 ++ l'). split_and!; [done|by rewrite Et', (assoc_L (++))|by apply Forall_app_2|rewrite length_app; cbn; lia|].
    split.
    + intros gi' a' [->|Hin]%elem_of_cons Hf; [|by eapply started_new].
      destruct (started_new _ _ _ S1 gi a') as [b Hb]; [by left|done|]. exists b. by eapply started_old.
    + intros a' b Hb. eapply started_old; [exact S2|]. by eapply started_old.
    + intros a' t [Hin|(g & Hin & Hf)]%(started_from _ _ _ S2).
      * apply (started_from _ _ _ S1) in Hin as [?|(g & ->%list_elem_of_singleton & Hf)]; [by left|].
        right. exists gi. split; [by left|done].
      * right. exists g. split; [by right|done].
Qed.

Lemma run_inits k : forall s,
  Forall init_task (tasks s) -> (length (tasks s) <= k)%nat ->
  exists s', run_tasks k s = Ret tt s' /\ tasks s' = [] /\ blockchains s' = blockchains s /\ objects s' = objects s.
Proof.
  induction k as [|k IH]; intros s Hi Hk; cbn [run_tasks].
  - exists s. split_and!; try done. by destruct (tasks s); [|cbn in Hk; lia].
  - unfold bind at 1, gets. destruct (tasks s) as [|[t d] l] eqn:Et; [by exists s|].
    inversion Hi as [|? ? [b Hb] Hl]; subst. cbn in Hb. subst t. unfold bind, modify. cbn [run]. unfold bind, modify.
    destruct (IH (add_call (PushContinueValidationTask b) (add_call (Init b) (set_tasks l s)))) as (s' & E & ? & ? & ?);
      [done|cbn in *; lia|]. exists s'. by rewrite E.
Qed.

(** The start of a node once the group register is done. *)
Lemma groups_start gis sibs r :
  Forall alias_ok gis ->
  exists s, bind (run ContinueFacadeInit) (fun _ => run_tasks (length gis + length gis)) (Facade_new gis sibs r) = Ret tt s
    /\ tasks s = [] /\ opened_once s /\ started gis (Facade_new gis sibs r) s.
Proof.
  intros Ha. set (s0 := Facade_new gis sibs r). unfold bind at 1. cbn [run].
  unfold continue_init_after_group_register_done, bind at 1, gets. rewrite push_starts. cbn [group_infos s0 Facade_new].
  set (s1 := set_tasks _ _). rewrite run_tasks_add.
  destruct (run_starts gis s1 [] Ha) as (s2 & l & E2 & Et & Hi & Hn & S2); [by rewrite app_nil_r|constructor|].
  destruct (run_inits (length gis) s2) as (s & E & Ht & Eb & Eo); [by rewrite Et|by rewrite Et|].
  rewrite (bind_Ret _ _ _ _ _ E2). exists s. split_and!; [done|done| |].
  - assert (rtc step s1 s) as Hr by (etrans; [exact (run_tasks_steps _ _ _ E2)|exact (run_tasks_steps _ _ _ E)]).
    assert (opened_once s1) as H1.
    { eapply opened_same; [apply (opened_new gis sibs r)|done..|]. intros b. unfold inits. cbn.
      clear. induction gis as [|x l IH]; [done|]. by cbn. }
    clear - Hr H1. revert H1. induction Hr as [|x y z Hxy _ IH]; [done|]. intros H1. by apply IH, (step_opened x).
  - destruct S2 as [A B C]. split; rewrite ?Eb, ?Eo; done.
Qed.

Lemma field_string_padded a n : (length a < n)%nat -> is_Some (field_string (a ++ replicate (n - length a) 0%Z)).
Proof.
  intros H. unfold field_string. destruct (n - length a)%nat as [|k] eqn:E; [lia|]. cbn [replicate].
  pose proof (length_cstr_null a (replicate k 0%Z)). rewrite length_app. cbn [length].
  rewrite (proj2 (Nat.ltb_lt _ _)) by lia. eauto.
Qed.

Lemma dir_alias_ok x gi : dir_group_info x = Some (Some gi) -> alias_ok gi.
Proof.
  unfold dir_group_info. destruct (split_name x) as [[a [[n1 n2] n3]]|]; [|discriminate].
  destruct (Nat.leb_spec (GROUP_ALIAS_LENGTH - 1) (length a)); [discriminate|].
  destruct (stoul n1), (stoul n2), (stoul n3); try discriminate. intros [= <-]. apply field_string_padded. lia.
Qed.

Lemma dirs_alias_ok dirs gs : mapM dir_group_info dirs = Some gs -> Forall alias_ok (omap id gs).
Proof.
  intros H%mapM_Some. apply Forall_forall. intros gi (g & Hg & E)%list_elem_of_omap. cbn in E. subst g.
  apply list_elem_of_lookup_1 in Hg as [i Hi].
  destruct (Forall2_lookup_r _ _ _ _ _ H Hi) as (x & _ & Hx). by eapply dir_alias_ok.
Qed.

(** A group that is added on a node is served by it after a restart: its
    folder is found, and once the group register is done and the pool has run
    its tasks, the blockchain of the alias is the one with the group's topic,
    it was initialised, and no task is left. *)
Theorem added_group_served c a t (gis0 : list (option GroupInfo)) dirs name sibs r :
  word a -> topic_ok t -> (length a < GROUP_ALIAS_LENGTH - 1)%nat ->
  mapM dir_group_info (conf_dirs c) = Some gis0 ->
  (forall gi, gi ∈ omap id gis0 -> field_string (gi_alias gi) <> Some a) ->
  get_directory_name (GroupInfo_create a t) = Some name -> name ∉ conf_dirs c ->
  dirs ≡ₚ conf_dirs c ++ [name] ->
  exists c1 c2 s b, add_blockchain (GroupInfo_create a t) c = Ret tt c1 /\ conf_init (restarted dirs c1) = Ret tt c2
    /\ bind (run ContinueFacadeInit) (fun _ => run_tasks (length (conf_gis c2) + length (conf_gis c2)))
         (Facade_new (conf_gis c2) sibs r) = Ret tt s
    /\ blockchains s !! a = Some b /\ objects s !! b = Some (a, t)
    /\ tasks s = [] /\ length (List.filter (is_called b) (calls s)) = 1%nat.
Proof.
  intros Hw Ht Hl Hm Hoth En Hnew Hd.
  destruct (group_survives_restart c a t gis0 dirs name Hw Ht Hl Hm En Hnew Hd) as (c1 & c2 & E1 & _ & E2 & Hp).
  assert (field_string (gi_alias (GroupInfo_create a t)) = Some a) as Hf.
  { rewrite create_alias by (done || lia). unfold field_string. rewrite cstr_zero_padded by by apply word_nonnull.
    rewrite length_app, length_replicate. by rewrite (proj2 (Nat.ltb_lt _ _)) by lia. }
  destruct (groups_start (conf_gis c2) sibs r) as (s & Es & Et & [H1 H2] & S1).
  { rewrite Hp. apply Forall_app_2; [by eapply dirs_alias_ok|]. constructor; [|done]. by exists a. }
  destruct (started_new _ _ _ S1 (GroupInfo_create a t) a) as [b Hb]; [rewrite Hp; set_solver|done|].
  destruct (proj1 (H1 a b) Hb) as [t' Ht']. exists c1, c2, s, b. split_and!; try done.
  - rewrite Ht'. destruct (started_from _ _ _ S1 a t') as [Hn|(gi & Hin & Hg & <-)];
      [by eapply list_elem_of_lookup_2|by apply elem_of_nil in Hn|]. rewrite Hp in Hin.
    apply elem_of_app in Hin as [Hin|Hin%list_elem_of_singleton]; [by apply Hoth in Hin|by subst gi].
  - specialize (H2 b). apply lookup_lt_Some, Nat.ltb_lt in Ht'. rewrite Ht' in H2. unfold inits in H2. by rewrite Et in H2.
Qed.
End facade.

(** ** The sibling's side *)

Section outbound.
Context {St : Type} `{STO : !Storage GradidoRecord St}.
(** The bytes of a payload, and those of a checksum line at its size. *)
Context (payload_bytes : GradidoRecord -> bytes) (checksum_bytes : bytes -> bytes).
Abbreviation L := (Base GradidoRecord St BlockchainGradido).

(** [get_block_record] into an [OutboundTransaction]; a zeroed line that is
    not empty leaves the data as they were. *)
Definition outbound_of (rec : Rec GradidoRecord) (last : OutboundTransaction) : OutboundTransaction :=
  mkOutbound true
    match rec_u rec with
    | UPayload p => payload_bytes p
    | UChecksum c => checksum_bytes c
    | UZero => ob_data last
    end.

(** [OutboundProvider] of a request; [found]: [get_group_blockchain] knows the
    group. *)
Definition OutboundProvider (found : bool) (req : OutboundTransactionDescriptor) : Provider L unit OutboundTransaction :=
  mkProvider
    (fun ctx => ret ctx)
    (fun ctx writes_done reply =>
       let failed := mkOutbound false (ob_data reply) in
       if (0 <? writes_done)%N then ret (failed, ctx)
       else
         let hti := translate_Timestamp_from_pb (otd_paired_transaction_id req) in
         if negb found then ret (failed, ctx)
         else
           let! o := get_paired_transaction hti in
           match o with
           | None => ret (failed, ctx)
           | Some seq_num =>
               let! rec := get_block_record seq_num in
               match rec with
               | None => ret (failed, ctx)
               | Some rec => ret (outbound_of rec reply, ctx)
               end
           end)
    ob_success.

Context (rep : St -> list (list GradidoRecord * bytes) -> Prop) `{!StorageLaws rep}.

(** A sibling answers a request for a pair it has indexed with the bytes
    of that record and the end of the stream, any other request with a
    refusal; but the bytes are those of the payload, and the node that asked
    copies them over a whole record, so that it reads the payload without its
    first byte and with a null after it. *)
Theorem outbound_answered (b : L) bs req i p reply :
  rep (b_storage b) bs -> (N.of_nat i / GRADIDO_BLOCK_SIZE < 2 ^ 32)%N ->
  all_records BLOCK bs !! i = Some (payload_rec p) -> length (payload_bytes p) = sizeof_GradidoRecord ->
  (outbound_transactions (b_child b) !! otd_hti req = Some (N.of_nat i) ->
    Server.answers (OutboundProvider true req) 2 None 0 reply b
    = Some [mkOutbound true (payload_bytes p); mkOutbound false (payload_bytes p)])
  /\ (outbound_transactions (b_child b) !! otd_hti req = None ->
    Server.answers (OutboundProvider true req) 2 None 0 reply b = Some [mkOutbound false (ob_data reply)])
  /\ Server.answers (OutboundProvider false req) 2 None 0 reply b = Some [mkOutbound false (ob_data reply)]
  /\ copied_payload (payload_bytes p) = Some (drop 1 (payload_bytes p) ++ [0%Z]).
Proof.
  intros Hrep Hi Hr Hlen. split_and!.
  - intros Ho. cbn [Server.answers OutboundProvider p_new p_run p_success N.ltb N.compare negb]. unfold ret at 1.
    unfold bind at 1, get_paired_transaction, gets. fold (otd_hti req). rewrite Ho.
    destruct (get_block_record_correct rep b bs i Hrep Hi) as (s' & E & _). rewrite Hr in E.
    rewrite (bind_Ret _ _ _ _ _ E). done.
  - intros Ho. cbn [Server.answers OutboundProvider p_new p_run p_success N.ltb N.compare negb]. unfold ret at 1.
    unfold bind at 1, get_paired_transaction, gets. fold (otd_hti req). by rewrite Ho.
  - done.
  - unfold copied_payload, c_str_read, sizeof_Record. rewrite (proj2 (Nat.leb_le _ _)) by lia. cbn [fmap option_fmap option_map].
    rewrite <- Hlen, take_ge by (rewrite length_app; cbn; lia).
    rewrite drop_app_le; [done|]. rewrite Hlen. apply le_n_S, Nat.le_0_l.
Qed.
End outbound.

(** ** Witnesses *)

Definition demo_rng (r n : nat) : nat * nat := ((r mod n)%nat, S r).
Definition demo_transaction_of (b : bytes) : Transaction := Transaction_zero.
Definition demo_hti : HederaTimestamp := mkHederaTimestamp 7 0.
Definition demo_node : Facade nat := Facade_new [] [endpoint_ab] 0%nat.
Definition demo_otd : OutboundTransactionDescriptor := mkOTD [66%Z] (pb.mkTimestamp 7 0).
Definition demo_waiting : Facade nat :=
  set_requests [(endpoint_ab, demo_otd)] (set_waiting_map {[demo_hti := mkPTD 0 demo_otd]} (set_rng 1%nat demo_node)).
(** A refusal came; the question is to be repeated. *)
Definition demo_refused : Facade nat :=
  set_tasks [(TryPairedAgainTask (mkOutbound false []) demo_otd, 1%N)] (set_requests [] demo_waiting).
Definition demo_gi : GroupInfo := GroupInfo_create [97; 98; 99]%Z topic5.
Definition demo_opened : Facade nat :=
  set_tasks [(InitGroupBlockchain 0, 0%N)] (set_blockchains {[ [97; 98; 99]%Z := 0%nat ]} [([97; 98; 99]%Z, topic5)] demo_node).

Lemma demo_asked_refused_soundly : rtc (sound_step demo_rng demo_transaction_of) demo_node demo_refused.
Proof.
  apply rtc_l with demo_waiting; [apply (StAsk _ _ [66%Z] 0 demo_hti); reflexivity|].
  apply rtc_once. apply (StAnswer _ _ [] endpoint_ab demo_otd [] [mkOutbound false []]); [reflexivity| |reflexivity].
  left. by exists (mkOutbound false []).
Qed.
Lemma demo_asked_refused : rtc (step demo_rng demo_transaction_of) demo_node demo_refused.
Proof. eapply rtc_subrel; [|exact demo_asked_refused_soundly]. intros x y. apply StSound. Qed.

(** The call breaks off. *)
Definition demo_broken : Facade nat := set_requests [] demo_waiting.
Lemma demo_asked_broken : rtc (step demo_rng demo_transaction_of) demo_node demo_broken.
Proof.
  apply rtc_l with demo_waiting; [apply StSound, (StAsk _ _ [66%Z] 0 demo_hti); reflexivity|].
  apply rtc_once. apply (StBroken _ _ [] endpoint_ab demo_otd [] [mkOutbound false []] []);
    [reflexivity|left; by exists (mkOutbound false [])|by eexists|reflexivity].
Qed.
Lemma demo_broken_unpursued : ~ pursued demo_broken demo_hti.
Proof. intros [(r & H & _)|(x & H & _)]; inversion H. Qed.

Lemma pair_pursued_witness :
  pursued demo_refused demo_hti
  /\ forall s', rtc (step demo_rng demo_transaction_of) demo_broken s' ->
       waiting s' !! demo_hti = Some (mkPTD 0 demo_otd) /\ ~ pursued s' demo_hti.
Proof.
  split.
  - exact (proj1 (proj2 (proj1 (pair_pursued demo_rng demo_transaction_of [] [endpoint_ab] 0%nat demo_refused demo_hti
      (mkPTD 0 demo_otd) ltac:(discriminate) ltac:(reflexivity)) demo_asked_refused_soundly))).
  - exact (proj2 (pair_pursued demo_rng demo_transaction_of [] [endpoint_ab] 0%nat demo_broken demo_hti
      (mkPTD 0 demo_otd) ltac:(discriminate) ltac:(reflexivity)) demo_asked_broken demo_broken_unpursued).
Defined.

Lemma pair_never_delivered_witness :
  waiting demo_node ⊆ waiting demo_refused
  /\ (OnPairedTransactionDone 0 Transaction_zero ∈ calls demo_refused -> OnPairedTransactionDone 0 Transaction_zero ∈ calls demo_node)
  /\ on_paired_transaction demo_transaction_of (mkOutbound true []) demo_otd demo_refused = Undef.
Proof.
  exact (pair_never_delivered _ _ _ _ 0 Transaction_zero (mkOutbound true []) demo_otd demo_asked_refused).
Defined.

Lemma demo_opens : rtc (step demo_rng demo_transaction_of) demo_node demo_opened.
Proof. apply rtc_once. apply StSound, (StCreate _ _ demo_gi (Some 0%nat)). vm_compute. reflexivity. Qed.

Lemma blockchain_opened_once_witness :
  (exists t, objects demo_opened !! 0%nat = Some ([97; 98; 99]%Z, t))
  /\ (forall a', blockchains demo_opened !! a' = Some 0%nat -> a' = [97; 98; 99]%Z)
  /\ (length (List.filter (is_init 0) (tasks demo_opened)) + length (List.filter (is_called 0) (calls demo_opened)) = 1)%nat
  /\ (forall gi, field_string (gi_alias gi) = Some [97; 98; 99]%Z -> create_group_blockchain gi demo_opened = Ret None demo_opened).
Proof. exact (blockchain_opened_once _ _ [] [endpoint_ab] 0%nat demo_opened [97; 98; 99]%Z 0%nat demo_opens eq_refl). Defined.

Lemma added_group_served_witness :
  exists c1 c2 s b, add_blockchain demo_gi conf_empty = Ret tt c1 /\ conf_init (restarted [name_abc] c1) = Ret tt c2
    /\ bind (run demo_rng demo_transaction_of ContinueFacadeInit)
         (fun _ => run_tasks demo_rng demo_transaction_of (length (conf_gis c2) + length (conf_gis c2)))
         (Facade_new (conf_gis c2) [endpoint_ab] 0%nat) = Ret tt s
    /\ blockchains s !! [97; 98; 99]%Z = Some b /\ objects s !! b = Some ([97; 98; 99]%Z, topic5)
    /\ tasks s = [] /\ length (List.filter (is_called b) (calls s)) = 1%nat.
Proof.
  apply (added_group_served demo_rng demo_transaction_of conf_empty [97; 98; 99]%Z topic5 [] [name_abc] name_abc [endpoint_ab] 0%nat);
    [small_word|small_topic|vm_compute; lia|reflexivity| |vm_compute; reflexivity|apply not_elem_of_nil|reflexivity].
  intros gi H. by apply elem_of_nil in H.
Defined.

Definition demo_payload_bytes (r : GradidoRecord) : bytes := replicate sizeof_GradidoRecord 7%Z.
Definition demo_pair_ledger : Base GradidoRecord LSt BlockchainGradido :=
  demo_ledger (set_outbound {[demo_hti := 0%N]} demo_index) demo_ledger_chain.

Lemma outbound_answered_witness :
  (outbound_transactions (b_child demo_pair_ledger) !! otd_hti demo_otd = Some 0%N ->
    Server.answers (OutboundProvider (STO := demo_ledger_storage) demo_payload_bytes id true demo_otd) 2 None 0 (mkOutbound false []) demo_pair_ledger
    = Some [mkOutbound true (replicate sizeof_GradidoRecord 7%Z); mkOutbound false (replicate sizeof_GradidoRecord 7%Z)])
  /\ copied_payload (replicate sizeof_GradidoRecord 7%Z) = Some (drop 1 (replicate sizeof_GradidoRecord 7%Z) ++ [0%Z]).
Proof.
  destruct (outbound_answered (STO := demo_ledger_storage) demo_payload_bytes id Blockchain_rep (StorageLaws0 := demo_ledger_laws)
    demo_pair_ledger [demo_ledger_block] demo_otd 0 (GR_transaction (demo_tr 5 (TB_other 0))) (mkOutbound false []))
    as (H1 & _ & _ & H4); [exact demo_ledger_rep|reflexivity|reflexivity|apply length_replicate|].
  split; [exact H1|exact H4].
Defined.
