(* ===== verification/Layout.v ===== *)
(** * Records as they lie in memory and in files (blockchain_gradido_def.h)

    A format for every packed struct, from the timestamps up to a line of a
    block: fields and base classes in the order of their declaration, unions
    by the type stored before them.  A line reads back as it was written, and
    so does a file of lines; and what a node makes of a pair it was sent is
    computed byte by byte. *)

From stdpp Require Import base gmap list strings numbers.
From Stdlib Require Import ZArith Lia.
From S2P Require Import Prelude GradidoDef Packed FileTile Fnr Blockchain BlockchainBase GroupRegister SubclusterBlockchain BlockchainGradido Translate Facades.
Local Open Scope Z_scope.
Local Open Scope node_scope.
Set Default Proof Using "Type".

(** ** Values, timestamps, ledger addresses *)

Definition GradidoValue_format : Format GradidoValue :=
  struct (fun '(a, d) => mkGradidoValue a d) (fun v => (amount v, decimal_amount v)) (uint 8 ** uint 4).
Definition HederaTimestamp_format : Format HederaTimestamp :=
  struct (fun '(s, n) => mkHederaTimestamp s n) (fun t => (seconds t, nanos t)) (sint 8 ** sint 4).
Definition HederaAccountID_format : Format HederaAccountID :=
  struct (fun '(s, (r, n)) => mkHederaAccountID s r n) (fun a => (acc_shardNum a, (acc_realmNum a, acc_accountNum a)))
    (sint 8 ** sint 8 ** sint 8).
Definition HederaTopicID_format : Format HederaTopicID :=
  struct (fun '(s, (r, n)) => mkHederaTopicID s r n)
    (fun a => (topic_shardNum a, (topic_realmNum a, topic_topicNum a))) (sint 8 ** sint 8 ** sint 8).
Definition HederaTransactionID_format : Format HederaTransactionID :=
  struct (fun '(t, a) => mkHederaTransactionID t a) (fun i => (transactionValidStart i, accountID i))
    (HederaTimestamp_format ** HederaAccountID_format).
Definition HederaTransaction_format : Format HederaTransaction :=
  struct (fun '(t, (h, (n, v))) => mkHederaTransaction t h n v)
    (fun x => (consensusTimestamp x, (runningHash x, (sequenceNumber x, runningHashVersion x))))
    (HederaTimestamp_format ** raw HEDERA_RUNNING_HASH_LENGTH ** uintN 8 ** uint 8).
Definition Signature_format : Format Signature :=
  struct (fun '(k, s) => mkSignature k s) (fun s => (sig_pubkey s, sig_signature s))
    (raw PUB_KEY_LENGTH ** raw SIGNATURE_LENGTH).

#[export] Instance GradidoValue_packed : Packed GradidoValue_format := _.
#[export] Instance HederaTimestamp_packed : Packed HederaTimestamp_format := _.
#[export] Instance HederaAccountID_packed : Packed HederaAccountID_format := _.
#[export] Instance HederaTopicID_packed : Packed HederaTopicID_format := _.
#[export] Instance HederaTransactionID_packed : Packed HederaTransactionID_format := _.
#[export] Instance HederaTransaction_packed : Packed HederaTransaction_format := _.
#[export] Instance Signature_packed : Packed Signature_format := _.

(** ** Bodies of transactions *)

Definition key_format : Format bytes := raw PUB_KEY_LENGTH.
Definition UserState_format : Format UserState :=
  struct (fun '(b, p) => mkUserState b p) (fun s => (new_balance s, prev_transfer_rec_num s))
    (GradidoValue_format ** uintN 8).
Definition UserTransfer_format : Format UserTransfer :=
  struct (fun '(u, s) => mkUserTransfer u s) (fun t => (ut_user t, ut_state t)) (key_format ** UserState_format).
Definition PairedTransaction_format : Format PairedTransaction :=
  struct (fun '(i, g) => mkPairedTransaction i g) (fun p => (paired_transaction_id p, other_group p))
    (HederaTimestamp_format ** key_format).
Definition GradidoCreation_format : Format GradidoCreation :=
  struct (fun '(u, a) => mkGradidoCreation u a) (fun g => (gc_user g, gc_amount g))
    (UserTransfer_format ** GradidoValue_format).
Definition MoveUser_format : Format MoveUser :=
  struct (fun '(u, (p, s)) => mkMoveUser u p s) (fun m => (mu_user m, (mu_paired m, mu_state m)))
    (key_format ** PairedTransaction_format ** UserState_format).
Definition LocalTransfer_format : Format LocalTransfer :=
  struct (fun '(a, (s, r)) => mkLocalTransfer a s r) (fun t => (lt_amount t, (lt_sender t, lt_receiver t)))
    (GradidoValue_format ** UserTransfer_format ** UserTransfer_format).
Definition InboundTransfer_format : Format InboundTransfer :=
  struct (fun '(a, (p, (s, r))) => mkInboundTransfer a p s r)
    (fun t => (it_amount t, (it_paired t, (it_sender t, it_receiver t))))
    (GradidoValue_format ** PairedTransaction_format ** key_format ** UserTransfer_format).
Definition OutboundTransfer_format : Format OutboundTransfer :=
  struct (fun '(a, (p, (s, r))) => mkOutboundTransfer a p s r)
    (fun t => (ot_amount t, (ot_paired t, (ot_sender t, ot_receiver t))))
    (GradidoValue_format ** PairedTransaction_format ** UserTransfer_format ** key_format).

#[export] Instance key_packed : Packed key_format := _.
#[export] Instance UserState_packed : Packed UserState_format := _.
#[export] Instance UserTransfer_packed : Packed UserTransfer_format := _.
#[export] Instance PairedTransaction_packed : Packed PairedTransaction_format := _.
#[export] Instance GradidoCreation_packed : Packed GradidoCreation_format := _.
#[export] Instance MoveUser_packed : Packed MoveUser_format := _.
#[export] Instance LocalTransfer_packed : Packed LocalTransfer_format := _.
#[export] Instance InboundTransfer_packed : Packed InboundTransfer_format := _.
#[export] Instance OutboundTransfer_packed : Packed OutboundTransfer_format := _.

(** The member of the union by the type of the transaction.  A type without
    a handler stands for a union of zeros. *)
Definition body_member (type : Z) : Format TransactionBody :=
  if type =? 1 then seen (fun x => Some (TB_gradido_creation x))
    (fun b => match b with TB_gradido_creation x => Some x | _ => None end) GradidoCreation_format
  else if type =? 2 then seen (fun x => Some (TB_add_group_friend x))
    (fun b => match b with TB_add_group_friend x => Some x | _ => None end) key_format
  else if type =? 3 then seen (fun x => Some (TB_remove_group_friend x))
    (fun b => match b with TB_remove_group_friend x => Some x | _ => None end) key_format
  else if type =? 4 then seen (fun x => Some (TB_add_user x))
    (fun b => match b with TB_add_user x => Some x | _ => None end) key_format
  else if type =? 5 then seen (fun x => Some (TB_move_user_inbound x))
    (fun b => match b with TB_move_user_inbound x => Some x | _ => None end) MoveUser_format
  else if type =? 6 then seen (fun x => Some (TB_move_user_outbound x))
    (fun b => match b with TB_move_user_outbound x => Some x | _ => None end) MoveUser_format
  else if type =? 7 then seen (fun x => Some (TB_local_transfer x))
    (fun b => match b with TB_local_transfer x => Some x | _ => None end) LocalTransfer_format
  else if type =? 8 then seen (fun x => Some (TB_inbound_transfer x))
    (fun b => match b with TB_inbound_transfer x => Some x | _ => None end) InboundTransfer_format
  else if type =? 9 then seen (fun x => Some (TB_outbound_transfer x))
    (fun b => match b with TB_outbound_transfer x => Some x | _ => None end) OutboundTransfer_format
  else seen (fun _ => Some (TB_other type))
    (fun b => match b with TB_other c => if c =? type then Some tt else None | _ => None end) nothing.

#[export] Instance body_member_packed type : Packed (body_member type).
Proof.
  unfold body_member. repeat (destruct (type =? _); [apply _|]). apply seen_packed; [|apply _].
  intros [] [| | | | | | | | |c]; try done. destruct (Z.eqb_spec c type) as [->|]; split; congruence.
Qed.

(** ** Transactions and lines of a ledger *)

Definition sizeof_body : nat :=
  foldr Nat.max O [fm_size GradidoCreation_format; fm_size key_format; fm_size MoveUser_format;
                   fm_size LocalTransfer_format; fm_size InboundTransfer_format; fm_size OutboundTransfer_format;
                   sizeof_GradidoHeader].

Definition TransactionCommonHeader_format : Format (Z * (Z * (HederaTimestamp * HederaTransaction))) :=
  uint 4 ** uint 4 ** HederaTimestamp_format ** HederaTransaction_format.

Definition all_results : list TransactionResult :=
  [SUCCESS; UNKNOWN; NOT_ENOUGH_GRADIDOS; UNKNOWN_LOCAL_USER; UNKNOWN_REMOTE_USER; UNKNOWN_GROUP;
   OUTBOUND_TRANSACTION_FAILED; USER_ALREADY_EXISTS; GROUP_IS_ALREADY_FRIEND; GROUP_IS_NOT_FRIEND].
Definition TransactionResult_format : Format TransactionResult := enumeration all_results TransactionResult_code.

Definition Transaction_format : Format Transaction :=
  struct (fun '((v, (p, (i, h))), (s, (n, (b, (r, m))))) => mkTransaction v p i h s n b r m)
    (fun t => ((version_number t, (parts t, (transaction_id t, hedera_transaction t))),
               (signature t, (signature_count t, (body t, (tr_result t, memo t))))))
    (TransactionCommonHeader_format ** Signature_format ** uint 1
     ** variant sizeof_body transaction_type body_member ** TransactionResult_format ** raw MEMO_MAIN_SIZE).

Definition StructurallyBadMessage_format : Format StructurallyBadMessage :=
  struct (fun '((v, (p, (i, h))), (r, (l, h'))) => mkStructurallyBadMessage v p i h r l h')
    (fun m => ((sbm_version_number m, (sbm_parts m, (sbm_transaction_id m, sbm_header_hedera_transaction m))),
               (sbm_result m, (sbm_length m, sbm_hedera_transaction m))))
    (TransactionCommonHeader_format ** uint 1 ** uint 8 ** HederaTransaction_format).

Definition GradidoRecord_code (r : GradidoRecord) : Z := GradidoRecordType_code (record_type r).
Definition record_member (type : Z) : Format GradidoRecord :=
  if type =? 0 then seen (fun _ => Some GR_blank) (fun r => match r with GR_blank => Some tt | _ => None end) nothing
  else if type =? 1 then seen (fun t => Some (GR_transaction t))
    (fun r => match r with GR_transaction t => Some t | _ => None end) Transaction_format
  else if type =? 2 then seen (fun m => Some (GR_memo m))
    (fun r => match r with GR_memo m => Some m | _ => None end) (raw MEMO_PART_SIZE)
  else if type =? 3 then seen (fun l => Some (GR_signatures l))
    (fun r => match r with GR_signatures l => Some l | _ => None end) (array SIGNATURES_PER_RECORD Signature_format)
  else if type =? 4 then seen (fun m => Some (GR_structurally_bad_message m))
    (fun r => match r with GR_structurally_bad_message m => Some m | _ => None end) StructurallyBadMessage_format
  else if type =? 5 then seen (fun m => Some (GR_raw_message m))
    (fun r => match r with GR_raw_message m => Some m | _ => None end) (raw MEMO_PART_SIZE)
  else no_member.
Definition GradidoRecord_format : Format GradidoRecord :=
  variant (sizeof_GradidoRecord - 1) GradidoRecord_code record_member.

#[export] Instance TransactionResult_seen : Seen (enumerator all_results TransactionResult_code)
  (fun r => Some (TransactionResult_code r)).
Proof. apply enumerator_seen. by intros []. Qed.
#[export] Instance TransactionCommonHeader_packed : Packed TransactionCommonHeader_format := _.
#[export] Instance TransactionResult_packed : Packed TransactionResult_format := _.
#[export] Instance Transaction_packed : Packed Transaction_format := _.
#[export] Instance StructurallyBadMessage_packed : Packed StructurallyBadMessage_format := _.
#[export] Instance record_member_packed type : Packed (record_member type).
Proof. unfold record_member. repeat (destruct (type =? _); [apply _|]). apply _. Qed.
#[export] Instance GradidoRecord_packed : Packed GradidoRecord_format := _.

(** ** Lines of the group register *)

Definition GroupRecord_format : Format GroupRecord :=
  struct (fun '(a, (t, (s, (h, g)))) => mkGroupRecord a t s h g)
    (fun r => (gr_alias r, (gr_topic_id r, (gr_success r, (gr_hedera_transaction r, gr_signature r)))))
    (raw GROUP_ALIAS_LENGTH ** HederaTopicID_format ** boolean ** HederaTransaction_format ** Signature_format).
Definition sizeof_GroupRegisterRecord : nat :=
  1 + foldr Nat.max O [fm_size GroupRecord_format; fm_size StructurallyBadMessage_format; MEMO_PART_SIZE].
(** The union is looked at as a group record only. *)
Definition GroupRegisterRecord_format : Format GroupRegisterRecord :=
  struct (fun '(t, g) => mkGroupRegisterRecord t g) (fun r => (grr_type r, grr_group r))
    (uint 1 ** member (sizeof_GroupRegisterRecord - 1) GroupRecord_format).

(** ** Lines of the subcluster blockchain *)

Definition SbHeader_format : Format SbHeader :=
  struct (fun '(n, (t, (k, l))) => mkSbHeader n t k l)
    (fun h => (sbh_subcluster_name h, (sbh_initial_key_type h, (sbh_pub_key h, sbh_ca_pub_key_chain_length h))))
    (raw SB_SUBCLUSTER_NAME_LENGTH ** uint 1 ** key_format ** uint 1).
Definition SbAdmin_format : Format SbAdmin :=
  struct (fun '(k, (n, e)) => mkSbAdmin k n e) (fun a => (sba_pub_key a, (sba_name a, sba_email a)))
    (key_format ** raw SB_ADMIN_NAME_LENGTH ** raw SB_EMAIL_LENGTH).
Definition SbNode_format : Format SbNode :=
  struct (fun '(t, (k, e)) => mkSbNode t k e) (fun n => (sbn_node_type n, (sbn_pub_key n, sbn_endpoint n)))
    (uint 1 ** key_format ** raw SB_ENDPOINT_LENGTH).
Definition SbNodeBlockchain_format : Format SbNodeBlockchain :=
  struct (fun '(n, (b, a)) => mkSbNodeBlockchain n b a)
    (fun x => (snb_node_pub_key x, (snb_blockchain_pub_key x, snb_alias x)))
    (key_format ** key_format ** raw GROUP_ALIAS_LENGTH).
#[export] Instance GroupRecord_packed : Packed GroupRecord_format := _.
#[export] Instance GroupRegisterRecord_packed : Packed GroupRegisterRecord_format := _.
#[export] Instance SbHeader_packed : Packed SbHeader_format := _.
#[export] Instance SbAdmin_packed : Packed SbAdmin_format := _.
#[export] Instance SbNode_packed : Packed SbNode_format := _.
#[export] Instance SbNodeBlockchain_packed : Packed SbNodeBlockchain_format := _.

Definition SbBody_code (b : SbBody) : Z :=
  match b with
  | SBB_header _ => 1 | SBB_add_admin _ => 2 | SBB_add_node _ => 3 | SBB_enable_admin _ => 4
  | SBB_disable_admin _ => 5 | SBB_enable_node _ => 6 | SBB_disable_node _ => 7 | SBB_add_blockchain _ => 8
  | SBB_add_node_to_blockchain _ => 9 | SBB_remove_node_from_blockchain _ => 10 | SBB_signatures _ => 11
  | SBB_other c => c
  end.
Definition sb_member (type : Z) : Format SbBody :=
  if type =? 1 then seen (fun x => Some (SBB_header x))
    (fun b => match b with SBB_header x => Some x | _ => None end) SbHeader_format
  else if type =? 2 then seen (fun x => Some (SBB_add_admin x))
    (fun b => match b with SBB_add_admin x => Some x | _ => None end) SbAdmin_format
  else if type =? 3 then seen (fun x => Some (SBB_add_node x))
    (fun b => match b with SBB_add_node x => Some x | _ => None end) SbNode_format
  else if type =? 4 then seen (fun x => Some (SBB_enable_admin x))
    (fun b => match b with SBB_enable_admin x => Some x | _ => None end) key_format
  else if type =? 5 then seen (fun x => Some (SBB_disable_admin x))
    (fun b => match b with SBB_disable_admin x => Some x | _ => None end) key_format
  else if type =? 6 then seen (fun x => Some (SBB_enable_node x))
    (fun b => match b with SBB_enable_node x => Some x | _ => None end) key_format
  else if type =? 7 then seen (fun x => Some (SBB_disable_node x))
    (fun b => match b with SBB_disable_node x => Some x | _ => None end) key_format
  else if type =? 8 then seen (fun x => Some (SBB_add_blockchain x))
    (fun b => match b with SBB_add_blockchain x => Some x | _ => None end) key_format
  else if type =? 9 then seen (fun x => Some (SBB_add_node_to_blockchain x))
    (fun b => match b with SBB_add_node_to_blockchain x => Some x | _ => None end) SbNodeBlockchain_format
  else if type =? 10 then seen (fun x => Some (SBB_remove_node_from_blockchain x))
    (fun b => match b with SBB_remove_node_from_blockchain x => Some x | _ => None end) SbNodeBlockchain_format
  else if type =? 11 then seen (fun x => Some (SBB_signatures x))
    (fun b => match b with SBB_signatures x => Some x | _ => None end) (array SB_SIGNATURES_PER_RECORD Signature_format)
  else seen (fun _ => Some (SBB_other type))
    (fun b => match b with SBB_other c => if c =? type then Some tt else None | _ => None end) nothing.

Definition sizeof_SbBody : nat :=
  foldr Nat.max O [fm_size SbHeader_format; fm_size SbAdmin_format; fm_size SbNode_format;
                   fm_size SbNodeBlockchain_format; SB_SIGNATURES_PER_RECORD * fm_size Signature_format]%nat.

Definition SbTransactionResult_code (r : SbTransactionResult) : Z :=
  match r with
  | SB_SUCCESS => 0 | DUPLICATE_PUB_KEY => 1 | BAD_ADMIN_SIGNATURE => 2 | NON_MAJORITY => 3
  | DUPLICATE_ALIAS => 4 | NODE_ALREADY_ADDED_TO_BLOCKCHAIN => 5
  end.
Definition all_sb_results : list SbTransactionResult :=
  [SB_SUCCESS; DUPLICATE_PUB_KEY; BAD_ADMIN_SIGNATURE; NON_MAJORITY; DUPLICATE_ALIAS; NODE_ALREADY_ADDED_TO_BLOCKCHAIN].
Definition SbTransactionResult_format : Format SbTransactionResult := enumeration all_sb_results SbTransactionResult_code.

(** The fields before the union; the type is one of them. *)
Definition SbRecord_fields : Format (Z * (HederaTransaction * (Z * (bytes * (Z * SbTransactionResult))))) :=
  uint 4 ** HederaTransaction_format ** uint 1 ** raw SB_MEMO_LENGTH ** uint 1 ** SbTransactionResult_format.
Definition SbRecord_format : Format SbRecord :=
  seen (fun '((v, (h, (t, (m, (n, r))))), b) => if SbBody_code b =? t then Some (mkSbRecord v h b m n r) else None)
    (fun x => Some ((sbr_version_number x, (sbr_hedera_transaction x, (SbBody_code (sbr_body x),
                     (sbr_memo x, (sbr_signature_count x, sbr_result x))))), sbr_body x))
    (tagged SbRecord_fields sizeof_SbBody (fun '(_, (_, (t, _))) => sb_member t)).

#[export] Instance sb_member_packed type : Packed (sb_member type).
Proof.
  unfold sb_member. repeat (destruct (type =? _); [apply _|]). apply seen_packed; [|apply _].
  intros [] b. destruct b as [| | | | | | | | | | |c]; try done.
  destruct (Z.eqb_spec c type) as [->|]; split; congruence.
Qed.
#[export] Instance SbTransactionResult_seen : Seen (enumerator all_sb_results SbTransactionResult_code)
  (fun r => Some (SbTransactionResult_code r)).
Proof. apply enumerator_seen. by intros []. Qed.
#[export] Instance SbTransactionResult_packed : Packed SbTransactionResult_format := _.
#[export] Instance SbRecord_fields_packed : Packed SbRecord_fields := _.
#[export] Instance SbRecord_packed : Packed SbRecord_format.
Proof.
  apply seen_packed; [|apply tagged_packed; [apply _|intros (v & h & t & x); apply _]].
  intros [(v & h & t & m & n & r) b] [v' h' b' m' n' r']. cbn.
  destruct (Z.eqb_spec (SbBody_code b) t) as [<-|Hn]; split; congruence.
Qed.

(** ** Lines of a block ([BlockchainTypes<T>::Record])

    Not declared packed, but made of parts that need no alignment. *)

Section line.
Context {T : Type} (F : Format T) `{!Packed F}.

Definition line_member (type : Z) : Format (rec_union T) :=
  if type =? RecordType_code EMPTY then seen (fun _ => Some UZero)
    (fun u => match u with UZero => Some tt | _ => None end) nothing
  else if type =? RecordType_code PAYLOAD then seen (fun p => Some (UPayload p))
    (fun u => match u with UPayload p => Some p | _ => None end) F
  else if type =? RecordType_code CHECKSUM then seen (fun c => Some (UChecksum c))
    (fun u => match u with UChecksum c => Some c | _ => None end) (raw BLOCKCHAIN_CHECKSUM_SIZE)
  else no_member.
Definition Rec_format : Format (Rec T) :=
  struct (fun '(t, u) => mkRec t u) (fun r => (rec_type r, rec_u r))
    (tagged (uint 1) (Nat.max (fm_size F) BLOCKCHAIN_CHECKSUM_SIZE) line_member).

#[export] Instance line_member_packed type : Packed (line_member type).
Proof using Type*. unfold line_member. repeat (destruct (type =? _); [apply _|]). apply _. Qed.
#[export] Instance Rec_packed : Packed Rec_format := _.

(** A file of lines, from its first byte. *)
Definition file_bytes (recs : list (Rec T)) : bytes := concat (map (fm_put Rec_format) recs).
Definition file_records (l : bytes) : option (list (Rec T)) :=
  get_array Rec_format (length l / fm_size Rec_format) l.
Abbreviation fits := (Forall (fun r => fm_fits Rec_format r = true)).

Lemma length_file_bytes recs : fits recs -> length (file_bytes recs) = (length recs * fm_size Rec_format)%nat.
Proof using Type*.
  induction 1 as [|r recs Hr _ IH]; [done|]. unfold file_bytes in *. cbn [map concat length].
  by rewrite length_app, IH, put_size.
Qed.

Lemma file_bytes_app l1 l2 : file_bytes (l1 ++ l2) = file_bytes l1 ++ file_bytes l2.
Proof. unfold file_bytes. by rewrite map_app, concat_app. Qed.

Lemma zero_line : fm_put Rec_format zero_rec = replicate (fm_size Rec_format) 0.
Proof. cbn. by rewrite Nat.sub_0_r. Qed.
Lemma zero_line_fits : fm_fits Rec_format zero_rec = true.
Proof. done. Qed.

End line.

Section files.
Context {T : Type} (F : Format T) `{!Packed F}.
Abbreviation fits := (Forall (fun r => fm_fits (Rec_format F) r = true)).
Abbreviation LINE := (fm_size (Rec_format F)).

Lemma file_records_put (recs : list (Rec T)) : fits recs -> file_records F (file_bytes F recs) = Some recs.
Proof using Type*.
  intros Hr. assert (0 < LINE)%nat as Hpos by (cbn; lia).
  unfold file_records. rewrite length_file_bytes, Nat.div_mul by (done || lia).
  apply (get_put (F := array (length recs) (Rec_format F))). cbn [fm_fits array].
  rewrite Nat.eqb_refl. cbn [andb]. by apply forallb_all.
Qed.

(** Two files with the same bytes hold the same records. *)
Lemma file_bytes_inj (l1 l2 : list (Rec T)) : fits l1 -> fits l2 -> file_bytes F l1 = file_bytes F l2 -> l1 = l2.
Proof using Type*.
  intros H1 H2 E. apply (inj Some). rewrite <- (file_records_put l1 H1), <- (file_records_put l2 H2). by rewrite E.
Qed.
End files.

(** ** Sizes and zeroed memory *)

(** The formats have the sizes that the translation of messages and the
    facade compute with; a signature record holds three signatures. *)
Theorem formats_have_sizes :
  fm_size GradidoValue_format = sizeof_GradidoValue /\ fm_size HederaTimestamp_format = sizeof_HederaTimestamp
  /\ fm_size HederaTransaction_format = sizeof_HederaTransaction /\ fm_size Signature_format = sizeof_Signature
  /\ fm_size UserTransfer_format = sizeof_UserTransfer /\ fm_size MoveUser_format = sizeof_MoveUser
  /\ fm_size LocalTransfer_format = sizeof_LocalTransfer /\ fm_size InboundTransfer_format = sizeof_InboundTransfer
  /\ fm_size OutboundTransfer_format = sizeof_InboundTransfer
  /\ fm_size Transaction_format = sizeof_Transaction /\ sizeof_Transaction = 351%nat
  /\ fm_size StructurallyBadMessage_format = sizeof_StructurallyBadMessage
  /\ fm_size GradidoRecord_format = sizeof_GradidoRecord /\ sizeof_GradidoRecord = 352%nat
  /\ fm_size (Rec_format GradidoRecord_format) = sizeof_Record
  /\ fm_size GroupRegisterRecord_format = 352%nat /\ fm_size SbRecord_format = 1299%nat.
Proof. split_and!; reflexivity. Qed.

(** Memory set to zero is the value the constructors mean: each of the
    records the program blanks with [ZERO_THIS], and a line of a block. *)
Theorem zeroed_memory_is_zero :
  fm_put Transaction_format Transaction_zero = replicate (fm_size Transaction_format) 0
  /\ fm_get Transaction_format (replicate (fm_size Transaction_format) 0) = Some Transaction_zero
  /\ fm_get GradidoRecord_format (replicate (fm_size GradidoRecord_format) 0) = Some GR_blank
  /\ fm_get GroupRegisterRecord_format (replicate (fm_size GroupRegisterRecord_format) 0)
     = Some (mkGroupRegisterRecord 0 GroupRecord_zero)
  /\ fm_get SbRecord_format (replicate (fm_size SbRecord_format) 0) = Some SbRecord_zero
  /\ fm_get (Rec_format GradidoRecord_format) (replicate sizeof_Record 0) = Some zero_rec.
Proof. split_and!; vm_compute; reflexivity. Qed.

(** What the store puts into the checksum of a record ([record_bytes]) is
    the image of its line. *)
Lemma line_image {T} (F : Format T) p :
  (BLOCKCHAIN_CHECKSUM_SIZE <= fm_size F)%nat ->
  fm_put (Rec_format F) (payload_rec p) = record_bytes (fm_put F) (payload_rec p).
Proof.
  intros H. transitivity ((1 :: fm_put F p) ++ replicate (Nat.max (fm_size F) BLOCKCHAIN_CHECKSUM_SIZE - fm_size F) 0).
  - cbn -[Nat.max]. reflexivity.
  - rewrite Nat.max_l, Nat.sub_diag, app_nil_r by done. reflexivity.
Qed.

Lemma line_fits {T} (F : Format T) p : fm_fits F p = true -> fm_fits (Rec_format F) (payload_rec p) = true.
Proof.
  intros H. cbn -[Nat.max Nat.leb]. rewrite H, andb_true_r. apply Nat.leb_le. lia.
Qed.

(** A record that fits its struct, and the line that holds it, read back
    from their bytes as they were written, and have the size of the struct. *)
Definition reads_back {T} (F : Format T) : Prop :=
  forall p, fm_fits F p = true ->
    fm_get F (fm_put F p) = Some p /\ length (fm_put F p) = fm_size F
    /\ fm_get (Rec_format F) (record_bytes (fm_put F) (payload_rec p)) = Some (payload_rec p)
    /\ length (record_bytes (fm_put F) (payload_rec p)) = S (fm_size F).

Lemma packed_reads_back {T} (F : Format T) `{!Packed F} :
  (BLOCKCHAIN_CHECKSUM_SIZE <= fm_size F)%nat -> reads_back F.
Proof.
  intros Hs p H. pose proof (line_fits F p H) as Hf. rewrite <- (line_image F p Hs).
  split_and!; [by apply get_put|by apply put_size|by apply get_put|].
  rewrite put_size by done. cbn [fm_size Rec_format struct seen tagged uint]. rewrite Nat.max_l by done. done.
Qed.

(** This holds for the records of all three kinds of blockchain. *)
Theorem records_read_back :
  reads_back GradidoRecord_format /\ reads_back GroupRegisterRecord_format /\ reads_back SbRecord_format.
Proof. split_and!; apply packed_reads_back; try apply _; apply Nat.leb_le; reflexivity. Qed.

(** ** A pair as the node that asked for it finds it in memory

    [on_paired_transaction] copies the bytes of a payload over a line
    ([Facades.copied_payload]) and takes the transaction of its payload. *)

Definition field_at {A} (n : nat) (F : Format A) (l : bytes) : option A := fm_get F (take (fm_size F) (drop n l)).
Definition type_at : nat := fm_size TransactionCommonHeader_format + fm_size Signature_format + 1.
Definition union_at : nat := S type_at.

(** The test of [is_outbound_transfer] and of [is_move_outbound] on the
    bytes of a transaction. *)
Definition pair_in_memory (type : TransactionType) (pair_at : nat) (id : HederaTimestamp) (t : bytes) : bool :=
  match field_at type_at (uint 1) t, field_at (union_at + pair_at) HederaTimestamp_format t with
  | Some c, Some i => (c =? TransactionType_code type) && HederaTimestamp_eqb i id
  | _, _ => false
  end.
Definition outbound_in_memory : HederaTimestamp -> bytes -> bool :=
  pair_in_memory OUTBOUND_TRANSFER (fm_size GradidoValue_format).
Definition move_in_memory : HederaTimestamp -> bytes -> bool := pair_in_memory MOVE_USER_OUTBOUND PUB_KEY_LENGTH.

Definition paired_memory (data : bytes) : option bytes := drop 1 <$> copied_payload data.

(** The bytes of a transaction around its type. *)
Definition before_type (t : Transaction) : bytes :=
  fm_put TransactionCommonHeader_format (version_number t, (parts t, (transaction_id t, hedera_transaction t)))
  ++ fm_put Signature_format (signature t) ++ fm_put (uint 1) (signature_count t).
Definition after_union (t : Transaction) : bytes :=
  fm_put TransactionResult_format (tr_result t) ++ memo t.

Lemma transaction_parts_fit t :
  fm_fits Transaction_format t = true ->
  length (before_type t) = type_at
  /\ fm_fits (uint 1) (transaction_type (body t)) = true
  /\ fm_fits (member sizeof_body (body_member (transaction_type (body t)))) (body t) = true
  /\ length (after_union t) = S MEMO_MAIN_SIZE.
Proof.
  cbn [fm_fits Transaction_format struct seen followed variant tagged fst snd].
  rewrite !andb_true_iff. intros (Hh & Hs & Hn & [Hc Hb] & Hr & Hm). split_and!; [|done|done|].
  - unfold before_type, type_at. rewrite !length_app, put_size by done. rewrite (put_size _ Hs), (put_size _ Hn). done.
  - unfold after_union. rewrite length_app, (put_size _ Hr). by apply andb_true_iff in Hm as [->%Nat.eqb_eq _].
Qed.

Lemma transaction_bytes t :
  fm_put Transaction_format t
  = before_type t ++ fm_put (uint 1) (transaction_type (body t))
    ++ fm_put (member sizeof_body (body_member (transaction_type (body t)))) (body t) ++ after_union t.
Proof.
  unfold before_type, after_union. rewrite <- !(assoc_L (++)). cbn [fm_put Transaction_format struct seen followed variant tagged fst snd].
  rewrite <- !(assoc_L (++)). reflexivity.
Qed.

Lemma take_drop_middle' {A} (a b c : list A) n m :
  length a = n -> length b = m -> take m (drop n (a ++ b ++ c)) = b.
Proof. intros <- <-. by rewrite drop_app_length, take_app_length. Qed.

(** A field after [pre] bytes is read as it was written. *)
Lemma field_at_put {A} (F : Format A) `{!Packed F} pre a post n :
  length pre = n -> fm_fits F a = true -> field_at n F (pre ++ fm_put F a ++ post) = Some a.
Proof. intros Hn H. unfold field_at. rewrite take_drop_middle' by (done || by apply put_size). by apply get_put. Qed.

Lemma shifted_seconds s d c : 0 <= d -> d < s -> s < 2 ^ 55 -> s <> swrap 64 (d + 2 ^ 56 * c).
Proof.
  intros H1 H2 H3 E. unfold swrap in E. change (2 ^ (64 - 1)) with (2 ^ 63) in E.
  pose proof (Z.div_mod (d + 2 ^ 56 * c + 2 ^ 63) (2 ^ 64) ltac:(lia)) as Hq.
  set (r := _ mod 2 ^ 64) in *. set (q := _ / 2 ^ 64) in *. clearbody r q. assert (2 ^ 56 * (c - 256 * q) = s - d) by lia. lia.
Qed.

(** One byte further on, the seconds lose their lowest byte and get one of
    the nanoseconds on top. *)
Lemma shifted_timestamp pre i post n :
  length pre = n -> post <> [] -> 0 < seconds i < 2 ^ 55 ->
  match field_at n HederaTimestamp_format (drop 1 (pre ++ fm_put HederaTimestamp_format i ++ post)) with
  | Some i' => HederaTimestamp_eqb i' i = false
  | None => False
  end.
Proof.
  intros Hn Hp Hs. destruct post as [|q post]; [done|].
  unfold field_at. rewrite drop_drop, Nat.add_comm, <- drop_drop, <- Hn, drop_app_length.
  destruct i as [s z]. cbn [seconds] in Hs.
  change (fm_put HederaTimestamp_format (mkHederaTimestamp s z)) with (le_bytes 8 s ++ le_bytes 4 z).
  cbn [le_bytes app drop fm_size HederaTimestamp_format struct seen followed sint take Nat.add].
  cbn [fm_get struct seen followed sint mbind option_bind fm_size take drop].
  unfold HederaTimestamp_eqb. cbn [seconds nanos]. apply andb_false_iff. left. apply Z.eqb_neq.
  assert (0 <= s / 256 < 2 ^ 55) as Hd by (split; [apply Z.div_pos|apply Z.div_lt_upper_bound]; lia).
  assert (s / 256 < s) as Hlt by (apply Z.div_lt; lia).
  set (v := swrap _ _). intros E.
  assert (v = swrap 64 (s / 256 + 2 ^ 56 * (z mod 256))) as Ev.
  { unfold v. change (bits 8) with 64. f_equal.
    change (le_value (le_bytes 7 (s / 256) ++ [z mod 256]) = s / 256 + 2 ^ 56 * (z mod 256)).
    rewrite le_value_app, le_value_bytes, length_le_bytes. change (bits 7) with 56. rewrite Z.mod_small by lia. cbn [le_value]. lia. }
  rewrite Ev in E. cbn [seconds] in E. by apply (shifted_seconds s (s / 256) (z mod 256)); [lia..|].
Qed.

(** The type and the time stamp of the pair, read from a transaction. *)
Lemma pair_in_memory_put type at_ id t mid i post :
  fm_fits Transaction_format t = true -> length mid = at_ -> fm_fits HederaTimestamp_format i = true ->
  fm_put (member sizeof_body (body_member (transaction_type (body t)))) (body t)
  = mid ++ fm_put HederaTimestamp_format i ++ post ->
  pair_in_memory type at_ id (fm_put Transaction_format t)
  = (transaction_type (body t) =? TransactionType_code type) && HederaTimestamp_eqb i id.
Proof.
  intros Hf Hm Hi E. destruct (transaction_parts_fit t Hf) as (Hb & Ht & _ & _).
  unfold pair_in_memory. rewrite transaction_bytes, (field_at_put _ _ _ _ _ Hb Ht), E.
  assert (forall a b c d e : bytes, a ++ b ++ (c ++ d ++ e) ++ after_union t = (a ++ b ++ c) ++ d ++ e ++ after_union t) as ->
    by (intros; by rewrite <- !(assoc_L (++))).
  rewrite (field_at_put HederaTimestamp_format); [done| |done]. rewrite !length_app, Hb, (put_size _ Ht), Hm. unfold union_at. cbn [fm_size uint]. lia.
Qed.

Lemma pair_in_memory_shifted type at_ t mid i post :
  fm_fits Transaction_format t = true -> length mid = at_ -> 0 < seconds i < 2 ^ 55 ->
  fm_put (member sizeof_body (body_member (transaction_type (body t)))) (body t)
  = mid ++ fm_put HederaTimestamp_format i ++ post ->
  pair_in_memory type at_ i (drop 1 (fm_put Transaction_format t ++ [0])) = false.
Proof.
  intros Hf Hm Hs E. destruct (transaction_parts_fit t Hf) as (Hb & Ht & _ & Ha).
  unfold pair_in_memory. destruct (field_at type_at (uint 1) _) as [c|]; [|done].
  rewrite transaction_bytes, E.
  assert (forall a b c d e : bytes, (a ++ b ++ (c ++ d ++ e) ++ after_union t) ++ [0]
          = (a ++ b ++ c) ++ d ++ (e ++ after_union t ++ [0])) as -> by (intros; by rewrite <- !(assoc_L (++))).
  pose proof (shifted_timestamp (before_type t ++ fm_put (uint 1) (transaction_type (body t)) ++ mid) i
    (post ++ after_union t ++ [0]) (union_at + at_)) as Hsh.
  destruct (field_at _ HederaTimestamp_format _) as [i'|]; [|done]. rewrite Hsh; [apply andb_false_r| |by destruct post, (after_union t)|done].
  rewrite !length_app, Hb, (put_size _ Ht), Hm. unfold union_at. cbn [fm_size uint]. lia.
Qed.

Lemma pair_in_memory_other type at_ id t :
  fm_fits Transaction_format t = true -> transaction_type (body t) <> TransactionType_code type ->
  pair_in_memory type at_ id (fm_put Transaction_format t) = false.
Proof.
  intros Hf Hne. destruct (transaction_parts_fit t Hf) as (Hb & Ht & _ & _).
  unfold pair_in_memory. rewrite transaction_bytes, (field_at_put _ _ _ _ _ Hb Ht).
  destruct (field_at _ HederaTimestamp_format _); [|done]. by rewrite (proj2 (Z.eqb_neq _ _)).
Qed.

(** Where the time stamp lies in the union. *)
Lemma outbound_bytes ot :
  fm_put (member sizeof_body (body_member 9)) (TB_outbound_transfer ot)
  = fm_put GradidoValue_format (ot_amount ot) ++ fm_put HederaTimestamp_format (paired_transaction_id (ot_paired ot))
    ++ other_group (ot_paired ot) ++ fm_put (UserTransfer_format ** key_format) (ot_sender ot, ot_receiver ot).
Proof.
  cbn [fm_put member body_member Z.eqb Pos.eqb seen OutboundTransfer_format struct followed PairedTransaction_format fst snd].
  change (replicate (sizeof_body - _) 0) with (@nil Z). rewrite app_nil_r. by rewrite <- !(assoc_L (++)).
Qed.
Lemma move_bytes mu :
  fm_put (member sizeof_body (body_member 6)) (TB_move_user_outbound mu)
  = mu_user mu ++ fm_put HederaTimestamp_format (paired_transaction_id (mu_paired mu))
    ++ (other_group (mu_paired mu) ++ fm_put UserState_format (mu_state mu))
       ++ replicate (sizeof_body - fm_size MoveUser_format) 0.
Proof.
  cbn [fm_put member body_member Z.eqb Pos.eqb seen MoveUser_format struct followed PairedTransaction_format fst snd].
  change (replicate (sizeof_body - _) 0) with (replicate (sizeof_body - fm_size MoveUser_format) 0).
  by rewrite <- !(assoc_L (++)).
Qed.

Lemma outbound_parts t ot :
  fm_fits Transaction_format t = true -> body t = TB_outbound_transfer ot ->
  length (fm_put GradidoValue_format (ot_amount ot)) = fm_size GradidoValue_format
  /\ fm_fits HederaTimestamp_format (paired_transaction_id (ot_paired ot)) = true
  /\ fm_put (member sizeof_body (body_member (transaction_type (body t)))) (body t)
     = fm_put GradidoValue_format (ot_amount ot) ++ fm_put HederaTimestamp_format (paired_transaction_id (ot_paired ot))
       ++ other_group (ot_paired ot) ++ fm_put (UserTransfer_format ** key_format) (ot_sender ot, ot_receiver ot).
Proof.
  intros Hf E. destruct (transaction_parts_fit t Hf) as (_ & _ & Hb & _). rewrite E in *.
  cbn [transaction_type TransactionType_code fm_fits member body_member Z.eqb Pos.eqb seen OutboundTransfer_format struct
       followed PairedTransaction_format fst snd] in Hb.
  rewrite !andb_true_iff in Hb. destruct Hb as (_ & Ha & [Hi _] & _).
  split_and!; [by apply put_size|done|apply outbound_bytes].
Qed.
Lemma move_parts t mu :
  fm_fits Transaction_format t = true -> body t = TB_move_user_outbound mu ->
  length (mu_user mu) = PUB_KEY_LENGTH
  /\ fm_fits HederaTimestamp_format (paired_transaction_id (mu_paired mu)) = true
  /\ fm_put (member sizeof_body (body_member (transaction_type (body t)))) (body t)
     = mu_user mu ++ fm_put HederaTimestamp_format (paired_transaction_id (mu_paired mu))
       ++ (other_group (mu_paired mu) ++ fm_put UserState_format (mu_state mu))
          ++ replicate (sizeof_body - fm_size MoveUser_format) 0.
Proof.
  intros Hf E. destruct (transaction_parts_fit t Hf) as (_ & _ & Hb & _). rewrite E in *.
  cbn [transaction_type TransactionType_code fm_fits member body_member Z.eqb Pos.eqb seen MoveUser_format struct
       followed PairedTransaction_format fst snd] in Hb.
  rewrite !andb_true_iff in Hb. destruct Hb as (_ & Ha & [Hi _] & _).
  split_and!; [exact (put_size (F := key_format) _ Ha)|done|apply move_bytes].
Qed.

(** No other member has the type of a pair. *)
Lemma type_of_pair t :
  fm_fits Transaction_format t = true ->
  (transaction_type (body t) = 9 -> exists ot, body t = TB_outbound_transfer ot)
  /\ (transaction_type (body t) = 6 -> exists mu, body t = TB_move_user_outbound mu).
Proof.
  intros Hf. destruct (transaction_parts_fit t Hf) as (_ & _ & Hb & _).
  split; intros E; rewrite E in Hb; destruct (body t); try discriminate E; eauto; discriminate Hb.
Qed.

(** C14: a node that asks a sibling for the pair of a transaction is sent the
    pair's payload, as it is stored.  Where the transaction lies in these
    bytes the tests of the ledger say what they say of the transaction; but
    in the line the bytes are copied to, one byte further on, the pair that
    was asked for is never recognised, whatever else is in it (its time being
    after 1970 and in the next billion years). *)
Theorem delivered_pair_unrecognised t :
  let data := fm_put GradidoRecord_format (GR_transaction t) in
  fm_fits GradidoRecord_format (GR_transaction t) = true ->
  (forall id, outbound_in_memory id (drop 1 data) = is_outbound_transfer id t
              /\ move_in_memory id (drop 1 data) = is_move_outbound id t)
  /\ exists m, paired_memory data = Some m /\ length m = sizeof_Transaction
     /\ forall id, 0 < seconds id < 2 ^ 55 ->
          (is_outbound_transfer id t = true -> outbound_in_memory id m = false)
          /\ (is_move_outbound id t = true -> move_in_memory id m = false).
Proof.
  intros data Hfit. assert (fm_fits Transaction_format t = true) as Hf by exact Hfit.
  assert (data = 1 :: fm_put Transaction_format t) as Ed by exact (app_nil_r (1 :: fm_put Transaction_format t)).
  clearbody data. subst data. change (drop 1 (1 :: fm_put Transaction_format t)) with (fm_put Transaction_format t).
  pose proof (put_size _ Hf) as Hlen. split.
  - intros id. destruct (type_of_pair t Hf) as [H9 H6]. unfold outbound_in_memory, move_in_memory. split.
    + destruct (decide (transaction_type (body t) = 9)) as [E|E].
      * destruct (H9 E) as [ot Eb]. destruct (outbound_parts t ot Hf Eb) as (Ha & Hi & Ep).
        rewrite (pair_in_memory_put _ _ _ _ _ _ _ Hf Ha Hi Ep). unfold is_outbound_transfer. by rewrite Eb.
      * rewrite pair_in_memory_other by done. unfold is_outbound_transfer. by destruct (body t).
    + destruct (decide (transaction_type (body t) = 6)) as [E|E].
      * destruct (H6 E) as [mu Eb]. destruct (move_parts t mu Hf Eb) as (Ha & Hi & Ep).
        rewrite (pair_in_memory_put _ _ _ _ _ _ _ Hf Ha Hi Ep). unfold is_move_outbound. by rewrite Eb.
      * rewrite pair_in_memory_other by done. unfold is_move_outbound. by destruct (body t).
  - exists (drop 1 (fm_put Transaction_format t ++ [0])). split_and!.
    + unfold paired_memory, copied_payload, c_str_read. cbn [length]. rewrite Hlen. cbn [Nat.leb fmap option_fmap option_map].
      rewrite take_ge; [done|]. rewrite length_app. cbn [length]. rewrite Hlen. apply Nat.leb_le. reflexivity.
    + rewrite length_drop, length_app, Hlen. reflexivity.
    + intros id Hid. split.
      * unfold is_outbound_transfer. destruct (body t) eqn:Eb; try done. intros E.
        apply andb_true_iff in E as [E1%Z.eqb_eq E2%Z.eqb_eq].
        destruct (outbound_parts t ot Hf Eb) as (Ha & _ & Ep).
        assert (paired_transaction_id (ot_paired ot) = id) as <- by (destruct (paired_transaction_id _), id; cbn in *; congruence).
        by eapply pair_in_memory_shifted.
      * unfold is_move_outbound. destruct (body t) eqn:Eb; try done. intros E.
        apply andb_true_iff in E as [E1%Z.eqb_eq E2%Z.eqb_eq].
        destruct (move_parts t mu Hf Eb) as (Ha & _ & Ep).
        assert (paired_transaction_id (mu_paired mu) = id) as <- by (destruct (paired_transaction_id _), id; cbn in *; congruence).
        by eapply pair_in_memory_shifted.
Qed.

(** ** Witnesses *)

Definition demo_full_hedera (n : N) : HederaTransaction :=
  mkHederaTransaction (mkHederaTimestamp 1600000000 5) (replicate HEDERA_RUNNING_HASH_LENGTH 17) n 3.
Definition demo_paired_transaction : PairedTransaction :=
  mkPairedTransaction (mkHederaTimestamp 1600000000 900000123) (replicate PUB_KEY_LENGTH 66).
Definition demo_outbound_body : TransactionBody :=
  TB_outbound_transfer (mkOutboundTransfer (mkGradidoValue 9 500000) demo_paired_transaction
    (mkUserTransfer (replicate PUB_KEY_LENGTH 1) (mkUserState (mkGradidoValue 20 0) 41)) (replicate PUB_KEY_LENGTH 2)).
Definition demo_stored_transaction : Transaction :=
  mkTransaction 1 1 HederaTimestamp_zero (demo_full_hedera 12) Signature_zero 1 demo_outbound_body SUCCESS
    (72 :: replicate (MEMO_MAIN_SIZE - 1) 0).
Definition demo_line : Rec GradidoRecord := payload_rec (GR_transaction demo_stored_transaction).
Definition demo_memo_line : Rec GradidoRecord := payload_rec (GR_memo (replicate MEMO_PART_SIZE 65)).

(** The record as it is in memory, and its line. *)
Lemma records_read_back_witness :
  fm_get (Rec_format GradidoRecord_format)
    (record_bytes (fm_put GradidoRecord_format) demo_line) = Some demo_line.
Proof.
  exact (proj1 (proj2 (proj2 (proj1 records_read_back (GR_transaction demo_stored_transaction)
    (ltac:(vm_compute; reflexivity) : fm_fits GradidoRecord_format (GR_transaction demo_stored_transaction) = true))))).
Defined.

Lemma delivered_pair_unrecognised_witness :
  exists m, paired_memory (fm_put GradidoRecord_format (GR_transaction demo_stored_transaction)) = Some m
    /\ is_outbound_transfer (mkHederaTimestamp 1600000000 900000123) demo_stored_transaction = true
    /\ outbound_in_memory (mkHederaTimestamp 1600000000 900000123) m = false.
Proof.
  destruct (delivered_pair_unrecognised demo_stored_transaction ltac:(vm_compute; reflexivity)) as (_ & m & Hm & _ & H).
  exists m. split; [exact Hm|]. split; [vm_compute; reflexivity|].
  apply (H (mkHederaTimestamp 1600000000 900000123)); [cbn; lia|vm_compute; reflexivity].
Defined.
