(* ===== verification/Stored.v ===== *)
(** * From a message to the bytes of a file

    Messages of the mirror node, with the bytes and the integers protobuf
    gives them, become records that fit their structs, so that what is
    written to the files of a blockchain is what a restart reads from them:
    [Translate], [Layout] and [Blockchain] composed. *)

From stdpp Require Import base gmap list strings numbers.
From Stdlib Require Import ZArith Lia.
From S2P Require Import Prelude GradidoDef Packed FileTile Fnr Blockchain BlockchainBase GroupRegister BlockchainGradido Translate Layout.
Local Open Scope Z_scope.
Local Open Scope node_scope.
Set Default Proof Using "Type".

(** ** What protobuf guarantees of a message

    Fields of type bytes hold bytes, integers are in the range of their
    type. *)

Definition intb (w z : Z) : bool := (- 2 ^ (w - 1) <=? z) && (z <? 2 ^ (w - 1)).
Definition uintb (w z : Z) : bool := (0 <=? z) && (z <? 2 ^ w).
Definition bytesb (l : bytes) : bool := forallb byteb l.

Definition ts_ok (t : pb.Timestamp) : bool := intb 64 (pb.seconds t) && intb 32 (pb.nanos t).
Definition opt_ok {A} (f : A -> bool) (o : option A) : bool := match o with Some a => f a | None => true end.
Definition topic_id_ok (t : pb.TopicID) : bool :=
  intb 64 (pb.top_shardnum t) && intb 64 (pb.top_realmnum t) && intb 64 (pb.top_topicnum t).
Definition response_ok (t : pb.ConsensusTopicResponse) : bool :=
  opt_ok ts_ok (pb.consensustimestamp t) && bytesb (pb.runninghash t)
  && (Z.of_N (pb.sequencenumber t) <? 2 ^ 64) && uintb 64 (pb.runninghashversion t).
Definition signature_ok (p : pb.SignaturePair) : bool := bytesb (pb.pub_key p) && bytesb (pb.get_ed25519 p).
Definition amount_ok (a : pb.Amount) : bool := bytesb (pb.pubkey a).
Definition cross_ok (t : pb.CrossGroupTransfer) : bool :=
  opt_ok amount_ok (pb.ct_sender t) && bytesb (pb.ct_receiver t) && bytesb (pb.ct_other_group t)
  && opt_ok ts_ok (pb.ct_paired_transaction_id t).
Definition transfer_ok (g : pb.GradidoTransfer) : bool :=
  match g with
  | pb.local t => opt_ok amount_ok (pb.lt_sender t) && bytesb (pb.lt_receiver t)
  | pb.inbound t | pb.outbound t => cross_ok t
  end.
Definition data_ok (d : pb.BodyData) : bool :=
  match d with
  | pb.transfer g => opt_ok transfer_ok g
  | pb.creation r => opt_ok amount_ok r
  | pb.group_friends_update u => bytesb (pb.group u)
  | pb.group_member_update m =>
      bytesb (pb.user_pubkey m) && opt_ok ts_ok (pb.gm_paired_transaction_id m) && bytesb (pb.target_group m)
  | pb.debug_reset_blockchain_mark | pb.other => true
  end.
Definition body_ok (b : pb.TransactionBody) : bool := bytesb (pb.memo b) && opt_ok data_ok (pb.data b).
Definition transaction_ok (t : pb.GradidoTransaction) : bool := forallb signature_ok (pb.sig_map t) && bytesb (pb.body_bytes t).
Definition register_ok (r : pb.AddGroupToRegister) : bool := bytesb (pb.alias r) && opt_ok topic_id_ok (pb.topic_id r).

(** ** Fields *)

Lemma fits_raw n l : length l = n -> all_bytes l -> fm_fits (raw n) l = true.
Proof. intros <- H. cbn. rewrite Nat.eqb_refl. by apply forallb_all. Qed.

Lemma zeros_all n : all_bytes (replicate n 0).
Proof. by apply Forall_replicate. Qed.

Lemma c_str_read_fits_raw n s l : bytesb s = true -> c_str_read n s = Some l -> fm_fits (raw n) l = true.
Proof.
  intros Hs H. apply fits_raw; [by eapply length_c_str_read|]. apply forallb_all in Hs. unfold c_str_read in H.
  destruct (n <=? _)%nat; [|done]. injection H as <-. apply Forall_take, Forall_app. split; [done|by apply (zeros_all 1)].
Qed.

Lemma field_write_fits_raw n s l :
  bytesb s = true -> field_write (replicate n 0) s = Some l -> fm_fits (raw n) l = true.
Proof.
  intros Hs H. apply fits_raw.
  - rewrite (length_field_write _ _ _ H). apply length_replicate.
  - unfold field_write in H. destruct (_ <=? _)%nat; [|done]. injection H as <-.
    apply Forall_app. split; [by apply forallb_all|]. apply Forall_drop, zeros_all.
Qed.

Lemma timestamp_fits o :
  opt_ok ts_ok o = true -> fm_fits HederaTimestamp_format (translate_Timestamp_from_pb (pb.get_Timestamp o)) = true.
Proof. by destruct o. Qed.

Lemma hedera_fits t ht :
  response_ok t = true -> translate_HederaTransaction_from_pb t = Some ht -> fm_fits HederaTransaction_format ht = true.
Proof.
  unfold response_ok. rewrite !andb_true_iff. intros [[[Ht Hr] Hn] Hv] (h & Hh & [= <-])%bind_Some.
  cbn [fm_fits HederaTransaction_format struct seen followed fst snd consensusTimestamp runningHash sequenceNumber
       runningHashVersion]. rewrite (timestamp_fits _ Ht).
  rewrite (c_str_read_fits_raw HEDERA_RUNNING_HASH_LENGTH _ _ Hr Hh).
  cbn [fm_fits uintN seen uint]. rewrite (proj2 (Z.leb_le 0 (Z.of_N _)) (N2Z.is_nonneg _)).
  change (bits 8) with 64. rewrite Hn. exact Hv.
Qed.

Lemma signature_fits p s :
  signature_ok p = true -> translate_Signature_from_pb p = Some s -> fm_fits Signature_format s = true.
Proof.
  unfold signature_ok. rewrite andb_true_iff. intros [Hk Hs] (k & Ek & (x & Ex & [= <-])%bind_Some)%bind_Some.
  cbn [fm_fits Signature_format struct seen followed fst snd sig_pubkey sig_signature].
  by rewrite (c_str_read_fits_raw _ _ _ Hk Ek), (c_str_read_fits_raw _ _ _ Hs Ex).
Qed.

Lemma whole_amount_fits a v : whole_amount a = Some v -> fm_fits GradidoValue_format v = true.
Proof.
  intros (z & Hz & [= <-])%bind_Some. apply double_to_u64_range in Hz. cbn. change (bits 8) with 64.
  rewrite andb_true_r. apply andb_true_iff. rewrite Z.leb_le, Z.ltb_lt. done.
Qed.

Lemma user_transfer_fits u : fm_fits key_format u = true -> fm_fits UserTransfer_format (user_transfer u) = true.
Proof. intros H. cbn [fm_fits UserTransfer_format struct seen followed fst snd user_transfer ut_user ut_state]. by rewrite H. Qed.

Lemma paired_fits ts g p :
  opt_ok ts_ok ts = true -> bytesb g = true -> translate_paired ts g = Some p -> fm_fits PairedTransaction_format p = true.
Proof.
  intros Ht Hg (g' & Eg & [= <-])%bind_Some.
  cbn [fm_fits PairedTransaction_format struct seen followed fst snd paired_transaction_id other_group].
  rewrite (timestamp_fits _ Ht). exact (field_write_fits_raw _ _ _ Hg Eg).
Qed.

(** ** Bodies, memos, signatures *)

Lemma amount_key o u :
  opt_ok amount_ok o = true -> translate_key (pb.pubkey (pb.get_Amount o)) = Some u -> fm_fits key_format u = true.
Proof. intros H. apply c_str_read_fits_raw. by destruct o. Qed.

Ltac open_option := repeat match goal with
  | H : (_ ≫= _) = Some _ |- _ => let x := fresh "x" in let E := fresh "E" in apply bind_Some in H as (x & E & H)
  end; simplify_eq.

Ltac fit_member :=
  cbn [transaction_type TransactionType_code fm_fits member body_member Z.eqb Pos.eqb seen struct followed fst snd
       GradidoCreation_format MoveUser_format LocalTransfer_format InboundTransfer_format OutboundTransfer_format
       gc_user gc_amount mu_user mu_paired mu_state lt_amount lt_sender lt_receiver it_amount it_paired it_sender
       it_receiver ot_amount ot_paired ot_sender ot_receiver];
  rewrite ?andb_true_iff; repeat match goal with |- _ /\ _ => split end;
  first [reflexivity|assumption|by apply user_transfer_fits].

Lemma transfer_fits g b :
  opt_ok transfer_ok g = true -> translate_transfer g = Some b ->
  fm_fits (member sizeof_body (body_member (transaction_type b))) b = true.
Proof.
  intros H E. destruct g as [[t|t|t]|]; cbn [opt_ok transfer_ok translate_transfer] in *; [| | |by injection E as <-].
  1: rewrite !andb_true_iff in H; destruct H as [Hs Hr].
  2,3: unfold cross_ok in H; rewrite !andb_true_iff in H; destruct H as [[[Hs Hr] Hg] Ht].
  all: open_option.
  all: repeat match goal with
    | E : whole_amount _ = Some _ |- _ => apply whole_amount_fits in E
    | E : translate_key (pb.pubkey _) = Some _ |- _ => apply (amount_key _ _ Hs) in E
    | E : translate_key _ = Some _ |- _ => apply (c_str_read_fits_raw _ _ _ Hr) in E
    | E : translate_paired _ _ = Some _ |- _ => apply (paired_fits _ _ _ Ht Hg) in E
    end; fit_member.
Qed.

Lemma data_fits d b :
  opt_ok data_ok d = true -> translate_data d = Some b ->
  fm_fits (member sizeof_body (body_member (transaction_type b))) b = true.
Proof.
  intros H E. destruct d as [[g|r|u|m| |]|]; cbn [opt_ok data_ok translate_data] in *; try (by injection E as <-).
  - by eapply transfer_fits.
  - unfold translate_creation in E. open_option.
    match goal with E : whole_amount _ = Some _ |- _ => apply whole_amount_fits in E end.
    match goal with E : translate_key _ = Some _ |- _ => apply (amount_key _ _ H) in E end. fit_member.
  - unfold translate_friends_update in E. open_option.
    match goal with E : field_write _ _ = Some _ |- _ => apply (field_write_fits_raw PUB_KEY_LENGTH _ _ H) in E end.
    destruct (pb.action u =? 0); fit_member.
  - rewrite !andb_true_iff in H. destruct H as [[Hu Ht] Hg]. unfold translate_member_update in E. open_option.
    match goal with E : translate_key _ = Some _ |- _ => apply (c_str_read_fits_raw _ _ _ Hu) in E end.
    destruct (u8 _ =? 0); [simplify_eq; fit_member|]. open_option.
    match goal with E : translate_paired _ _ = Some _ |- _ => apply (paired_fits _ _ _ Ht Hg) in E end.
    destruct (u8 _ =? 1); fit_member.
Qed.

Lemma memo_fits m memo : bytesb m = true -> memo_main m = Some memo -> fm_fits (raw MEMO_MAIN_SIZE) memo = true.
Proof.
  intros H. unfold memo_main. destruct (multipart_memo m); [by apply c_str_read_fits_raw|by apply field_write_fits_raw].
Qed.

Abbreviation stored r := (fm_fits GradidoRecord_format r = true).

Lemma memo_records_fit m rs : bytesb m = true -> memo_records m = Some rs -> Forall (fun r => stored r) rs.
Proof.
  intros H. unfold memo_records. destruct (multipart_memo m); [|intros [= <-]; constructor].
  intros E. open_option. repeat constructor.
  assert (fm_fits (raw MEMO_PART_SIZE) x = true) as Hx; [|exact Hx].
  eapply field_write_fits_raw; [|done]. apply forallb_all, Forall_take, Forall_drop. by apply forallb_all.
Qed.

Lemma signature_record_fit pairs j cs count l n :
  forallb signature_ok pairs = true -> signature_record pairs j cs count = Some (l, n) ->
  Forall (fun s => fm_fits Signature_format s = true) l /\ (length l <= j)%nat.
Proof.
  intros Hp. revert cs l n. induction j as [|j IH]; intros cs l n; cbn [signature_record].
  { intros [= <- _]. by split; [constructor|cbn]. }
  intros (p & Ep & (s & Es & H)%bind_Some)%bind_Some. apply forallb_all in Hp as Hp'.
  pose proof (signature_fits p s (Forall_lookup_1 _ _ _ _ Hp' Ep) Es) as Hs.
  destruct (S cs =? count)%nat; [injection H as <- _; split; [by repeat constructor|cbn; lia]|].
  apply bind_Some in H as ([l' n'] & E & [= <- _]). apply IH in E as [H1 H2]. split; [by constructor|cbn in *; lia].
Qed.

Lemma signature_array_fits l :
  Forall (fun s => fm_fits Signature_format s = true) l -> (length l <= SIGNATURES_PER_RECORD)%nat ->
  stored (GR_signatures (signature_array l)).
Proof.
  intros H Hl. assert (fm_fits (array SIGNATURES_PER_RECORD Signature_format) (signature_array l) = true) as Hx; [|exact Hx].
  cbn [fm_fits array]. apply andb_true_intro. split.
  - apply Nat.eqb_eq. unfold signature_array. rewrite length_app, length_replicate. lia.
  - apply forallb_all, Forall_app. split; [done|]. by apply Forall_replicate.
Qed.

Lemma signature_records_fit pairs n cs count rs :
  forallb signature_ok pairs = true -> signature_records pairs n cs count = Some rs -> Forall (fun r => stored r) rs.
Proof.
  intros Hp. revert cs rs. induction n as [|n IH]; intros cs rs; cbn [signature_records]; [intros [= <-]; constructor|].
  intros ([l k] & E & (rest & Er & [= <-])%bind_Some)%bind_Some. constructor; [|by eapply IH].
  apply signature_array_fits; eapply signature_record_fit; eauto.
Qed.

Lemma data_type d b : translate_data d = Some b -> 0 <= transaction_type b <= 9.
Proof.
  intros H%translate_data_typed. destruct b as [| | | | | | | | |c]; cbn in *; lia.
Qed.

Lemma uintb_uwrap w z : 0 <= w -> uintb w (uwrap w z) = true.
Proof. intros H. pose proof (uwrap_range w z H). unfold uintb. apply andb_true_iff. lia. Qed.

Lemma transaction_fits v p i ht sig n b r m :
  uintb 32 v = true -> uintb 32 p = true -> fm_fits HederaTimestamp_format i = true ->
  fm_fits HederaTransaction_format ht = true -> fm_fits Signature_format sig = true -> uintb 8 n = true ->
  0 <= transaction_type b <= 9 -> fm_fits (member sizeof_body (body_member (transaction_type b))) b = true ->
  fm_fits (raw MEMO_MAIN_SIZE) m = true ->
  stored (GR_transaction (mkTransaction v p i ht sig n b r m)).
Proof.
  intros. cut (fm_fits Transaction_format (mkTransaction v p i ht sig n b r m) = true); [trivial|].
  cbn [fm_fits Transaction_format struct seen followed variant tagged TransactionCommonHeader_format fst snd version_number parts
       transaction_id hedera_transaction signature signature_count body tr_result memo].
  rewrite !andb_true_iff. split_and!; try done; cbn [fm_fits uint].
  - apply andb_true_iff. change (2 ^ bits 1) with 256. lia.
  - by destruct r.
Qed.

(** ** Messages of a ledger *)

Section ledger.
Context (parse_GradidoTransaction : bytes -> pb.GradidoTransaction) (parse_TransactionBody : bytes -> pb.TransactionBody).
Context (parse_AddGroupToRegister : bytes -> pb.AddGroupToRegister).
Context (gt_ok : forall l, transaction_ok (parse_GradidoTransaction l) = true).
Context (tb_ok : forall l, body_ok (parse_TransactionBody l) = true).
Context (gr_ok : forall l, register_ok (parse_AddGroupToRegister l) = true).

(** Every record a message of the topic is translated to fits its struct. *)
Theorem translated_records_fit t b0 b :
  response_ok t = true -> translate_from_ctr parse_GradidoTransaction parse_TransactionBody t b0 = Ret tt b ->
  Forall (fun r => stored r) (buff b).
Proof using gt_ok tb_ok.
  intros Ht H. apply translate_Ret in H as [->|(p & sig & ht & body & memo & memos & sigs & Hc & Hp & Hs & Hh & Hb & Hm & Hr & Hg & ->)];
    [constructor|]. cbn [buff].
  pose proof (gt_ok (pb.message t)) as Hgt. apply andb_true_iff in Hgt as [Hsig _].
  pose proof (tb_ok (pb.body_bytes (parse_GradidoTransaction (pb.message t)))) as Htb. apply andb_true_iff in Htb as [Hmemo Hdata].
  constructor; [|apply Forall_app; split; [by eapply memo_records_fit|by eapply signature_records_fit]].
  assert (fm_fits Signature_format sig = true) as Hsf.
  { eapply signature_fits; [|exact Hs]. apply forallb_all in Hsig. by eapply Forall_lookup_1 in Hsig. }
  apply transaction_fits; try assumption; [apply uintb_uwrap; lia..|reflexivity|by eapply hedera_fits| |
    by eapply data_type|by eapply data_fits|by eapply memo_fits].
  change MAXIMUM_SIGNATURE_COUNT with 10 in Hc. change MINIMUM_SIGNATURE_COUNT with 1 in Hc. unfold uintb. lia.
Qed.

(** ** Messages of the group register *)

Lemma alias_fits s a : bytesb s = true -> write_alias s = Some a -> fm_fits (raw GROUP_ALIAS_LENGTH) a = true.
Proof.
  intros H. apply field_write_fits_raw. apply forallb_all, Forall_app. split; [|by apply (zeros_all 1)].
  apply forallb_all in H. induction H as [|c s Hc _ IH]; [constructor|]. cbn [cstr]. destruct (c =? 0); by constructor.
Qed.

Lemma topic_fits o :
  opt_ok topic_id_ok o = true -> fm_fits HederaTopicID_format (translate_TopicID_from_pb (pb.get_TopicID o)) = true.
Proof. destruct o as [t|]; [|done]. intros H. apply andb_true_iff in H as [[Hs Hr]%andb_true_iff Ht].
  do 2 (apply andb_true_intro; split; [done|]). exact Ht. Qed.

(** The same for the records of the group register. *)
Theorem translated_register_fits t b0 b :
  response_ok t = true -> translate_from_ctr_register parse_AddGroupToRegister t b0 = Ret tt b ->
  Forall (fun r => fm_fits GroupRegisterRecord_format r = true) (buff b).
Proof using gr_ok.
  intros Ht. unfold translate_from_ctr_register, set_batch, bind, modify, try_catch, try_translate_register.
  pose proof (gr_ok (pb.message t)) as Hgr. apply andb_true_iff in Hgr as [Ha Hi].
  destruct (pb.reset_group_register _); [intros [= <-]; constructor|].
  unfold bind, of_option, ret, set_batch, modify.
  destruct (write_alias _) as [a|] eqn:Ea; [|discriminate].
  destruct (translate_HederaTransaction_from_pb t) as [h|] eqn:Eh; [|discriminate]. intros [= <-].
  repeat constructor.
  cbn [fm_fits GroupRegisterRecord_format GroupRecord_format struct seen followed member fst snd grr_type grr_group gr_alias
       gr_topic_id gr_success gr_hedera_transaction gr_signature].
  rewrite (alias_fits _ _ Ha Ea), (topic_fits _ Hi), (hedera_fits _ _ Ht Eh). reflexivity.
Qed.
End ledger.

(** ** Restarting from what lies on the disk *)

Section disk.
Context {T : Type} (F : Format T) `{!Packed F}.
Context (RecCount : nat) (optimal_cache_size interval : N).
Context `{FNR : !FileNameResolver, BFN : !BadFileNames, SORT : !StdSort}.

(** The bytes of every file, and the file a node finds in bytes: whole
    lines, and a rest. *)
Definition disk_of (s : Blockchain T) : gmap string bytes :=
  (fun f => file_bytes F (f_recs f)) <$> ft_fs (bc_tiles s).
Definition file_of (l : bytes) : option (File (Rec T)) :=
  recs ← file_records F l; Some (mkFile recs (length l mod fm_size (Rec_format F)) true true true).

Definition block_fits (b : list T * bytes) : Prop :=
  Forall (fun p => fm_fits F p = true) b.1 /\ fm_fits (raw BLOCKCHAIN_CHECKSUM_SIZE) b.2 = true.

Lemma checksum_line_fits c :
  fm_fits (raw BLOCKCHAIN_CHECKSUM_SIZE) c = true -> fm_fits (Rec_format F) (checksum_rec c) = true.
Proof.
  intros H. enough ((BLOCKCHAIN_CHECKSUM_SIZE <=? Nat.max (fm_size F) BLOCKCHAIN_CHECKSUM_SIZE)%nat
    && fm_fits (raw BLOCKCHAIN_CHECKSUM_SIZE) c = true) as E by exact E.
  apply andb_true_intro. split; [apply Nat.leb_le; lia|exact H].
Qed.

Lemma mk_block_fits b : block_fits b -> Forall (fun r => fm_fits (Rec_format F) r = true) (mk_block RecCount b).
Proof.
  intros [Hp Hc]. unfold mk_block. rewrite !Forall_app. split_and!.
  - apply Forall_fmap. eapply Forall_impl; [|exact Hp]. intros p Hfit. by apply line_fits.
  - constructor; [by apply checksum_line_fits|constructor].
  - by apply Forall_replicate.
Qed.

Lemma block_file_found b :
  block_fits b -> file_of (file_bytes F (mk_block RecCount b)) = Some (good_file (mk_block RecCount b)).
Proof using Type*.
  intros Hb. pose proof (mk_block_fits b Hb) as Hl. unfold file_of.
  rewrite (file_records_put F _ Hl). cbn [mbind option_bind].
  rewrite length_file_bytes by done. rewrite Nat.Div0.mod_mul. done.
Qed.

(** C3: a process that reads from the disk the bytes another one wrote, parses
    the lines and constructs the object over them ends, after the validation
    of its blocks, in a well-formed chain with the blocks that were written:
    nothing of a record is lost on the way through the file. *)
Theorem restart_from_disk s tds bs clock :
  (2 <= RecCount)%nat -> bc_rep RecCount s tds bs -> Forall block_fits bs ->
  let fs := omap file_of (disk_of s) in
  get_file_count (regular_files fs) = Some (N.of_nat (length bs)) ->
  exists s0 s' tds', Blockchain_init RecCount fs [] clock = Ret tt s0
    /\ validate_all RecCount optimal_cache_size interval (length bs) s0 = Ret tt s'
    /\ bc_rep RecCount s' tds' bs.
Proof using Type*.
  intros HR Hrep Hfit fs Hcount. pose proof (bc_tiles_ok _ _ _ _ Hrep) as Hk.
  destruct (init_ok RecCount fs bs clock HR (bc_sizes _ _ _ _ Hrep) (bc_full _ _ _ _ Hrep))
    as (s0 & tds0 & E0 & Hrv & _); [| |done|].
  - intros i b Hb. destruct (lookup_lt_is_Some_2 (ft_tiles (bc_tiles s)) i) as [t Ht].
    { rewrite <- (rep_blocks _ _ _ _ (tk_rep _ _ _ _ Hk)), length_map. eauto using lookup_lt_Some. }
    destruct (tk_lookup RecCount _ _ _ _ _ Hk Ht) as (d & recs & _ & Hr & _ & Hfs & _).
    rewrite list_lookup_fmap, Hb in Hr. injection Hr as <-.
    unfold fs, disk_of. rewrite lookup_omap, lookup_fmap, Hfs. cbn.
    apply block_file_found. by eapply Forall_lookup_1 in Hfit.
  - intros n Hn. unfold fs, disk_of. rewrite lookup_omap, lookup_fmap, (tk_more _ _ _ _ Hk); [done|].
    by rewrite length_map.
  - destruct (validate_all_ok RecCount optimal_cache_size interval bs (length bs) s0 tds0 0 0 Hrv eq_refl)
      as (s' & tds' & E' & Hrv').
    exists s0, s', tds'. auto using recovered.
Qed.
End disk.

(** ** Witnesses *)

Lemma translated_records_fit_witness :
  exists b, translate_from_ctr (demo_parse_gt 5) demo_parse_tb (demo_message 1) (mkBatch [] false) = Ret tt b
    /\ length (buff b) = 4%nat /\ Forall (fun r => fm_fits GradidoRecord_format r = true) (buff b).
Proof.
  eexists. split; [vm_compute; reflexivity|]. split; [reflexivity|].
  apply (translated_records_fit (demo_parse_gt 5) demo_parse_tb
    ltac:(intros l; vm_compute; reflexivity) ltac:(intros l; vm_compute; reflexivity)
    (demo_message 1) (mkBatch [] false)); vm_compute; reflexivity.
Defined.

Lemma translated_register_fits_witness :
  exists b, translate_from_ctr_register (fun _ => pb.mkAddGroupToRegister [65; 66] None false) (demo_message 3) (mkBatch [] false)
      = Ret tt b
    /\ length (buff b) = 1%nat /\ Forall (fun r => fm_fits GroupRegisterRecord_format r = true) (buff b).
Proof.
  eexists. split; [vm_compute; reflexivity|]. split; [reflexivity|].
  apply (translated_register_fits (fun _ => pb.mkAddGroupToRegister [65; 66] None false)
    ltac:(intros l; vm_compute; reflexivity) (demo_message 3) (mkBatch [] false)); vm_compute; reflexivity.
Defined.

#[local] Existing Instances Blockchain.demo_sort Blockchain.demo_bad Blockchain.demo_names.
(** A block with a transfer and a memo, in a chain of blocks of four lines. *)
Definition demo_disk_block : list GradidoRecord * bytes :=
  ([GR_transaction demo_stored_transaction; GR_memo (replicate MEMO_PART_SIZE 65)], replicate BLOCKCHAIN_CHECKSUM_SIZE 5).
Definition demo_disk_chain : Blockchain GradidoRecord := one_block_chain 4 demo_disk_block.

Lemma restart_from_disk_witness :
  exists s0 s' tds', Blockchain_init 4 (omap (file_of GradidoRecord_format) (disk_of GradidoRecord_format demo_disk_chain)) [] 5
      = Ret tt s0
    /\ validate_all 4 10 60 1 s0 = Ret tt s' /\ bc_rep 4 s' tds' [demo_disk_block].
Proof.
  apply (restart_from_disk GradidoRecord_format 4 10 60 demo_disk_chain [one_desc 4 demo_disk_block] [demo_disk_block] 5).
  - lia.
  - apply one_block_rep; cbn; lia.
  - repeat constructor; vm_compute; reflexivity.
  - vm_compute. reflexivity.
Defined.
