(* ===== verification/Json.v ===== *)
(** * JSON texts

    The specification against which the dumps of records are judged: values,
    a reader of texts ([parse_json]) and texts laid out with white space,
    which are read back as the value they lay out ([parse_laid_out]).  The
    reader knows the part of the notation that dumps can contain: integers,
    and strings without escapes. *)

From stdpp Require Import base list strings.
From Stdlib Require Import ZArith Lia.
From Stdlib Require Decimal DecimalFacts DecimalN.
From S2P Require Import Prelude Config.
Local Open Scope Z_scope.

Inductive json := JStr (s : bytes) | JNum (z : Z) | JObj (l : list (bytes * json)) | JArr (l : list json).

Definition QUOTE : Z := 34.
Definition is_ws (c : Z) : bool := (c =? 32) || (c =? 10) || (c =? 9) || (c =? 13).
(** Printable, neither a quote nor a backslash. *)
Definition is_plain (c : Z) : bool := (32 <=? c) && (c <? 127) && negb (c =? QUOTE) && negb (c =? 92).
Definition plain (s : bytes) : bool := forallb is_plain s.

(** ** Reading *)

Fixpoint skip (s : bytes) : bytes := match s with c :: s' => if is_ws c then skip s' else s | [] => [] end.

(** From after the first quote. *)
Fixpoint parse_string (s : bytes) : option (bytes * bytes) :=
  match s with
  | [] => None
  | c :: s' =>
      if c =? QUOTE then Some ([], s')
      else if is_plain c then x ← parse_string s'; Some (c :: x.1, x.2) else None
  end.

(** No zero leads a number of more than one digit. *)
Definition parse_digits (s : bytes) : option (N * bytes) :=
  let x := span is_digit s in
  match x.1 with
  | [] => None
  | c :: ds => if (c =? 48) && negb (length ds =? 0)%nat then None else d ← text_uint (c :: ds); Some (N.of_uint d, x.2)
  end.
Definition parse_number (s : bytes) : option (json * bytes) :=
  match s with
  | [] => None
  | c :: s' =>
      if c =? 45 then x ← parse_digits s'; Some (JNum (- Z.of_N x.1), x.2)
      else x ← parse_digits s; Some (JNum (Z.of_N x.1), x.2)
  end.

(** [parse_members] from after the opening brace, [parse_elements] from after
    the opening bracket; both read what closes them. *)
Fixpoint parse_value (f : nat) (s : bytes) : option (json * bytes) :=
  match f with
  | O => None
  | S f =>
      match skip s with
      | [] => None
      | c :: s' =>
          if c =? QUOTE then x ← parse_string s'; Some (JStr x.1, x.2)
          else if c =? 123 then
            match skip s' with
            | d :: r => if d =? 125 then Some (JObj [], r) else x ← parse_members f s'; Some (JObj x.1, x.2)
            | [] => None
            end
          else if c =? 91 then
            match skip s' with
            | d :: r => if d =? 93 then Some (JArr [], r) else x ← parse_elements f s'; Some (JArr x.1, x.2)
            | [] => None
            end
          else parse_number (c :: s')
      end
  end
with parse_members (f : nat) (s : bytes) : option (list (bytes * json) * bytes) :=
  match f with
  | O => None
  | S f =>
      match skip s with
      | [] => None
      | c :: s1 =>
          if c =? QUOTE then
            k ← parse_string s1;
            match skip k.2 with
            | [] => None
            | d :: s2 =>
                if d =? 58 then
                  v ← parse_value f s2;
                  match skip v.2 with
                  | [] => None
                  | e :: s3 =>
                      if e =? 44 then x ← parse_members f s3; Some ((k.1, v.1) :: x.1, x.2)
                      else if e =? 125 then Some ([(k.1, v.1)], s3) else None
                  end
                else None
            end
          else None
      end
  end
with parse_elements (f : nat) (s : bytes) : option (list json * bytes) :=
  match f with
  | O => None
  | S f =>
      v ← parse_value f s;
      match skip v.2 with
      | [] => None
      | e :: s3 =>
          if e =? 44 then x ← parse_elements f s3; Some (v.1 :: x.1, x.2)
          else if e =? 93 then Some ([v.1], s3) else None
      end
  end.

(** A text that is one value; a value has no more nodes than characters. *)
Definition parse_json (s : bytes) : option json :=
  x ← parse_value (length s) s;
  match skip x.2 with [] => Some x.1 | _ => None end.

(** ** Output

    What is written to a stream, as a function of what follows it. *)

Definition Out : Type := bytes -> bytes.
Definition put (s : bytes) : Out := fun r => s ++ r.
Definition seq (a b : Out) : Out := fun r => a (b r).
Definition txt (s : string) : bytes := map (fun a => Z.of_N (Ascii.N_of_ascii a)) (String.list_ascii_of_string s).
Definition lit (s : string) : Out := put (txt s).
Definition quoted (s : bytes) : Out := seq (put [QUOTE]) (seq (put s) (put [QUOTE])).

Declare Scope out_scope.
Delimit Scope out_scope with out.
Notation "a << b" := (seq a b) (at level 50, left associativity) : out_scope.
Local Open Scope out_scope.

(** ** Layouts

    A value with the white space around its parts. *)

Inductive tree := TStr (s : bytes) | TNum (z : Z) | TObj (ms : members) | TNoElements (w : bytes) | TArr (es : elements)
with members := MOne (w k : bytes) (v : tree) (w' : bytes) | MCons (w k : bytes) (v : tree) (w' : bytes) (ms : members)
with elements := EOne (w : bytes) (v : tree) (w' : bytes) | ECons (w : bytes) (v : tree) (w' : bytes) (es : elements).

Scheme tree_mind := Induction for tree Sort Prop
with members_mind := Induction for members Sort Prop
with elements_mind := Induction for elements Sort Prop.
Combined Scheme layout_ind from tree_mind, members_mind, elements_mind.

Fixpoint lay (t : tree) : Out :=
  match t with
  | TStr s => quoted s
  | TNum z => put (decimal z)
  | TObj ms => put [123] << lay_members ms << put [125]
  | TNoElements w => put [91] << put w << put [93]
  | TArr es => put [91] << lay_elements es << put [93]
  end
with lay_members (ms : members) : Out :=
  match ms with
  | MOne w k v w' => put w << quoted k << put [58; 32] << lay v << put w'
  | MCons w k v w' ms => put w << quoted k << put [58; 32] << lay v << put w' << put [44] << lay_members ms
  end
with lay_elements (es : elements) : Out :=
  match es with
  | EOne w v w' => put w << lay v << put w'
  | ECons w v w' es => put w << lay v << put w' << put [44] << lay_elements es
  end.

(** The value without the white space. *)
Fixpoint erase (t : tree) : json :=
  match t with
  | TStr s => JStr s
  | TNum z => JNum z
  | TObj ms => JObj (erase_members ms)
  | TNoElements _ => JArr []
  | TArr es => JArr (erase_elements es)
  end
with erase_members (ms : members) : list (bytes * json) :=
  match ms with MOne _ k v _ => [(k, erase v)] | MCons _ k v _ ms => (k, erase v) :: erase_members ms end
with erase_elements (es : elements) : list json :=
  match es with EOne _ v _ => [erase v] | ECons _ v _ es => erase v :: erase_elements es end.

(** White space is white space, and texts need no escape. *)
Fixpoint tree_ok (t : tree) : bool :=
  match t with
  | TStr s => plain s
  | TNum _ => true
  | TObj ms => members_ok ms
  | TNoElements w => forallb is_ws w
  | TArr es => elements_ok es
  end
with members_ok (ms : members) : bool :=
  match ms with
  | MOne w k v w' => forallb is_ws w && plain k && tree_ok v && forallb is_ws w'
  | MCons w k v w' ms => forallb is_ws w && plain k && tree_ok v && forallb is_ws w' && members_ok ms
  end
with elements_ok (es : elements) : bool :=
  match es with
  | EOne w v w' => forallb is_ws w && tree_ok v && forallb is_ws w'
  | ECons w v w' es => forallb is_ws w && tree_ok v && forallb is_ws w' && elements_ok es
  end.

Fixpoint size (t : tree) : nat :=
  match t with TStr _ | TNum _ | TNoElements _ => 1 | TObj ms => S (size_members ms) | TArr es => S (size_elements es) end
with size_members (ms : members) : nat :=
  match ms with MOne _ _ v _ => S (size v) | MCons _ _ v _ ms => S (size v + size_members ms) end
with size_elements (es : elements) : nat :=
  match es with EOne _ v _ => S (size v) | ECons _ v _ es => S (size v + size_elements es) end.

(** ** Lemmas *)

Ltac split_ok :=
  repeat match goal with H : (_ && _)%bool = true |- _ => apply andb_prop in H; destruct H as [? ?] end.

Lemma skip_blank w s : forallb is_ws w = true -> skip (w ++ s) = skip s.
Proof. induction w as [|c w IH]; [done|]. cbn. intros [Hc Hw]%andb_prop. by rewrite Hc, IH. Qed.

Lemma skip_char c s : is_ws c = false -> skip (c :: s) = c :: s.
Proof. cbn. by intros ->. Qed.

Lemma parse_string_plain k s : plain k = true -> parse_string (k ++ QUOTE :: s) = Some (k, s).
Proof.
  induction k as [|c k IH]; [done|]. cbn. intros [Hc Hk]%andb_prop. pose proof Hc as Hp. unfold is_plain in Hp. split_ok.
  rewrite (proj1 (negb_true_iff _)) by done. by rewrite Hc, (IH Hk).
Qed.

(** Where a number ends. *)
Definition ends (s : bytes) : Prop := match s with c :: _ => is_digit c = false | [] => True end.

Lemma span_all p a r :
  Forall (fun x => p x = true) a -> match r with c :: _ => p c = false | [] => True end -> span p (a ++ r) = (a, r).
Proof.
  intros Ha Hr. destruct r as [|c r]; [|by apply span_app]. rewrite app_nil_r.
  induction Ha as [|x a Hx _ IH]; cbn; [done|]. by rewrite Hx, IH.
Qed.

Lemma to_uint_leading n d : N.to_uint n = Decimal.D0 d -> d = Decimal.Nil.
Proof.
  intros E. pose proof (DecimalN.Unsigned.to_of (N.to_uint n)) as H. rewrite DecimalN.Unsigned.of_to, E in H.
  unfold Decimal.unorm in H. cbn in H. destruct (Decimal.nzhead d) eqn:Ez; try discriminate H; [by injection H|].
  by apply DecimalFacts.nzhead_nonzero in Ez.
Qed.

Lemma parse_digits_text n r : ends r -> parse_digits (uint_text (N.to_uint n) ++ r) = Some (n, r).
Proof.
  intros Hr. unfold parse_digits. rewrite span_all by (apply uint_text_digits || by destruct r). cbn [fst snd].
  destruct (uint_text_nonempty n) as (c & s & E). rewrite E.
  assert ((c =? 48) && negb (length s =? 0)%nat = false) as Hz.
  { destruct (Z.eqb_spec c 48) as [->|]; [|done]. pose proof (to_uint_leading n) as H.
    destruct (N.to_uint n) as [|d|d|d|d|d|d|d|d|d|d]; try discriminate E. injection E as <-. by rewrite (H d eq_refl). }
  by rewrite Hz, <- E, text_uint_text; cbn; rewrite DecimalN.Unsigned.of_to.
Qed.

Lemma uint_text_head n c s : uint_text (N.to_uint n) = c :: s -> is_digit c = true.
Proof. intros E. pose proof (uint_text_digits (N.to_uint n)) as H. rewrite E in H. by inversion H. Qed.

Lemma parse_number_decimal z r : ends r -> parse_number (decimal z ++ r) = Some (JNum z, r).
Proof.
  intros Hr. unfold decimal. destruct (Z.ltb_spec z 0).
  - cbn [app parse_number Z.eqb Pos.eqb]. rewrite parse_digits_text by done. cbn. do 3 f_equal. lia.
  - destruct (uint_text_nonempty (Z.to_N z)) as (c & s & E). pose proof (uint_text_head _ _ _ E) as Hd.
    rewrite E. cbn [app parse_number]. destruct (Z.eqb_spec c 45) as [->|]; [discriminate Hd|].
    change (c :: s ++ r) with ((c :: s) ++ r). rewrite <- E, parse_digits_text by done. cbn. do 3 f_equal. lia.
Qed.

(** A number starts with its own character. *)
Lemma decimal_head z : exists c s, decimal z = c :: s /\ ((c =? 45) || is_digit c) = true.
Proof.
  unfold decimal. destruct (Z.ltb_spec z 0); [by eexists _, _|].
  destruct (uint_text_nonempty (Z.to_N z)) as (c & s & E). exists c, s. split; [done|].
  by rewrite (uint_text_head _ _ _ E), orb_true_r.
Qed.

Lemma number_char c : ((c =? 45) || is_digit c) = true ->
  is_ws c = false /\ (c =? QUOTE) = false /\ (c =? 123) = false /\ (c =? 91) = false /\ (c =? 93) = false.
Proof. unfold is_digit, is_ws, QUOTE. intros [->%Z.eqb_eq|[?%Z.leb_le ?%Z.leb_le]%andb_prop]%orb_prop; [done|]. lia. Qed.

Lemma parse_value_number f z r : ends r -> parse_value (S f) (decimal z ++ r) = Some (JNum z, r).
Proof.
  intros Hr. pose proof (parse_number_decimal z r Hr) as H. destruct (decimal_head z) as (c & s & E & Hc).
  rewrite E in *. apply number_char in Hc as (H1 & H2 & H3 & H4 & _). cbn [app parse_value] in *.
  rewrite skip_char, H2, H3, H4 by done. exact H.
Qed.

Lemma parse_value_blank f w s : forallb is_ws w = true -> parse_value f (w ++ s) = parse_value f s.
Proof. intros H. destruct f; [done|]. cbn [parse_value]. by rewrite skip_blank. Qed.

Lemma ws_no_digit c : is_ws c = true -> is_digit c = false.
Proof. unfold is_ws, is_digit. lia. Qed.

Lemma ends_blank w c r : forallb is_ws w = true -> is_digit c = false -> ends (w ++ c :: r).
Proof. destruct w as [|x w]; [done|]. cbn. intros [Hx _]%andb_prop _. by apply ws_no_digit. Qed.

(** No value starts like the end of an array. *)
Lemma value_head t r : exists c s, lay t r = c :: s /\ is_ws c = false /\ (c =? 93) = false.
Proof.
  destruct t; cbn; try by eexists _, _. unfold put.
  destruct (decimal_head z) as (c & s & E & (H1 & _ & _ & _ & H5)%number_char). rewrite E. by eexists _, _.
Qed.

Lemma members_head ms r : members_ok ms = true -> exists s, skip (lay_members ms r) = QUOTE :: s.
Proof.
  destruct ms; cbn [members_ok lay_members]; unfold quoted, seq, put; intros H; split_ok; rewrite skip_blank by done;
    cbn; unfold seq, put; eauto.
Qed.

Lemma elements_head es r : elements_ok es = true -> exists c s, skip (lay_elements es r) = c :: s /\ (c =? 93) = false.
Proof.
  destruct es as [w v w'|w v w' es]; cbn [elements_ok lay_elements]; unfold seq, put; intros H; split_ok; rewrite skip_blank by done.
  - destruct (value_head v (w' ++ r)) as (c & s & E & Hc1 & Hc2). rewrite E, skip_char by done. eauto.
  - destruct (value_head v (w' ++ [44] ++ lay_elements es r)) as (c & s & E & Hc1 & Hc2). rewrite E, skip_char by done. eauto.
Qed.

(** One member, up to what follows its value. *)
Lemma parse_member f w k v w' c r :
  forallb is_ws w = true -> plain k = true -> forallb is_ws w' = true -> is_digit c = false -> is_ws c = false ->
  (forall r, ends r -> parse_value f (lay v r) = Some (erase v, r)) ->
  parse_members (S f) ((put w << quoted k << put [58; 32] << lay v << put w') (c :: r))
  = if c =? 44 then x ← parse_members f r; Some ((k, erase v) :: x.1, x.2)
    else if c =? 125 then Some ([(k, erase v)], r) else None.
Proof.
  intros Hw Hk Hw' Hd Hc Hv. cbn [parse_members]. unfold quoted, seq, put. rewrite skip_blank by done. cbn [app].
  rewrite skip_char, Z.eqb_refl by done. cbn [app].
  rewrite parse_string_plain by done. cbn [mbind option_bind fst snd]. rewrite skip_char, Z.eqb_refl by done.
  change (32 :: lay v (w' ++ c :: r)) with ([32] ++ lay v (w' ++ c :: r)).
  rewrite parse_value_blank, Hv by (done || by apply ends_blank). cbn [mbind option_bind fst snd].
  by rewrite skip_blank, skip_char by done.
Qed.

Lemma parse_element f w v w' c r :
  forallb is_ws w = true -> forallb is_ws w' = true -> is_digit c = false -> is_ws c = false ->
  (forall r, ends r -> parse_value f (lay v r) = Some (erase v, r)) ->
  parse_elements (S f) ((put w << lay v << put w') (c :: r))
  = if c =? 44 then x ← parse_elements f r; Some (erase v :: x.1, x.2)
    else if c =? 93 then Some ([erase v], r) else None.
Proof.
  intros Hw Hw' Hd Hc Hv. cbn [parse_elements]. unfold seq, put.
  rewrite parse_value_blank, Hv by (done || by apply ends_blank). cbn [mbind option_bind fst snd].
  by rewrite skip_blank, skip_char by done.
Qed.

Lemma parse_lay :
  (forall t, tree_ok t = true -> forall f r, (size t <= f)%nat -> ends r -> parse_value f (lay t r) = Some (erase t, r))
  /\ (forall ms, members_ok ms = true -> forall f r, (size_members ms <= f)%nat ->
        parse_members f (lay_members ms (125 :: r)) = Some (erase_members ms, r))
  /\ (forall es, elements_ok es = true -> forall f r, (size_elements es <= f)%nat ->
        parse_elements f (lay_elements es (93 :: r)) = Some (erase_elements es, r)).
Proof.
  apply layout_ind.
  - intros s Hs [|f] r Hf Hr; [cbn in Hf; lia|]. cbn [lay parse_value]. unfold quoted, seq, put.
    cbn [app]. rewrite skip_char, Z.eqb_refl by done. by rewrite parse_string_plain.
  - intros z _ [|f] r Hf Hr; [cbn in Hf; lia|]. by apply parse_value_number.
  - intros ms IH Hok [|f] r Hf Hr; [cbn in Hf; lia|]. cbn [parse_value lay]. unfold seq, put. cbn [app skip is_ws].
    destruct (members_head ms (125 :: r) Hok) as [s E]. cbn. rewrite E. cbn. rewrite (IH Hok f r); [done|cbn in Hf; lia].
  - intros w Hw [|f] r Hf Hr; [cbn in Hf; lia|]. cbn [lay parse_value]. unfold seq, put. cbn [app].
    rewrite skip_char by done. cbn. by rewrite skip_blank.
  - intros es IH Hok [|f] r Hf Hr; [cbn in Hf; lia|]. cbn [parse_value lay]. unfold seq, put. cbn [app skip is_ws].
    destruct (elements_head es (93 :: r) Hok) as (c & s & E & Hc). cbn. rewrite E, Hc. rewrite (IH Hok f r); [done|cbn in Hf; lia].
  - intros w k v IH w' Hok [|f] r Hf; cbn in Hf; [lia|]. cbn in Hok. split_ok. cbn [lay_members erase_members].
    rewrite parse_member; try done. intros r' Hr'. apply IH; [done|lia|done].
  - intros w k v IH w' ms IHm Hok [|f] r Hf; cbn in Hf; [lia|]. cbn in Hok. split_ok. cbn [lay_members erase_members].
    change ((put w << quoted k << put [58; 32] << lay v << put w' << put [44] << lay_members ms) (125 :: r))
      with ((put w << quoted k << put [58; 32] << lay v << put w') (44 :: lay_members ms (125 :: r))).
    rewrite parse_member; try done; [by rewrite IHm by (done || lia)|]. intros r' Hr'. apply IH; [done|lia|done].
  - intros w v IH w' Hok [|f] r Hf; cbn in Hf; [lia|]. cbn in Hok. split_ok. cbn [lay_elements erase_elements].
    rewrite parse_element; try done. intros r' Hr'. apply IH; [done|lia|done].
  - intros w v IH w' es IHe Hok [|f] r Hf; cbn in Hf; [lia|]. cbn in Hok. split_ok. cbn [lay_elements erase_elements].
    change ((put w << lay v << put w' << put [44] << lay_elements es) (93 :: r))
      with ((put w << lay v << put w') (44 :: lay_elements es (93 :: r))).
    rewrite parse_element; try done; [by rewrite IHe by (done || lia)|]. intros r' Hr'. apply IH; [done|lia|done].
Qed.

(** Elements that neither a comma nor a bracket follows. *)
Lemma parse_elements_broken es : elements_ok es = true -> forall f c r,
  (size_elements es <= f)%nat -> is_ws c = false -> is_digit c = false -> (c =? 44) = false -> (c =? 93) = false ->
  parse_elements f (lay_elements es (c :: r)) = None.
Proof.
  induction es as [w v w'|w v w' es IH]; intros Hok [|f] c r Hf Hs Hd H1 H2; cbn in Hf; try lia; cbn in Hok; split_ok;
    cbn [lay_elements].
  - rewrite parse_element; try done; [by rewrite H1, H2|]. intros r' Hr'. apply parse_lay; [done|lia|done].
  - change ((put w << lay v << put w' << put [44] << lay_elements es) (c :: r))
      with ((put w << lay v << put w') (44 :: lay_elements es (c :: r))).
    rewrite parse_element; try done; [by rewrite IH by (done || lia)|]. intros r' Hr'. apply parse_lay; [done|lia|done].
Qed.

(** The fuel of [parse_json] is enough. *)
Lemma size_lay :
  (forall t r, (size t + length r <= length (lay t r))%nat)
  /\ (forall ms r, (size_members ms + length r <= length (lay_members ms r))%nat)
  /\ (forall es r, (size_elements es + length r <= S (length (lay_elements es r)))%nat).
Proof.
  apply layout_ind; cbn [size size_members size_elements lay lay_members lay_elements]; unfold quoted, seq, put; intros.
  - unfold seq, put. rewrite !length_app. cbn. lia.
  - rewrite length_app. destruct (decimal_head z) as (c & s & E & _). rewrite E. cbn. lia.
  - specialize (H (125 :: r)). cbn in *. lia.
  - rewrite !length_app. cbn. lia.
  - specialize (H (93 :: r)). cbn in *. lia.
  - unfold seq, put. rewrite !length_app. specialize (H (w' ++ r)). rewrite length_app in H. cbn in *. lia.
  - unfold seq, put. rewrite !length_app. specialize (H0 r). specialize (H (w' ++ [44] ++ lay_members ms r)).
    rewrite !length_app in H. cbn in *. lia.
  - rewrite !length_app. specialize (H (w' ++ r)). rewrite length_app in H. cbn in *. lia.
  - rewrite !length_app. specialize (H0 r). specialize (H (w' ++ [44] ++ lay_elements es r)).
    rewrite !length_app in H. cbn in *. lia.
Qed.

(** A text laid out with white space is read as the value it lays out. *)
Theorem parse_laid_out t w : tree_ok t = true -> forallb is_ws w = true -> parse_json (lay t w) = Some (erase t).
Proof.
  intros Ht Hw. unfold parse_json. rewrite (proj1 parse_lay).
  - cbn. rewrite <- (app_nil_r w) at 1. by rewrite skip_blank.
  - done.
  - pose proof (proj1 size_lay t w). lia.
  - destruct w as [|c w]; [done|]. cbn in *. split_ok. by apply ws_no_digit.
Qed.

(** ** Objects with a part that is no value *)

Definition lay_member (m : bytes * string * tree) : Out :=
  put m.1.1 << quoted (txt m.1.2) << put [58; 32] << lay m.2 << put [] << put [44].
Definition lay_prefix (l : list (bytes * string * tree)) : Out := fun r => foldr lay_member r l.
Definition prefix_ok (l : list (bytes * string * tree)) : bool :=
  forallb (fun m => forallb is_ws m.1.1 && plain (txt m.1.2) && tree_ok m.2) l.

(** What is refused whatever the fuel, as far as it is enough. *)
Definition no_members (r : bytes) : Prop := forall f, (length r <= f)%nat -> parse_members f r = None.
Definition no_value (r : bytes) : Prop := forall f, (length r <= f)%nat -> parse_value f r = None.

Lemma prefix_no_members l r : prefix_ok l = true -> no_members r -> no_members (lay_prefix l r).
Proof.
  intros Hl Hr. induction l as [|[[w k] v] l IH]; [exact Hr|]. unfold prefix_ok in Hl. cbn [forallb fst snd] in Hl. split_ok. intros f Hf.
  change (lay_prefix ((w, k, v) :: l) r)
    with ((put w << quoted (txt k) << put [58; 32] << lay v << put []) (44 :: lay_prefix l r)) in *.
  set (rest := (lay v << put []) (44 :: lay_prefix l r)).
  assert (size v + length (lay_prefix l r) + 1 <= length rest)%nat as Hs.
  { pose proof (proj1 size_lay v (44 :: lay_prefix l r)) as Hs. unfold rest, seq, put. cbn in Hs |- *. lia. }
  set (head := quoted (txt k) ([58; 32] ++ rest)).
  change ((put w << quoted (txt k) << put [58; 32] << lay v << put []) (44 :: lay_prefix l r)) with (w ++ head) in Hf.
  assert (length head = length (txt k) + 4 + length rest)%nat as Hl2.
  { unfold head, quoted, seq, put. rewrite !length_app. cbn [length]. lia. }
  rewrite length_app, Hl2 in Hf. clearbody rest. clear head Hl2.
  destruct f as [|f]; [lia|]. rewrite parse_member; try done.
  - rewrite Z.eqb_refl, (IH ltac:(done) f); [done|]. lia.
  - intros r' Hr'. apply parse_lay; [done|lia|done].
Qed.

Lemma value_no_members w k r : forallb is_ws w = true -> plain k = true -> no_value r ->
  no_members ((put w << quoted k << put [58; 32]) r).
Proof.
  intros Hw Hk Hr f Hf. unfold quoted, seq, put in *. rewrite !length_app in Hf. cbn [length] in Hf.
  destruct f as [|f]; [done|]. cbn [parse_members]. rewrite skip_blank by done. cbn [app].
  rewrite skip_char, Z.eqb_refl by done. rewrite parse_string_plain by done. cbn [mbind option_bind fst snd].
  rewrite skip_char, Z.eqb_refl by done. change (32 :: r) with ([32] ++ r). rewrite parse_value_blank by done.
  by rewrite Hr by lia.
Qed.

Lemma members_no_value r : no_members r -> (exists s, skip r = QUOTE :: s) -> no_value (123 :: r).
Proof.
  intros Hr [s Es] f Hf. cbn [length] in Hf. destruct f as [|f]; [done|]. cbn [parse_value]. rewrite skip_char by done.
  cbn [Z.eqb Pos.eqb QUOTE]. rewrite Es. cbn [Z.eqb Pos.eqb QUOTE]. by rewrite Hr by lia.
Qed.

Lemma no_value_parse s : no_value s -> parse_json s = None.
Proof. intros H. unfold parse_json. by rewrite H. Qed.

(** A control character is the start of no value. *)
Lemma control_no_value c r : 0 <= c < 9 -> no_value (c :: r).
Proof.
  intros Hc f Hf. destruct f as [|f]; [done|]. cbn [parse_value]. rewrite skip_char by (unfold is_ws; lia).
  unfold QUOTE. rewrite (proj2 (Z.eqb_neq c 34)), (proj2 (Z.eqb_neq c 123)), (proj2 (Z.eqb_neq c 91)) by lia.
  unfold parse_number. rewrite (proj2 (Z.eqb_neq c 45)) by lia. unfold parse_digits. cbn [span].
  by replace (is_digit c) with false by (unfold is_digit; lia).
Qed.
