(* ===== verification/Dump.v ===== *)
(** * Records as JSON texts (utils.cpp, utils.h, dumper.h, JsonRPCHandler.cpp)

    What is written for a record of a group's ledger, of the group register
    and of the subcluster blockchain, by the dumping programs and for the
    JSON-RPC interface.  The text of a record is compared with the JSON value
    that says what the record holds ([json_of_record] and the like). *)

From stdpp Require Import base list strings.
From Stdlib Require Import ZArith Lia.
From S2P Require Import Prelude GradidoDef FileTile Fnr Blockchain BlockchainBase GroupRegister SubclusterBlockchain CoreUtils.
From S2P Require Import Config Json.
Local Open Scope Z_scope.
Local Open Scope out_scope.

(** ** Names and fields *)

Definition name (s : string) : option bytes := Some (txt s).

(** A code outside the enumeration meets a missing return. *)
Definition get_as_str_TransactionType (c : Z) : option bytes :=
  match c with
  | 1 => name "GRADIDO_CREATION" | 2 => name "ADD_GROUP_FRIEND" | 3 => name "REMOVE_GROUP_FRIEND" | 4 => name "ADD_USER"
  | 5 => name "MOVE_USER_INBOUND" | 6 => name "MOVE_USER_OUTBOUND" | 7 => name "LOCAL_TRANSFER"
  | 8 => name "INBOUND_TRANSFER" | 9 => name "OUTBOUND_TRANSFER" | _ => None
  end.
Definition get_as_str_TransactionResult (c : Z) : option bytes :=
  match c with
  | 0 => name "SUCCESS" | 1 => name "UNKNOWN" | 2 => name "NOT_ENOUGH_GRADIDOS" | 3 => name "UNKNOWN_LOCAL_USER"
  | 4 => name "UNKNOWN_REMOTE_USER" | 5 => name "UNKNOWN_GROUP" | 6 => name "OUTBOUND_TRANSACTION_FAILED"
  | 7 => name "USER_ALREADY_EXISTS" | 8 => name "GROUP_IS_ALREADY_FRIEND" | 9 => name "GROUP_IS_NOT_FRIEND" | _ => None
  end.
Definition get_as_str_StructurallyBadMessageResult (c : Z) : option bytes :=
  match c with
  | 1 => name "UNDESERIALIZABLE" | 2 => name "INVALID_SIGNATURE" | 3 => name "MISSING_SIGNATURE" | 4 => name "TOO_LARGE"
  | 5 => name "NEGATIVE_AMOUNT" | 6 => name "BAD_MEMO_CHARACTER" | 7 => name "BAD_ALIAS_CHARACTER"
  | 8 => name "KEY_SIZE_NOT_CORRECT" | _ => None
  end.
Definition get_as_str_GradidoRecordType (t : GradidoRecordType) : string :=
  match t with
  | BLANK => "BLANK" | GRADIDO_TRANSACTION => "GRADIDO_TRANSACTION" | MEMO => "MEMO" | SIGNATURES => "SIGNATURES"
  | STRUCTURALLY_BAD_MESSAGE => "STRUCTURALLY_BAD_MESSAGE" | RAW_MESSAGE => "RAW_MESSAGE"
  end.

(** [dump_in_hex] into a buffer that is large enough, read as a string. *)
Definition hex_buff (field : bytes) : option bytes := cstr <$> sodium_bin2hex (Z.of_nat (length field) * 2 + 1) field.

Definition endl : Out := put [NL].
Definition num (z : Z) : Out := put (decimal z).
Definition q (s : string) : Out := quoted (txt s).

(** ** A record of a ledger *)

(** The lines of an amount and of transaction data, which the code repeats. *)
Definition dump_value (i : string) (v : GradidoValue) : Out :=
  lit i << q "amount" << lit ": " << num (amount v) << lit ", " << endl
  << lit i << q "decimal_amount" << lit ": " << num (decimal_amount v) << endl.
Definition dump_timestamp (i : string) (t : HederaTimestamp) : Out :=
  lit i << q "seconds" << lit ": " << num (GradidoDef.seconds t) << lit ", " << endl
  << lit i << q "nanos" << lit ": " << num (GradidoDef.nanos t) << endl.
Definition dump_hedera (i : string) (h : HederaTransaction) (running_hash : bytes) : Out :=
  lit i << q "consensusTimestamp" << lit ": {" << endl
  << dump_timestamp (i ++ "  ") (consensusTimestamp h)
  << lit i << lit "}," << endl
  << lit i << q "runningHash" << lit ": " << quoted running_hash << lit ", " << endl
  << lit i << q "sequenceNumber" << lit ": " << num (Z.of_N (sequenceNumber h)) << lit ", " << endl
  << lit i << q "runningHashVersion" << lit ": " << num (runningHashVersion h) << endl.
(** A user with the new balance, inside "sender" or "receiver". *)
Definition dump_user_state (user : bytes) (s : UserState) : Out :=
  lit "        " << q "user" << lit ": " << quoted user << lit ", " << endl
  << lit "        " << q "new_balance" << lit ": {" << endl
  << dump_value "          " (new_balance s)
  << lit "        }," << endl
  << lit "        " << q "prev_transfer_rec_num" << lit ": " << num (Z.of_N (prev_transfer_rec_num s)) << endl.
Definition dump_paired (other_group : bytes) (ts : HederaTimestamp) : Out :=
  lit "      " << q "other_group" << lit ": " << quoted other_group << lit "," << endl
  << lit "      " << q "paired_transaction_id" << lit ": {" << endl
  << dump_timestamp "        " ts
  << lit "      }" << endl.

Definition dump_group (key : string) (group : bytes) : option Out :=
  group ← field_string group;
  Some (lit "    " << q key << lit ": {" << endl
        << lit "      " << q "group" << lit ": " << quoted group << endl
        << lit "    }," << endl).
Definition dump_move (key : string) (mu : MoveUser) : option Out :=
  user ← hex_buff (mu_user mu);
  other_group ← field_string (other_group (mu_paired mu));
  Some (lit "    " << q key << lit ": {" << endl
        << lit "      " << q "user" << lit ": " << quoted user << lit "," << endl
        << dump_paired other_group (paired_transaction_id (mu_paired mu))
        << lit "    }," << endl).

(** The part of a transaction that depends on its type. *)
Definition dump_body (b : TransactionBody) : option Out :=
  match b with
  | TB_gradido_creation v =>
      user ← hex_buff (ut_user (gc_user v));
      Some (lit "    " << q "gradido_creation" << lit ": {" << endl
            << lit "      " << q "user" << lit ": " << quoted user << lit ", " << endl
            << lit "      " << q "new_balance" << lit ": {" << endl
            << dump_value "        " (new_balance (ut_state (gc_user v)))
            << lit "      }," << endl
            << lit "      " << q "prev_transfer_rec_num" << lit ": "
            << num (Z.of_N (prev_transfer_rec_num (ut_state (gc_user v)))) << lit ", " << endl
            << lit "      " << q "amount" << lit ": {" << endl
            << dump_value "        " (gc_amount v)
            << lit "      }" << endl
            << lit "    }," << endl)
  | TB_add_group_friend group => dump_group "add_group_friend" group
  | TB_remove_group_friend group => dump_group "remove_group_friend" group
  | TB_add_user user =>
      user ← hex_buff user;
      Some (lit "    " << q "add_user" << lit ": {" << endl
            << lit "      " << q "user" << lit ": " << quoted user << endl
            << lit "    }," << endl)
  | TB_move_user_inbound mu => dump_move "move_user_inbound" mu
  | TB_move_user_outbound mu => dump_move "move_user_outbound" mu
  | TB_local_transfer v =>
      sender ← hex_buff (ut_user (lt_sender v));
      receiver ← hex_buff (ut_user (lt_receiver v));
      Some (lit "    " << q "local_transfer" << lit ": {" << endl
            << lit "      " << q "sender" << lit ": {" << endl
            << dump_user_state sender (ut_state (lt_sender v))
            << lit "      }," << endl
            << lit "      " << q "receiver" << lit ": {" << endl
            << dump_user_state receiver (ut_state (lt_receiver v))
            << lit "      }," << endl
            << lit "      " << q "amount" << lit ": {" << endl
            << dump_value "        " (lt_amount v)
            << lit "      }" << endl
            << lit "    }," << endl)
  | TB_inbound_transfer v =>
      sender ← hex_buff (it_sender v);
      receiver ← hex_buff (ut_user (it_receiver v));
      other_group ← field_string (other_group (it_paired v));
      Some (lit "    " << q "inbound_transfer" << lit ": {" << endl
            << lit "      " << q "sender" << lit ": {" << endl
            << lit "        " << q "user" << lit ": " << quoted sender << endl
            << lit "      }," << endl
            << lit "      " << q "receiver" << lit ": {" << endl
            << dump_user_state receiver (ut_state (it_receiver v))
            << lit "      }," << endl
            << lit "      " << q "amount" << lit ": {" << endl
            << dump_value "        " (it_amount v)
            << lit "      }," << endl
            << dump_paired other_group (paired_transaction_id (it_paired v))
            << lit "    }," << endl)
  | TB_outbound_transfer v =>
      sender ← hex_buff (ut_user (ot_sender v));
      receiver ← hex_buff (ot_receiver v);
      other_group ← field_string (other_group (ot_paired v));
      Some (lit "    " << q "outbound_transfer" << lit ": {" << endl
            << lit "      " << q "sender" << lit ": {" << endl
            << dump_user_state sender (ut_state (ot_sender v))
            << lit "      }," << endl
            << lit "      " << q "receiver" << lit ": {" << endl
            << lit "        " << q "user" << lit ": " << quoted receiver << endl
            << lit "      }," << endl
            << lit "      " << q "amount" << lit ": {" << endl
            << dump_value "        " (ot_amount v)
            << lit "      }," << endl
            << dump_paired other_group (paired_transaction_id (ot_paired v))
            << lit "    }," << endl)
  | TB_other _ => Some (put [])
  end.

(** A memo that fills its field has no null. *)
Definition memo_string (m : bytes) : option bytes :=
  c ← m !! (MEMO_MAIN_SIZE - 1)%nat;
  if c =? 0 then Some (cstr m) else Some (take MEMO_MAIN_SIZE m).

Definition dump_transaction (u : Transaction) : option Out :=
  running_hash ← hex_buff (runningHash (hedera_transaction u));
  pubkey ← hex_buff (sig_pubkey (signature u));
  sig ← hex_buff (sig_signature (signature u));
  memo ← memo_string (memo u);
  ttype ← get_as_str_TransactionType (transaction_type (body u));
  body ← dump_body (body u);
  result_str ← get_as_str_TransactionResult (TransactionResult_code (tr_result u));
  Some (lit "  " << q "transaction" << lit ": {" << endl
        << lit "    " << q "version_number" << lit ": " << num (i32 (version_number u)) << lit ", " << endl
        << lit "    " << q "signature" << lit ": {" << endl
        << lit "      " << q "pubkey" << lit ": " << quoted pubkey << lit ", " << endl
        << lit "      " << q "signature" << lit ": " << quoted sig << endl
        << lit "    }, " << endl
        << lit "    " << q "signature_count" << lit ": " << num (signature_count u) << lit ", " << endl
        << lit "    " << q "hedera_transaction" << lit ": {" << endl
        << dump_hedera "      " (hedera_transaction u) running_hash
        << lit "    }," << endl
        << lit "    " << q "transaction_type" << lit ": " << quoted ttype << lit ", " << endl
        << body
        << lit "    " << q "result" << lit ": " << quoted result_str << lit ", " << endl
        << lit "    " << q "parts" << lit ": " << num (i32 (parts u)) << lit ", " << endl
        << lit "    " << q "memo" << lit ": " << quoted memo << endl
        << lit "  }" << endl).

(** Until a key that starts with a zero byte. *)
Fixpoint dump_signatures (key : string) (l : list Signature) : option Out :=
  match l with
  | [] => Some (put [])
  | s :: l' =>
      c ← sig_pubkey s !! 0%nat;
      if c =? 0 then Some (put [])
      else
        pubkey ← hex_buff (sig_pubkey s);
        sig ← hex_buff (sig_signature s);
        rest ← dump_signatures key l';
        Some (lit "  " << q key << lit ": [" << endl
              << lit "    {" << endl
              << lit "      " << q "pubkey" << lit ": " << quoted pubkey << lit ", " << endl
              << lit "      " << q "signature" << lit ": " << quoted sig << endl
              << lit "    }" << endl
              << lit "  ]" << endl << rest)
  end.

(** The result is taken for one of a transaction. *)
Definition dump_bad_message (u : StructurallyBadMessage) : option Out :=
  running_hash ← hex_buff (runningHash (sbm_hedera_transaction u));
  result_str ← get_as_str_TransactionResult (sbm_result u);
  Some (lit "    " << q "result" << lit ": " << quoted result_str << lit ", " << endl
        << lit "    " << q "parts" << lit ": " << num (i32 (sbm_parts u)) << lit ", " << endl
        << lit "    " << q "length" << lit ": " << num (sbm_length u) << lit ", " << endl
        << lit "    " << q "hedera_transaction" << lit ": {" << endl
        << dump_hedera "      " (sbm_hedera_transaction u) running_hash
        << lit "    }" << endl).

Definition dump_GradidoRecord (t : GradidoRecord) : option Out :=
  let record_type := get_as_str_GradidoRecordType (record_type t) in
  rest ← match t with
         | GR_transaction u => dump_transaction u
         | GR_memo m => memo ← field_string m; Some (lit "  " << q "memo" << lit ": " << quoted memo << lit " " << endl)
         | GR_signatures l => dump_signatures "signature" l
         | GR_structurally_bad_message u => dump_bad_message u
         | GR_raw_message _ | GR_blank => Some (put [])
         end;
  Some (lit "{" << endl
        << lit "  " << q "record_type" << lit ": " << q record_type << lit ", " << endl
        << rest << lit "}" << endl).

(** ** What the text should say *)

Definition hexs (field : bytes) : bytes := flat_map bin2hex_byte field.
Definition field (k : string) (v : json) : bytes * json := (txt k, v).
Notation "k ~> v" := (field k v) (at level 61, no associativity).

Definition json_value (v : GradidoValue) : json := JObj ["amount" ~> JNum (amount v); "decimal_amount" ~> JNum (decimal_amount v)].
Definition json_timestamp (t : HederaTimestamp) : json :=
  JObj ["seconds" ~> JNum (GradidoDef.seconds t); "nanos" ~> JNum (GradidoDef.nanos t)].
Definition json_hedera (h : HederaTransaction) : json :=
  JObj ["consensusTimestamp" ~> json_timestamp (consensusTimestamp h); "runningHash" ~> JStr (hexs (runningHash h));
        "sequenceNumber" ~> JNum (Z.of_N (sequenceNumber h)); "runningHashVersion" ~> JNum (runningHashVersion h)].
Definition json_signature (s : Signature) : json :=
  JObj ["pubkey" ~> JStr (hexs (sig_pubkey s)); "signature" ~> JStr (hexs (sig_signature s))].
Definition json_user (user : bytes) : json := JObj ["user" ~> JStr (hexs user)].
Definition json_user_state (u : UserTransfer) : json :=
  JObj ["user" ~> JStr (hexs (ut_user u)); "new_balance" ~> json_value (new_balance (ut_state u));
        "prev_transfer_rec_num" ~> JNum (Z.of_N (prev_transfer_rec_num (ut_state u)))].
Definition json_paired (p : PairedTransaction) : list (bytes * json) :=
  ["other_group" ~> JStr (cstr (other_group p)); "paired_transaction_id" ~> json_timestamp (paired_transaction_id p)].
Definition json_move (mu : MoveUser) : json := JObj (("user" ~> JStr (hexs (mu_user mu))) :: json_paired (mu_paired mu)).

(** The name of the type, the key of the part and the part. *)
Definition json_body (b : TransactionBody) : string * (bytes * json) :=
  match b with
  | TB_gradido_creation v =>
      ("GRADIDO_CREATION", "gradido_creation" ~>
        JObj ["user" ~> JStr (hexs (ut_user (gc_user v))); "new_balance" ~> json_value (new_balance (ut_state (gc_user v)));
              "prev_transfer_rec_num" ~> JNum (Z.of_N (prev_transfer_rec_num (ut_state (gc_user v))));
              "amount" ~> json_value (gc_amount v)])
  | TB_add_group_friend group => ("ADD_GROUP_FRIEND", "add_group_friend" ~> JObj ["group" ~> JStr (cstr group)])
  | TB_remove_group_friend group => ("REMOVE_GROUP_FRIEND", "remove_group_friend" ~> JObj ["group" ~> JStr (cstr group)])
  | TB_add_user user => ("ADD_USER", "add_user" ~> json_user user)
  | TB_move_user_inbound mu => ("MOVE_USER_INBOUND", "move_user_inbound" ~> json_move mu)
  | TB_move_user_outbound mu => ("MOVE_USER_OUTBOUND", "move_user_outbound" ~> json_move mu)
  | TB_local_transfer v =>
      ("LOCAL_TRANSFER", "local_transfer" ~>
        JObj ["sender" ~> json_user_state (lt_sender v); "receiver" ~> json_user_state (lt_receiver v);
              "amount" ~> json_value (lt_amount v)])
  | TB_inbound_transfer v =>
      ("INBOUND_TRANSFER", "inbound_transfer" ~>
        JObj (["sender" ~> json_user (it_sender v); "receiver" ~> json_user_state (it_receiver v);
               "amount" ~> json_value (it_amount v)] ++ json_paired (it_paired v)))
  | TB_outbound_transfer v =>
      ("OUTBOUND_TRANSFER", "outbound_transfer" ~>
        JObj (["sender" ~> json_user_state (ot_sender v); "receiver" ~> json_user (ot_receiver v);
               "amount" ~> json_value (ot_amount v)] ++ json_paired (ot_paired v)))
  | TB_other _ => ("", "" ~> JObj [])
  end.

Definition result_name (r : TransactionResult) : bytes := default [] (get_as_str_TransactionResult (TransactionResult_code r)).

Definition json_transaction (u : Transaction) : json :=
  JObj ["version_number" ~> JNum (version_number u); "signature" ~> json_signature (signature u);
        "signature_count" ~> JNum (signature_count u); "hedera_transaction" ~> json_hedera (hedera_transaction u);
        "transaction_type" ~> JStr (txt (json_body (body u)).1); (json_body (body u)).2;
        "result" ~> JStr (result_name (tr_result u)); "parts" ~> JNum (parts u);
        "memo" ~> JStr (default [] (memo_string (memo u)))].

(** The entries before the first one that is not used. *)
Definition used (s : Signature) : bool := match sig_pubkey s with c :: _ => negb (c =? 0) | [] => false end.
Fixpoint used_signatures (l : list Signature) : list Signature :=
  match l with s :: l' => if used s then s :: used_signatures l' else [] | [] => [] end.

Definition json_of_record (t : GradidoRecord) : json :=
  JObj (("record_type" ~> JStr (txt (get_as_str_GradidoRecordType (record_type t)))) ::
    match t with
    | GR_transaction u => ["transaction" ~> json_transaction u]
    | GR_memo m => ["memo" ~> JStr (cstr m)]
    | GR_signatures l => ["signature" ~> JArr (map json_signature (used_signatures l))]
    | GR_structurally_bad_message u =>
        ["result" ~> JStr (default [] (get_as_str_StructurallyBadMessageResult (sbm_result u))); "parts" ~> JNum (sbm_parts u);
         "length" ~> JNum (sbm_length u); "hedera_transaction" ~> json_hedera (sbm_hedera_transaction u)]
    | GR_raw_message _ | GR_blank => []
    end).

(** ** Records that can be dumped

    Fields hold bytes, and texts end inside their field and need no
    escape. *)

Definition byteb (b : Z) : bool := (0 <=? b) && (b <? 256).
Definition hex_ok (f : bytes) : bool := (length f <=? 64)%nat && forallb byteb f.
Definition text_ok (f : bytes) : bool := match field_string f with Some s => plain s | None => false end.
Definition body_ok (b : TransactionBody) : bool :=
  match b with
  | TB_gradido_creation v => hex_ok (ut_user (gc_user v))
  | TB_add_group_friend group | TB_remove_group_friend group => text_ok group
  | TB_add_user user => hex_ok user
  | TB_move_user_inbound mu | TB_move_user_outbound mu => hex_ok (mu_user mu) && text_ok (other_group (mu_paired mu))
  | TB_local_transfer v => hex_ok (ut_user (lt_sender v)) && hex_ok (ut_user (lt_receiver v))
  | TB_inbound_transfer v => hex_ok (it_sender v) && hex_ok (ut_user (it_receiver v)) && text_ok (other_group (it_paired v))
  | TB_outbound_transfer v => hex_ok (ut_user (ot_sender v)) && hex_ok (ot_receiver v) && text_ok (other_group (ot_paired v))
  | TB_other _ => false
  end.
Definition signature_ok (s : Signature) : bool := hex_ok (sig_pubkey s) && hex_ok (sig_signature s).
(** A 32-bit number that is the same as an [int]. *)
Definition small (z : Z) : bool := (0 <=? z) && (z <? 2 ^ 31).
Lemma small_int z : small z = true -> i32 z = z.
Proof. unfold small. intros H. apply swrap_small; lia. Qed.
Definition memo_ok (m : bytes) : bool := match memo_string m with Some s => plain s | None => false end.
Definition transaction_ok (u : Transaction) : bool :=
  hex_ok (runningHash (hedera_transaction u)) && signature_ok (signature u) && memo_ok (memo u) && body_ok (body u)
  && small (version_number u) && small (parts u).

(** ** The text as a layout *)

Definition nl (i : string) : bytes := NL :: txt i.
Definition snl (i : string) : bytes := 32 :: NL :: txt i.
(** A member that ends with a comma, or a comma and a space, or is the last. *)
Abbreviation mem w k v ms := (MCons w (txt k) v [] ms).
Abbreviation last_mem w k v w' := (MOne w (txt k) v w').

(** [i]: the indentation of the members, [o]: of the object. *)
Definition tree_value (i o : string) (v : GradidoValue) : tree :=
  TObj (mem (nl i) "amount" (TNum (amount v)) (last_mem (snl i) "decimal_amount" (TNum (decimal_amount v)) (nl o))).
Definition tree_timestamp (i o : string) (t : HederaTimestamp) : tree :=
  TObj (mem (nl i) "seconds" (TNum (GradidoDef.seconds t))
       (last_mem (snl i) "nanos" (TNum (GradidoDef.nanos t)) (nl o))).
Definition tree_hedera (i o : string) (h : HederaTransaction) : tree :=
  TObj (mem (nl i) "consensusTimestamp" (tree_timestamp (i ++ "  ") i (consensusTimestamp h))
       (mem (nl i) "runningHash" (TStr (hexs (runningHash h)))
       (mem (snl i) "sequenceNumber" (TNum (Z.of_N (sequenceNumber h)))
       (last_mem (snl i) "runningHashVersion" (TNum (runningHashVersion h)) (nl o))))).
Definition tree_signature (s : Signature) : tree :=
  TObj (mem (nl "      ") "pubkey" (TStr (hexs (sig_pubkey s)))
       (last_mem (snl "      ") "signature" (TStr (hexs (sig_signature s))) (nl "    "))).
Definition tree_user (user : bytes) : tree := TObj (last_mem (nl "        ") "user" (TStr (hexs user)) (nl "      ")).
Definition tree_user_state (u : UserTransfer) : tree :=
  TObj (mem (nl "        ") "user" (TStr (hexs (ut_user u)))
       (mem (snl "        ") "new_balance" (tree_value "          " "        " (new_balance (ut_state u)))
       (last_mem (nl "        ") "prev_transfer_rec_num" (TNum (Z.of_N (prev_transfer_rec_num (ut_state u)))) (nl "      ")))).
Definition tree_paired (p : PairedTransaction) : members :=
  mem (nl "      ") "other_group" (TStr (cstr (other_group p)))
  (last_mem (nl "      ") "paired_transaction_id" (tree_timestamp "        " "      " (paired_transaction_id p)) (nl "    ")).
Definition tree_group (group : bytes) : tree := TObj (last_mem (nl "      ") "group" (TStr (cstr group)) (nl "    ")).
Definition tree_move (mu : MoveUser) : tree :=
  TObj (mem (nl "      ") "user" (TStr (hexs (mu_user mu))) (tree_paired (mu_paired mu))).

Definition tree_body (b : TransactionBody) : bytes * tree :=
  match b with
  | TB_gradido_creation v =>
      (txt "gradido_creation",
       TObj (mem (nl "      ") "user" (TStr (hexs (ut_user (gc_user v))))
            (mem (snl "      ") "new_balance" (tree_value "        " "      " (new_balance (ut_state (gc_user v))))
            (mem (nl "      ") "prev_transfer_rec_num" (TNum (Z.of_N (prev_transfer_rec_num (ut_state (gc_user v)))))
            (last_mem (snl "      ") "amount" (tree_value "        " "      " (gc_amount v)) (nl "    "))))))
  | TB_add_group_friend group => (txt "add_group_friend", tree_group group)
  | TB_remove_group_friend group => (txt "remove_group_friend", tree_group group)
  | TB_add_user user => (txt "add_user", TObj (last_mem (nl "      ") "user" (TStr (hexs user)) (nl "    ")))
  | TB_move_user_inbound mu => (txt "move_user_inbound", tree_move mu)
  | TB_move_user_outbound mu => (txt "move_user_outbound", tree_move mu)
  | TB_local_transfer v =>
      (txt "local_transfer",
       TObj (mem (nl "      ") "sender" (tree_user_state (lt_sender v))
            (mem (nl "      ") "receiver" (tree_user_state (lt_receiver v))
            (last_mem (nl "      ") "amount" (tree_value "        " "      " (lt_amount v)) (nl "    ")))))
  | TB_inbound_transfer v =>
      (txt "inbound_transfer",
       TObj (mem (nl "      ") "sender" (tree_user (it_sender v))
            (mem (nl "      ") "receiver" (tree_user_state (it_receiver v))
            (mem (nl "      ") "amount" (tree_value "        " "      " (it_amount v)) (tree_paired (it_paired v))))))
  | TB_outbound_transfer v =>
      (txt "outbound_transfer",
       TObj (mem (nl "      ") "sender" (tree_user_state (ot_sender v))
            (mem (nl "      ") "receiver" (tree_user (ot_receiver v))
            (mem (nl "      ") "amount" (tree_value "        " "      " (ot_amount v)) (tree_paired (ot_paired v))))))
  | TB_other _ => ([], TNum 0)
  end.

Definition tree_transaction (u : Transaction) : tree :=
  TObj (mem (nl "    ") "version_number" (TNum (version_number u))
       (mem (snl "    ") "signature" (tree_signature (signature u))
       (mem (snl "    ") "signature_count" (TNum (signature_count u))
       (mem (snl "    ") "hedera_transaction" (tree_hedera "      " "    " (hedera_transaction u))
       (mem (nl "    ") "transaction_type" (TStr (txt (json_body (body u)).1))
       (MCons (snl "    ") (tree_body (body u)).1 (tree_body (body u)).2 []
       (mem (nl "    ") "result" (TStr (result_name (tr_result u)))
       (mem (snl "    ") "parts" (TNum (parts u))
       (last_mem (snl "    ") "memo" (TStr (default [] (memo_string (memo u)))) (nl "  ")))))))))).

(** ** Lemmas *)

Lemma hex_chars_plain f : forallb byteb f = true -> plain (hexs f) = true.
Proof.
  intros H. unfold plain, hexs. induction f as [|b f IH]; [done|]. cbn in H. apply andb_prop in H as [Hb Hf].
  cbn [flat_map]. rewrite forallb_app, (IH Hf), andb_true_r. revert Hb. unfold byteb. intros Hb.
  refine (bytes_checked (fun b => forallb is_plain (bin2hex_byte b)) b _ _); [vm_compute; reflexivity|]. unfold is_byte. lia.
Qed.

Lemma hex_buff_ok f : hex_ok f = true -> hex_buff f = Some (hexs f) /\ plain (hexs f) = true.
Proof.
  unfold hex_ok. intros [Hl Hb]%andb_prop. apply Nat.leb_le in Hl. split; [|by apply hex_chars_plain].
  unfold hex_buff. rewrite sodium_bin2hex_ok by lia. cbn. f_equal.
  assert (Forall is_byte f) as Hf.
  { apply Forall_forall. intros b Hin. rewrite forallb_forall in Hb. apply list_elem_of_In in Hin.
    specialize (Hb b Hin). unfold byteb in Hb. unfold is_byte. lia. }
  destruct (bin2hex_facts f Hf) as (Hz & _). fold (hexs f) in *. rewrite cstr_app_nonzero by done. apply app_nil_r.
Qed.

Lemma text_ok_string f : text_ok f = true -> field_string f = Some (cstr f) /\ plain (cstr f) = true.
Proof. unfold text_ok, field_string. by destruct (length (cstr f) <? length f)%nat. Qed.

(** Rewrites the fields of a record that can be dumped. *)
Ltac use_fields :=
  repeat match goal with
  | H : hex_ok ?f = true |- _ => apply hex_buff_ok in H; destruct H as [? ?]
  | H : text_ok ?f = true |- _ => apply text_ok_string in H; destruct H as [? ?]
  | H : small ?z = true |- _ => apply small_int in H; rewrite H; clear H
  end;
  repeat match goal with
  | H : hex_buff _ = Some _ |- _ => rewrite !H; clear H; cbn [mbind option_bind]
  | H : field_string _ = Some _ |- _ => rewrite !H; clear H; cbn [mbind option_bind]
  end.
Ltac use_plain := repeat match goal with H : plain _ = true |- _ => rewrite !H; clear H end.

Lemma dump_body_lay b :
  body_ok b = true ->
  exists o, dump_body b = Some o
    /\ (forall r, o r = (lit "    " << quoted (tree_body b).1 << lit ": " << lay (tree_body b).2 << lit "," << endl) r)
    /\ plain (tree_body b).1 = true /\ tree_ok (tree_body b).2 = true
    /\ ((tree_body b).1, erase (tree_body b).2) = (json_body b).2
    /\ get_as_str_TransactionType (transaction_type b) = Some (txt (json_body b).1)
    /\ plain (txt (json_body b).1) = true.
Proof.
  intros H. destruct b; cbn [body_ok] in H; try discriminate H; split_ok; cbn [dump_body]; unfold dump_group, dump_move;
    use_fields; (eexists; split; [reflexivity|]); (split; [reflexivity|]); cbn; use_plain; split_and!; reflexivity.
Qed.

(** What a stream got is a value, laid out, and a line end. *)
Definition writes (o : Out) (t : tree) : Prop := tree_ok t = true /\ forall r, o r = lay t (NL :: r).

Lemma writes_parse o t : writes o t -> parse_json (o []) = Some (erase t).
Proof. intros [H E]. rewrite E. by apply parse_laid_out. Qed.

Lemma result_named r :
  get_as_str_TransactionResult (TransactionResult_code r) = Some (result_name r) /\ plain (result_name r) = true.
Proof. by destruct r. Qed.

Lemma dump_transaction_lay u :
  transaction_ok u = true ->
  exists o, dump_transaction u = Some o
    /\ (forall r, o r = (lit "  " << q "transaction" << lit ": " << lay (tree_transaction u) << endl) r)
    /\ tree_ok (tree_transaction u) = true /\ erase (tree_transaction u) = json_transaction u.
Proof.
  unfold transaction_ok, signature_ok, memo_ok. intros H. split_ok. unfold dump_transaction. use_fields.
  destruct (memo_string (memo u)) as [m|] eqn:Em; [|discriminate]. cbn [mbind option_bind].
  destruct (dump_body_lay (body u)) as (o & Eo & Ho & Hp1 & Hp2 & He & Et & Hp3); [done|].
  destruct (result_named (tr_result u)) as [Er Hp4]. rewrite Et. cbn [mbind option_bind]. rewrite Eo. cbn [mbind option_bind].
  rewrite Er. cbn [mbind option_bind]. eexists. split; [reflexivity|]. split_and!.
  - intros r. unfold tree_transaction. rewrite Em. cbn [default]. unfold seq. rewrite Ho. reflexivity.
  - unfold tree_transaction, tree_signature, tree_hedera. rewrite Em.
    cbn [tree_ok members_ok default id]. rewrite Hp1, Hp2, Hp3, Hp4. use_plain. reflexivity.
  - unfold tree_transaction, json_transaction. rewrite Em, <- He. reflexivity.
Qed.

(** ** The records of a ledger *)

Definition signatures_ok (l : list Signature) : bool :=
  forallb (fun s => negb (length (sig_pubkey s) =? 0)%nat) l && forallb signature_ok (used_signatures l).

Definition record_ok (t : GradidoRecord) : bool :=
  match t with
  | GR_transaction u => transaction_ok u
  | GR_memo m => text_ok m
  | GR_signatures l => signatures_ok l && (length (used_signatures l) =? 1)%nat
  | GR_structurally_bad_message _ | GR_raw_message _ | GR_blank => false
  end.

Definition tree_record (t : GradidoRecord) : tree :=
  TObj (mem (nl "  ") "record_type" (TStr (txt (get_as_str_GradidoRecordType (record_type t))))
    match t with
    | GR_transaction u => last_mem (snl "  ") "transaction" (tree_transaction u) (nl "")
    | GR_memo m => last_mem (snl "  ") "memo" (TStr (cstr m)) (snl "")
    | GR_signatures l =>
        last_mem (snl "  ") "signature"
          (TArr (EOne (nl "    ") (tree_signature (default Signature_zero (head (used_signatures l)))) (nl "  "))) (nl "")
    | _ => last_mem [] "" (TNum 0) []
    end).


(** Whatever follows the name of the type. *)
Definition opening (t : GradidoRecord) : Out :=
  put [123] << put (nl "  ") << q "record_type" << put [58; 32]
  << lay (TStr (txt (get_as_str_GradidoRecordType (record_type t)))) << put [].

Lemma used_signatures_dump key l :
  signatures_ok l = true ->
  dump_signatures key l
  = Some (foldr (fun s o => lit "  " << q key << lit ": " << lay (TArr (EOne (nl "    ") (tree_signature s) (nl "  "))) << endl << o)
            (put []) (used_signatures l)).
Proof.
  unfold signatures_ok. induction l as [|s l IH]; [done|]. cbn [used_signatures dump_signatures forallb]. unfold used.
  destruct (sig_pubkey s) as [|c pk] eqn:Ek; [done|]. cbn [head lookup list_lookup mbind option_bind length Nat.eqb negb andb].
  destruct (c =? 0) eqn:Ec; cbn [negb]; [done|]. cbn [forallb]. rewrite <- Ek. intros [Hk [H Hl]%andb_prop]%andb_prop.
  rewrite (IH (andb_true_intro (conj Hk Hl))).
  unfold signature_ok in H. split_ok. use_fields. reflexivity.
Qed.

Lemma dump_record_writes t :
  record_ok t = true ->
  exists o, dump_GradidoRecord t = Some o /\ writes o (tree_record t) /\ erase (tree_record t) = json_of_record t.
Proof.
  intros H. destruct t as [u|m|l|u|m|]; cbn [record_ok] in H; try discriminate H; unfold dump_GradidoRecord.
  - destruct (dump_transaction_lay u H) as (o & Eo & Ho & Hok & He). rewrite Eo. cbn [mbind option_bind].
    eexists. split; [reflexivity|]. split; [split|].
    + cbn [tree_record tree_ok members_ok]. rewrite Hok. reflexivity.
    + intros r. unfold seq. rewrite Ho. reflexivity.
    + unfold json_of_record. rewrite <- He. reflexivity.
  - use_fields. eexists. split; [reflexivity|]. split; [split|]; [|reflexivity|reflexivity].
    cbn [tree_record tree_ok members_ok]. use_plain. reflexivity.
  - apply andb_prop in H as [Hs H]. rewrite (used_signatures_dump _ _ Hs). unfold signatures_ok in Hs.
    apply andb_prop in Hs as [_ Hs]. unfold json_of_record, tree_record.
    destruct (used_signatures l) as [|s [|? ?]]; try discriminate H. cbn [forallb] in Hs. unfold signature_ok in Hs. split_ok.
    use_fields. eexists. split; [reflexivity|]. split; [split|]; [|reflexivity|reflexivity].
    unfold tree_signature. cbn [tree_ok members_ok elements_ok default head id]. use_plain. reflexivity.
Qed.

(** C26: a transaction with printable texts, a memo or a single signature is
    dumped as a JSON text, which reads as the value that says what the record
    holds. *)
Theorem dumped_record_reads_back t :
  record_ok t = true -> exists o, dump_GradidoRecord t = Some o /\ parse_json (o []) = Some (json_of_record t).
Proof.
  intros H. destruct (dump_record_writes t H) as (o & Eo & Hw & He). exists o. split; [done|].
  rewrite <- He. by apply writes_parse.
Qed.

(** ** Texts that are no JSON *)

Lemma plain_type_name t : plain (txt (get_as_str_GradidoRecordType t)) = true.
Proof. by destruct t. Qed.

(** After the first member everything depends on the others. *)
Lemma parse_opening t r :
  (forall f, (length r <= f)%nat -> parse_members f r = None) -> parse_json (opening t (44 :: r)) = None.
Proof.
  intros Hr. unfold parse_json. set (s := opening t (44 :: r)).
  assert (exists f, length s = S (S f) /\ (S (length r) <= f)%nat) as (f & -> & Hf).
  { assert (S (S (S (length r))) <= length s)%nat as Hl; [|by exists (length s - 2)%nat; lia].
    unfold s, opening, q. cbn [lay]. unfold quoted, seq, put. rewrite !length_app. cbn [length]. lia. }
  enough (parse_value (S (S f)) s = None) as -> by done. unfold s, opening.
  change ((put [123] << put (nl "  ") << q "record_type" << put [58; 32]
           << lay (TStr (txt (get_as_str_GradidoRecordType (record_type t)))) << put []) (44 :: r))
    with (123 :: (put (nl "  ") << quoted (txt "record_type") << put [58; 32]
           << lay (TStr (txt (get_as_str_GradidoRecordType (record_type t)))) << put []) (44 :: r)).
  set (m := (_ << put []) _). cbn [parse_value]. rewrite skip_char by done. cbn [Z.eqb Pos.eqb QUOTE].
  assert (exists s', skip m = QUOTE :: s') as [s' Es] by (eexists; reflexivity). rewrite Es. cbn [Z.eqb Pos.eqb QUOTE].
  enough (parse_members (S f) m = None) as -> by done. unfold m. rewrite parse_member; try done.
  - rewrite Z.eqb_refl, Hr by lia. done.
  - intros r' Hr'. apply parse_lay; [apply plain_type_name|cbn; lia|done].
Qed.

Lemma parse_members_closed f w r : forallb is_ws w = true -> parse_members f (w ++ 125 :: r) = None.
Proof. intros H. destruct f; [done|]. cbn [parse_members]. by rewrite skip_blank, skip_char by done. Qed.

Lemma tree_signature_ok s : signature_ok s = true -> tree_ok (tree_signature s) = true.
Proof.
  unfold signature_ok. intros H. split_ok. use_fields. unfold tree_signature. cbn [tree_ok members_ok]. use_plain. reflexivity.
Qed.

(** What is dumped for a blank line, for a part of a message that could
    not be read, and for a signature record with no signature or with more
    than one, is no JSON text: a comma is followed by the closing brace, or
    one is missing. *)
Theorem dumped_record_unreadable t :
  match t with
  | GR_blank | GR_raw_message _ => True
  | GR_signatures l => signatures_ok l = true /\ length (used_signatures l) <> 1%nat
  | _ => False
  end ->
  exists o, dump_GradidoRecord t = Some o /\ parse_json (o []) = None.
Proof.
  assert (forall t, parse_json (opening t (44 :: [32; NL] ++ 125 :: [NL])) = None) as Hend.
  { intros t'. apply parse_opening. intros f _. by apply parse_members_closed. }
  destruct t as [u|m|l|u|m|]; try done; unfold dump_GradidoRecord.
  - intros [Hs Hn]. rewrite (used_signatures_dump _ _ Hs). cbn [mbind option_bind]. eexists. split; [reflexivity|].
    unfold signatures_ok in Hs. apply andb_prop in Hs as [_ Hs].
    destruct (used_signatures l) as [|s [|s2 l']]; [exact (Hend (GR_signatures l))|done|]. cbn [forallb] in Hs. split_ok.
    set (v := TArr (EOne (nl "    ") (tree_signature s) (nl "  "))).
    set (v2 := TArr (EOne (nl "    ") (tree_signature s2) (nl "  "))).
    cbn [foldr]. set (tl := foldr _ _ l').
    change (parse_json (opening (GR_signatures l)
      (44 :: (put (snl "  ") << quoted (txt "signature") << put [58; 32] << lay v << put (nl "  "))
        (QUOTE :: (put (txt "signature") << put [QUOTE] << lit ": " << lay v2 << endl << tl << lit "}" << endl) []))) = None).
    apply parse_opening. intros f Hf. destruct f as [|f]; [done|].
    assert (tree_ok v = true) as Hv by (cbn [v tree_ok elements_ok]; by rewrite tree_signature_ok).
    rewrite parse_member; try done. intros r' Hr'. apply parse_lay; [done| |done].
    pose proof (proj1 size_lay v (nl "  " ++ QUOTE :: (put (txt "signature") << put [QUOTE] << lit ": " << lay v2 << endl << tl << lit "}" << endl) [])) as Hsz.
    unfold seq at 1 2 3 4 in Hf. unfold put at 1 2 3 in Hf. unfold quoted, seq, put in Hf. rewrite !length_app in Hf. cbn [length] in Hf.
    unfold seq, put in Hsz. lia.
  - intros _. eexists. split; [reflexivity|]. exact (Hend (GR_raw_message m)).
  - intros _. eexists. split; [reflexivity|]. exact (Hend GR_blank).
Qed.

(** The same value with the result named [n]. *)
Definition json_bad_message (n : bytes) (u : StructurallyBadMessage) : json :=
  JObj ["record_type" ~> JStr (txt "STRUCTURALLY_BAD_MESSAGE"); "result" ~> JStr n; "parts" ~> JNum (sbm_parts u);
        "length" ~> JNum (sbm_length u); "hedera_transaction" ~> json_hedera (sbm_hedera_transaction u)].

(** A message that could not be read is dumped with the name that its
    result code has among the results of transactions, which is another name
    than that of the reason, for each of the eight reasons. *)
Theorem bad_message_misnamed u n :
  small (sbm_parts u) = true ->
  hex_ok (runningHash (sbm_hedera_transaction u)) = true ->
  get_as_str_StructurallyBadMessageResult (sbm_result u) = Some n ->
  json_of_record (GR_structurally_bad_message u) = json_bad_message n u
  /\ exists o n', dump_GradidoRecord (GR_structurally_bad_message u) = Some o /\ n' <> n
    /\ parse_json (o []) = Some (json_bad_message n' u).
Proof.
  intros Hs Hh En. split; [unfold json_of_record; rewrite En; reflexivity|]. unfold dump_GradidoRecord, dump_bad_message. use_fields.
  assert (exists n', get_as_str_TransactionResult (sbm_result u) = Some n' /\ n' <> n /\ plain n' = true) as (n' & -> & Hn & Hp).
  { unfold get_as_str_StructurallyBadMessageResult in En. destruct (sbm_result u) as [|c|c]; try discriminate En.
    do 4 (try match goal with c : positive |- _ => destruct c end; try discriminate En); injection En as <-; (eexists; split; [reflexivity|]); by split. }
  cbn [mbind option_bind]. eexists _, n'. split; [reflexivity|]. split; [done|].
  set (t := TObj (mem (nl "  ") "record_type" (TStr (txt "STRUCTURALLY_BAD_MESSAGE"))
    (mem (snl "    ") "result" (TStr n') (mem (snl "    ") "parts" (TNum (sbm_parts u))
    (mem (snl "    ") "length" (TNum (sbm_length u))
    (last_mem (snl "    ") "hedera_transaction" (tree_hedera "      " "    " (sbm_hedera_transaction u)) (nl ""))))))).
  refine (writes_parse _ t _). split; [|reflexivity].
  unfold t, tree_hedera. cbn [tree_ok members_ok]. rewrite Hp. use_plain. reflexivity.
Qed.

(** ** Lines of the store and lists of them *)

(** A payload line whose bytes are all zero is the blank record. *)
Definition dump_Rec (r : Rec GradidoRecord) : option Out :=
  if is_type PAYLOAD r then
    match rec_u r with
    | UPayload p => dump_GradidoRecord p
    | UZero => dump_GradidoRecord GR_blank
    | UChecksum _ => None
    end
  else if is_type CHECKSUM r then
    match rec_u r with
    | UChecksum c => h ← hex_buff c; Some (quoted h << endl)
    | _ => None
    end
  else Some (put []).

(** The loop over the lines; [is_first]: no line was dumped yet. *)
Fixpoint dump_list (is_first : bool) (l : list (Rec GradidoRecord)) : option Out :=
  match l with
  | [] => Some (put [])
  | r :: l' =>
      o ← dump_Rec r;
      rest ← dump_list false l';
      Some ((if is_first then put [] else put [44; NL]) << o << rest)
  end.

(** [dump] of dumper.h over the blocks as they are read, without [-c]; a
    block ends at its first empty line. *)
Fixpoint used_lines (l : list (Rec GradidoRecord)) : list (Rec GradidoRecord) :=
  match l with r :: l' => if 0 <? rec_type r then r :: used_lines l' else [] | [] => [] end.
Fixpoint dump_block_files (blocks : list (list (Rec GradidoRecord))) : option Out :=
  match blocks with
  | [] => Some (put [])
  | b :: blocks' =>
      o ← dump_list true (used_lines b);
      rest ← dump_block_files blocks';
      Some (o << rest)
  end.
Definition dump (blocks : list (list (Rec GradidoRecord))) : option Out :=
  o ← dump_block_files blocks;
  Some (lit "[" << endl << o << lit "]" << endl).

(** The text for the JSON-RPC interface. *)
Definition rpc_text (records : list (Rec GradidoRecord)) : option bytes :=
  o ← dump_list true records;
  Some ((put [91; NL] << o << put [93]) []).

Definition line_ok (r : Rec GradidoRecord) : bool :=
  match rec_u r with
  | UPayload p => is_type PAYLOAD r && record_ok p
  | UChecksum c => negb (is_type PAYLOAD r) && is_type CHECKSUM r && hex_ok c
  | UZero => false
  end.
Definition json_of_line (r : Rec GradidoRecord) : json :=
  match rec_u r with UPayload p => json_of_record p | UChecksum c => JStr (hexs c) | UZero => JNum 0 end.
Definition tree_line (r : Rec GradidoRecord) : tree :=
  match rec_u r with UPayload p => tree_record p | UChecksum c => TStr (hexs c) | UZero => TNum 0 end.
Fixpoint tree_lines (r : Rec GradidoRecord) (l : list (Rec GradidoRecord)) : elements :=
  match l with
  | [] => EOne [NL] (tree_line r) [NL]
  | r' :: l' => ECons [NL] (tree_line r) [NL] (tree_lines r' l')
  end.

Lemma dump_line_writes r :
  line_ok r = true -> exists o, dump_Rec r = Some o /\ writes o (tree_line r) /\ erase (tree_line r) = json_of_line r.
Proof.
  unfold line_ok, dump_Rec, tree_line, json_of_line. destruct (rec_u r) as [|p|c]; intros H; [done| |].
  - split_ok. rewrite H. by apply dump_record_writes.
  - split_ok. apply negb_true_iff in H. rewrite H, H1. use_fields. eexists. split; [reflexivity|].
    split; [|reflexivity]. by split.
Qed.

Lemma dump_lines r l :
  forallb line_ok (r :: l) = true ->
  exists o, dump_list true (r :: l) = Some o
    /\ (forall s, put [NL] (o s) = lay_elements (tree_lines r l) s)
    /\ elements_ok (tree_lines r l) = true /\ erase_elements (tree_lines r l) = map json_of_line (r :: l).
Proof.
  revert r. induction l as [|r' l IH]; intros r H.
  - cbn in H. rewrite andb_true_r in H. destruct (dump_line_writes r H) as (o & Eo & [Hok Ho] & He).
    cbn [dump_list]. rewrite Eo. eexists. split; [reflexivity|]. split_and!.
    + intros s. unfold seq, put. cbn. rewrite Ho. reflexivity.
    + cbn. by rewrite Hok.
    + cbn. by rewrite He.
  - cbn [forallb] in H. apply andb_prop in H as [H1 H2]. destruct (IH r' H2) as (o' & Eo' & Ho' & Hok' & He').
    destruct (dump_line_writes r H1) as (o & Eo & [Hok Ho] & He). cbn [dump_list] in Eo' |- *. rewrite Eo. cbn [mbind option_bind].
    destruct (dump_Rec r') as [o1|]; [|discriminate]. cbn [mbind option_bind] in Eo' |- *.
    destruct (dump_list false l) as [o2|]; [|discriminate]. cbn [mbind option_bind] in Eo' |- *. injection Eo' as <-.
    eexists. split; [reflexivity|]. split_and!.
    + intros s. cbn [tree_lines lay_elements]. unfold seq at 4. unfold seq, put in *. cbn. rewrite <- (Ho' s), Ho. reflexivity.
    + cbn. by rewrite Hok.
    + cbn in He' |- *. by rewrite He, He'.
Qed.

(** The text for a JSON-RPC request reads as the array of its records. *)
Theorem rpc_text_reads_back records :
  forallb line_ok records = true ->
  exists s, rpc_text records = Some s /\ parse_json s = Some (JArr (map json_of_line records)).
Proof.
  intros H. unfold rpc_text. destruct records as [|r l].
  - eexists. split; [reflexivity|]. exact (parse_laid_out (TNoElements [NL]) [] eq_refl eq_refl).
  - destruct (dump_lines r l H) as (o & Eo & Ho & Hok & He). rewrite Eo. cbn [mbind option_bind]. eexists. split; [reflexivity|].
    rewrite <- He. refine (eq_trans _ (parse_laid_out (TArr (tree_lines r l)) [] Hok eq_refl)).
    f_equal. cbn [lay]. unfold seq, put. cbn [app]. f_equal. exact (Ho [93]).
Qed.

Lemma tree_line_head r s : line_ok r = true -> exists c s', lay (tree_line r) s = c :: s' /\ (c = QUOTE \/ c = 123).
Proof.
  unfold line_ok, tree_line. destruct (rec_u r) as [|p|c]; [done| |]; intros _; (eexists _, _; split; [reflexivity|]); auto.
Qed.

(** The dumping program writes the lines of one block as a JSON array; of
    two blocks with lines it writes no JSON text, as the comma between the
    last line of a block and the first line of the next one is missing. *)
Theorem dump_of_blocks b :
  forallb line_ok (used_lines b) = true -> used_lines b <> [] ->
  (exists o, dump [b] = Some o /\ parse_json (o []) = Some (JArr (map json_of_line (used_lines b))))
  /\ forall b2 rest o, forallb line_ok (used_lines b2) = true -> used_lines b2 <> [] ->
       dump (b :: b2 :: rest) = Some o -> parse_json (o []) = None.
Proof.
  intros H Hne. destruct (used_lines b) as [|r l] eqn:Eb; [done|].
  destruct (dump_lines r l H) as (o & Eo & Ho & Hok & He). split.
  - unfold dump. cbn [dump_block_files]. rewrite Eb, Eo. eexists. split; [reflexivity|]. rewrite <- He.
    refine (eq_trans _ (parse_laid_out (TArr (tree_lines r l)) [NL] Hok eq_refl)). f_equal. cbn [lay]. unfold seq.
    change (lit "[" ?x) with (91 :: x). unfold put at 1. cbn [app]. f_equal. exact (Ho [93; NL]).
  - intros b2 rest o' H2 Hne2. unfold dump. cbn [dump_block_files]. rewrite Eb, Eo. cbn [mbind option_bind].
    destruct (used_lines b2) as [|r2 l2]; [done|]. destruct (dump_lines r2 l2 H2) as (o2 & Eo2 & Ho2 & _). rewrite Eo2.
    cbn [mbind option_bind]. destruct (dump_block_files rest) as [o3|]; [|discriminate]. cbn [mbind option_bind]. intros [= <-].
    set (tl := o3 [93; NL]).
    assert (exists c s', o2 tl = c :: s' /\ (c = QUOTE \/ c = 123)) as (c & s' & Ec & Hc).
    { cbn in H2. apply andb_prop in H2 as [H2 _]. specialize (Ho2 tl).
      destruct l2; cbn [tree_lines lay_elements] in Ho2; unfold seq, put in Ho2; cbn in Ho2; injection Ho2 as ->;
        by apply tree_line_head. }
    change (parse_json (91 :: put [NL] (o (o2 tl))) = None). rewrite Ho, Ec. unfold parse_json. cbn [length].
    enough (parse_value (S (length (lay_elements (tree_lines r l) (c :: s')))) (91 :: lay_elements (tree_lines r l) (c :: s')) = None)
      as -> by done.
    cbn [parse_value]. rewrite skip_char by done. cbn [Z.eqb Pos.eqb QUOTE].
    destruct (elements_head (tree_lines r l) (c :: s') Hok) as (d & t & Ed & Hd). rewrite Ed, Hd.
    rewrite parse_elements_broken; try done; try (by destruct Hc as [->| ->]).
    pose proof (proj2 (proj2 size_lay) (tree_lines r l) (c :: s')) as Hsz. cbn [length] in Hsz. lia.
Qed.

(** ** Witnesses *)

Definition demo_memo_record : GradidoRecord := GR_memo [72; 105; 0; 0].
Definition demo_add_user : GradidoRecord :=
  GR_transaction (with_body (TB_add_user (replicate PUB_KEY_LENGTH 1)) Transaction_zero).
Definition demo_bad_message : StructurallyBadMessage :=
  mkStructurallyBadMessage 1 1 HederaTimestamp_zero HederaTransaction_zero 1 3 HederaTransaction_zero.
Definition demo_lines : list (Rec GradidoRecord) := [payload_rec demo_add_user; payload_rec demo_memo_record; checksum_rec [1; 2]].
Definition two_signatures : list Signature :=
  let s := mkSignature (replicate PUB_KEY_LENGTH 1) (replicate SIGNATURE_LENGTH 2) in [s; s].

Lemma dumped_record_reads_back_witness :
  exists o, dump_GradidoRecord demo_add_user = Some o /\ parse_json (o []) = Some (json_of_record demo_add_user).
Proof. apply (dumped_record_reads_back demo_add_user). vm_compute. reflexivity. Defined.

Lemma dumped_record_unreadable_witness :
  exists o, dump_GradidoRecord (GR_signatures two_signatures) = Some o /\ parse_json (o []) = None.
Proof. apply (dumped_record_unreadable (GR_signatures two_signatures)). vm_compute. split; [reflexivity|lia]. Defined.

Lemma bad_message_misnamed_witness :
  json_of_record (GR_structurally_bad_message demo_bad_message) = json_bad_message (txt "UNDESERIALIZABLE") demo_bad_message
  /\ exists o n', dump_GradidoRecord (GR_structurally_bad_message demo_bad_message) = Some o /\ n' <> txt "UNDESERIALIZABLE"
    /\ parse_json (o []) = Some (json_bad_message n' demo_bad_message).
Proof. apply (bad_message_misnamed demo_bad_message (txt "UNDESERIALIZABLE")); vm_compute; reflexivity. Defined.

Lemma rpc_text_reads_back_witness :
  exists s, rpc_text demo_lines = Some s /\ parse_json s = Some (JArr (map json_of_line demo_lines)).
Proof. apply (rpc_text_reads_back demo_lines). vm_compute. reflexivity. Defined.

Lemma dump_of_blocks_witness :
  (exists o, dump [demo_lines] = Some o /\ parse_json (o []) = Some (JArr (map json_of_line demo_lines)))
  /\ forall b2 rest o, forallb line_ok (used_lines b2) = true -> used_lines b2 <> [] ->
       dump (demo_lines :: b2 :: rest) = Some o -> parse_json (o []) = None.
Proof. apply (dump_of_blocks demo_lines); [vm_compute; reflexivity|discriminate]. Defined.
