(* ===== verification/DumpRecords.v ===== *)
(** * Records of the group register and of the subcluster blockchain as JSON
    texts (utils.cpp)

    The dumps of the two other kinds of records, against the JSON values
    that say what they hold.  The header of a subcluster blockchain is the
    exception: its chain length is written as a character. *)

From stdpp Require Import base list strings.
From Stdlib Require Import ZArith Lia.
From S2P Require Import Prelude GradidoDef FileTile Fnr Blockchain BlockchainBase GroupRegister SubclusterBlockchain CoreUtils.
From S2P Require Import Config Json Dump.
Local Open Scope Z_scope.
Local Open Scope out_scope.

(** ** The group register *)

Definition get_as_str_GroupRegisterRecordType (c : Z) : option bytes :=
  match c with
  | 1 => name "GROUP_RECORD" | 2 => name "GR_STRUCTURALLY_BAD_MESSAGE" | 3 => name "GR_RAW_MESSAGE" | _ => None
  end.

Definition dump_GroupRegisterRecord (t : GroupRegisterRecord) : option Out :=
  let u := grr_group t in
  record_type ← get_as_str_GroupRegisterRecordType (grr_type t);
  alias ← field_string (gr_alias u);
  running_hash ← hex_buff (runningHash (gr_hedera_transaction u));
  pubkey ← hex_buff (sig_pubkey (gr_signature u));
  sig ← hex_buff (sig_signature (gr_signature u));
  Some (lit "{" << endl
        << lit "    " << q "record_type" << lit ": " << quoted record_type << lit "," << endl
        << lit "    " << q "alias" << lit ": " << quoted alias << lit "," << endl
        << lit "    " << q "topic_id" << lit ": {" << endl
        << lit "        " << q "shardNum" << lit ": " << num (topic_shardNum (gr_topic_id u)) << lit "," << endl
        << lit "        " << q "realmNum" << lit ": " << num (topic_realmNum (gr_topic_id u)) << lit "," << endl
        << lit "        " << q "topicNum" << lit ": " << num (topic_topicNum (gr_topic_id u)) << endl
        << lit "    }," << endl
        << lit "    " << q "success" << lit ": " << num (if gr_success u then 1 else 0) << lit "," << endl
        << lit "    " << q "hedera_transaction" << lit ": {" << endl
        << dump_hedera "      " (gr_hedera_transaction u) running_hash
        << lit "    }," << endl
        << lit "    " << q "signature" << lit ": {" << endl
        << lit "      " << q "pubkey" << lit ": " << quoted pubkey << lit ", " << endl
        << lit "      " << q "signature" << lit ": " << quoted sig << endl
        << lit "    } " << endl
        << lit "}" << endl).

Definition json_of_group (n : bytes) (u : GroupRecord) : json :=
  JObj ["record_type" ~> JStr n; "alias" ~> JStr (cstr (gr_alias u));
        "topic_id" ~> JObj ["shardNum" ~> JNum (topic_shardNum (gr_topic_id u)); "realmNum" ~> JNum (topic_realmNum (gr_topic_id u));
                            "topicNum" ~> JNum (topic_topicNum (gr_topic_id u))];
        "success" ~> JNum (if gr_success u then 1 else 0); "hedera_transaction" ~> json_hedera (gr_hedera_transaction u);
        "signature" ~> json_signature (gr_signature u)].

Definition tree_group_record (n : bytes) (u : GroupRecord) : tree :=
  TObj (mem (nl "    ") "record_type" (TStr n)
       (mem (nl "    ") "alias" (TStr (cstr (gr_alias u)))
       (mem (nl "    ") "topic_id"
          (TObj (mem (nl "        ") "shardNum" (TNum (topic_shardNum (gr_topic_id u)))
                (mem (nl "        ") "realmNum" (TNum (topic_realmNum (gr_topic_id u)))
                (last_mem (nl "        ") "topicNum" (TNum (topic_topicNum (gr_topic_id u))) (nl "    ")))))
       (mem (nl "    ") "success" (TNum (if gr_success u then 1 else 0))
       (mem (nl "    ") "hedera_transaction" (tree_hedera "      " "    " (gr_hedera_transaction u))
       (last_mem (nl "    ") "signature" (tree_signature (gr_signature u)) (snl ""))))))).

Lemma group_type_plain c n : get_as_str_GroupRegisterRecordType c = Some n -> plain n = true.
Proof.
  unfold get_as_str_GroupRegisterRecordType. destruct c as [|c|c]; try done.
  do 2 (try match goal with c : positive |- _ => destruct c end; try done); by intros [= <-].
Qed.

(** A record of the group register with a printable alias is dumped as a
    JSON text, which reads as the value of its fields; a record of any type
    is dumped as if it were a group. *)
Theorem dumped_group_reads_back t n :
  get_as_str_GroupRegisterRecordType (grr_type t) = Some n ->
  text_ok (gr_alias (grr_group t)) = true -> hex_ok (runningHash (gr_hedera_transaction (grr_group t))) = true ->
  signature_ok (gr_signature (grr_group t)) = true ->
  exists o, dump_GroupRegisterRecord t = Some o /\ parse_json (o []) = Some (json_of_group n (grr_group t)).
Proof.
  intros En Ha Hh Hs. pose proof (group_type_plain _ _ En) as Hn. unfold dump_GroupRegisterRecord. rewrite En.
  cbn [mbind option_bind]. unfold signature_ok in Hs. split_ok. use_fields. eexists. split; [reflexivity|].
  refine (writes_parse _ (tree_group_record n (grr_group t)) _). split; [|reflexivity].
  unfold tree_group_record, tree_hedera, tree_signature. cbn [tree_ok members_ok]. use_plain. reflexivity.
Qed.

(** ** The subcluster blockchain *)

Definition get_as_str_SbRecordType (b : SbBody) : option bytes :=
  match b with
  | SBB_header _ => name "SB_HEADER" | SBB_add_admin _ => name "SB_ADD_ADMIN" | SBB_add_node _ => name "SB_ADD_NODE"
  | SBB_enable_admin _ => name "ENABLE_ADMIN" | SBB_disable_admin _ => name "DISABLE_ADMIN"
  | SBB_enable_node _ => name "ENABLE_NODE" | SBB_disable_node _ => name "DISABLE_NODE"
  | SBB_add_blockchain _ => name "ADD_BLOCKCHAIN" | SBB_add_node_to_blockchain _ => name "ADD_NODE_TO_BLOCKCHAIN"
  | SBB_remove_node_from_blockchain _ => name "REMOVE_NODE_FROM_BLOCKCHAIN" | SBB_signatures _ => name "SIGNATURES"
  | SBB_other _ => None
  end.
Definition sb_result_name (r : SbTransactionResult) : bytes :=
  match r with
  | SB_SUCCESS => txt "SUCCESS" | DUPLICATE_PUB_KEY => txt "DUPLICATE_PUB_KEY" | BAD_ADMIN_SIGNATURE => txt "BAD_ADMIN_SIGNATURE"
  | NON_MAJORITY => txt "NON_MAJORITY" | DUPLICATE_ALIAS => txt "DUPLICATE_ALIAS"
  | NODE_ALREADY_ADDED_TO_BLOCKCHAIN => txt "NODE_ALREADY_ADDED_TO_BLOCKCHAIN"
  end.
Definition get_as_str_SbNodeType (c : Z) : option bytes :=
  match c with
  | 1 => name "ORDERING" | 2 => name "GRADIDO" | 3 => name "LOGIN" | 4 => name "BACKUP" | 5 => name "LOGGER" | 6 => name "PINGER"
  | _ => None
  end.
Definition get_as_str_SbInitialKeyType (c : Z) : option bytes :=
  match c with 1 => name "SELF_SIGNED" | 2 => name "CA_SIGNED" | _ => None end.

(** A member that holds a key. *)
Definition dump_key (key : string) (pub_key : bytes) : option Out :=
  k ← hex_buff pub_key;
  Some (lit "  " << q key << lit ": " << quoted k << endl).
Definition dump_node_blockchain (key : string) (x : SbNodeBlockchain) : option Out :=
  node ← hex_buff (snb_node_pub_key x);
  chain ← hex_buff (snb_blockchain_pub_key x);
  alias ← field_string (snb_alias x);
  Some (lit "  " << q key << lit ": {" << endl
        << lit "    " << q "node_pub_key" << lit ": " << quoted node << lit ", " << endl
        << lit "    " << q "blockchain_pub_key" << lit ": " << quoted chain << lit ", " << endl
        << lit "    " << q "alias" << lit ": " << quoted alias << endl
        << lit "  }" << endl).

(** The chain length of a header is a byte, which a stream takes for a
    character. *)
Definition dump_sb_body (b : SbBody) : option Out :=
  match b with
  | SBB_header h =>
      k ← hex_buff (sbh_pub_key h);
      subcluster_name ← field_string (sbh_subcluster_name h);
      key_type ← get_as_str_SbInitialKeyType (sbh_initial_key_type h);
      Some (lit "  " << q "header" << lit ": {" << endl
            << lit "    " << q "subcluster_name" << lit ": " << quoted subcluster_name << lit ", " << endl
            << lit "    " << q "initial_key_type" << lit ": " << quoted key_type << lit ", " << endl
            << lit "    " << q "pub_key" << lit ": " << quoted k << lit ", " << endl
            << lit "    " << q "ca_pub_key_chain_length" << lit ": " << put [sbh_ca_pub_key_chain_length h] << endl
            << lit "  }" << endl)
  | SBB_add_admin a =>
      k ← hex_buff (sba_pub_key a);
      admin_name ← field_string (sba_name a);
      email ← field_string (sba_email a);
      Some (lit "  " << q "admin" << lit ": {" << endl
            << lit "    " << q "pub_key" << lit ": " << quoted k << lit ", " << endl
            << lit "    " << q "name" << lit ": " << quoted admin_name << lit ", " << endl
            << lit "    " << q "email" << lit ": " << quoted email << endl
            << lit "  }" << endl)
  | SBB_add_node n =>
      k ← hex_buff (sbn_pub_key n);
      node_type ← get_as_str_SbNodeType (sbn_node_type n);
      Some (lit "  " << q "add_node" << lit ": {" << endl
            << lit "    " << q "node_type" << lit ": " << quoted node_type << lit ", " << endl
            << lit "    " << q "pub_key" << lit ": " << quoted k << endl
            << lit "  }" << endl)
  | SBB_enable_admin k => dump_key "enable_admin" k
  | SBB_disable_admin k => dump_key "disable_admin" k
  | SBB_enable_node k => dump_key "enable_node" k
  | SBB_disable_node k => dump_key "disable_node" k
  | SBB_add_blockchain k => dump_key "add_blockchain" k
  | SBB_add_node_to_blockchain x => dump_node_blockchain "add_node_to_blockchain" x
  | SBB_remove_node_from_blockchain x => dump_node_blockchain "remove_node_from_blockchain" x
  | SBB_signatures l => dump_signatures "signatures" l
  | SBB_other _ => Some (put [])
  end.

Definition dump_SbRecord (t : SbRecord) : option Out :=
  running_hash ← hex_buff (runningHash (sbr_hedera_transaction t));
  memo ← field_string (sbr_memo t);
  record_type ← get_as_str_SbRecordType (sbr_body t);
  body ← dump_sb_body (sbr_body t);
  Some (lit "{" << endl
        << lit "  " << q "version_number" << lit ": " << num (i32 (sbr_version_number t)) << lit ", " << endl
        << lit "  " << q "hedera_transaction" << lit ": {" << endl
        << dump_hedera "    " (sbr_hedera_transaction t) running_hash
        << lit "  }," << endl
        << lit "  " << q "record_type" << lit ": " << quoted record_type << lit ", " << endl
        << lit "  " << q "memo" << lit ": " << quoted memo << lit ", " << endl
        << lit "  " << q "signature_count" << lit ": " << num (sbr_signature_count t) << lit ", " << endl
        << lit "  " << q "result" << lit ": " << quoted (sb_result_name (sbr_result t)) << lit ", " << endl
        << body << lit "}" << endl).

Definition json_node_blockchain (x : SbNodeBlockchain) : json :=
  JObj ["node_pub_key" ~> JStr (hexs (snb_node_pub_key x)); "blockchain_pub_key" ~> JStr (hexs (snb_blockchain_pub_key x));
        "alias" ~> JStr (cstr (snb_alias x))].
(** The name of the type and the part that depends on it. *)
Definition json_sb_body (b : SbBody) : string * (bytes * json) :=
  match b with
  | SBB_add_admin a =>
      ("SB_ADD_ADMIN", "admin" ~> JObj ["pub_key" ~> JStr (hexs (sba_pub_key a)); "name" ~> JStr (cstr (sba_name a));
                                        "email" ~> JStr (cstr (sba_email a))])
  | SBB_add_node n =>
      ("SB_ADD_NODE", "add_node" ~> JObj ["node_type" ~> JStr (default [] (get_as_str_SbNodeType (sbn_node_type n)));
                                          "pub_key" ~> JStr (hexs (sbn_pub_key n))])
  | SBB_enable_admin k => ("ENABLE_ADMIN", "enable_admin" ~> JStr (hexs k))
  | SBB_disable_admin k => ("DISABLE_ADMIN", "disable_admin" ~> JStr (hexs k))
  | SBB_enable_node k => ("ENABLE_NODE", "enable_node" ~> JStr (hexs k))
  | SBB_disable_node k => ("DISABLE_NODE", "disable_node" ~> JStr (hexs k))
  | SBB_add_blockchain k => ("ADD_BLOCKCHAIN", "add_blockchain" ~> JStr (hexs k))
  | SBB_add_node_to_blockchain x => ("ADD_NODE_TO_BLOCKCHAIN", "add_node_to_blockchain" ~> json_node_blockchain x)
  | SBB_remove_node_from_blockchain x => ("REMOVE_NODE_FROM_BLOCKCHAIN", "remove_node_from_blockchain" ~> json_node_blockchain x)
  | SBB_header _ | SBB_signatures _ | SBB_other _ => ("", "" ~> JNum 0)
  end.
Definition json_of_sb (t : SbRecord) : json :=
  JObj ["version_number" ~> JNum (sbr_version_number t); "hedera_transaction" ~> json_hedera (sbr_hedera_transaction t);
        "record_type" ~> JStr (txt (json_sb_body (sbr_body t)).1); "memo" ~> JStr (cstr (sbr_memo t));
        "signature_count" ~> JNum (sbr_signature_count t); "result" ~> JStr (sb_result_name (sbr_result t));
        (json_sb_body (sbr_body t)).2].

Definition node_blockchain_ok (x : SbNodeBlockchain) : bool :=
  hex_ok (snb_node_pub_key x) && hex_ok (snb_blockchain_pub_key x) && text_ok (snb_alias x).
Definition sb_body_ok (b : SbBody) : bool :=
  match b with
  | SBB_add_admin a => hex_ok (sba_pub_key a) && text_ok (sba_name a) && text_ok (sba_email a)
  | SBB_add_node n => hex_ok (sbn_pub_key n) && bool_decide (is_Some (get_as_str_SbNodeType (sbn_node_type n)))
  | SBB_enable_admin k | SBB_disable_admin k | SBB_enable_node k | SBB_disable_node k | SBB_add_blockchain k => hex_ok k
  | SBB_add_node_to_blockchain x | SBB_remove_node_from_blockchain x => node_blockchain_ok x
  | SBB_header _ | SBB_signatures _ | SBB_other _ => false
  end.
Definition sb_fields_ok (t : SbRecord) : bool :=
  small (sbr_version_number t) && hex_ok (runningHash (sbr_hedera_transaction t)) && text_ok (sbr_memo t).

Definition tree_node_blockchain (x : SbNodeBlockchain) : tree :=
  TObj (mem (nl "    ") "node_pub_key" (TStr (hexs (snb_node_pub_key x)))
       (mem (snl "    ") "blockchain_pub_key" (TStr (hexs (snb_blockchain_pub_key x)))
       (last_mem (snl "    ") "alias" (TStr (cstr (snb_alias x))) (nl "  ")))).
Definition tree_sb_body (b : SbBody) : bytes * tree :=
  match b with
  | SBB_add_admin a =>
      (txt "admin", TObj (mem (nl "    ") "pub_key" (TStr (hexs (sba_pub_key a)))
                         (mem (snl "    ") "name" (TStr (cstr (sba_name a)))
                         (last_mem (snl "    ") "email" (TStr (cstr (sba_email a))) (nl "  ")))))
  | SBB_add_node n =>
      (txt "add_node", TObj (mem (nl "    ") "node_type" (TStr (default [] (get_as_str_SbNodeType (sbn_node_type n))))
                            (last_mem (snl "    ") "pub_key" (TStr (hexs (sbn_pub_key n))) (nl "  "))))
  | SBB_enable_admin k => (txt "enable_admin", TStr (hexs k))
  | SBB_disable_admin k => (txt "disable_admin", TStr (hexs k))
  | SBB_enable_node k => (txt "enable_node", TStr (hexs k))
  | SBB_disable_node k => (txt "disable_node", TStr (hexs k))
  | SBB_add_blockchain k => (txt "add_blockchain", TStr (hexs k))
  | SBB_add_node_to_blockchain x => (txt "add_node_to_blockchain", tree_node_blockchain x)
  | SBB_remove_node_from_blockchain x => (txt "remove_node_from_blockchain", tree_node_blockchain x)
  | SBB_header _ | SBB_signatures _ | SBB_other _ => ([], TNum 0)
  end.

(** The members before the part that depends on the type, and the rest. *)
Definition sb_members (t : SbRecord) (type : bytes) (rest : members) : members :=
  mem (nl "  ") "version_number" (TNum (sbr_version_number t))
  (mem (snl "  ") "hedera_transaction" (tree_hedera "    " "  " (sbr_hedera_transaction t))
  (mem (nl "  ") "record_type" (TStr type)
  (mem (snl "  ") "memo" (TStr (cstr (sbr_memo t)))
  (mem (snl "  ") "signature_count" (TNum (sbr_signature_count t))
  (mem (snl "  ") "result" (TStr (sb_result_name (sbr_result t))) rest))))).
Definition tree_sb (t : SbRecord) : tree :=
  TObj (sb_members t (txt (json_sb_body (sbr_body t)).1)
    (MOne (snl "  ") (tree_sb_body (sbr_body t)).1 (tree_sb_body (sbr_body t)).2 (nl ""))).

Lemma sb_result_plain r : plain (sb_result_name r) = true.
Proof. by destruct r. Qed.

Lemma node_type_plain c : is_Some (get_as_str_SbNodeType c) -> plain (default [] (get_as_str_SbNodeType c)) = true.
Proof.
  unfold get_as_str_SbNodeType. destruct c as [|c|c]; intros [n H]; try done.
  do 3 (try match goal with c : positive |- _ => destruct c end; try done).
Qed.

Lemma dump_sb_body_lay b :
  sb_body_ok b = true ->
  exists o, dump_sb_body b = Some o
    /\ (forall r, o r = (lit "  " << quoted (tree_sb_body b).1 << lit ": " << lay (tree_sb_body b).2 << endl) r)
    /\ plain (tree_sb_body b).1 = true /\ tree_ok (tree_sb_body b).2 = true
    /\ ((tree_sb_body b).1, erase (tree_sb_body b).2) = (json_sb_body b).2
    /\ get_as_str_SbRecordType b = Some (txt (json_sb_body b).1) /\ plain (txt (json_sb_body b).1) = true.
Proof.
  intros H. destruct b; cbn [sb_body_ok] in H; try discriminate H; unfold node_blockchain_ok in H; split_ok;
    cbn [dump_sb_body]; unfold dump_key, dump_node_blockchain; use_fields;
    try (match goal with H : bool_decide _ = true |- _ => apply bool_decide_eq_true in H as [nt Ent];
           pose proof (node_type_plain _ (mk_is_Some _ _ Ent)) end; rewrite !Ent; cbn [mbind option_bind]);
    (eexists; split; [reflexivity|]);
    (split; [intros r; cbn [tree_sb_body]; rewrite ?Ent; reflexivity|]);
    cbn [tree_sb_body fst snd]; unfold tree_node_blockchain; cbn [tree_ok members_ok]; use_plain; split_and!; reflexivity.
Qed.

(** A record of the subcluster blockchain that adds an admin, a node or a
    blockchain, enables or disables one, or joins a node and a blockchain, is
    dumped as a JSON text, which reads as the value of its fields. *)
Theorem dumped_sb_reads_back t :
  sb_fields_ok t = true -> sb_body_ok (sbr_body t) = true ->
  exists o, dump_SbRecord t = Some o /\ parse_json (o []) = Some (json_of_sb t).
Proof.
  unfold sb_fields_ok. intros H Hb. destruct (dump_sb_body_lay _ Hb) as (o & Eo & Ho & Hp1 & Hp2 & He & Et & Hp3).
  unfold dump_SbRecord. split_ok. use_fields. rewrite Et. cbn [mbind option_bind]. rewrite Eo. cbn [mbind option_bind].
  eexists. split; [reflexivity|].
  replace (json_of_sb t) with (erase (tree_sb t)) by (unfold json_of_sb; rewrite <- He; reflexivity).
  apply writes_parse. pose proof (sb_result_plain (sbr_result t)) as Hr. split.
  - unfold tree_sb, sb_members, tree_hedera. cbn [tree_ok members_ok]. rewrite Hp1, Hp2, Hp3. use_plain. reflexivity.
  - intros r. unfold seq. rewrite Ho. reflexivity.
Qed.

(** The header of a subcluster blockchain, with a chain length below nine,
    is dumped with the length as a control character, and is no JSON text. *)
Theorem dumped_header_unreadable t h n :
  sb_fields_ok t = true -> sbr_body t = SBB_header h -> hex_ok (sbh_pub_key h) = true ->
  text_ok (sbh_subcluster_name h) = true -> get_as_str_SbInitialKeyType (sbh_initial_key_type h) = Some n ->
  0 <= sbh_ca_pub_key_chain_length h < 9 ->
  exists o, dump_SbRecord t = Some o /\ parse_json (o []) = None.
Proof.
  unfold sb_fields_ok. intros H Hb Hk Hn Et Hc. unfold dump_SbRecord. rewrite Hb. split_ok.
  assert (plain n = true) as Hnp.
  { unfold get_as_str_SbInitialKeyType in Et. destruct (sbh_initial_key_type h) as [|c|c]; try discriminate Et.
    do 2 (try match goal with c : positive |- _ => destruct c end; try discriminate Et); by injection Et as <-. }
  use_fields. cbn [get_as_str_SbRecordType dump_sb_body]. cbn [name mbind option_bind]. use_fields. rewrite Et. cbn [mbind option_bind].
  eexists. split; [reflexivity|]. pose proof (sb_result_plain (sbr_result t)) as Hr.
  set (fields := [(nl "  ", "version_number"%string, TNum (sbr_version_number t));
    (snl "  ", "hedera_transaction"%string, tree_hedera "    " "  " (sbr_hedera_transaction t));
    (nl "  ", "record_type"%string, TStr (txt "SB_HEADER")); (snl "  ", "memo"%string, TStr (cstr (sbr_memo t)));
    (snl "  ", "signature_count"%string, TNum (sbr_signature_count t));
    (snl "  ", "result"%string, TStr (sb_result_name (sbr_result t)))]).
  set (header := [(nl "    ", "subcluster_name"%string, TStr (cstr (sbh_subcluster_name h)));
    (snl "    ", "initial_key_type"%string, TStr n); (snl "    ", "pub_key"%string, TStr (hexs (sbh_pub_key h)))]).
  match goal with |- parse_json ?s = None =>
    assert (s = 123 :: lay_prefix fields ((put (snl "  ") << q "header" << put [58; 32])
      (123 :: lay_prefix header ((put (snl "    ") << q "ca_pub_key_chain_length" << put [58; 32])
        (sbh_ca_pub_key_chain_length h :: (endl << lit "  }" << endl << lit "}" << endl) []))))) as Es
  end.
  { unfold fields, header, lay_prefix. cbn [foldr lay_member fst snd lay lay_members tree_hedera tree_timestamp]. reflexivity. }
  rewrite Es. clear Es.
  apply no_value_parse, members_no_value; [|by eexists].
  apply prefix_no_members.
  { unfold prefix_ok, fields, tree_hedera. cbn [forallb fst snd tree_ok members_ok]. use_plain. reflexivity. }
  apply value_no_members, members_no_value; [done|done| |by eexists]. apply prefix_no_members.
  { unfold prefix_ok, header. cbn [forallb fst snd tree_ok members_ok]. use_plain. reflexivity. }
  by apply value_no_members, control_no_value.
Qed.

(** ** Witnesses *)

Definition demo_group_line : GroupRegisterRecord :=
  mkGroupRegisterRecord 1 (mkGroupRecord [97; 0] (mkHederaTopicID 0 0 5) true HederaTransaction_zero Signature_zero).
Definition demo_sb_record (b : SbBody) : SbRecord := mkSbRecord 1 HederaTransaction_zero b [65; 0] 0 SB_SUCCESS.
Definition demo_sb_header : SbHeader := mkSbHeader [65; 0] 1 (replicate PUB_KEY_LENGTH 7) 1.
Definition demo_sb_node : SbNode := mkSbNode 5 (replicate PUB_KEY_LENGTH 7) [].

Lemma dumped_group_reads_back_witness :
  exists o, dump_GroupRegisterRecord demo_group_line = Some o
    /\ parse_json (o []) = Some (json_of_group (txt "GROUP_RECORD") (grr_group demo_group_line)).
Proof. apply (dumped_group_reads_back demo_group_line (txt "GROUP_RECORD")); vm_compute; reflexivity. Defined.

Lemma dumped_sb_reads_back_witness :
  exists o, dump_SbRecord (demo_sb_record (SBB_add_node demo_sb_node)) = Some o
    /\ parse_json (o []) = Some (json_of_sb (demo_sb_record (SBB_add_node demo_sb_node))).
Proof. apply (dumped_sb_reads_back (demo_sb_record (SBB_add_node demo_sb_node))); vm_compute; reflexivity. Defined.

Lemma dumped_header_unreadable_witness :
  exists o, dump_SbRecord (demo_sb_record (SBB_header demo_sb_header)) = Some o /\ parse_json (o []) = None.
Proof.
  apply (dumped_header_unreadable (demo_sb_record (SBB_header demo_sb_header)) demo_sb_header (txt "SELF_SIGNED"));
    try (vm_compute; reflexivity). vm_compute. split; congruence.
Defined.
