(* ===== verification/JsonRpc.v ===== *)
(** * The JSON-RPC interface (JsonRPCHandler.cpp, GetTransactionsTask of
    gradido_events.h)

    A client asks for the transactions of a group from a position on.  A task
    fetches the lines of the store in batches, until it says it is finished;
    the lines are dumped, and the text is read by the JSON library into the
    answer. *)

From stdpp Require Import base gmap list strings numbers.
From Stdlib Require Import ZArith Lia.
From S2P Require Import Prelude GradidoDef FileTile Fnr Blockchain BlockchainBase GroupRegister SubclusterBlockchain CoreUtils.
From S2P Require Import GradidoMath BlockchainGradido Config Json Dump.
Local Open Scope node_scope.

Section rpc.
Context {St X : Type} `{STO : !Storage GradidoRecord St}.
Abbreviation B := (Base GradidoRecord St X).
Implicit Types (b : B).

(** ** The task *)

Record GetTransactionsTask := mkTask
  { gt_b : B; gt_first : N; gt_result : list (Rec GradidoRecord); gt_batch_size : Z; gt_finished : bool }.
Implicit Types (s : GetTransactionsTask).

Definition on_chain {A} (m : M B A) : M GetTransactionsTask A :=
  zoom gt_b (fun b s => mkTask b (gt_first s) (gt_result s) (gt_batch_size s) (gt_finished s)) m.
Definition push_result (rec : Rec GradidoRecord) : M GetTransactionsTask unit :=
  modify (fun s => mkTask (gt_b s) (gt_first s) (gt_result s ++ [rec]) (gt_batch_size s) (gt_finished s)).
Definition set_finished : M GetTransactionsTask unit :=
  modify (fun s => mkTask (gt_b s) (gt_first s) (gt_result s) (gt_batch_size s) true).

(** [first] and the size of the result, as 64-bit numbers. *)
Definition next_seq s : N := ((gt_first s + N.of_nat (length (gt_result s))) mod 2 ^ 64)%N.

(** The [for] loop over a batch. *)
Fixpoint fetch_batch (k : nat) : M GetTransactionsTask unit :=
  match k with
  | O => ret tt
  | S k' =>
      let! seq_num := gets next_seq in
      let! rec := on_chain (get_transaction2 seq_num) in
      match rec with
      | None => set_finished
      | Some rec => push_result rec ;;; fetch_batch k'
      end
  end.

Definition run_task : M GetTransactionsTask unit :=
  try_catch
    (let! s := gets id in
     if gt_finished s then set_finished
     else
       let! count := on_chain get_transaction_count in
       if (next_seq s <? count)%N then fetch_batch (Z.to_nat (gt_batch_size s)) else set_finished)
    set_finished.

(** The handler's loop, at most [fuel] times; [false]: it goes on. *)
Fixpoint until_finished (fuel : nat) : M GetTransactionsTask bool :=
  let! f := gets gt_finished in
  if f then ret true
  else match fuel with O => ret false | S fuel' => run_task ;;; until_finished fuel' end.

(** ** The handler *)

Inductive Response := ResError (msg : string) | ResSuccess (blocks : json) (transaction_count : nat).

(** How the JSON library reads a text; [None]: it throws. *)
Context (read_json : bytes -> option json).

(** [blockchain]: what [get_group_blockchain] gives.  [None]: not over within
    the fuel, or undefined.  What an exception says is left out of the
    message. *)
Definition getTransactions (fuel : nat) (blockchain : option B) (lastKnownSequenceNumber : N) (batch_size : Z) : option Response :=
  match blockchain with
  | None => Some (ResError "group blockchain not found")
  | Some b =>
      match until_finished fuel (mkTask b lastKnownSequenceNumber [] batch_size false) with
      | Ret true s =>
          text ← rpc_text (gt_result s);
          Some (match read_json text with
                | Some contents => ResSuccess contents (length (gt_result s))
                | None => ResError "get_transactions()"
                end)
      | _ => None
      end
  end.

(** ** The request *)

(** A request as the library gives it, with the two conversions of a
    parameter ([None]: they throw).  [blockchains] is the facade. *)
Record Request := mkRequest { rq_method : bytes; rq_params : list (bytes * json) }.
Context (get_string : json -> option bytes) (get_uint64 : json -> option N).

Definition param (key : string) (r : Request) : option json :=
  snd <$> List.find (fun kv => bool_decide (kv.1 = txt key)) (rq_params r).

(** An object of the library writes its members in the order of their keys. *)
Definition error_answer (msg : bytes) : json := JObj [(txt "msg", JStr msg); (txt "state", JStr (txt "error"))].
Definition answer_of (r : Response) : json :=
  match r with
  | ResError msg => error_answer (txt msg)
  | ResSuccess blocks n =>
      JObj [(txt "blocks", blocks); (txt "state", JStr (txt "success")); (txt "transaction_count", JNum (Z.of_nat n))]
  end.

(** [None]: it throws, or does not answer. *)
Definition handle (fuel : nat) (blockchains : bytes -> option B) (batch_size : Z) (r : Request) : option json :=
  if bool_decide (rq_method r = txt "getTransactions") then
    match param "groupAlias" r, param "lastKnownSequenceNumber" r with
    | Some alias, Some number =>
        group_alias ← get_string alias;
        sequence_number ← get_uint64 number;
        answer_of <$> getTransactions fuel (blockchains group_alias) sequence_number batch_size
    | _, _ => Some (error_answer (txt "missing parameter"))
    end
  else Some (error_answer (txt "method not known")).

(** ** Lemmas *)

Context (rep : St -> list (list GradidoRecord * bytes) -> Prop) `{!StorageLaws rep}.

Section chain.
Context (bs : list (list GradidoRecord * bytes)) (first : nat) (batch : nat).
(** The number of lines and of transactions from [first] on. *)
Let total := (rec_total bs - first)%nat.
Let wanted := (length (bc_log bs) - first)%nat.
Hypothesis Hbig : (N.of_nat (rec_total bs) < 2 ^ 64)%N.
Hypothesis Hfirst : (first <= length (bc_log bs))%nat.

Definition lines (k : nat) : list (Rec GradidoRecord) := take k (drop first (all_records BLOCK bs)).

Lemma lines_S k r : all_records BLOCK bs !! (first + k)%nat = Some r -> lines (S k) = lines k ++ [r].
Proof. intros H. unfold lines. apply take_S_r. by rewrite lookup_drop. Qed.

(** The state of a task that has the first [k] lines. *)
Definition has_lines (k : nat) (fin : bool) s : Prop :=
  exists b, s = mkTask b (N.of_nat first) (lines k) (Z.of_nat batch) fin /\ b_state b = READY /\ rep (b_storage b) bs
    /\ length (lines k) = k.

Lemma log_total : (length (bc_log bs) + length bs)%nat = rec_total bs.
Proof. apply log_length. Qed.

Lemma has_next k fin s : (k <= total)%nat -> has_lines k fin s -> next_seq s = N.of_nat (first + k).
Proof.
  pose proof log_total. intros Hk (b & -> & _ & _ & Hl). unfold next_seq. cbn. rewrite Hl, N.mod_small by (unfold total in Hk; lia). lia.
Qed.

Lemma fetch_ok j : forall k s, (k <= total)%nat -> has_lines k false s ->
  exists s', fetch_batch j s = Ret tt s' /\ has_lines (Nat.min (k + j) total) (total <? k + j)%nat s'.
Proof.
  pose proof log_total as Ht. induction j as [|j IH]; intros k s Hk Hs; cbn [fetch_batch].
  - exists s. split; [done|]. rewrite Nat.add_0_r, Nat.min_l by done.
    by destruct (Nat.ltb_spec total k); [lia|].
  - unfold bind at 1, gets. rewrite (has_next k false s Hk Hs). destruct Hs as (b & -> & Hst & Hrep & Hl).
    unfold get_transaction2. unfold bind at 1, on_chain, zoom. cbn [gt_b].
    rewrite (stor_pure_bind _ _ _ _ (law_rec_count _ _ Hrep)). destruct (decide (k < total)%nat) as [Hlt|Hge].
    + rewrite (proj2 (N.leb_gt _ _)) by (unfold total in *; lia).
      destruct (law_get_record b.(b_storage) bs (first + k) Hrep) as (r & s' & E & Hr & Hrep'); [unfold total in *; lia|].
      rewrite (stor_bind _ _ _ _ _ E). cbn [fst ret]. unfold bind, push_result, modify. cbn [gt_b gt_first gt_result gt_batch_size gt_finished].
      destruct (IH (S k) (mkTask (set_b_storage s' b) (N.of_nat first) (lines k ++ [r]) (Z.of_nat batch) false)) as (s2 & E2 & H2);
        [lia| |].
      { eexists. rewrite (lines_S _ _ Hr), length_app, Hl. split_and!; [done..|cbn; lia]. }
      exists s2. split; [exact E2|]. by replace (k + S j)%nat with (S k + j)%nat by lia.
    + rewrite (proj2 (N.leb_le _ _)) by (unfold total in *; lia). unfold ret, set_finished, modify. eexists. split; [reflexivity|].
      rewrite Nat.min_r by lia. rewrite (proj2 (Nat.ltb_lt _ _)) by lia. replace total with k in * by lia. by exists b.
Qed.

Lemma run_ok k s : (k <= total)%nat -> has_lines k false s ->
  exists s', run_task s = Ret tt s'
    /\ (if (k <? wanted)%nat then has_lines (Nat.min (k + batch) total) (total <? k + batch)%nat s' else has_lines k true s').
Proof.
  pose proof log_total as Ht. intros Hk Hs. pose proof (has_next k false s Hk Hs) as Hn.
  unfold run_task, try_catch. unfold bind at 1, gets, id. destruct Hs as (b & -> & Hst & Hrep & Hl). cbn [gt_finished gt_batch_size].
  rewrite Hn. clear Hn. unfold bind, on_chain, zoom. cbn [gt_b].
  assert (get_transaction_count b = Ret (N.of_nat (length (bc_log bs))) b) as -> by (by apply (get_transaction_count_correct rep)).
  cbn [gt_first gt_result gt_batch_size gt_finished]. destruct (Nat.ltb_spec k wanted) as [Hlt|Hge].
  - rewrite (proj2 (N.ltb_lt _ _)) by (unfold wanted in *; lia). rewrite Nat2Z.id.
    destruct (fetch_ok batch k (mkTask b (N.of_nat first) (lines k) (Z.of_nat batch) false) Hk) as (s' & E & H); [by exists b|].
    exists s'. by rewrite E.
  - rewrite (proj2 (N.ltb_ge _ _)) by (unfold wanted in *; lia). eexists. split; [reflexivity|]. by exists b.
Qed.

(** What the loop ends with. *)
Definition fetched (m : nat) : Prop :=
  (wanted <= m <= total)%nat /\ (m = total \/ (m < wanted + batch)%nat /\ exists r, m = (r * batch)%nat).

Lemma finished_now fuel m s : has_lines m true s -> until_finished fuel s = Ret true s.
Proof. intros (b & -> & _). destruct fuel; reflexivity. Qed.

Lemma loop_ok : (0 < batch)%nat -> forall fuel k s,
  (k <= total)%nat -> (k < wanted + batch)%nat -> (exists r, k = r * batch)%nat -> (wanted - k + 1 <= fuel)%nat ->
  has_lines k false s ->
  exists s' m, until_finished fuel s = Ret true s' /\ fetched m /\ has_lines m true s'.
Proof.
  pose proof log_total as Ht. intros Hb. induction fuel as [|fuel IH]; intros k s Hk Hw [r Hr] Hf Hs; [lia|].
  destruct (run_ok k s Hk Hs) as (s1 & E1 & H1). cbn [until_finished]. unfold bind at 1, gets.
  assert (gt_finished s = false) as -> by by destruct Hs as (b & -> & _).
  rewrite (bind_Ret _ _ _ _ _ E1). destruct (Nat.ltb_spec k wanted) as [Hlt|Hge].
  - destruct (Nat.ltb_spec total (k + batch)) as [Hov|Hin].
    + rewrite Nat.min_r in H1 by lia. exists s1, total. split; [by eapply finished_now|]. split; [|done].
      split; [unfold total, wanted in *; lia|by left].
    + rewrite Nat.min_l in H1 by lia. apply (IH (k + batch)%nat); try lia; [|done]. exists (S r). lia.
  - exists s1, k. split; [by eapply finished_now|]. split; [|done]. split; [lia|]. right. split; [done|by exists r].
Qed.
End chain.

Lemma answer_ok b bs first batch fuel :
  b_state b = READY -> rep (b_storage b) bs -> (N.of_nat (rec_total bs) < 2 ^ 64)%N ->
  (first <= length (bc_log bs))%nat -> (0 < batch)%nat -> (length (bc_log bs) - first < fuel)%nat ->
  (forall text j, parse_json text = Some j -> read_json text = Some j) ->
  exists m records, records = take m (drop first (all_records BLOCK bs)) /\ length records = m
    /\ fetched bs first batch m
    /\ (forallb line_ok records = true ->
        getTransactions fuel (Some b) (N.of_nat first) (Z.of_nat batch)
        = Some (ResSuccess (JArr (map json_of_line records)) m)).
Proof.
  intros Hst Hrep Hbig Hfirst Hb Hfuel Hread.
  destruct (loop_ok bs first batch Hbig Hfirst Hb fuel 0 (mkTask b (N.of_nat first) [] (Z.of_nat batch) false))
    as (s' & m & E & Hm & b' & -> & _ & _ & Hl); [lia|lia|by exists 0%nat|lia|by exists b|].
  exists m, (lines bs first m). split_and!; [done..|]. intros Hok. unfold getTransactions. rewrite E. cbn [gt_result].
  destruct (rpc_text_reads_back _ Hok) as (text & -> & Hp). cbn [mbind option_bind]. by rewrite (Hread _ _ Hp), Hl.
Qed.

(** A request for the transactions of a group from a position on returns:
    the array of the lines of the store from there, as JSON, and their
    number.  The lines are fetched in whole batches until their number reaches
    the number of transactions from there on, or there are no more; the
    checksums between the transactions are lines too, so that with more than
    one block the last transactions can be missing. *)
Theorem get_transactions_answer b bs first batch fuel :
  b_state b = READY -> rep (b_storage b) bs -> (N.of_nat (rec_total bs) < 2 ^ 64)%N ->
  (first <= length (bc_log bs))%nat -> (0 < batch)%nat -> (length (bc_log bs) - first < fuel)%nat ->
  (forall text j, parse_json text = Some j -> read_json text = Some j) ->
  exists m records, records = take m (drop first (all_records BLOCK bs)) /\ length records = m
    /\ fetched bs first batch m
    /\ (forallb line_ok records = true ->
        getTransactions fuel (Some b) (N.of_nat first) (Z.of_nat batch)
        = Some (ResSuccess (JArr (map json_of_line records)) m)).
Proof. apply answer_ok. Qed.

(** A request for the transactions of a group from a position on is answered,
    whatever else it holds: with the lines from there, dumped, as an array,
    and their number; a request for a group that is not there, for another
    method or without one of the two parameters with an error. *)
Theorem rpc_request_answered (blockchains : bytes -> option B) b bs (group : bytes) first batch fuel :
  b_state b = READY -> rep (b_storage b) bs -> (N.of_nat (rec_total bs) < 2 ^ 64)%N ->
  (first <= length (bc_log bs))%nat -> (0 < batch)%nat -> (length (bc_log bs) - first < fuel)%nat ->
  (forall text j, parse_json text = Some j -> read_json text = Some j) ->
  (forall text, get_string (JStr text) = Some text) ->
  (forall z, (0 <= z < 2 ^ 64)%Z -> get_uint64 (JNum z) = Some (Z.to_N z)) -> blockchains group = Some b ->
  let ask extra := handle fuel blockchains (Z.of_nat batch) (mkRequest (txt "getTransactions") extra) in
  (exists m records, records = take m (drop first (all_records BLOCK bs)) /\ length records = m /\ fetched bs first batch m
    /\ (forallb line_ok records = true -> forall extra,
        ask ((txt "groupAlias", JStr group) :: (txt "lastKnownSequenceNumber", JNum (Z.of_nat first)) :: extra)
        = Some (JObj [(txt "blocks", JArr (map json_of_line records)); (txt "state", JStr (txt "success"));
                      (txt "transaction_count", JNum (Z.of_nat m))])))
  /\ (forall other extra, blockchains other = None ->
      ask ((txt "groupAlias", JStr other) :: (txt "lastKnownSequenceNumber", JNum (Z.of_nat first)) :: extra)
      = Some (error_answer (txt "group blockchain not found")))
  /\ ask [(txt "groupAlias", JStr group)] = Some (error_answer (txt "missing parameter"))
  /\ (forall method params, method <> txt "getTransactions" ->
      handle fuel blockchains (Z.of_nat batch) (mkRequest method params) = Some (error_answer (txt "method not known"))).
Proof.
  intros Hst Hrep Hbig Hfirst Hb Hfuel Hread Hs Hu Hg ask.
  assert (forall alias extra, ask ((txt "groupAlias", JStr alias) :: (txt "lastKnownSequenceNumber", JNum (Z.of_nat first)) :: extra)
    = answer_of <$> getTransactions fuel (blockchains alias) (N.of_nat first) (Z.of_nat batch)) as E.
  { intros alias extra. pose proof (log_total bs) as Hlog. unfold ask, handle. rewrite bool_decide_eq_true_2 by done.
    change (param "groupAlias" _) with (Some (JStr alias)).
    change (param "lastKnownSequenceNumber" _) with (Some (JNum (Z.of_nat first))). cbn iota.
    rewrite Hs, Hu by lia. cbn [mbind option_bind]. do 2 f_equal. lia. }
  split; [|split; [|split]].
  - destruct (answer_ok b bs first batch fuel) as (m & records & H1 & H2 & H3 & H4); try done.
    exists m, records. split_and!; try done. intros Hok extra. by rewrite E, Hg, H4.
  - intros other extra Ho. by rewrite E, Ho.
  - reflexivity.
  - intros method params Hm. unfold handle. cbn -[txt]. by rewrite bool_decide_eq_false_2.
Qed.

Lemma fetch_batch_zero s : gt_finished s = false -> (gt_batch_size s <= 0)%Z ->
  (next_seq s <? match get_transaction_count (gt_b s) with Ret c _ => c | _ => 0%N end)%N = true ->
  (exists c, get_transaction_count (gt_b s) = Ret c (gt_b s)) -> run_task s = Ret tt s.
Proof.
  intros Hf Hb Hn [c Hc]. rewrite Hc in Hn. unfold run_task, try_catch. unfold bind at 1, gets, id. rewrite Hf.
  unfold bind, on_chain, zoom. rewrite Hc. replace (next_seq _) with (next_seq s) by by destruct s. rewrite Hn.
  replace (Z.to_nat (gt_batch_size s)) with 0%nat by lia. by destruct s.
Qed.

(** With a batch size of zero or less, a request for transactions that are
    there is never answered. *)
Theorem zero_batch_never_answers b bs first batch fuel :
  b_state b = READY -> rep (b_storage b) bs -> (first < length (bc_log bs))%nat -> (N.of_nat first < 2 ^ 64)%N ->
  (batch <= 0)%Z -> getTransactions fuel (Some b) (N.of_nat first) batch = None.
Proof.
  intros Hst Hrep Hf Hbig Hb. unfold getTransactions. set (s := mkTask b _ _ _ _).
  assert (get_transaction_count b = Ret (N.of_nat (length (bc_log bs))) b) as Hc by (by apply (get_transaction_count_correct rep)).
  assert (run_task s = Ret tt s) as E.
  { apply fetch_batch_zero; [done|done| |by eexists]. cbn [gt_b s]. rewrite Hc. unfold next_seq. cbn.
    rewrite N.add_0_r, N.mod_small by done. apply N.ltb_lt. lia. }
  enough (until_finished fuel s = Ret false s) as -> by done.
  induction fuel as [|fuel IH]; [done|]. cbn [until_finished]. unfold bind at 1, gets. cbn [gt_finished s].
  rewrite (bind_Ret _ _ _ _ _ E). exact IH.
Qed.
End rpc.

(** ** The HTTP handler *)

(** What comes of the request in a body that could be read as JSON: the
    library throws, or [handle] gives an answer or null. *)
Inductive Handled := InvalidRequest | RpcException | NoResult | Answered (answer : json).

(** A text of the source, with its quotes written as apostrophes. *)
Definition with_quotes (s : string) : bytes := map (fun c => if (c =? 39)%Z then QUOTE else c) (txt s).

(** [post]: the method is POST or PUT; [answer_text]: how the library writes
    an answer.  The error messages do not return. *)
Definition handleRequest (post : bool) (answer_text : json -> bytes) (r : Handled) : bytes :=
  if post then
    let no_result := with_quotes "{'state':'error', 'msg':'no result'}" in
    match r with
    | Answered answer => answer_text answer
    | NoResult => no_result
    | InvalidRequest => with_quotes "{'state':'error', 'msg': 'invalid request'}" ++ no_result
    | RpcException => with_quotes "{'state':'exception'}" ++ no_result
    end
  else with_quotes "{'state':'error', 'msg':'no post or put request'}".

(** The answer to a request that is not valid, or for which the library
    throws, is two JSON objects in a row and so no JSON text; all other
    answers that the handler writes itself are. *)
Theorem handler_errors_unreadable answer_text :
  parse_json (handleRequest true answer_text InvalidRequest) = None
  /\ parse_json (handleRequest true answer_text RpcException) = None
  /\ (forall r, parse_json (handleRequest false answer_text r)
       = Some (JObj [(txt "state", JStr (txt "error")); (txt "msg", JStr (txt "no post or put request"))]))
  /\ parse_json (handleRequest true answer_text NoResult)
     = Some (JObj [(txt "state", JStr (txt "error")); (txt "msg", JStr (txt "no result"))]).
Proof. by vm_compute. Qed.

(** ** Witnesses *)

Definition rpc_ledger : Base GradidoRecord LSt BlockchainGradido := demo_ledger demo_index demo_ledger_chain.

Lemma get_transactions_answer_witness :
  exists m records, records = take m (drop 1 (all_records BLOCK [demo_ledger_block])) /\ length records = m
    /\ fetched [demo_ledger_block] 1 10 m
    /\ (forallb line_ok records = true ->
        getTransactions (STO := demo_ledger_storage) parse_json 5 (Some rpc_ledger) 1 10
        = Some (ResSuccess (JArr (map json_of_line records)) m)).
Proof.
  apply (get_transactions_answer (STO := demo_ledger_storage) parse_json Blockchain_rep (StorageLaws0 := demo_ledger_laws)
    rpc_ledger [demo_ledger_block] 1 10 5);
    [reflexivity|exact demo_ledger_rep|reflexivity|cbn; lia|lia|cbn; lia|done].
Defined.

Lemma zero_batch_never_answers_witness :
  getTransactions (STO := demo_ledger_storage) parse_json 100 (Some rpc_ledger) 1 0 = None.
Proof.
  apply (zero_batch_never_answers (STO := demo_ledger_storage) parse_json Blockchain_rep (StorageLaws0 := demo_ledger_laws)
    rpc_ledger [demo_ledger_block] 1 0 100);
    [reflexivity|exact demo_ledger_rep|cbn; lia|reflexivity|lia].
Defined.

Definition demo_get_string (j : json) : option bytes := match j with JStr s => Some s | _ => None end.
Definition demo_get_uint64 (j : json) : option N :=
  match j with JNum z => if ((0 <=? z) && (z <? 2 ^ 64))%Z then Some (Z.to_N z) else None | _ => None end.
Definition demo_blockchains (group : bytes) : option (Base GradidoRecord LSt BlockchainGradido) :=
  if decide (group = txt "berlin") then Some rpc_ledger else None.

Lemma rpc_request_answered_witness :
  handle (STO := demo_ledger_storage) parse_json demo_get_string demo_get_uint64 5 demo_blockchains 10
    (mkRequest (txt "getTransactions") [(txt "groupAlias", JStr (txt "paris")); (txt "lastKnownSequenceNumber", JNum 1)])
  = Some (error_answer (txt "group blockchain not found"))
  /\ handle (STO := demo_ledger_storage) parse_json demo_get_string demo_get_uint64 5 demo_blockchains 10
       (mkRequest (txt "getTransactions") [(txt "groupAlias", JStr (txt "berlin"))])
     = Some (error_answer (txt "missing parameter")).
Proof.
  destruct (rpc_request_answered (STO := demo_ledger_storage) parse_json demo_get_string demo_get_uint64 Blockchain_rep
    (StorageLaws0 := demo_ledger_laws) demo_blockchains rpc_ledger [demo_ledger_block] (txt "berlin") 1 10 5)
    as (_ & H1 & H2 & _);
    [reflexivity|exact demo_ledger_rep|reflexivity|cbn; lia|lia|cbn; lia|done|done| |reflexivity|].
  - intros z Hz. cbn -[Z.pow]. assert ((0 <=? z)%Z = true) as -> by lia. assert ((z <? 2 ^ 64)%Z = true) as -> by lia. done.
  - split; [|exact H2]. exact (H1 (txt "paris") [] eq_refl).
Defined.
