(* ===== verification/Signals.v ===== *)
(** * Signals (gradido_signals.cpp)

    A thread that pushes a task to reload the configuration when the process
    got a signal.  Handlers and the thread exclude each other by a lock that
    is held from the check of the condition to the push, so that each round of
    the thread is one step; while the condition does not hold it waits. *)

From stdpp Require Import base relations.
From Stdlib Require Import ZArith Lia.
From S2P Require Import Prelude.
Local Open Scope Z_scope.

(** [pushed]: the reload tasks; [over]: the thread left its loop. *)
Record GradidoSignals := mkSignals { shutdown : bool; last_signal : Z; pushed : nat; over : bool }.

Definition GradidoSignals_new : GradidoSignals := mkSignals false (-1) 0 false.
Definition notify (signum : Z) (s : GradidoSignals) : GradidoSignals := mkSignals (shutdown s) signum (pushed s) (over s).
Definition do_shutdown (s : GradidoSignals) : GradidoSignals := mkSignals true (last_signal s) (pushed s) (over s).

(** One round of [run_entry]; [None]: the thread waits, or has left. *)
Definition run_entry (s : GradidoSignals) : option GradidoSignals :=
  if over s then None
  else if (last_signal s =? -1) && negb (shutdown s) then None
  else if shutdown s then Some (mkSignals true (last_signal s) (pushed s) true)
  else if negb (last_signal s =? -1) then Some (mkSignals false 0 (S (pushed s)) false)
  else Some s.

Lemma run_entry_signalled s :
  over s = false -> shutdown s = false -> last_signal s <> -1 -> run_entry s = Some (mkSignals false 0 (S (pushed s)) false).
Proof. intros Ho Hs Hl. unfold run_entry. by rewrite Ho, Hs, (proj2 (Z.eqb_neq _ _) Hl). Qed.

Lemma rounds n : forall s, over s = false -> shutdown s = false -> last_signal s <> -1 ->
  exists s', nsteps (fun a b => run_entry a = Some b) n s s' /\ pushed s' = (pushed s + n)%nat
    /\ run_entry s' = Some (mkSignals false 0 (S (pushed s')) false).
Proof.
  induction n as [|n IH]; intros s Ho Hs Hl.
  - exists s. split; [constructor|]. split; [lia|]. by apply run_entry_signalled.
  - destruct (IH (mkSignals false 0 (S (pushed s)) false)) as (s' & H1 & H2 & H3); [done|done|cbn; lia|].
    exists s'. split; [econstructor; [by apply run_entry_signalled|done]|]. cbn in H2. split; [lia|done].
Qed.

(** No signal came: nothing is pushed. *)
Definition quiet (s : GradidoSignals) : Prop := last_signal s = -1 /\ pushed s = 0%nat.

(** Before the first signal nothing is reloaded; one signal makes the
    thread push reload tasks without end, one per round, as the signal is
    reset to 0, which is not the value it waits on; a shutdown ends the thread
    in one round. *)
Theorem one_signal_reloads_forever s n :
  over s = false -> shutdown s = false -> 0 < n ->
  (quiet s -> run_entry s = None)
  /\ (forall k, exists s', nsteps (fun a b => run_entry a = Some b) k (notify n s) s'
        /\ pushed s' = (pushed s + k)%nat /\ is_Some (run_entry s'))
  /\ (exists s', run_entry (do_shutdown s) = Some s' /\ over s' = true /\ run_entry s' = None).
Proof.
  intros Ho Hs Hn. split; [|split].
  - intros [Hl _]. unfold run_entry. by rewrite Ho, Hl, Hs.
  - intros k. destruct (rounds k (notify n s)) as (s' & H1 & H2 & H3); [done|done|cbn; lia|]. exists s'. split_and!; [done|done|eauto].
  - eexists. unfold run_entry. cbn. rewrite Ho. by rewrite andb_false_r.
Qed.

Lemma one_signal_reloads_forever_witness :
  (quiet GradidoSignals_new -> run_entry GradidoSignals_new = None)
  /\ (forall k, exists s', nsteps (fun a b => run_entry a = Some b) k (notify 10 GradidoSignals_new) s'
        /\ pushed s' = (0 + k)%nat /\ is_Some (run_entry s'))
  /\ (exists s', run_entry (do_shutdown GradidoSignals_new) = Some s' /\ over s' = true /\ run_entry s' = None).
Proof. apply (one_signal_reloads_forever GradidoSignals_new 10); [reflexivity|reflexivity|lia]. Defined.
