(* ===== verification/Programs.v ===== *)
(** * The programs that make a subcluster (bins/, with parts of config.cpp and utils.cpp)

    [create_kp_identity] makes the key pair of a folder, [create_sb] starts
    the subcluster blockchain, [create_admin_enquiry] writes the file in
    which an admin asks to be added and [add_admin_to_sb] adds the admin.
    A program runs in a folder ([World]) and ends with an exit code, with an
    exception nothing catches ([Throw]) or in undefined behaviour.

    Poco's property files are the parameter [properties]; the Ed25519
    functions, the image of a record in memory and the random bytes of a key
    are parameters.  [uninit] is what an array of the stack holds before it
    is filled. *)

From stdpp Require Import base gmap strings list.
From Stdlib Require Import ZArith Lia.
From S2P Require Import Prelude GradidoDef FileTile Fnr Blockchain BlockchainBase GroupRegister SubclusterBlockchain CoreUtils Config Json.
Local Open Scope Z_scope.
Local Open Scope node_scope.
Set Default Proof Using "Type".

Definition SELF_SIGNED : Z := 1.

Abbreviation SbStore := (Blockchain SbRecord).
Abbreviation SbFiles := (gmap string (File (Rec SbRecord))).

(** The current folder: the two key files (in [w_kp]), admin-enquiry.conf
    and the files of blocks. *)
Record World := mkWorld { w_kp : Kp; w_enquiry : option bytes; w_fs : SbFiles }.
Definition set_w_kp (k : Kp) (w : World) : World := mkWorld k (w_enquiry w) (w_fs w).
Definition set_w_enquiry (e : option bytes) (w : World) : World := mkWorld (w_kp w) e (w_fs w).
Definition set_w_fs (fs : SbFiles) (w : World) : World := mkWorld (w_kp w) (w_enquiry w) fs.

(** A key as the name of a blockchain. *)
Definition name_of (k : bytes) : string :=
  String.string_of_list_ascii (map (fun c => Ascii.ascii_of_N (Z.to_N c)) k).

(** [memcpy(field, s.c_str(), s.length())] into a field of [n] zeroed bytes. *)
Definition zeroed_field (n : nat) (s : bytes) : option bytes := field_write (replicate n 0) s.

(** Copying the first [n] elements of a vector; [None] reads past its end. *)
Definition vector_read (n : nat) (v : bytes) : option bytes :=
  if (n <=? length v)%nat then Some (take n v) else None.

(** A record as its constructor leaves it, but for the named fields. *)
Definition sb_record (version : Z) (body : SbBody) (signature_count : Z) : SbRecord :=
  mkSbRecord version HederaTransaction_zero body (replicate SB_MEMO_LENGTH 0) signature_count SB_SUCCESS.

Definition signatures_record (l : list Signature) : SbRecord :=
  sb_record 0 (SBB_signatures (l ++ replicate (SB_SIGNATURES_PER_RECORD - length l) Signature_zero)) 0.

(** The key and the signature, both in hexadecimal, in an element of
    [rec.signatures]. *)
Definition signature_of (pub_key signature : bytes) : option Signature :=
  p ← vector_read PUB_KEY_LENGTH (hex_to_bytes pub_key);
  s ← vector_read SIGNATURE_LENGTH (hex_to_bytes signature);
  Some (mkSignature p s).

(** [SHOW_VERSION] ends the program for either of two parameters. *)
Definition show_version (params : list bytes) : bool :=
  existsb (fun i => bool_decide (i = txt "--v" \/ i = txt "-version")) params.

(** The handlers of the programs are for [std::runtime_error]; Poco's
    exceptions, from renaming a file and from a missing property, are
    none. *)
Definition runtime_error (e : string) : bool :=
  negb (bool_decide (e = "file not found" \/ e = "missing item")).

Definition catch {A} (code : A) (m : M World A) : M World A :=
  fun w => match m w with
           | Throw e w' => if runtime_error e then Ret code w' else Throw e w'
           | r => r
           end.

Definition ec_ok (ec : ExitCode) : bool := match ec with ExitCode.OK => true | _ => false end.

(** A line of a property file. *)
Definition property_line (kv : bytes * bytes) : bytes := kv.1 ++ [32; 61; 32] ++ kv.2 ++ [NL].

Definition enquiry_text (name email pub_key signature : bytes) : bytes :=
  concat (map property_line
    [(txt "name", name); (txt "email", email); (txt "pub_key", pub_key); (txt "signature", signature)]).

Section programs.
Context (sb_image : SbRecord -> bytes) (sha512 : bytes -> bytes).
Context (ed25519_sign : bytes -> bytes -> bytes -> bytes) (ed25519_derive_public_key : bytes -> bytes).
Context (properties : bytes -> option (bytes -> option bytes)).
Context (cwd : string) (clock : N) (faults : list (option nat)) (uninit : bytes).
Context `{SORT : !StdSort}.

(** The material is signed with keys in hexadecimal; so is the result. *)
Definition sign (mat pub_key priv_key : bytes) : option bytes :=
  pk ← field_write uninit (hex_to_bytes pub_key);
  sk ← field_write uninit (hex_to_bytes priv_key);
  dump_in_hex (ed25519_sign mat pk sk).

(** ** Keys *)

(** [create_kp_identity] of utils.cpp: the random bytes of the private key
    give both keys. *)
Definition create_keys (random : bytes) : option (bytes * bytes) :=
  priv ← dump_in_hex random;
  pub ← dump_in_hex (ed25519_derive_public_key random);
  Some (priv, pub).

Definition create_kp_identity (random : bytes) (params : list bytes) : M World Z :=
  if show_version params then ret 0
  else
    let! keys := of_option (create_keys random) in
    fun w =>
      match (save_key_to_file keys.1 kp_priv_file set_priv_file ;;;
             save_key_to_file keys.2 kp_pub_file set_pub_file) (w_kp w) with
      | Ret _ k => Ret 0 (set_w_kp k w)
      | Throw _ k => Ret 1 (set_w_kp k w)
      | Undef => Undef
      end.

(** The start of the other programs: the key pair of the folder. *)
Definition with_identity (body : Kp -> M World Z) : M World Z :=
  fun w => match kp_init (kp_restarted (w_kp w)) with
           | Ret _ k => if kp_present k then body k w else Ret 3 w
           | Throw _ _ => Ret 2 w
           | Undef => Undef
           end.

(** ** The blockchain of a key *)

Definition fnr_of (key : bytes) : Fnr := mkFnr (cwd +:+ "/" +:+ name_of key +:+ ".bc") (name_of key).

Section chain.
Context (key : bytes).
#[local] Instance chain_names : FileNameResolver := Fnr_resolver (fnr_of key).
#[local] Instance chain_bad_names : BadFileNames := {| get_bad_file_name := Fnr_get_bad_file_name (fnr_of key) |}.
Abbreviation sb_append := (append sb_image sha512 BLOCK 100 100).

(** The object lives while [m] runs; its files stay. *)
Definition open_chain {A} (m : M SbStore A) : M World A :=
  fun w => match Blockchain_init BLOCK (w_fs w) faults clock with
           | Ret _ s =>
               match m s with
               | Ret a s' => Ret a (set_w_fs (ft_fs (bc_tiles s')) w)
               | Throw e s' => Throw e (set_w_fs (ft_fs (bc_tiles s')) w)
               | Undef => Undef
               end
           | Throw e s => Throw e (set_w_fs (ft_fs (bc_tiles s)) w)
           | Undef => Undef
           end.

(** Appends a record; the program goes on when it worked and ends with
    [code] otherwise. *)
Definition append_or (code : Z) (rec : SbRecord) (k : M SbStore Z) : M SbStore Z :=
  let! r := sb_append rec in
  if ec_ok r.2 then k else ret code.

Definition header_record (sb_name : bytes) : option SbRecord :=
  name ← zeroed_field SB_SUBCLUSTER_NAME_LENGTH sb_name;
  pk ← field_write uninit (hex_to_bytes key);
  Some (sb_record 1 (SBB_header (mkSbHeader name SELF_SIGNED pk 1)) 1).

Definition start_sb_chain (sb_name priv_key : bytes) : M SbStore Z :=
  let! rec := of_option (header_record sb_name) in
  let! signature := of_option (sign (sb_image rec) key priv_key) in
  append_or 4 rec (
    let! s := of_option (signature_of key signature) in
    append_or 4 (signatures_record [s]) (ret 0)).

Definition admin_record (pub_key name email : bytes) : option SbRecord :=
  pk ← field_write uninit (hex_to_bytes pub_key);
  n ← zeroed_field SB_ADMIN_NAME_LENGTH name;
  e ← zeroed_field SB_EMAIL_LENGTH email;
  Some (sb_record 1 (SBB_add_admin (mkSbAdmin pk n e)) 2).

(** One block is validated, whatever their number. *)
Definition add_admin_chain (priv_key pub_key name email admin_signature : bytes) : M SbStore Z :=
  let! v := validate_next_checksum BLOCK 100 100 in
  if negb (ec_ok v.2) then ret 1
  else
    let! rec := of_option (admin_record pub_key name email) in
    let! signature := of_option (sign (sb_image rec) key priv_key) in
    append_or 5 rec (
      let! s := of_option (signature_of key signature) in
      let! a := of_option (signature_of pub_key admin_signature) in
      append_or 5 (signatures_record [s; a]) (ret 0)).

End chain.

Definition create_sb (params : list bytes) : M World Z :=
  if show_version params then ret 0
  else
    match params with
    | [_; sb_name] =>
        with_identity (fun k => catch 5 (open_chain (kp_pub k) (start_sb_chain (kp_pub k) sb_name (kp_priv k))))
    | _ => ret 1
    end.

(** ** Admins *)

Definition create_admin_enquiry (params : list bytes) : M World Z :=
  if show_version params then ret 0
  else
    match params with
    | [_; name; email] =>
        with_identity (fun k =>
          let! signature := of_option (sign (name ++ email ++ kp_pub k) (kp_pub k) (kp_priv k)) in
          modify (set_w_enquiry (Some (enquiry_text name email (kp_pub k) signature))) ;;;
          ret 0)
    | _ => ret 1
    end.

(** [SAFE_GET_CONF_ITEM] of a property file that was read. *)
Definition get_item (pfc : bytes -> option bytes) (key : string) : M World bytes :=
  match pfc (txt key) with Some v => ret v | None => throw "missing item" end.

(** The constructor of [AdminEnquiry]; the file is removed once it was read. *)
Definition AdminEnquiry_init : M World (option (bytes -> option bytes)) :=
  let! e := gets w_enquiry in
  match e with
  | None => ret None
  | Some text =>
      match properties text with
      | None => throw "Couldn't open admin-enquiry.conf file"
      | Some pfc => modify (set_w_enquiry None) ;;; ret (Some pfc)
      end
  end.

Definition add_admin_to_sb (params : list bytes) : M World Z :=
  if show_version params then ret 0
  else
    with_identity (fun k =>
      let! ae := AdminEnquiry_init in
      match ae with
      | None => ret 4
      | Some pfc =>
          catch 6 (
            let! pub_key := get_item pfc "pub_key" in
            let! name := get_item pfc "name" in
            let! email := get_item pfc "email" in
            let! admin_signature := get_item pfc "signature" in
            open_chain (kp_pub k) (add_admin_chain (kp_pub k) (kp_priv k) pub_key name email admin_signature))
      end).


(** ** Folders with a chain *)

Section folder.
Context (key : bytes).
#[local] Hint Extern 0 FileNameResolver => exact (chain_names key) : typeclass_instances.
#[local] Hint Extern 0 BadFileNames => exact (chain_bad_names key) : typeclass_instances.

(** Every file is a block of the chain or none that counts as one. *)
Definition names_clean (fs : SbFiles) : Prop :=
  forall p, is_Some (fs !! p) -> match_block_name (fnr_of key) p = None \/ block_name p.

Definition no_blocks (fs : SbFiles) : Prop :=
  forall p, is_Some (fs !! p) -> match_block_name (fnr_of key) p = None.

(** The files are those of a chain with blocks [bs]. *)
Definition holds (fs : SbFiles) (bs : list (list SbRecord * bytes)) : Prop :=
  names_clean fs /\ exists s tds, ft_fs (bc_tiles s) = fs /\ bc_rep BLOCK s tds bs.

Lemma BLOCK_two : (2 <= BLOCK)%nat.
Proof. vm_compute. lia. Qed.

Lemma block_name_matched p : block_name p -> match_block_name (fnr_of key) p <> None.
Proof. intros [i ->]. cbn. by rewrite match_own_name. Qed.

Lemma store_names_clean p : store_name p -> match_block_name (fnr_of key) p = None \/ block_name p.
Proof. intros [H|(t & i & ->)]; [by right|left]. apply match_bad_name. Qed.

(** What the store does leaves the names clean. *)
Lemma names_kept {A} (m : M SbStore A) s a s' :
  adds_only (fun s => ft_fs (bc_tiles s)) store_name m -> m s = Ret a s' ->
  names_clean (ft_fs (bc_tiles s)) -> names_clean (ft_fs (bc_tiles s')).
Proof.
  intros Hm E Hc p Hp. destruct (Hm _ _ _ p E Hp) as [H|H]; [by apply Hc|by apply store_names_clean].
Qed.

Lemma tiles_ok_file (f : FileTile (Rec SbRecord) TileSup) tds blocks i recs :
  tiles_ok BLOCK f tds blocks -> blocks !! i = Some recs ->
  ft_fs f !! get_file_name (N.of_nat i) = Some (good_file recs).
Proof.
  intros Hk Hb. destruct (lookup_lt_is_Some_2 (ft_tiles f) i) as [t Ht].
  { rewrite <- (rep_blocks _ _ _ _ (tk_rep _ _ _ _ Hk)). eauto using lookup_lt_Some. }
  destruct (tk_lookup _ _ _ _ _ _ Hk Ht) as (d & recs' & _ & Hr & _ & Hfs & _). congruence.
Qed.

Lemma holds_file fs bs i b : holds fs bs -> bs !! i = Some b ->
  fs !! get_file_name (N.of_nat i) = Some (good_file (mk_block BLOCK b)).
Proof.
  intros (_ & s & tds & <- & Hrep) Hb. apply (tiles_ok_file _ _ _ _ _ (bc_tiles_ok _ _ _ _ Hrep)).
  by rewrite list_lookup_fmap, Hb.
Qed.

Lemma holds_no_more fs bs n : holds fs bs -> (length bs <= n)%nat -> fs !! get_file_name (N.of_nat n) = None.
Proof.
  intros (_ & s & tds & <- & Hrep) Hn. apply (tk_more _ _ _ _ (bc_tiles_ok _ _ _ _ Hrep)). now rewrite length_map.
Qed.

Lemma elem_regular (fs : SbFiles) p : p ∈ regular_files fs <-> exists f, fs !! p = Some f /\ f_regular f = true.
Proof.
  unfold regular_files. rewrite list_elem_of_omap. split.
  - intros ([q f] & Hq & E). cbn in E. destruct (f_regular f) eqn:Ef; [|discriminate]. injection E as ->.
    apply elem_of_map_to_list in Hq. eauto.
  - intros (f & Hf & Er). exists (p, f). cbn. rewrite Er. split; [by apply elem_of_map_to_list|done].
Qed.

Lemma holds_count fs bs :
  holds fs bs -> (N.of_nat (length bs) < UINT32_MAX)%N ->
  get_file_count (regular_files fs) = Some (N.of_nat (length bs)).
Proof.
  intros Hh Hlt. cbn. apply Fnr_counts_blocks; [done|..].
  - intros i Hi. apply elem_regular. destruct (lookup_lt_is_Some_2 bs (N.to_nat i)) as [b Hb]; [lia|].
    pose proof (holds_file _ _ _ _ Hh Hb) as Hf. rewrite N2Nat.id in Hf. eauto.
  - intros p Hp. apply elem_regular in Hp as (f & Hf & _). destruct (proj1 Hh p) as [H|[i ->]]; [eauto|by left|].
    right. exists i. split; [|done]. destruct (decide (i < N.of_nat (length bs))%N) as [|Hge]; [done|].
    pose proof (holds_no_more fs bs (N.to_nat i) Hh ltac:(lia)) as Hn. rewrite N2Nat.id in Hn. congruence.
Qed.

(** A program that opens a chain finds its blocks, none of them validated. *)
Lemma holds_opens fs bs :
  faults = [] -> holds fs bs -> (N.of_nat (length bs) < UINT32_MAX)%N ->
  exists s tds, Blockchain_init BLOCK fs faults clock = Ret tt s /\ recovering BLOCK s tds bs 0
    /\ ft_fs (bc_tiles s) = fs.
Proof.
  intros -> Hh Hlt. pose proof Hh as (_ & s & tds & _ & Hrep).
  apply init_ok; [apply BLOCK_two|apply (bc_sizes _ _ _ _ Hrep)|apply (bc_full _ _ _ _ Hrep)|..].
  - intros i b. by apply holds_file.
  - intros n. by apply holds_no_more.
  - by apply holds_count.
Qed.

Lemma holds_nil fs : no_blocks fs -> holds fs [].
Proof.
  intros Hn. assert (forall n, fs !! get_file_name n = None) as Hf.
  { intros n. destruct (fs !! get_file_name n) eqn:E; [|done].
    destruct (block_name_matched (get_file_name n)); [by exists n|]. apply Hn. eauto. }
  split; [intros p Hp; left; by apply Hn|].
  destruct (init_ok BLOCK fs [] 0%N BLOCK_two) as (s & tds & _ & Hrv & E); try done.
  - apply Fnr_counts_blocks; [done|intros i Hi; cbn in Hi; lia|]. intros p Hp. left. apply elem_regular in Hp as (f & Hf' & _). apply Hn. eauto.
  - exists s, tds. split; [done|]. by apply recovered.
Qed.

(** *** Appending *)

Lemma append_or_ok code rec k s tds bs :
  bc_rep BLOCK s tds bs ->
  exists s' tds' bs', append_or key code rec k s = k s' /\ bc_rep BLOCK s' tds' bs'
    /\ bc_log bs' = bc_log bs ++ [rec] /\ (names_clean (ft_fs (bc_tiles s)) -> names_clean (ft_fs (bc_tiles s'))).
Proof.
  intros Hrep.
  destruct (append_step sb_image sha512 BLOCK 100 100 s tds bs rec BLOCK_two Hrep) as (s' & tds' & bs' & E & Hrep' & Hl).
  exists s', tds', bs'. unfold append_or. rewrite (bind_Ret _ _ _ _ _ E). split; [done|]. split; [done|].
  split; [done|]. exact (names_kept _ _ _ _ (adds_own_append sb_image sha512 BLOCK 100 100 rec) E).
Qed.

(** Two records where the counter says that a block starts: they make a new
    block, whatever the blocks before it hold. *)
Lemma append_two_new code r1 r2 s tds blocks (m : M SbStore Z) :
  tiles_ok BLOCK (bc_tiles s) tds blocks -> (bc_rec_count s mod N.of_nat BLOCK = 0)%N ->
  exists s' tds' c, append_or key code r1 (append_or key code r2 m) s = m s'
    /\ tiles_ok BLOCK (bc_tiles s') tds' (blocks ++ [mk_block BLOCK ([r1; r2], c)]).
Proof.
  intros Hk Hm.
  destruct (append_new_tile sb_image sha512 BLOCK 100 100 s tds blocks r1 BLOCK_two Hk Hm)
    as (s1 & tds1 & d1 & E1 & Hk1 & Hf1 & Hc1 & _).
  destruct (append_same_tile sb_image sha512 BLOCK 100 100 s1 (tds1 ++ [d1]) blocks [r1] _ r2 Hk1)
    as (d & m' & r & s2 & tds2 & _ & _ & _ & E2 & Hk2 & _).
  - intros d Hd. rewrite last_snoc in Hd. injection Hd as <-. by rewrite Hf1.
  - vm_compute. lia.
  - rewrite Hc1, <- N.Div0.add_mod_idemp_l, Hm. reflexivity.
  - exists s2. eexists _, _. unfold append_or. rewrite (bind_Ret _ _ _ _ _ E1). cbn [ec_ok snd].
    rewrite (bind_Ret _ _ _ _ _ E2). split; [reflexivity|exact Hk2].
Qed.

(** A folder with a block that is followed by another is a chain only when
    that block is full. *)
Lemma hole_no_chain fs b x n :
  (length b.1 < BLOCK - 1)%nat ->
  fs !! get_file_name (N.of_nat n) = Some (good_file (mk_block BLOCK b)) ->
  fs !! get_file_name (N.of_nat (S n)) = Some x -> forall bs, ~ holds fs bs.
Proof.
  intros Hb H0 H1 bs Hh. destruct (decide (S n < length bs)%nat) as [Hlt|Hge].
  2:{ rewrite (holds_no_more fs bs (S n) Hh) in H1 by lia. discriminate. }
  destruct (lookup_lt_is_Some_2 bs n) as [b' Hb']; [lia|]. pose proof (holds_file _ _ _ _ Hh Hb') as Hf.
  rewrite H0 in Hf. injection Hf as Hf. pose proof (f_equal block_rec_count Hf) as Hc.
  rewrite !block_rec_count_block in Hc. destruct Hh as (_ & s & tds & _ & Hrep).
  rewrite (bc_full _ _ _ _ Hrep n b' Hb' Hlt) in Hc. lia.
Qed.

(** Few records fit in one block. *)
Lemma short_chain fs bs :
  holds fs bs -> bc_log bs <> [] -> (length (bc_log bs) < BLOCK)%nat -> exists b, bs = [b] /\ b.1 = bc_log bs.
Proof.
  intros (_ & s & tds & _ & Hrep) Hne Hlt. destruct bs as [|b [|b2 bs]]; [done|exists b; split; [done|]|].
  - unfold bc_log. cbn. by rewrite app_nil_r.
  - exfalso. pose proof (bc_full _ _ _ _ Hrep 0 b eq_refl ltac:(cbn; lia)) as H1.
    pose proof (bc_sizes _ _ _ _ Hrep 1 b2 eq_refl) as H2.
    unfold bc_log in Hlt. cbn [map concat] in Hlt. rewrite !length_app in Hlt. pose proof BLOCK_two. lia.
Qed.

(** A node that starts on the folder validates the blocks and indexes them. *)
Lemma holds_indexed fs bs (b : Base SbRecord SbStore SubclusterBlockchain) x :
  faults = [] -> holds fs bs -> (N.of_nat (length bs) < UINT32_MAX)%N ->
  b_indexed_blocks b = 0%N -> sb_index_log (bc_log bs) (b_child b) = Some x ->
  exists s0 s1 b', Blockchain_init BLOCK fs faults clock = Ret tt s0
    /\ validate_all BLOCK 100 100 (length bs) s0 = Ret tt s1
    /\ Sb_add_index_data (STO := Blockchain_Storage sb_image sha512 100 100) (set_b_storage s1 b) = Ret true b'
    /\ b_child b' = x.
Proof.
  intros Hf Hh Hlt Hi Hx. destruct (holds_opens fs bs Hf Hh Hlt) as (s0 & tds & E0 & Hrv & _).
  destruct (validate_all_ok BLOCK 100 100 bs (length bs) s0 tds 0 0 Hrv eq_refl) as (s1 & tds1 & E1 & Hrv1).
  destruct (sb_index_built (SL := Blockchain_laws sb_image sha512 100 100) Blockchain_rep bs (set_b_storage s1 b) x)
    as (s' & E & _); [exists tds1; by apply recovered|done|done|].
  exists s0, s1. eexists. split; [exact E0|]. split; [exact E1|]. split; [exact E|]. reflexivity.
Qed.

End folder.

(** ** Keys in hexadecimal *)

Lemma key_bytes hex : is_key hex = true -> length (hex_to_bytes hex) = PUB_KEY_LENGTH.
Proof using.
  intros [Hl Hh]%andb_prop. apply Nat.eqb_eq in Hl. unfold KEY_LENGTH_HEX in Hl.
  apply (hex_text_facts PUB_KEY_LENGTH); [lia|by apply is_hex_chars].
Qed.

Lemma kp_init_keys s k :
  kp_init (kp_restarted s) = Ret tt k -> kp_present k = true ->
  is_key (kp_pub k) = true /\ is_key (kp_priv k) = true.
Proof using.
  unfold kp_init, load_key, read_key_from_file, bind, gets. cbn. intros H Hp.
  destruct (kp_priv_file s) as [pr|] eqn:Er; cbn in H; [destruct (is_key pr) eqn:Kr; cbn in H; [|discriminate]|];
    rewrite ?Er in H; cbn in H;
    (destruct (kp_pub_file s) as [pu|] eqn:Eu; cbn in H; [destruct (is_key pu) eqn:Ku; cbn in H; [|discriminate]|]);
    try discriminate; injection H as <-; cbn in *; by try discriminate.
Qed.

Lemma with_identity_run body w k :
  kp_init (kp_restarted (w_kp w)) = Ret tt k -> kp_present k = true -> with_identity body w = body k w.
Proof using. intros E Hp. unfold with_identity. by rewrite E, Hp. Qed.

Lemma signature_of_run pub hex s :
  is_key pub = true -> hex_to_bytes hex = s -> length s = SIGNATURE_LENGTH ->
  signature_of pub hex = Some (mkSignature (hex_to_bytes pub) s).
Proof using.
  intros Hk Hs Hl. unfold signature_of, vector_read. rewrite Hs.
  rewrite key_bytes, Hl by done. cbn [Nat.leb mbind option_bind].
  rewrite !take_ge by (rewrite ?key_bytes by done; lia). reflexivity.
Qed.

(** A text in a zeroed field. *)
Definition padded (n : nat) (s : bytes) : bytes := s ++ replicate (n - length s) 0.

Lemma zeroed_field_run n s : (length s <= n)%nat -> zeroed_field n s = Some (padded n s).
Proof using.
  intros H. unfold zeroed_field. rewrite field_write_fits by (rewrite length_replicate; done). by rewrite drop_replicate.
Qed.

(** Values that a property file gives back as they are: printable, no
    escapes, no references to other properties, no blanks around. *)
Definition plain_value (v : bytes) : Prop :=
  Forall (fun c => 32 <= c < 127 /\ c <> 92 /\ c <> 36) v
  /\ (exists c v', v = c :: v' /\ c <> 32) /\ last v <> Some 32.

Lemma hex_plain hex : is_hex hex = true -> hex <> [] -> plain_value hex.
Proof using.
  intros Hh Hne. assert (Forall (fun c => 48 <= c < 127 /\ c <> 92) hex) as H.
  { apply Forall_forall. intros c Hc%list_elem_of_In. apply (proj1 (forallb_forall _ _) Hh) in Hc. lia. }
  split; [eapply Forall_impl; [exact H|]; cbn; lia|]. split.
  - destruct hex as [|c hex]; [done|]. exists c, hex. split; [done|]. inversion H; subst. lia.
  - intros Hl. apply last_Some_elem_of in Hl. rewrite Forall_forall in H. specialize (H _ Hl). lia.
Qed.

Section good.
Context (no_faults : faults = []) (uninit_length : length uninit = PUB_KEY_LENGTH).
Context (signature_length : forall m pk sk, length (ed25519_sign m pk sk) = SIGNATURE_LENGTH).
Context (signature_bytes : forall m pk sk, Forall is_byte (ed25519_sign m pk sk)).

Lemma fill_key hex : is_key hex = true -> field_write uninit (hex_to_bytes hex) = Some (hex_to_bytes hex).
Proof using uninit_length.
  intros Hk. rewrite field_write_fits by (rewrite key_bytes by done; lia).
  rewrite drop_ge by (rewrite key_bytes by done; lia). by rewrite app_nil_r.
Qed.

Lemma sign_run mat pub priv :
  is_key pub = true -> is_key priv = true ->
  exists hex, sign mat pub priv = Some hex
    /\ hex_to_bytes hex = ed25519_sign mat (hex_to_bytes pub) (hex_to_bytes priv) /\ plain_value hex.
Proof using uninit_length signature_length signature_bytes.
  intros Hpub Hpriv. unfold sign. rewrite !fill_key by done. cbn [mbind option_bind].
  set (sig := ed25519_sign _ _ _).
  assert (length sig = SIGNATURE_LENGTH) as Hl by apply signature_length.
  destruct (hex_roundtrip sig) as (hex & E & Hlh & Hh & Hb); [apply signature_bytes|rewrite Hl; vm_compute; done|].
  exists hex. split; [done|]. split; [done|]. apply hex_plain; [done|]. intros ->. rewrite Hl in Hlh. discriminate.
Qed.

(** The signature of the material with the key pair, as it is stored. *)
Definition key_signature (k : Kp) (mat : bytes) : Signature :=
  mkSignature (hex_to_bytes (kp_pub k)) (ed25519_sign mat (hex_to_bytes (kp_pub k)) (hex_to_bytes (kp_priv k))).

Definition sb_header (k : Kp) (sb_name : bytes) : SbRecord :=
  sb_record 1 (SBB_header (mkSbHeader (padded SB_SUBCLUSTER_NAME_LENGTH sb_name) SELF_SIGNED
    (hex_to_bytes (kp_pub k)) 1)) 1.

Definition sb_admin (pub_key name email : bytes) : SbRecord :=
  sb_record 1 (SBB_add_admin (mkSbAdmin (hex_to_bytes pub_key) (padded SB_ADMIN_NAME_LENGTH name)
    (padded SB_EMAIL_LENGTH email))) 2.

(** The two records of a program: the record, then its signatures. *)
Lemma start_sb_chain_run k sb_name s :
  is_key (kp_pub k) = true -> is_key (kp_priv k) = true -> (length sb_name <= SB_SUBCLUSTER_NAME_LENGTH)%nat ->
  start_sb_chain (kp_pub k) sb_name (kp_priv k) s
  = append_or (kp_pub k) 4 (sb_header k sb_name)
      (append_or (kp_pub k) 4 (signatures_record [key_signature k (sb_image (sb_header k sb_name))]) (ret 0)) s.
Proof using uninit_length signature_length signature_bytes.
  intros Hpub Hpriv Hn. unfold start_sb_chain, header_record. rewrite zeroed_field_run by done. cbn [mbind option_bind].
  rewrite fill_key by done. cbn [mbind option_bind]. fold (sb_header k sb_name).
  destruct (sign_run (sb_image (sb_header k sb_name)) (kp_pub k) (kp_priv k) Hpub Hpriv) as (hex & E & Hb & _).
  unfold bind, of_option at 1. cbn [ret]. unfold of_option. rewrite E. cbn [ret].
  unfold append_or at 1 3, bind. destruct (append _ _ _ _ _ _ s) as [[ok ec] s1|e s1|]; [|done..]. cbn [snd].
  destruct (ec_ok ec); [|done]. rewrite (signature_of_run _ _ _ Hpub Hb) by apply signature_length. reflexivity.
Qed.

(** ** The programs *)

Section identity.
Context (k : Kp) (w : World) (Hkp : kp_init (kp_restarted (w_kp w)) = Ret tt k) (Hpresent : kp_present k = true).
Abbreviation key := (kp_pub k).
#[local] Set Default Proof Using "Type no_faults uninit_length signature_length signature_bytes Hkp Hpresent".
#[local] Hint Extern 0 FileNameResolver => exact (chain_names key) : typeclass_instances.
#[local] Hint Extern 0 BadFileNames => exact (chain_bad_names key) : typeclass_instances.

(** In a folder with a key pair and without blocks of that key, [create_sb]
    starts the chain of the key with a header that has the name and the key,
    and the signature of the header. *)
Lemma create_sb_starts_chain prog sb_name :
  show_version [prog; sb_name] = false -> (length sb_name <= SB_SUBCLUSTER_NAME_LENGTH)%nat ->
  no_blocks key (w_fs w) ->
  exists w' bs, create_sb [prog; sb_name] w = Ret 0 w' /\ w_kp w' = w_kp w /\ w_enquiry w' = w_enquiry w
    /\ holds key (w_fs w') bs
    /\ bc_log bs = [sb_header k sb_name; signatures_record [key_signature k (sb_image (sb_header k sb_name))]].
Proof.
  intros Hv Hn Hb. destruct (kp_init_keys _ _ Hkp Hpresent) as [Hpub Hpriv].
  destruct (holds_opens key (w_fs w) [] no_faults (holds_nil key _ Hb)) as (s & tds & Ei & Hrv & Ef); [done|].
  unfold create_sb. rewrite Hv, (with_identity_run _ _ _ Hkp Hpresent). unfold catch, open_chain.
  rewrite Ei, start_sb_chain_run by done.
  destruct (append_or_ok key 4 (sb_header k sb_name)
    (append_or key 4 (signatures_record [key_signature k (sb_image (sb_header k sb_name))]) (ret 0))
    s tds [] (recovered _ _ _ _ Hrv)) as (s1 & tds1 & bs1 & -> & Hrep1 & Hl1 & Hc1).
  destruct (append_or_ok key 4 (signatures_record [key_signature k (sb_image (sb_header k sb_name))]) (ret 0)
    s1 tds1 bs1 Hrep1) as (s2 & tds2 & bs2 & -> & Hrep2 & Hl2 & Hc2).
  eexists _, bs2. split; [reflexivity|]. cbn [w_kp w_enquiry w_fs set_w_fs]. do 2 (split; [done|]).
  split; [|by rewrite Hl2, Hl1]. split; [|by exists s2, tds2].
  apply Hc2, Hc1. rewrite Ef. intros p Hp. left. by apply Hb.
Qed.

(** Run again, it does not find the chain that is there: the counter of
    records starts at zero, so that a second header begins a block after the
    first block, which is not full.  The program reports success, and the
    folder holds no chain any more. *)
Theorem create_sb_twice_breaks_chain prog sb_name b :
  show_version [prog; sb_name] = false -> (length sb_name <= SB_SUBCLUSTER_NAME_LENGTH)%nat ->
  holds key (w_fs w) [b] -> (length b.1 < BLOCK - 1)%nat ->
  exists w' c, create_sb [prog; sb_name] w = Ret 0 w'
    /\ w_fs w' !! get_file_name 0 = Some (good_file (mk_block BLOCK b))
    /\ w_fs w' !! get_file_name 1 = Some (good_file (mk_block BLOCK
         ([sb_header k sb_name; signatures_record [key_signature k (sb_image (sb_header k sb_name))]], c)))
    /\ forall bs, ~ holds key (w_fs w') bs.
Proof.
  intros Hv Hn Hh Hfull. destruct (kp_init_keys _ _ Hkp Hpresent) as [Hpub Hpriv].
  destruct (holds_opens key (w_fs w) [b] no_faults Hh) as (s & tds & Ei & Hrv & Ef); [done|].
  unfold create_sb. rewrite Hv, (with_identity_run _ _ _ Hkp Hpresent). unfold catch, open_chain.
  rewrite Ei, start_sb_chain_run by done.
  destruct (append_two_new key 4 (sb_header k sb_name)
    (signatures_record [key_signature k (sb_image (sb_header k sb_name))]) s tds [mk_block BLOCK b] (ret 0)
    (rv_tiles _ _ _ _ _ Hrv)) as (s' & tds' & c & -> & Hk).
  { by rewrite (rv_count _ _ _ _ _ Hrv). }
  eexists _, c. split; [reflexivity|]. cbn [w_fs set_w_fs].
  pose proof (tiles_ok_file _ _ _ _ 0 _ Hk eq_refl) as H0. pose proof (tiles_ok_file _ _ _ _ 1 _ Hk eq_refl) as H1.
  split; [exact H0|]. split; [exact H1|]. exact (hole_no_chain key _ b _ 0 Hfull H0 H1).
Qed.

Lemma add_admin_chain_run pub_key name email sg s s1 :
  is_key pub_key = true -> (length name <= SB_ADMIN_NAME_LENGTH)%nat -> (length email <= SB_EMAIL_LENGTH)%nat ->
  length (hex_to_bytes sg) = SIGNATURE_LENGTH ->
  validate_next_checksum BLOCK 100 100 s = Ret (true, ExitCode.OK) s1 ->
  add_admin_chain key (kp_priv k) pub_key name email sg s
  = append_or key 5 (sb_admin pub_key name email)
      (append_or key 5 (signatures_record [key_signature k (sb_image (sb_admin pub_key name email));
                                           mkSignature (hex_to_bytes pub_key) (hex_to_bytes sg)]) (ret 0)) s1.
Proof.
  intros Ha Hn He Hl Ev. destruct (kp_init_keys _ _ Hkp Hpresent) as [Hpub Hpriv].
  unfold add_admin_chain. rewrite (bind_Ret _ _ _ _ _ Ev). cbn [negb ec_ok snd].
  unfold admin_record. rewrite fill_key, !zeroed_field_run by done. cbn [mbind option_bind]. fold (sb_admin pub_key name email).
  destruct (sign_run (sb_image (sb_admin pub_key name email)) key (kp_priv k) Hpub Hpriv) as (hex & E & Hb & _).
  unfold bind, of_option at 1. cbn [ret]. unfold of_option. rewrite E. cbn [ret].
  unfold append_or at 1 3, bind. destruct (append _ _ _ _ _ _ s1) as [[ok ec] s2|e s2|]; [|done..]. cbn [snd].
  destruct (ec_ok ec); [|done]. rewrite (signature_of_run _ _ _ Hpub Hb) by apply signature_length. cbn [ret].
  by rewrite (signature_of_run _ _ _ Ha eq_refl Hl).
Qed.

Lemma add_admin_run prog pfc text pub_key name email sg :
  show_version prog = false -> w_enquiry w = Some text -> properties text = Some pfc ->
  pfc (txt "pub_key") = Some pub_key -> pfc (txt "name") = Some name -> pfc (txt "email") = Some email ->
  pfc (txt "signature") = Some sg ->
  add_admin_to_sb prog w
  = catch 6 (open_chain key (add_admin_chain key (kp_priv k) pub_key name email sg)) (set_w_enquiry None w).
Proof.
  intros Hv Ht Hp H1 H2 H3 H4. unfold add_admin_to_sb. rewrite Hv, (with_identity_run _ _ _ Hkp Hpresent).
  unfold AdminEnquiry_init, bind at 1 2, gets. rewrite Ht, Hp. unfold bind at 1, modify, ret. cbv iota.
  unfold get_item. by rewrite H1, H2, H3, H4.
Qed.

(** On a chain of one block, [add_admin_to_sb] adds the admin of the enquiry,
    with the signatures of the host and of the enquiry; the enquiry is
    used up.  The signature of the admin is stored as it is. *)
Lemma add_admin_adds prog pfc text pub_key name email sg b :
  show_version prog = false -> w_enquiry w = Some text -> properties text = Some pfc ->
  pfc (txt "pub_key") = Some pub_key -> pfc (txt "name") = Some name -> pfc (txt "email") = Some email ->
  pfc (txt "signature") = Some sg ->
  is_key pub_key = true -> (length name <= SB_ADMIN_NAME_LENGTH)%nat -> (length email <= SB_EMAIL_LENGTH)%nat ->
  length (hex_to_bytes sg) = SIGNATURE_LENGTH -> holds key (w_fs w) [b] ->
  exists w' bs, add_admin_to_sb prog w = Ret 0 w' /\ w_kp w' = w_kp w /\ w_enquiry w' = None
    /\ holds key (w_fs w') bs
    /\ bc_log bs = b.1 ++ [sb_admin pub_key name email;
         signatures_record [key_signature k (sb_image (sb_admin pub_key name email));
                            mkSignature (hex_to_bytes pub_key) (hex_to_bytes sg)]].
Proof.
  intros Hv Ht Hp H1 H2 H3 H4 Ha Hn He Hl Hh. rewrite (add_admin_run _ _ _ _ _ _ _ Hv Ht Hp H1 H2 H3 H4).
  destruct (holds_opens key (w_fs w) [b] no_faults Hh) as (s & tds & Ei & Hrv & Ef); [done|].
  destruct (validate_next_step BLOCK 100 100 s tds [b] 0 Hrv) as (s0 & tds0 & Ev & Hrv0); [cbn; lia|].
  unfold catch, open_chain. cbn [w_fs set_w_enquiry]. rewrite Ei, (add_admin_chain_run _ _ _ _ _ _ Ha Hn He Hl Ev).
  set (r2 := signatures_record _).
  destruct (append_or_ok key 5 (sb_admin pub_key name email) (append_or key 5 r2 (ret 0)) s0 tds0 [b]
    (recovered _ _ _ _ Hrv0)) as (s1 & tds1 & bs1 & -> & Hrep1 & Hl1 & Hc1).
  destruct (append_or_ok key 5 r2 (ret 0) s1 tds1 bs1 Hrep1) as (s2 & tds2 & bs2 & -> & Hrep2 & Hl2 & Hc2).
  eexists _, bs2. split; [reflexivity|]. cbn [w_kp w_enquiry w_fs set_w_fs set_w_enquiry]. do 2 (split; [done|]).
  split.
  - split; [|by exists s2, tds2].
    apply Hc2, Hc1, (names_kept key _ _ _ _ (adds_own_validate _ _ _) Ev). rewrite Ef. apply Hh.
  - rewrite Hl2, Hl1. unfold bc_log. cbn. by rewrite app_nil_r, <- (assoc_L (++)).
Qed.

(** On a chain of more blocks only the first is counted: the admin begins a
    block of its own after a last block that is not full, and the folder
    holds no chain any more. *)
Theorem add_admin_misses_blocks prog pfc text pub_key name email sg bs b :
  show_version prog = false -> w_enquiry w = Some text -> properties text = Some pfc ->
  pfc (txt "pub_key") = Some pub_key -> pfc (txt "name") = Some name -> pfc (txt "email") = Some email ->
  pfc (txt "signature") = Some sg ->
  is_key pub_key = true -> (length name <= SB_ADMIN_NAME_LENGTH)%nat -> (length email <= SB_EMAIL_LENGTH)%nat ->
  length (hex_to_bytes sg) = SIGNATURE_LENGTH ->
  holds key (w_fs w) (bs ++ [b]) -> bs <> [] -> (length b.1 < BLOCK - 1)%nat ->
  (N.of_nat (length (bs ++ [b])) < UINT32_MAX)%N ->
  exists w', add_admin_to_sb prog w = Ret 0 w' /\ forall bs', ~ holds key (w_fs w') bs'.
Proof.
  intros Hv Ht Hp H1 H2 H3 H4 Ha Hn He Hl Hh Hne Hb Hlt. rewrite (add_admin_run _ _ _ _ _ _ _ Hv Ht Hp H1 H2 H3 H4).
  destruct (holds_opens key (w_fs w) _ no_faults Hh Hlt) as (s & tds & Ei & Hrv & Ef).
  destruct bs as [|b0 bs]; [done|].
  destruct (validate_next_step BLOCK 100 100 s tds ((b0 :: bs) ++ [b]) 0 Hrv) as (s0 & tds0 & Ev & Hrv0); [cbn; lia|].
  unfold catch, open_chain. cbn [w_fs set_w_enquiry]. rewrite Ei, (add_admin_chain_run _ _ _ _ _ _ Ha Hn He Hl Ev).
  set (r2 := signatures_record _).
  destruct (append_two_new key 5 (sb_admin pub_key name email) r2 s0 tds0 _ (ret 0) (rv_tiles _ _ _ _ _ Hrv0))
    as (s' & tds' & c & -> & Hk).
  { rewrite (rv_count _ _ _ _ _ Hrv0). cbn [app take]. unfold rec_total. cbn [sum_list_with].
    rewrite (rv_full _ _ _ _ _ Hrv0 0 b0 eq_refl) by (cbn; rewrite length_app; cbn; lia). reflexivity. }
  eexists. split; [reflexivity|]. cbn [w_fs set_w_fs].
  assert (S (length bs) = length (b0 :: bs)) as Hlen by done.
  refine (hole_no_chain key _ b _ (length (b0 :: bs)) Hb (tiles_ok_file _ _ _ _ _ _ Hk _) (tiles_ok_file _ _ _ _ _ _ Hk _)).
  - rewrite map_app, <- (assoc_L (++)). apply list_lookup_middle. by rewrite length_map.
  - apply list_lookup_middle. by rewrite length_map, length_app, Nat.add_1_r.
Qed.

End identity.

(** ** A subcluster from nothing *)

Context (key_length : forall r, length (ed25519_derive_public_key r) = PUB_KEY_LENGTH).
Context (key_is_bytes : forall r, Forall is_byte (ed25519_derive_public_key r)).
#[local] Set Default Proof Using "All".

Lemma key_text b : length b = PUB_KEY_LENGTH -> Forall is_byte b ->
  exists hex, dump_in_hex b = Some hex /\ is_key hex = true /\ hex_to_bytes hex = b.
Proof using.
  intros Hl Hb. destruct (hex_roundtrip b Hb) as (hex & E & Hh & Hx & Ht); [rewrite Hl; vm_compute; done|].
  exists hex. split; [done|]. split; [|done]. unfold is_key. by rewrite Hh, Hl, Hx.
Qed.

(** In a folder without key files the program makes a pair, which the other
    programs then find. *)
Lemma create_kp_identity_run random params w :
  show_version params = false -> length random = PUB_KEY_LENGTH -> Forall is_byte random ->
  kp_priv_file (w_kp w) = None -> kp_pub_file (w_kp w) = None ->
  exists k w', create_kp_identity random params w = Ret 0 w'
    /\ w_fs w' = w_fs w /\ kp_init (kp_restarted (w_kp w')) = Ret tt k /\ kp_present k = true
    /\ dump_in_hex (ed25519_derive_public_key random) = Some (kp_pub k) /\ is_key (kp_pub k) = true
    /\ hex_to_bytes (kp_pub k) = ed25519_derive_public_key random /\ hex_to_bytes (kp_priv k) = random.
Proof using key_length key_is_bytes.
  intros Hv Hl Hb Hr Hu. unfold create_kp_identity. rewrite Hv. unfold create_keys.
  destruct (key_text random Hl Hb) as (pr & -> & Hpr & Epr).
  destruct (key_text (ed25519_derive_public_key random)) as (pu & Edump & Hpu & Epu); [apply key_length|apply key_is_bytes|].
  rewrite Edump. cbn [mbind option_bind of_option].
  assert ((save_key_to_file pr kp_priv_file set_priv_file ;;; save_key_to_file pu kp_pub_file set_pub_file) (w_kp w)
    = Ret tt (set_pub_file pu (set_priv_file pr (w_kp w)))) as E.
  { unfold save_key_to_file. rewrite Hpr, Hpu. unfold bind, gets, modify. cbn [negb]. rewrite Hr.
    cbn [kp_pub_file set_priv_file]. by rewrite Hu. }
  unfold bind at 1, ret. cbn [fst snd]. rewrite E.
  exists (mkKp true pr pu (Some pr) (Some pu)). eexists. split; [reflexivity|]. split; [done|].
  split; [|by split_and!]. unfold kp_init, load_key, read_key_from_file, bind, gets. cbn. rewrite Hpr. cbn. by rewrite Hpu.
Qed.

Lemma create_admin_enquiry_run k w prog name email :
  kp_init (kp_restarted (w_kp w)) = Ret tt k -> kp_present k = true -> show_version [prog; name; email] = false ->
  exists hex w', create_admin_enquiry [prog; name; email] w = Ret 0 w'
    /\ w_enquiry w' = Some (enquiry_text name email (kp_pub k) hex)
    /\ hex_to_bytes hex = ed25519_sign (name ++ email ++ kp_pub k) (hex_to_bytes (kp_pub k)) (hex_to_bytes (kp_priv k))
    /\ plain_value hex.
Proof using uninit_length signature_length signature_bytes.
  intros Hkp Hp Hv. destruct (kp_init_keys _ _ Hkp Hp) as [Hpub Hpriv].
  unfold create_admin_enquiry. rewrite Hv, (with_identity_run _ _ _ Hkp Hp).
  destruct (sign_run (name ++ email ++ kp_pub k) (kp_pub k) (kp_priv k) Hpub Hpriv) as (hex & -> & Hb & Hp').
  exists hex. eexists. split; [reflexivity|]. by split.
Qed.

Context (properties_lines : forall l, NoDup (map fst l) ->
  Forall (fun kv => word kv.1 /\ plain_value kv.2) l ->
  exists pfc, properties (concat (map property_line l)) = Some pfc /\ forall k v, (k, v) ∈ l -> pfc k = Some v).

Lemma enquiry_read name email pub_key signature :
  plain_value name -> plain_value email -> plain_value pub_key -> plain_value signature ->
  exists pfc, properties (enquiry_text name email pub_key signature) = Some pfc
    /\ pfc (txt "pub_key") = Some pub_key /\ pfc (txt "name") = Some name /\ pfc (txt "email") = Some email
    /\ pfc (txt "signature") = Some signature.
Proof.
  intros Hn He Hk Hs.
  destruct (properties_lines [(txt "name", name); (txt "email", email); (txt "pub_key", pub_key); (txt "signature", signature)])
    as (pfc & E & H).
  - apply (bool_decide_unpack _). vm_compute. exact I.
  - repeat (constructor; [split; [split; [discriminate|repeat constructor]|done]|]). constructor.
  - exists pfc. split; [exact E|]. split_and!; apply H; set_solver.
Qed.

Lemma key_plain k : is_key k = true -> plain_value k.
Proof using. intros [Hl%Nat.eqb_eq Hh]%andb_prop. apply hex_plain; [done|]. by intros ->. Qed.

(** The index of header and admin. *)
Definition bootstrapped_index (k : Kp) (pub_key sb_name name email : bytes) : SubclusterBlockchain :=
  set_admins {[hex_to_bytes pub_key := mkSbAdmin (hex_to_bytes pub_key) (padded SB_ADMIN_NAME_LENGTH name) (padded SB_EMAIL_LENGTH email)]}
    (set_initial_key (hex_to_bytes (kp_pub k)) SubclusterBlockchain_new).


End good.

End programs.

(** ** Witnesses *)

#[local] Existing Instance demo_sort.

(** A property file of lines as [property_line] writes them. *)
Definition demo_line (s : bytes) : bytes * bytes := let (k, r) := span is_word s in (k, drop 3 r).
Definition demo_properties (text : bytes) : option (bytes -> option bytes) :=
  Some (fun k => (list_to_map (map demo_line (getlines [] text)) : gmap bytes bytes) !! k).
Definition demo_sign (m pk sk : bytes) : bytes := replicate SIGNATURE_LENGTH 1.
Definition demo_derive (r : bytes) : bytes := map u8 (take PUB_KEY_LENGTH (r ++ replicate PUB_KEY_LENGTH 0)).
Definition demo_uninit : bytes := replicate PUB_KEY_LENGTH 170.
Definition demo_name : bytes := [65; 110; 110].
Definition demo_world : World := mkWorld kp_empty None ∅.

Lemma demo_derive_length r : length (demo_derive r) = PUB_KEY_LENGTH.
Proof. unfold demo_derive. rewrite length_map, length_take, length_app, length_replicate. lia. Qed.

Lemma demo_derive_bytes r : Forall is_byte (demo_derive r).
Proof. apply Forall_map, Forall_true. intros c. exact (uwrap_range 8 c ltac:(lia)). Qed.

Lemma demo_line_read kv : word kv.1 -> demo_line (kv.1 ++ [32; 61; 32] ++ kv.2) = kv.
Proof.
  intros [_ Hw]. unfold demo_line. cbn [app]. rewrite span_app by done. cbn [drop]. by destruct kv.
Qed.

Lemma demo_line_ok kv : word kv.1 -> plain_value kv.2 -> line_ok (kv.1 ++ [32; 61; 32] ++ kv.2).
Proof.
  intros [Hne Hw] [Hp _]. split; [by destruct kv.1|]. rewrite !not_elem_of_app. split_and!.
  - intros H. rewrite Forall_forall in Hw. by specialize (Hw _ H).
  - unfold NL. set_solver by lia.
  - intros H. rewrite Forall_forall in Hp. specialize (Hp _ H). unfold NL in Hp. lia.
Qed.

Lemma demo_properties_lines l :
  NoDup (map fst l) -> Forall (fun kv => word kv.1 /\ plain_value kv.2) l ->
  exists pfc, demo_properties (concat (map property_line l)) = Some pfc /\ forall k v, (k, v) ∈ l -> pfc k = Some v.
Proof.
  intros Hd Hl. eexists. split; [reflexivity|]. intros k v Hkv.
  assert (map demo_line (getlines [] (concat (map property_line l))) = l) as ->.
  { replace (map property_line l) with (map (fun s => s ++ [NL]) (map (fun kv => kv.1 ++ [32; 61; 32] ++ kv.2) l)).
    - rewrite getlines_written.
      + rewrite map_map. clear Hd Hkv. induction Hl as [|kv l [Hw _] _ IH]; [done|]. cbn [map]. by rewrite demo_line_read, IH.
      + apply Forall_map. eapply Forall_impl; [exact Hl|]. intros kv [Hw Hp]. by apply demo_line_ok.
    - rewrite map_map. apply map_ext. intros kv. unfold property_line. by rewrite <- !(assoc_L (++)). }
  by apply elem_of_list_to_map.
Qed.

Lemma demo_name_plain : plain_value demo_name.
Proof. split; [repeat constructor; lia|]. split; [by eexists _, _|done]. Qed.


Lemma create_sb_twice_breaks_chain_witness :
  exists k h1 h2 h3, create_kp_identity demo_derive (replicate PUB_KEY_LENGTH 1) [demo_name] demo_world = Ret 0 h1
    /\ create_sb demo_sb_bytes demo_sha demo_sign "/" 5 [] demo_uninit [demo_name; demo_name] h1 = Ret 0 h2
    /\ create_sb demo_sb_bytes demo_sha demo_sign "/" 5 [] demo_uninit [demo_name; demo_name] h2 = Ret 0 h3
    /\ (exists bs, holds "/" k (w_fs h2) bs) /\ forall bs, ~ holds "/" k (w_fs h3) bs.
Proof.
  assert (forall m pk sk, Forall is_byte (demo_sign m pk sk)) as Hs by (intros; repeat constructor; lia).
  destruct (create_kp_identity_run demo_derive demo_derive_length demo_derive_bytes (replicate PUB_KEY_LENGTH 1) [demo_name] demo_world eq_refl eq_refl
    ltac:(repeat constructor; lia) eq_refl eq_refl) as (k & h1 & E1 & F1 & K1 & P1 & _).
  destruct (create_sb_starts_chain demo_sb_bytes demo_sha demo_sign "/" 5 [] demo_uninit eq_refl eq_refl
    (fun _ _ _ => eq_refl) Hs k h1 K1 P1 demo_name demo_name eq_refl ltac:(vm_compute; lia))
    as (h2 & bs & E2 & W2 & _ & H2 & L2); [rewrite F1; by intros q [? Hq]|].
  destruct (short_chain "/" (kp_pub k) (w_fs h2) bs H2) as (b & -> & Lb); [by rewrite L2|rewrite L2; vm_compute; lia|].
  destruct (create_sb_twice_breaks_chain demo_sb_bytes demo_sha demo_sign "/" 5 [] demo_uninit eq_refl eq_refl
    (fun _ _ _ => eq_refl) Hs k h2 ltac:(by rewrite W2) P1 demo_name demo_name b eq_refl ltac:(vm_compute; lia) H2)
    as (h3 & c & E3 & _ & _ & H3); [rewrite Lb, L2; vm_compute; lia|].
  exists (kp_pub k), h1, h2, h3. exact (conj E1 (conj E2 (conj E3 (conj (ex_intro _ _ H2) H3)))).
Defined.
