(* ===== verification/Locks.v ===== *)
(** * Locks of a node (MLOCK throughout; facades_impl.cpp, blockchain_base_deprecated.h,
    blockchain_base.h, communications.cpp, worker_pool.cpp, timer_pool.cpp, gradido_events.h)

    Which mutexes the threads of a node take, in which order, and which
    fields they touch under them.  Section [discipline] is a small language
    of such code with its interleavings; a method of the program is then the
    code that is left when all but locks and shared fields is forgotten: a
    branch is a choice of both sides, what may be skipped by a return or an
    exception is optional ([may]).  A value that is only read, the files and
    the mutex of the log, which is taken around code that takes no other, are
    left out.  Waiting on a condition belongs to the models of the pools. *)

From stdpp Require Import base list strings relations numbers.
From Stdlib Require Import ZArith Lia.
From S2P Require Import Prelude.
Set Default Proof Using "Type".

(** ** Code with locks *)

Section discipline.
Context {Lock Field : Type} `{!EqDecision Lock, !EqDecision Field}.

(** [MLOCK l c]: [c] in the scope of the guard of [l].  [Touch f w] reads or
    writes a field. *)
Inductive code :=
| Skip
| Touch (f : Field) (w : bool)
| MLOCK (l : Lock) (c : code)
| Seq (a b : code)
| Alt (a b : code).

Definition may (c : code) : code := Alt Skip c.

Fixpoint times (n : nat) (c : code) : code :=
  match n with O => Skip | S n => may (Seq c (times n c)) end.

Definition seqs (l : list code) : code := foldr Seq Skip l.

(** What a thread has left: code, and the guards whose scope ends. *)
Inductive item := Do (c : code) | Drop (l : Lock).
Abbreviation stack := (list item).

Fixpoint held (t : stack) : list Lock :=
  match t with
  | [] => []
  | Drop l :: t' => l :: held t'
  | Do _ :: t' => held t'
  end.

(** One step of a thread while the locks [taken] are held by some thread,
    itself included: the mutexes are not recursive. *)
Definition advance (taken : list Lock) (first : bool) (t : stack) : option stack :=
  match t with
  | [] => None
  | Drop _ :: k | Do Skip :: k | Do (Touch _ _) :: k => Some k
  | Do (Seq a b) :: k => Some (Do a :: Do b :: k)
  | Do (Alt a b) :: k => Some (Do (if first then a else b) :: k)
  | Do (MLOCK l c) :: k => if bool_decide (l ∈ taken) then None else Some (Do c :: Drop l :: k)
  end.

Definition taken (s : list stack) : list Lock := s ≫= held.

Inductive step (s : list stack) : list stack -> Prop :=
| step_thread i first t t' : s !! i = Some t -> advance (taken s) first t = Some t' -> step s (<[i := t']> s).

Definition start (l : list code) : list stack := map (fun c => [Do c]) l.
Definition all_done (s : list stack) : Prop := Forall (fun t => t = []) s.

(** Two threads that wait for each other's lock. *)
Definition crossed (t u : stack) : Prop :=
  exists l c k l' c' k', t = Do (MLOCK l c) :: k /\ u = Do (MLOCK l' c') :: k' /\ l ∈ held k' /\ l' ∈ held k.

(** Two threads about to touch a field, one of them to write it. *)
Definition race (f : Field) (s : list stack) : Prop :=
  exists i j v w k k', i <> j /\ s !! i = Some (Do (Touch f v) :: k) /\ s !! j = Some (Do (Touch f w) :: k')
    /\ v || w = true.

(** ** No lock is held twice *)

Lemma taken_insert s i t t' : s !! i = Some t -> taken (<[i := t']> s) ≡ₚ held t' ++ taken (delete i s).
Proof.
  intros H. unfold taken. rewrite insert_take_drop by (eapply lookup_lt_Some; exact H).
  rewrite delete_take_drop, !bind_app. cbn. by rewrite !(assoc_L (++)), (Permutation_app_comm (held t')).
Qed.

Lemma taken_split s i t : s !! i = Some t -> taken s ≡ₚ held t ++ taken (delete i s).
Proof. intros H. by rewrite <- (list_insert_id s i t H) at 1; rewrite (taken_insert _ _ _ _ H). Qed.

Lemma held_taken s i t l : s !! i = Some t -> l ∈ held t -> l ∈ taken s.
Proof. intros Hi Hl. rewrite (taken_split _ _ _ Hi). set_solver. Qed.

Lemma advance_held tk first t t' : advance tk first t = Some t' ->
  held t' = held t \/ (exists l, held t' = l :: held t /\ l ∉ tk) \/ exists l, held t = l :: held t'.
Proof.
  destruct t as [|[[| | |a b|a b]|l] k]; cbn; [done| | | | | |]; try (intros [= <-]; by auto).
  - case_bool_decide; intros [= <-]. right. left. eauto.
  - intros [= <-]. right. right. eauto.
Qed.

Lemma step_nodup s s' : step s s' -> NoDup (taken s) -> NoDup (taken s').
Proof.
  intros [i first t t' Hi Ha]. rewrite (taken_insert _ _ _ _ Hi). pose proof (taken_split _ _ _ Hi) as E.
  destruct (advance_held _ _ _ _ Ha) as [-> |[(l & -> & Hl)|(l & El)]].
  - by rewrite <- E.
  - cbn. rewrite <- E. by constructor.
  - rewrite E, El. cbn. by intros [_ H]%list.NoDup_cons.
Qed.

Lemma taken_start l : taken (start l) = [].
Proof. by induction l as [|c l IH]; [|cbn]. Qed.

Lemma reach_nodup l s : rtc step (start l) s -> NoDup (taken s).
Proof.
  intros H. assert (NoDup (taken (start l))) as H0 by (rewrite taken_start; constructor).
  induction H; eauto using step_nodup.
Qed.

Lemma holder_unique s i j t u l : NoDup (taken s) -> s !! i = Some t -> s !! j = Some u ->
  l ∈ held t -> l ∈ held u -> i = j.
Proof.
  intros Hn Hi Hj Ht Hu. destruct (decide (i = j)) as [|Hne]; [done|exfalso].
  rewrite (taken_split _ _ _ Hi), list.NoDup_app in Hn. destruct Hn as (_ & Hd & _). apply (Hd l Ht).
  unfold taken. apply list_elem_of_bind. exists u. split; [done|]. apply list_elem_of_lookup.
  destruct (decide (j < i)) as [Hlt|Hge].
  - exists j. by rewrite list_lookup_delete_lt.
  - exists (pred j). rewrite list_lookup_delete_ge by lia. by replace (S (pred j)) with j by lia.
Qed.

(** ** Locks in order *)

Section order.
Context (rank : Lock -> nat).

(** Every lock is taken above those that are held. *)
Fixpoint ordered (n : nat) (c : code) : bool :=
  match c with
  | Skip | Touch _ _ => true
  | MLOCK l c => bool_decide (n < rank l) && ordered (rank l) c
  | Seq a b | Alt a b => ordered n a && ordered n b
  end.

Definition level (t : stack) : nat := match held t with [] => 0 | l :: _ => rank l end.

Fixpoint in_order (t : stack) : Prop :=
  match t with
  | [] => True
  | Do c :: k => ordered (level k) c = true /\ in_order k
  | Drop l :: k => level k < rank l /\ in_order k
  end.

Lemma in_order_held t l : in_order t -> l ∈ held t -> rank l <= level t.
Proof.
  revert l. induction t as [|[c|l'] k IH]; intros l Ho Hl; cbn in *; [by apply elem_of_nil in Hl|by apply (IH l (proj2 Ho))|].
  destruct Ho as [Hk Ho]. apply elem_of_cons in Hl as [->|Hl]; [done|]. specialize (IH l Ho Hl). change (level (Drop l' :: k)) with (rank l'). lia.
Qed.

Lemma advance_in_order tk first t t' : advance tk first t = Some t' -> in_order t -> in_order t'.
Proof.
  destruct t as [|[[| |l c|a b|a b]|l] k]; cbn; [done| | | | | |].
  - by intros [= <-] [_ ?].
  - by intros [= <-] [_ ?].
  - case_bool_decide; [done|]. intros [= <-] [[Hl%bool_decide_eq_true_1 Hc]%andb_prop Hk]. cbn. by repeat split.
  - intros [= <-] [[Ha Hb]%andb_prop Hk]. cbn. by repeat split.
  - intros [= <-] [[Ha Hb]%andb_prop Hk]. destruct first; by split.
  - by intros [= <-] [_ ?].
Qed.

Lemma step_in_order s s' : step s s' -> Forall in_order s -> Forall in_order s'.
Proof.
  intros [i first t t' Hi Ha] H. apply list.Forall_insert; [done|]. eapply advance_in_order; [exact Ha|].
  by eapply list.Forall_lookup_1.
Qed.

Lemma start_in_order l : Forall (fun c => ordered 0 c = true) l -> Forall in_order (start l).
Proof. intros H. apply List.Forall_map. eapply list.Forall_impl; [exact H|]. by intros c ?. Qed.

(** A thread that cannot step waits for a lock above all it holds. *)
Lemma stuck_waits tk t : advance tk true t = None -> in_order t -> t = [] \/ exists l, l ∈ tk /\ level t < rank l.
Proof.
  destruct t as [|[[| |l c|a b|a b]|l] k]; cbn; [by left|done|done| |done|done|done].
  case_bool_decide as Hl; [|done]. intros _ [[Hr%bool_decide_eq_true_1 _]%andb_prop _]. right. by exists l.
Qed.

Lemma max_lock (ls : list Lock) : ls = [] \/ exists l, l ∈ ls /\ forall l', l' ∈ ls -> rank l' <= rank l.
Proof.
  induction ls as [|a ls [->|(l & Hl & Hm)]]; [by left| |]; right.
  - exists a. split; [by left|]. intros l' ->%list_elem_of_singleton. done.
  - destruct (decide (rank l <= rank a)).
    + exists a. split; [by left|]. intros l' [->|H]%elem_of_cons; [done|]. specialize (Hm l' H). lia.
    + exists l. split; [by right|]. intros l' [->|H]%elem_of_cons; [lia|by apply Hm].
Qed.

Lemma in_order_progress s : Forall in_order s -> all_done s \/ exists s', step s s'.
Proof.
  intros Ho. destruct (decide (Exists (fun t => is_Some (advance (taken s) true t)) s)) as [He|Hn].
  - right. apply list.Exists_exists in He as (t & (i & Hi)%list_elem_of_lookup & t' & Ha). eexists. by econstructor.
  - left. apply list.not_Exists_Forall in Hn; [|intros; apply _]. rewrite list.Forall_lookup in Ho, Hn.
    assert (forall i t, s !! i = Some t -> t = [] \/ exists l, l ∈ taken s /\ level t < rank l) as Hw.
    { intros i t Hi. apply stuck_waits; [|by eapply Ho]. apply eq_None_not_Some. by eapply Hn. }
    apply list.Forall_lookup. intros i t Hi. destruct (max_lock (taken s)) as [Ht|(l & Hl & Hm)].
    + destruct (Hw i t Hi) as [|(l & Hl & _)]; [done|]. rewrite Ht in Hl. by apply elem_of_nil in Hl.
    + exfalso. apply list_elem_of_bind in Hl as (u & Hu & (j & Hj)%list_elem_of_lookup).
      pose proof (in_order_held u l (Ho _ _ Hj) Hu). destruct (Hw j u Hj) as [->|(l' & Hl' & Hlt)]; [by apply elem_of_nil in Hu|].
      specialize (Hm l' Hl'). lia.
Qed.

End order.

(** ** Every run ends *)

Fixpoint weight (c : code) : nat :=
  match c with
  | Skip | Touch _ _ => 1
  | MLOCK _ c => 2 + weight c
  | Seq a b | Alt a b => 1 + weight a + weight b
  end.

Definition item_weight (i : item) : nat := match i with Do c => weight c | Drop _ => 1 end.
Definition total (s : list stack) : nat := sum_list_with (sum_list_with item_weight) s.

Lemma weight_pos c : 0 < weight c.
Proof. induction c; cbn; lia. Qed.

Lemma advance_weight tk first t t' : advance tk first t = Some t' -> sum_list_with item_weight t' < sum_list_with item_weight t.
Proof.
  destruct t as [|[[| |l c|a b|a b]|l] k]; cbn; [done| | | | | |];
    try (case_bool_decide; [done|]); intros [= <-]; cbn; try lia.
  pose proof (weight_pos a). pose proof (weight_pos b). destruct first; lia.
Qed.

Lemma total_insert s i t t' : s !! i = Some t ->
  total (<[i := t']> s) + sum_list_with item_weight t = total s + sum_list_with item_weight t'.
Proof. intros H. by apply sum_list_with_insert. Qed.

Lemma step_weight s s' : step s s' -> total s' < total s.
Proof. intros [i first t t' Hi Ha]. apply advance_weight in Ha. pose proof (total_insert s i t t' Hi). lia. Qed.

Lemma run_weight n s s' : nsteps step n s s' -> n + total s' <= total s.
Proof. induction 1 as [|n s s1 s' Hs _ IH]; [lia|]. apply step_weight in Hs. lia. Qed.

(** ** Fields under their lock *)

Section guards.
Context (guard : Field -> option Lock).

(** A field that has a lock is touched only under it. *)
Fixpoint careful (ls : list Lock) (c : code) : Prop :=
  match c with
  | Skip => True
  | Touch f _ => forall l, guard f = Some l -> l ∈ ls
  | MLOCK l c => careful (l :: ls) c
  | Seq a b | Alt a b => careful ls a /\ careful ls b
  end.

Fixpoint guarded (t : stack) : Prop :=
  match t with
  | [] => True
  | Do c :: k => careful (held k) c /\ guarded k
  | Drop _ :: k => guarded k
  end.

Lemma advance_guarded tk first t t' : advance tk first t = Some t' -> guarded t -> guarded t'.
Proof.
  destruct t as [|[[| |l c|a b|a b]|l] k]; cbn; [done| | | | | |]; try (case_bool_decide; [done|]);
    intros [= <-] Hg; cbn; try destruct first; naive_solver.
Qed.

Lemma run_guarded l s : Forall (careful []) l -> rtc step (start l) s -> Forall guarded s.
Proof.
  intros H Hr. assert (Forall guarded (start l)) as H0.
  { apply List.Forall_map. eapply list.Forall_impl; [exact H|]. by intros c ?. }
  induction Hr as [|s1 s2 s3 [i first t t' Hi Ha] _ IH]; [done|]. apply IH. apply list.Forall_insert; [done|].
  eapply advance_guarded; [exact Ha|]. by eapply list.Forall_lookup_1.
Qed.

Lemma guarded_no_race f m l s : guard f = Some m -> Forall (careful []) l -> rtc step (start l) s -> ~ race f s.
Proof.
  intros Hf H Hr (i & j & v & w & k & k' & Hne & Hi & Hj & _).
  pose proof (run_guarded l s H Hr) as Hg. rewrite list.Forall_lookup in Hg.
  destruct (Hg i _ Hi) as [E _], (Hg j _ Hj) as [E' _].
  apply Hne. exact (holder_unique s i j _ _ m (reach_nodup l s Hr) Hi Hj (E m Hf) (E' m Hf)).
Qed.

End guards.

(** ** Runs by a schedule: which thread steps, and how it chooses *)

Fixpoint follow (sched : list (nat * bool)) (s : list stack) : option (list stack) :=
  match sched with
  | [] => Some s
  | (i, first) :: sched => t ← s !! i; t' ← advance (taken s) first t; follow sched (<[i := t']> s)
  end.

Lemma follow_nsteps sched s s' : follow sched s = Some s' -> nsteps step (length sched) s s'.
Proof.
  revert s. induction sched as [|[i first] sched IH]; intros s H; cbn in H; [simplify_eq; constructor|].
  apply bind_Some in H as (t & Hi & (t' & Ha & H)%bind_Some). eapply nsteps_l; [|exact (IH _ H)]. by econstructor.
Qed.

Lemma follow_run sched s s' : follow sched s = Some s' -> rtc step s s'.
Proof. intros H%follow_nsteps. by eapply rtc_nsteps_2. Qed.

(** ** Waiting for ever *)

Lemma crossed_stays s s' i j t u : i <> j -> s !! i = Some t -> s !! j = Some u -> crossed t u -> rtc step s s' ->
  s' !! i = Some t /\ s' !! j = Some u.
Proof.
  intros Hne Hi Hj (l & c & k & l' & c' & k' & -> & -> & Hl & Hl') Hr.
  induction Hr as [|s1 s2 s3 [n first t t' Hn Ha] _ IH]; [done|].
  apply IH; rewrite list_lookup_insert_ne; try done; intros ->.
  - rewrite Hi in Hn. injection Hn as <-. cbn in Ha. rewrite bool_decide_eq_true_2 in Ha; [done|].
    by eapply held_taken; [exact Hj|].
  - rewrite Hj in Hn. injection Hn as <-. cbn in Ha. rewrite bool_decide_eq_true_2 in Ha; [done|].
    by eapply held_taken; [exact Hi|].
Qed.

End discipline.

(** ** Mutexes and fields of the program *)

Inductive Chain := Register | Subcluster | Ledger (alias : string).
#[export] Instance Chain_eq_dec : EqDecision Chain.
Proof. solve_decision. Defined.

Inductive Lock :=
| SignalsLock | NodeLock | ChainLock (b : Chain) | FacadeLock | ConfLock | CommLock
| TimerLock (t : nat) | MainLoopLock | ExecutorLock (e : nat) | ContainerLock | PoolLock | EnvLock.
#[export] Instance Lock_eq_dec : EqDecision Lock.
Proof. solve_decision. Defined.

(** [State]: the state of a chain with its flags and the counters of a fetch; [Inbound]:
    its queue; [Storage]: its blocks, with their cache, which a read changes
    too; [Index]: what clear_indexes empties; [Pair]: the pair a ledger waits
    for.  [HandshakeState]: the fields of the handshake handlers
    ([h0_complete], [h2_complete], the signed answer); [Call c]: those of the
    object of a call that is served ([AbstractCallData]: [done], the
    handler's context, the reply); [Buffer c]: what a subscriber reads
    into. *)
Inductive Field :=
| LastSignal | Versioneds | Handshake | HandshakeState | Sb
| State (b : Chain) | Inbound (b : Chain) | Storage (b : Chain) | Index (b : Chain) | Pair (b : Chain)
| Blockchains | Waiting | Rng | Siblings | Counter | Clients | Call (c : nat) | Buffer (c : nat)
| Listener (t : nat) | Timers | Running | Queue.
#[export] Instance Field_eq_dec : EqDecision Field.
Proof. solve_decision. Defined.

(** The lock of a field.  Some are touched without one: the storage and the
    index of a chain by other chains and by calls, the rest by the poll
    threads, the workers and the threads of the network. *)
Definition guard (f : Field) : option Lock :=
  match f with
  | LastSignal => Some SignalsLock
  | Versioneds | Handshake | Sb => Some NodeLock
  | State b | Inbound b | Pair b => Some (ChainLock b)
  | Storage _ | Index _ => None
  | Blockchains | Waiting | Rng => Some FacadeLock
  | Siblings => Some ConfLock
  | Counter => Some CommLock
  | HandshakeState | Clients | Call _ | Buffer _ => None
  | Listener t => Some (TimerLock t)
  | Timers => Some MainLoopLock
  | Running => Some ContainerLock
  | Queue => Some PoolLock
  end.

(** The order in which the locks are taken. *)
Definition lock_rank (l : Lock) : nat :=
  match l with
  | SignalsLock | NodeLock | ChainLock _ => 1
  | FacadeLock => 2
  | ConfLock | CommLock | TimerLock _ => 3
  | MainLoopLock => 4
  | ExecutorLock _ => 5
  | ContainerLock => 6
  | PoolLock => 7
  | EnvLock => 8
  end.

Abbreviation Code := (@code Lock Field).
Notation "a ∙ b" := (Seq a b) (at level 60, right associativity) : lock_scope.
#[local] Open Scope lock_scope.
Definition reads (f : Field) : Code := Touch f false.
Definition writes (f : Field) : Code := Touch f true.

(** ** Workers, timers, signals *)

Definition get_env_var : Code := MLOCK EnvLock Skip.
Definition WorkerPool_push : Code := MLOCK PoolLock (writes Queue).
Definition WorkerPool_init : Code := MLOCK PoolLock (get_env_var ∙ writes Queue).
(** A worker between two tasks. *)
Definition take_task : Code := MLOCK PoolLock (writes Queue).

Definition push_task : Code := WorkerPool_push.

Definition getExecutor : Code := MLOCK ContainerLock (writes Running).
Definition setIdle : Code := MLOCK ContainerLock (may (writes Running)).
Definition setRunning : Code := MLOCK ContainerLock (may (writes Running)).
Definition tryExecute (e : nat) : Code := MLOCK (ExecutorLock e) (may setRunning).
(** Called by the executor's own thread: it does not wait. *)
Definition waitUntilServiced (e : nat) : Code := MLOCK (ExecutorLock e) (may setIdle).
Definition createTimer : Code := MLOCK MainLoopLock (writes Timers).
Definition startTimer : Code := MLOCK MainLoopLock (writes Timers).
Definition removeTimer (e : nat) : Code := MLOCK MainLoopLock (writes Timers ∙ getExecutor) ∙ may (waitUntilServiced e).
Definition setListener (t : nat) : Code := MLOCK (TimerLock t) (writes (Listener t)).
Definition PooledTimer_start (t : nat) : Code := MLOCK (TimerLock t) startTimer.

(** [push_task] with a delay: a new timer [t] with its listener. *)
Definition push_task_after (t : nat) : Code := createTimer ∙ setListener t ∙ PooledTimer_start t.
Definition timerEvent (e : nat) : Code := push_task ∙ removeTimer e.
Definition PooledTimer_execute (t e : nat) : Code := MLOCK (TimerLock t) (reads (Listener t)) ∙ may (timerEvent e).
(** One round of an executor, and of the thread that hands timers over. *)
Definition Executor_run (t e : nat) : Code :=
  MLOCK (ExecutorLock e) Skip ∙ PooledTimer_execute t e ∙ MLOCK (ExecutorLock e) (may setIdle).
Definition mainLoop (es : list nat) : Code :=
  MLOCK MainLoopLock (seqs (map (fun e => writes Timers ∙ getExecutor ∙ tryExecute e) es)).

Definition notify : Code := MLOCK SignalsLock (writes LastSignal).
(** One round of the thread of signals. *)
Definition signals_run : Code := MLOCK SignalsLock (reads LastSignal ∙ may (writes LastSignal ∙ push_task)).

(** ** Communication, configuration *)

Definition get_poll_service : Code := writes Counter.
Definition add_client : Code := writes Clients.
(** The methods that ask another node or a topic: [require_block_data] and
    its like. *)
Definition require : Code := MLOCK CommLock (get_poll_service ∙ add_client).
(** The network has read a message of a subscriber. *)
Definition read_complete (c : nat) : Code := writes (Buffer c).
(** The end of a round of a poll service: a client that is done is erased. *)
Definition poll_erase : Code := may (writes Clients).
(** [AbstractCallData::proceed], before the task of the call is pushed, and
    the end of that task. *)
Definition proceed (c : nat) : Code := writes (Call c).
Definition write_ready (c : nat) : Code := writes (Call c).
Definition get_sibling_nodes : Code := MLOCK ConfLock (reads Siblings).

(** ** The facade of groups *)

Definition get_group_blockchain : Code := MLOCK FacadeLock (reads Blockchains).
Definition create_group_blockchain : Code := MLOCK FacadeLock (reads Blockchains ∙ may (writes Blockchains ∙ push_task)).
Definition get_random_sibling_endpoint : Code := MLOCK FacadeLock (get_sibling_nodes ∙ may (writes Rng)).
Definition exec_once_paired_transaction_done : Code :=
  get_random_sibling_endpoint ∙ may (MLOCK FacadeLock (reads Waiting ∙ may (writes Waiting)) ∙ may require).
Definition exec_once_paired_transaction_done_again : Code :=
  get_random_sibling_endpoint ∙ may (MLOCK FacadeLock (reads Waiting) ∙ may require).
(** A record of a pair, or its refusal; [t]: the timer of another try. *)
Definition Facade_on_block_record (t : nat) : Code := Alt push_task (push_task_after t).
Definition continue_init_after_group_register_done (groups : nat) : Code := times groups push_task.

(** ** Blockchains *)

Section chain.
Context (b : Chain).
Abbreviation main_lock := (ChainLock b).

(** The hooks of the children; [other] is the group a transfer comes from. *)
Definition get_fetch_endpoint : Code := match b with Subcluster => Skip | _ => get_random_sibling_endpoint end.
Definition on_blockchain_ready : Code := match b with Ledger _ => Skip | _ => may (writes (State b) ∙ push_task) end.
Definition clear_indexes : Code := writes (Index b).
Definition add_index_data : Code := writes (Storage b) ∙ may (writes (Index b)).
Definition get_latest_transaction_id : Code := writes (Storage b).

(** Of another ledger, without its lock. *)
Definition get_paired_transaction (other : string) : Code := reads (Index (Ledger other)).
Definition get_transaction (other : string) : Code := reads (Storage (Ledger other)) ∙ may (writes (Storage (Ledger other))).

(** The part of a ledger that looks for a pair: in the ledger of the other
    group, if this node keeps it; else it is asked for. *)
Definition find_pair (other : string) : Code :=
  get_group_blockchain ∙ reads (Pair b)
  ∙ Alt (writes (Pair b) ∙ exec_once_paired_transaction_done)
      (may (get_paired_transaction other ∙ may (get_transaction other))
       ∙ Alt (writes (Pair b) ∙ exec_once_paired_transaction_done) (may (writes (Index b) ∙ reads (Storage b)))).
Definition calc_fields_and_update_indexes_for (other : string) : Code :=
  match b with
  | Ledger _ => reads (Pair b) ∙ may (reads (Storage b) ∙ writes (Index b) ∙ may (find_pair other))
  | Register => writes (Index b)
  | Subcluster => may (writes (Index b) ∙ may push_task)
  end.

Definition fetch_next_block : Code := require.
Definition reset_validation (t : nat) : Code :=
  writes (State b) ∙ writes (Storage b) ∙ clear_indexes ∙ push_task_after t.
Definition validate_next_batch (t : nat) : Code :=
  reads (Storage b)
  ∙ Alt (writes (State b) ∙ add_index_data ∙ Alt on_blockchain_ready (reset_validation t))
      (writes (Storage b) ∙ may (add_index_data ∙ may (push_task ∙ writes (State b))) ∙ may (reset_validation t)).

Definition on_transaction : Code := push_task.
Definition on_block_record (t : nat) : Code :=
  MLOCK main_lock (reads (State b)
    ∙ may (Alt (reset_validation t)
             (Alt (writes (State b) ∙ clear_indexes ∙ push_task)
                (Alt (writes (State b) ∙ fetch_next_block) (may (writes (Storage b)) ∙ writes (State b)))))).
Definition on_block_checksum (t : nat) : Code :=
  MLOCK main_lock (reads (State b)
    ∙ may (Alt (writes (State b) ∙ fetch_next_block) (Alt (reset_validation t) (writes (State b))))).
Definition chain_init : Code := require.
Definition continue_validation (t : nat) : Code :=
  MLOCK main_lock (reads (State b)
    ∙ may (Alt (validate_next_batch t)
             (reads (Storage b)
              ∙ Alt (writes (State b) ∙ clear_indexes ∙ push_task)
                  (get_fetch_endpoint
                   ∙ Alt (writes (State b) ∙ require) (writes (State b) ∙ on_blockchain_ready ∙ push_task))))).

Definition transact (other : string) (t : nat) : Code :=
  writes (Inbound b)
  ∙ may (Alt (writes (Storage b) ∙ writes (State b) ∙ clear_indexes)
           (get_latest_transaction_id
            ∙ may (Alt (calc_fields_and_update_indexes_for other ∙ Alt (writes (Storage b)) (writes (Inbound b)))
                     (writes (Inbound b) ∙ reset_validation t)))).
Definition continue_with_transactions (other : string) (t batch_size : nat) : Code :=
  MLOCK main_lock (reads (State b)
    ∙ may (times batch_size (reads (Inbound b) ∙ may (transact other t)) ∙ may (reads (Inbound b) ∙ may push_task))).
Definition get_transaction_count : Code := MLOCK main_lock (reads (State b) ∙ may (reads (Storage b))).
Definition add_transaction (other : string) (t batch_size : nat) : Code :=
  MLOCK main_lock (writes (Inbound b)) ∙ continue_with_transactions other t batch_size.
Definition get_transaction2 : Code := reads (Storage b) ∙ may (writes (Storage b)).
Definition get_checksums : Code := MLOCK main_lock (writes (Storage b)).
Definition get_block_record : Code := MLOCK main_lock (reads (Storage b) ∙ may (writes (Storage b))).
Definition get_users : Code := MLOCK main_lock (reads (Index b)).
Definition get_groups : Code := MLOCK main_lock (reads (State b) ∙ may (writes (Storage b))).
Definition on_paired_transaction_done : Code := MLOCK main_lock (writes (Pair b)) ∙ push_task.

End chain.

(** The listener is called with the lock of the facade held.  (It is reached
    through the entry that was erased before, which is undefined; here it is
    taken to be the listener of that entry.) *)
Definition on_paired_transaction (a : string) : Code :=
  MLOCK FacadeLock (reads Waiting ∙ may (writes Waiting ∙ on_paired_transaction_done (Ledger a))).

Definition get_any_blockchain : Code := may get_group_blockchain.

(** ** The facade of other nodes *)

Definition start_sb : Code := reads Sb ∙ may (writes Sb ∙ writes (Index Subcluster)).
Definition NodeFacade_init : Code := MLOCK NodeLock (writes Versioneds ∙ may (Alt (writes Handshake) start_sb)).
Definition continue_init_after_handshake_done : Code := MLOCK NodeLock (writes Handshake ∙ start_sb).
Definition get_versioned : Code := MLOCK NodeLock (reads Versioneds).
Definition get_handshake_handler : Code := MLOCK NodeLock (reads Handshake).
(** [get_response_h0], [get_response_h2], [get_h3_signed_contents] of the
    handler, and what its [on_transaction] keeps. *)
Definition handshake_response : Code := writes HandshakeState.
Definition handshake_on_transaction : Code := writes HandshakeState.

(** The pool of tasks, then the pool of the communication layer with its
    services. *)
Definition AbstractFacade_init (io_workers : nat) : Code :=
  get_env_var ∙ WorkerPool_init ∙ WorkerPool_init ∙ times io_workers WorkerPool_push ∙ WorkerPool_push.

(** ** What the threads of a node run *)

(** Tasks of the workers, rounds of the other threads.  The numbers name
    timers, executors, and with [c] calls and subscribers; [other] is the
    group of a pair, [alias] that of a ledger. *)
Inductive Entry :=
| StartUp (io_workers : nat)
| TakeTask
| ReloadConfigTask
| AddPairedTask (alias : string)
| TryPairedAgainTask
| StartBlockchainTask
| GetTransactionsTask (alias : string) (batch_size : nat)
| BlockProvider (b : Chain) (c : nat)
| ChecksumProvider (c : nat)
| RpcRound (b : Chain) (c : nat)
| OutboundProvider (alias : string) (c : nat)
| ManageGroupProvider (c : nat)
| TransactionReceiver (t c : nat)
| SendHandshake
| PushTransactionsTask (b : Chain) (other : string) (t batch_size : nat)
| PushGrprTransactionsTask (other : string) (t batch_size : nat)
| ContinueTransactionsTask (b : Chain) (other : string) (t batch_size : nat)
| ContinueValidationTask (b : Chain) (t : nat)
| InitGroupBlockchain
| InitGroupRegister
| ContinueFacadeInit (groups : nat)
| TopicPoll (b : Chain) (c : nat)
| BlockPoll (b : Chain) (t c : nat)
| ChecksumPoll (b : Chain) (t c : nat)
| OutboundPoll (t c : nat)
| HandshakePoll (c : nat)
| ReadComplete (c : nat)
| TimerRound (es : list nat)
| ExecutorRound (t e : nat)
| SignalsRound
| Signal.

Definition run (e : Entry) : Code :=
  match e with
  | StartUp n => AbstractFacade_init n ∙ may (Alt NodeFacade_init push_task)
  | TakeTask => take_task
  | ReloadConfigTask => Skip
  | AddPairedTask alias => on_paired_transaction alias
  | TryPairedAgainTask => exec_once_paired_transaction_done_again
  | StartBlockchainTask => create_group_blockchain
  | GetTransactionsTask alias n => get_transaction_count (Ledger alias) ∙ times n (get_transaction2 (Ledger alias))
  | BlockProvider b c => get_any_blockchain ∙ may (get_block_record b) ∙ write_ready c
  | ChecksumProvider c => get_any_blockchain ∙ write_ready c
  | RpcRound b c =>
      proceed c
      ∙ may (Alt (may (get_any_blockchain ∙ may (get_checksums b))) (may (get_group_blockchain ∙ may (get_users b))) ∙ push_task)
  | OutboundProvider alias c =>
      get_group_blockchain ∙ may (get_paired_transaction alias ∙ may (get_block_record (Ledger alias))) ∙ write_ready c
  | ManageGroupProvider c => get_groups Register ∙ may create_group_blockchain ∙ write_ready c
  | TransactionReceiver t c =>
      get_handshake_handler ∙ may (get_versioned ∙ may handshake_response ∙ may (push_task_after t)) ∙ write_ready c
  | SendHandshake => may get_versioned ∙ require
  | PushTransactionsTask b other t n => add_transaction b other t n
  | PushGrprTransactionsTask other t n => get_versioned ∙ add_transaction Subcluster other t n
  | ContinueTransactionsTask b other t n => continue_with_transactions b other t n
  | ContinueValidationTask b t => continue_validation b t
  | InitGroupBlockchain | InitGroupRegister => chain_init ∙ push_task
  | ContinueFacadeInit n => continue_init_after_group_register_done n
  | TopicPoll b c => reads (Buffer c) ∙ on_transaction
  | BlockPoll b t c => reads (Buffer c) ∙ on_block_record b t ∙ poll_erase
  | ChecksumPoll b t c => reads (Buffer c) ∙ on_block_checksum b t ∙ poll_erase
  | OutboundPoll t c => reads (Buffer c) ∙ Facade_on_block_record t ∙ poll_erase
  | HandshakePoll c =>
      reads (Buffer c) ∙ get_versioned ∙ may handshake_on_transaction ∙ may continue_init_after_handshake_done ∙ poll_erase
  | ReadComplete c => read_complete c
  | TimerRound es => mainLoop es
  | ExecutorRound t e => Executor_run t e
  | SignalsRound => signals_run
  | Signal => notify
  end.

(** The threads, each with what it runs one after the other. *)
Definition node (threads : list (list Entry)) : list (list item) := start (map (fun l => seqs (map run l)) threads).

Definition delivers_pair (e : Entry) : bool := match e with AddPairedTask _ => true | _ => false end.

(** ** The discipline of the code *)

Lemma ordered_seqs n (l : list Code) : (forall c, c ∈ l -> ordered lock_rank n c = true) -> ordered lock_rank n (seqs l) = true.
Proof.
  induction l as [|c l IH]; intros H; [done|]. cbn. rewrite (H c) by set_solver. cbn. apply IH. set_solver.
Qed.

Lemma ordered_times n m (c : Code) : ordered lock_rank n c = true -> ordered lock_rank n (times m c) = true.
Proof. intros H. induction m as [|m IH]; [done|]. cbn. by rewrite H, IH. Qed.

Abbreviation careful_code := (careful guard).

Lemma careful_seqs ls (l : list Code) : (forall c, c ∈ l -> careful_code ls c) -> careful_code ls (seqs l).
Proof.
  induction l as [|c l IH]; intros H; [done|]. cbn. split; [by apply H; left|]. apply IH. intros d Hd. apply H. by right.
Qed.

Lemma careful_times ls m (c : Code) : careful_code ls c -> careful_code ls (times m c).
Proof. intros H. induction m as [|m IH]; [done|]. by repeat split. Qed.

Lemma run_ordered e : delivers_pair e = false -> ordered lock_rank 0 (run e) = true.
Proof.
  destruct e; intros H; try discriminate; try (by repeat match goal with b : Chain |- _ => destruct b end).
  - cbn. by rewrite ordered_times.
  - cbn. by rewrite ordered_times.
  - cbn. rewrite ordered_times; by destruct b.
  - cbn. by rewrite ordered_times.
  - cbn. rewrite ordered_times; by destruct b.
  - by apply ordered_times.
  - cbn. apply ordered_seqs. by intros c (e & -> & _)%list_elem_of_fmap.
Qed.

Ltac tidy := repeat first [apply careful_times | split | intros; set_solver].

Lemma run_careful e : careful_code [] (run e).
Proof. destruct e; try (destruct b); cbn; try done; tidy.
  apply careful_seqs. intros c (e & -> & _)%list_elem_of_fmap. cbn. tidy.
Qed.

(** ** The node *)

Lemma node_ordered threads : (forall e, e ∈ concat threads -> delivers_pair e = false) ->
  Forall (in_order lock_rank) (node threads).
Proof.
  intros H. apply start_in_order, List.Forall_map, list.Forall_forall. intros l Hl. apply ordered_seqs.
  intros c (e & -> & He)%list_elem_of_fmap. apply run_ordered, H. apply list_elem_of_In, in_concat.
  exists l. by rewrite <- !list_elem_of_In.
Qed.

(** C35: as long as no pair is delivered, the threads of a node never wait for
    each other in a circle: whatever they run and however their steps
    interleave, the number of steps is bounded and the run can only end with
    all of them done. *)
Theorem node_threads_finish threads n s :
  (forall e, e ∈ concat threads -> delivers_pair e = false) -> nsteps step n (node threads) s ->
  n <= total (node threads) /\ (all_done s \/ exists s', step s s').
Proof.
  intros H Hn. split; [apply run_weight in Hn; lia|]. apply (in_order_progress lock_rank).
  pose proof (node_ordered threads H) as Ho. clear H. induction Hn as [|n s1 s2 s3 Hs _ IH]; [done|].
  apply IH. by eapply step_in_order.
Qed.

(** C36: whatever the threads of a node run, and however their steps
    interleave, two of them never get at the same field, one to write it,
    when the field has a lock: the last signal, the versions and the
    handshake object of a node, the state, the queue and the awaited pair of
    each chain, the facade's maps and generator, the siblings, the counter
    of the poll services, the listener of each timer, the timers, the
    executors at work, and the queue of the workers. *)
Theorem node_fields_not_raced threads f l s :
  guard f = Some l -> rtc step (node threads) s -> ~ race f s.
Proof.
  intros Hf. apply (guarded_no_race guard _ l); [done|]. apply List.Forall_map, list.Forall_forall.
  intros es _. apply careful_seqs. intros c (e & -> & _)%list_elem_of_fmap. apply run_careful.
Qed.

(** The first thread makes [n] steps, then the second [m]; the first takes
    the second side of every choice but that at step 18. *)
Definition one_then_other (n m : nat) : list (nat * bool) := map (fun i => (0, i =? 18)) (seq 0 n) ++ replicate m (1, false).

(** C37: the transactions of a ledger are processed with its lock held, and one
    that needs a pair asks the facade; a pair is delivered with the lock of
    the facade held, and the listener takes the lock of the ledger.  The two
    threads can reach states in which they wait for each other for ever,
    whatever other threads there are. *)
Theorem paired_delivery_deadlocks a other t n :
  exists w d, rtc step (node [[ContinueTransactionsTask (Ledger a) other t (S n)]; [AddPairedTask a]]) [w; d]
    /\ w <> [] /\ d <> []
    /\ forall threads s, rtc step (w :: d :: threads) s -> s !! 0 = Some w /\ s !! 1 = Some d.
Proof.
  destruct (follow (one_then_other 29 8)
    (node [[ContinueTransactionsTask (Ledger a) other t (S n)]; [AddPairedTask a]])) as [[|w [|d [|]]]|] eqn:E;
    vm_compute in E; try discriminate.
  exists w, d. split; [apply (follow_run (one_then_other 29 8)); vm_compute; exact E|].
  injection E as <- <-. do 2 (split; [done|]). intros threads s.
  apply crossed_stays; [done..|]. do 6 eexists. split; [reflexivity|]. split; [reflexivity|]. split; cbn; set_solver.
Qed.

(** A request for a pair reads the index of the ledger without its lock,
    while the ledger's own thread is about to write it. *)
Theorem outbound_lookup_races a other t n c :
  exists s, rtc step (node [[ContinueTransactionsTask (Ledger a) other t (S n)]; [OutboundProvider a c]]) s
    /\ race (Index (Ledger a)) s.
Proof.
  destruct (follow (one_then_other 26 8)
    (node [[ContinueTransactionsTask (Ledger a) other t (S n)]; [OutboundProvider a c]])) as [[|w [|d [|]]]|] eqn:E;
    vm_compute in E; try discriminate.
  exists [w; d]. split; [apply (follow_run (one_then_other 26 8)); vm_compute; exact E|].
  injection E as <- <-. exists 0, 1. do 4 eexists.
  split; [lia|]. do 2 (split; [reflexivity|]). reflexivity.
Qed.

(** The end of a task of a call and the poll thread meet at the object of the
    call, without a lock; so do the network and the poll thread at the
    buffer of a subscriber, and a handler of a handshake and its listener. *)
Definition first_n (first : bool) (n m : nat) : list (nat * bool) := replicate n (0, first) ++ replicate m (1, first).

Theorem unlocked_fields_race b c :
  (exists s, rtc step (node [[BlockProvider b c]; [RpcRound b c]]) s /\ race (Call c) s)
  /\ (exists s, rtc step (node [[TopicPoll b c]; [ReadComplete c]]) s /\ race (Buffer c) s)
  /\ (exists s, rtc step (node [[TransactionReceiver 0 c]; [HandshakePoll (S c)]]) s /\ race HandshakeState s).
Proof.
  split; [|split].
  - eexists. split; [apply (follow_run (first_n true 7 2)); vm_compute; reflexivity|].
    exists 0, 1. do 4 eexists. split; [lia|]. do 2 (split; [reflexivity|]). reflexivity.
  - eexists. split; [apply (follow_run (first_n true 2 1)); vm_compute; reflexivity|].
    exists 0, 1. do 4 eexists. split; [lia|]. do 2 (split; [reflexivity|]). reflexivity.
  - eexists. split; [apply (follow_run (first_n false 13 9)); vm_compute; reflexivity|].
    exists 0, 1. do 4 eexists. split; [lia|]. do 2 (split; [reflexivity|]). reflexivity.
Qed.

(** ** The handler of a signal

    [Signal] runs [notify] on a thread of its own.  The handler can also
    interrupt the thread of signals, and runs on top of what that thread has
    left. *)
Definition interrupted (t : list (@item Lock Field)) : list item := Do notify :: t.

(** When it interrupts that thread inside its lock, it waits for its own
    thread for ever, whatever the others do. *)
Theorem interrupted_signals_thread_stuck k threads s :
  SignalsLock ∈ held (Lock := Lock) (Field := Field) k ->
  rtc step (interrupted k :: threads) s -> s !! 0 = Some (interrupted k).
Proof.
  intros Hk Hr. remember (interrupted k :: threads) as s0 eqn:E. assert (s0 !! 0 = Some (interrupted k)) as H0 by (by subst s0).
  clear E. induction Hr as [|s1 s2 s3 [n first t t' Hn Ha] _ IH]; [done|]. apply IH.
  destruct n as [|n]; [|by rewrite list_lookup_insert_ne].
  rewrite H0 in Hn. injection Hn as <-. unfold interrupted, notify in Ha. cbn in Ha.
  rewrite bool_decide_eq_true_2 in Ha; [done|]. by eapply held_taken; [exact H0|].
Qed.

(** ** Witnesses *)

Definition demo_threads : list (list Entry) :=
  [[TakeTask; ContinueTransactionsTask (Ledger "a") "b" 0 2]; [TakeTask; ContinueTransactionsTask (Ledger "b") "a" 1 2];
   [OutboundPoll 2 0]].

Definition demo_schedule : list (nat * bool) := map (fun i => (0, i =? 18)) (seq 0 24) ++ map (fun i => (1, i =? 18)) (seq 0 16).

Lemma node_threads_finish_witness : exists s,
  nsteps step 40 (node demo_threads) s /\ 40 <= total (node demo_threads) /\ (all_done s \/ exists s', step s s').
Proof.
  destruct (follow demo_schedule (node demo_threads)) as [s|] eqn:E; [|exfalso; vm_compute in E; discriminate].
  exists s. pose proof (follow_nsteps demo_schedule _ _ E) as H. split; [exact H|].
  apply (node_threads_finish demo_threads 40 s); [|exact H].
  intros e He. repeat (apply list.elem_of_cons in He as [->|He]; [reflexivity|]). inversion He.
Defined.

Lemma node_fields_not_raced_witness : exists s,
  rtc step (node demo_threads) s /\ ~ race (State (Ledger "a")) s /\ ~ race Blockchains s.
Proof.
  destruct (follow demo_schedule (node demo_threads)) as [s|] eqn:E; [|exfalso; vm_compute in E; discriminate].
  exists s. pose proof (follow_run demo_schedule _ _ E) as H. split; [exact H|].
  split; [apply (node_fields_not_raced demo_threads _ (ChainLock (Ledger "a")))|apply (node_fields_not_raced demo_threads _ FacadeLock)];
    (reflexivity || exact H).
Defined.

(** The thread of signals has taken its lock, and is about to look for a
    signal. *)
Lemma interrupted_signals_thread_stuck_witness : exists k s,
  rtc step (node [[SignalsRound]; [Signal]]) [k; s]
  /\ forall s', rtc step [interrupted k; s] s' -> s' !! 0 = Some (interrupted k).
Proof.
  do 2 eexists. split; [apply (follow_run (replicate 2 (0, true))); vm_compute; reflexivity|].
  intros s'. apply (interrupted_signals_thread_stuck _ [_]). cbn. left.
Defined.
