(* ===== verification/Nodes.v ===== *)
(** * Calls that nodes serve for each other (gradido_events.h, facades_impl.h, facades_impl.cpp)

    The kinds of nodes with the calls their handler factories know, and the
    receivers of signed transactions as handlers of [Communications]: what a
    peer gets back over the network for a handshake, a message for the log
    or a message for the ordering node. *)

From stdpp Require Import base gmap list strings.
From Stdlib Require Import ZArith Lia.
From S2P Require Import Prelude Json Handshake Communications.
Local Open Scope node_scope.
Set Default Proof Using "Type".

(** ** Kinds of nodes and their handler factories *)

Inductive Rpc :=
| subscribe_to_blocks | subscribe_to_block_checksums | manage_group | manage_node_network | get_outbound_transaction
| get_balance | get_transactions | get_creation_sum | get_users | create_node_handshake0 | create_node_handshake2
| create_ordering_node_handshake2 | submit_message | subscribe_to_blockchain | submit_log_message | ping.
#[export] Instance Rpc_eq_dec : EqDecision Rpc.
Proof. solve_decision. Defined.

(** The calls that [CommunicationLayer::init] starts, in its order. *)
Definition started_rpcs : list Rpc :=
  [subscribe_to_blocks; subscribe_to_block_checksums; manage_group; manage_node_network; get_outbound_transaction;
   get_balance; get_transactions; get_creation_sum; get_users; create_node_handshake0; create_node_handshake2;
   create_ordering_node_handshake2; submit_message; subscribe_to_blockchain; submit_log_message; ping].
Lemma every_rpc_started r : exists i, started_rpcs !! i = Some r.
Proof. apply list_elem_of_lookup_1. destruct r; repeat constructor. Qed.

Inductive Handler :=
| BlockProvider | ChecksumProvider | ManageGroupProvider | OutboundProvider | UsersProviderDeprecated
| Handshake0Receiver | Handshake2Receiver | LogMessageReceiver | SubscribeToBlockchainReceiver | OrderingMessageReceiver
| PingReceiver.

(** [HandlerFactory]s by inheritance: a class adds calls to those of its
    base. *)
Definition EmptyHandlerFactoryImpl (r : Rpc) : option Handler := None.
Definition NodeHandlerFactoryDeprecated (r : Rpc) : option Handler :=
  match r with
  | subscribe_to_blocks => Some BlockProvider
  | subscribe_to_block_checksums => Some ChecksumProvider
  | manage_group => Some ManageGroupProvider
  | get_outbound_transaction => Some OutboundProvider
  | get_users => Some UsersProviderDeprecated
  | _ => EmptyHandlerFactoryImpl r
  end.
Definition NodeFacade_HandlerFactory (r : Rpc) : option Handler :=
  match r with create_node_handshake0 => Some Handshake0Receiver | _ => EmptyHandlerFactoryImpl r end.
Definition NodeBase_HandlerFactory (r : Rpc) : option Handler :=
  match r with ping => Some PingReceiver | _ => NodeFacade_HandlerFactory r end.
Definition LoggerNode_HandlerFactory (r : Rpc) : option Handler :=
  match r with submit_log_message => Some LogMessageReceiver | _ => NodeBase_HandlerFactory r end.
Definition OrderingNode_HandlerFactory (r : Rpc) : option Handler :=
  match r with
  | subscribe_to_blockchain => Some SubscribeToBlockchainReceiver
  | submit_message => Some OrderingMessageReceiver
  | _ => NodeBase_HandlerFactory r
  end.
Definition NodeLauncher_HandlerFactory (r : Rpc) : option Handler :=
  match r with create_node_handshake2 => Some Handshake2Receiver | _ => EmptyHandlerFactoryImpl r end.

Inductive NodeKind := GradidoNodeDeprecated | LoggerNode | OrderingNode | PingerNode | NodeLauncher.
Definition get_handler_factory (k : NodeKind) : Rpc -> option Handler :=
  match k with
  | GradidoNodeDeprecated => NodeHandlerFactoryDeprecated
  | LoggerNode => LoggerNode_HandlerFactory
  | OrderingNode => OrderingNode_HandlerFactory
  | PingerNode => NodeBase_HandlerFactory
  | NodeLauncher => NodeLauncher_HandlerFactory
  end.

(** The name of a kind; [None] where the method is not overridden and throws
    [not supported]. *)
Definition get_node_type_str (k : NodeKind) : option bytes :=
  match k with
  | LoggerNode => Some (txt "LOGGER")
  | OrderingNode => Some (txt "ORDERING")
  | _ => None
  end.
Definition typed (type : bytes) (c : NodeConf) : NodeConf :=
  mkNodeConf (launch_token_is_present c) (is_sb_host c) (grpc_endpoint c) (conf_sb_ordering_node_endpoint c)
    (sb_ordering_node_pub_key c) (sb_pub_key c) type.

(** ** Receivers as handlers of a call *)

Section nodes.
Context {Timestamp SignatureMap : Type} {DEF : MessageDefaults Timestamp SignatureMap}.
Abbreviation Transaction := (Handshake.Transaction SignatureMap).
Abbreviation Node := (Handshake.Node Timestamp SignatureMap).
Abbreviation IVersioned := (Handshake.IVersioned Timestamp SignatureMap).

(** A task that fills the reply anew at every run; it keeps no context. *)
Definition answering {S} (run : N -> Transaction -> M S Transaction) : Provider S unit Transaction :=
  mkProvider (fun x => ret x) (fun x writes_done reply => let! reply := run writes_done reply in ret (reply, x)) success.

(** The factory gives a null pointer. *)
Definition no_handler {S} : Provider S unit Transaction :=
  mkHandler false (fun x => ret x) (fun x _ reply => ret (reply, x)) success.

(** Validators and translations of [IVersioned] for messages other than the
    handshake's.  [translate_log_message] is [None] where the method does not
    return; its result is ignored. *)
Context {OrderingRequest : Type} (sig_log sig_message : IVersioned -> Transaction -> bool)
  (translate_log_message : IVersioned -> Transaction -> option bytes)
  (translate_ordering : IVersioned -> Transaction -> option OrderingRequest).
Context (conf : NodeConf) (versioneds : Z -> option IVersioned).

(** A node with what it has written to its log for others. *)
Abbreviation Logging := (Node * list bytes)%type.
Definition log (s : bytes) (x : Logging) : Logging := (x.1, x.2 ++ [s]).


Definition node_run (validate_sig : IVersioned -> bool) (process : IVersioned -> bool -> Transaction -> M Logging Transaction)
    (handshake_expected : bool) (req : Transaction) (writes_done : N) : M Logging Transaction :=
  do_run (fun x => get_handshake_handler false x.1) (fun t => ret (get_versioned versioneds t))
    (fun ve => if (writes_done =? 0)%N then validate_sig ve else true) process handshake_expected req writes_done.

Definition LogMessageReceiver_run (req : Transaction) (writes_done : N) : M Logging Transaction :=
  node_run (fun ve => sig_log ve req)
    (fun ve hh reply =>
       if (writes_done =? 0)%N then
         match translate_log_message ve req with
         | Some msg => modify (log (txt "---" ++ msg)) ;;; ret (set_success true reply)
         | None => undef
         end
       else ret reply)
    false req writes_done.

Definition SubscribeToBlockchainReceiver_run (req : Transaction) (writes_done : N) : M Logging Transaction :=
  node_run (fun ve => sig_message ve req) (fun ve hh reply => ret reply) false req writes_done.

(** The answer that is made is not given. *)
Definition OrderingMessageReceiver_run (req : Transaction) (writes_done : N) : M Logging Transaction :=
  node_run (fun ve => sig_message ve req)
    (fun ve hh reply =>
       if hh then ret reply
       else match translate_ordering ve req with
            | Some _ => ret reply
            | None => modify (log (txt "cannot translate into OrderingRequest")) ;;; ret reply
            end)
    false req writes_done.

Definition PingReceiver_run (writes_done : N) (reply : Transaction) : M Logging Transaction :=
  ret (set_success (writes_done =? 0)%N reply).

(** The part of a node that its [NodeFacade] changes. *)
Definition in_node {A} (m : M Node A) : M Logging A :=
  fun x => match m x.1 with
           | Ret a n => Ret a (n, x.2)
           | Throw e n => Throw e (n, x.2)
           | Undef => Undef
           end.

(** [get_response_h0] of a node without a name. *)
Definition unnamed_response_h0 (now : Timestamp) (req : Transaction) (ve : IVersioned) : M Node Transaction :=
  match translate_h0 ve req with
  | None => throw "cannot translate h0"
  | Some h0 =>
      let! kp_pub_key := gets kp_get_pub_key in
      match prepare_h1 ve (h0_transaction_id h0) kp_pub_key with
      | None => throw "cannot prepare h1"
      | Some _ => modify (set_h3_ts now) ;;; throw "not supported"
      end
  end.

Definition Handshake0Receiver_of (k : NodeKind) (now : Timestamp) (req : Transaction) (writes_done : N) : M Node Transaction :=
  match get_node_type_str k with
  | Some type => Handshake0Receiver_run (typed type conf) versioneds now req writes_done
  | None =>
      do_run (get_handshake_handler false) (fun t => ret (get_versioned versioneds t))
        (fun ve => if (writes_done =? 0)%N then request_sig_h0 ve req else true)
        (fun ve hh reply => if hh && (writes_done =? 0)%N then unnamed_response_h0 now req ve else ret reply)
        true req writes_done
  end.

(** A call of a node whose replies are transactions. *)
Definition node_call (k : NodeKind) (r : Rpc) (now : Timestamp) (req : Transaction) : Provider Logging unit Transaction :=
  match get_handler_factory k r with
  | Some Handshake0Receiver => answering (fun w _ => in_node (Handshake0Receiver_of k now req w))
  | Some LogMessageReceiver => answering (fun w _ => LogMessageReceiver_run req w)
  | Some SubscribeToBlockchainReceiver => answering (fun w _ => SubscribeToBlockchainReceiver_run req w)
  | Some OrderingMessageReceiver => answering (fun w _ => OrderingMessageReceiver_run req w)
  | Some PingReceiver => answering PingReceiver_run
  | _ => no_handler
  end.

Definition launcher_call (versioned : IVersioned) (req : Transaction) : Provider Launcher unit Transaction :=
  answering (fun w _ => Handshake2Receiver_run versioned req w).

(** ** Calls with two answers *)

Section two.
Context {S : Type} (run : N -> Transaction -> M S Transaction) (a b : Transaction) (s s1 : S).
Context (first : forall r, run 0 r s = Ret a s1) (second : run 1 a s1 = Ret b s1).
Context (more : success a = true) (over : success b = false).

Lemma two_answers r : Server.answers (answering run) 2 None 0 r s = Some [a; b].
Proof using All.
  cbn -[N.add]. unfold bind, ret. rewrite first, more. change (0 + 1)%N with 1%N. cbn -[N.add]. by rewrite second, over.
Qed.

(** The whole call: the answers, and the state the first run leaves. *)
Lemma two_served r v :
  nsteps (Server.calm_step (answering run)) 10 (Server.Server_new r s) v ->
  Server.wire (Server.net v) = [a; b] /\ Server.state v = s1.
Proof using All.
  intros Hv. destruct (Server.served_runs (answering run) eq_refl _ _ _ _ _ (Server.served_new _ _ _ _ _ (two_answers r)) Hv)
    as [_ Hs]. pose proof (Server.served_over _ _ _ Hs) as Hw. split; [exact Hw|].
  pose (J := fun (_ : option unit) (w : N) (r' : Transaction) (s' : S) =>
    match w with 0%N => s' = s | 1%N => s' = s1 /\ r' = a | 2%N => s' = s1 | _ => True end).
  opose proof* (Server.call_invariant (answering run) J r s v) as HJ.
  - intros x w r' s0 x' s' H [= _ <-]. exact H.
  - intros x w r' s0 r2 x' s' H E. cbn in E. unfold bind in E. destruct (run w r' s0) as [? ?| |] eqn:Er; try done.
    injection E as <- _ <-. destruct w as [|[p|p|]]; cbn in H; subst; try (by rewrite first in Er; injection Er as <- <-).
    + by destruct p.
    + by destruct p.
    + destruct H as [-> ->]. rewrite second in Er. by injection Er as <- <-.
  - reflexivity.
  - by eapply Server.calm_steps.
  - destruct (Server.call v) as [c|] eqn:Ec; [|by inversion Hs; subst]. destruct HJ as [Hj Hn]. rewrite Hw in Hn. cbn in Hn. by rewrite Hn in Hj.
Qed.

Lemma two_delivered c :
  nsteps (Client.calm_step success) 10 (Client.Subscriber_new [a; b]) c -> Client.delivered c = [a; b].
Proof using more over.
  intros Hc. assert (Client.ended_stream success [a; b]) as He.
  { exists [a], b. split; [done|]. split; [by repeat constructor|done]. }
  destruct (Client.fed_runs _ _ _ _ _ _ He (Client.fed_new _ _) Hc) as [_ Hd]. by apply Client.fed_prefix in Hd as [_ Hd]; apply Hd.
Qed.
End two.

Lemma one_answer {S} (run : N -> Transaction -> M S Transaction) r b s s1 :
  run 0%N r s = Ret b s1 -> success b = false -> Server.answers (answering run) 1 None 0 r s = Some [b].
Proof using. intros H Hb. cbn. unfold bind, ret. by rewrite H, Hb. Qed.

(** ** The handshake over the network *)

Section handshake.
Context (ve : IVersioned) (LAWS : VersionedLaws ve) (Hve : versioneds 1%Z = Some ve).

Lemma signed_good t : good t -> good (sign ve t).
Proof using DEF LAWS Hve. apply (sign_good ve LAWS versioneds Hve). Qed.

Lemma signed_refusal : success (sign ve (set_success false Transaction_new)) = false.
Proof using DEF LAWS. apply vl_sign. Qed.

(** The second run of a receiver of the handshake. *)
Lemma h0_closed c now req n : good req ->
  exists b, Handshake0Receiver_run c versioneds now req 1 n = Ret b n /\ success b = false.
Proof using DEF LAWS Hve.
  intros [Hv Hs]. unfold Handshake0Receiver_run, do_run, bind, gets, ret. rewrite Hs. cbn [negb andb].
  destruct (get_handshake_handler false n); cbn [Bool.eqb negb]; [|by eexists].
  unfold get_versioned. rewrite Hv. change (i32 1) with 1%Z. rewrite Hve. cbn.
  eexists. split; [reflexivity|apply signed_refusal].
Qed.

Lemma h2_closed req l : good req ->
  exists b, Handshake2Receiver_run ve req 1 l = Ret b l /\ success b = false.
Proof using DEF LAWS.
  intros [Hv Hs]. unfold Handshake2Receiver_run, do_run, bind, gets, launcher_get_versioned, ret. rewrite Hs, Hv. cbn.
  eexists. split; [reflexivity|apply signed_refusal].
Qed.

Lemma launcher_ignores_end b f : success b = false ->
  StarterHandshakeHandler_on_transaction ve b (mkLauncher true f) = Ret tt (mkLauncher true f).
Proof using. intros H. unfold StarterHandshakeHandler_on_transaction, bind, gets. cbn. by rewrite H. Qed.

Lemma node_ignores_end c b n : h2_complete n = true -> success b = false ->
  HandshakeHandler_on_transaction c versioneds b n = Ret tt n.
Proof using. intros Hc H. unfold HandshakeHandler_on_transaction, bind, gets. by rewrite Hc, H. Qed.

(** The four messages travel in two calls.  The launcher asks with h0; its
    subscriber delivers all that the node's call answers, the end of the
    stream included; the node has prepared h2.  With it the node asks the
    launcher, and its subscriber delivers the answers of that call.  Then the
    handshake is done on both sides.  This holds under calm schedules, for a
    version of the messages that keeps [VersionedLaws]; [Versioned_1] does
    not. *)
Theorem handshake_over_network k type now0 now2 ep n x v c :
  get_node_type_str k = Some type -> waiting n ->
  nsteps (Server.calm_step (node_call k create_node_handshake0 now2 (SendH0_run ve now0 ep))) 10
    (Server.Server_new Transaction_new (n, x)) v ->
  nsteps (Client.calm_step success) 10 (Client.Subscriber_new (Server.wire (Server.net v))) c ->
  exists l1 h2,
    for_each (Client.delivered c) (StarterHandshakeHandler_on_transaction ve) Launcher_new = Ret tt l1
    /\ node_effects (Server.state v).1 = node_effects n ++ [PushSendH2 ep h2 1]
    /\ forall v2 c2,
       nsteps (Server.calm_step (launcher_call ve h2)) 10 (Server.Server_new Transaction_new l1) v2 ->
       nsteps (Client.calm_step success) 10 (Client.Subscriber_new (Server.wire (Server.net v2))) c2 ->
       exists n2 add,
         Server.state v2 = mkLauncher true true
         /\ for_each (Client.delivered c2) (HandshakeHandler_on_transaction (typed type conf) versioneds) (Server.state v).1 = Ret tt n2
         /\ did_handshake_occur n2 = true /\ prepare_add_node ve now2 type = Some add
         /\ n2 = node_done ve conf add (Server.state v).1.
Proof using DEF LAWS Hve.
  intros Hk Hw Hv Hc. destruct (h0_answered ve LAWS (typed type conf) versioneds Hve now0 now2 ep n Hw) as (h1 & t2 & E1 & G1 & T1 & G2 & T2).
  set (h0 := SendH0_run ve now0 ep) in *. set (a := sign ve (sign ve h1)) in *.
  set (n1 := emit_effect _ _) in E1.
  assert (good h0) as G0.
  { unfold h0, SendH0_run. destruct (vl_h0 now0 ep) as (t0 & -> & V0 & S0 & _). by apply signed_good. }
  destruct (h0_closed (typed type conf) now2 h0 n1 G0) as (b & Eb & Hb).
  assert (success a = true) as Ha by (by apply signed_good, signed_good).
  assert (node_call k create_node_handshake0 now2 h0
    = answering (fun w _ => in_node (Handshake0Receiver_of k now2 h0 w))) as Ec by (by destruct k).
  rewrite Ec in Hv. clear Ec.
  destruct (two_served (fun w _ => in_node (Handshake0Receiver_of k now2 h0 w)) a b (n, x) (n1, x)) with (r := Transaction_new (DEF := DEF)) (v := v)
    as [Ewire Est]; [intros r; unfold in_node, Handshake0Receiver_of; rewrite Hk; cbn [fst snd]; by rewrite E1
    |unfold in_node, Handshake0Receiver_of; rewrite Hk; cbn [fst snd]; by rewrite Eb|done|done|exact Hv|].
  rewrite Ewire in Hc. apply two_delivered in Hc; [|done|done].
  exists (mkLauncher true false), (sign ve t2). rewrite Hc, Est. cbn [for_each fst].
  rewrite (bind_Ret _ _ _ _ _ (h1_accepted ve LAWS versioneds Hve h1 G1 T1)), (bind_Ret _ _ _ _ _ (launcher_ignores_end b false Hb)).
  split; [reflexivity|]. split; [reflexivity|]. intros v2 c2 Hv2 Hc2.
  destruct (h2_answered ve LAWS versioneds Hve t2 now2 _ _ G2 T2) as (add & h3 & body & Ea & E2 & G3 & T3 & Tb).
  destruct (h2_closed (sign ve t2) (mkLauncher true true)) as (b2 & Eb2 & Hb2); [by apply signed_good|].
  destruct (two_served (fun w _ => Handshake2Receiver_run ve (sign ve t2) w) (sign ve (sign ve h3)) b2 (mkLauncher true false)
    (mkLauncher true true)) with (r := Transaction_new (DEF := DEF)) (v := v2) as [Ewire2 Est2]; [done|done|by apply signed_good, signed_good|done|exact Hv2|].
  rewrite Ewire2 in Hc2. apply two_delivered in Hc2; [|by apply signed_good, signed_good|done].
  destruct Hw as (Ho & Hcm & Hs & _).
  exists (node_done ve conf add n1), add. change (node_done ve conf add n1) with (node_done ve (typed type conf) add n1). rewrite Hc2, Est2. cbn [for_each].
  rewrite (bind_Ret _ _ _ _ _ (h3_accepted ve LAWS (typed type conf) versioneds Hve h3 now2 body add n1 Hcm Hs G3 T3 Tb)).
  rewrite (bind_Ret _ _ _ _ _ (node_ignores_end (typed type conf) b2 (node_done ve (typed type conf) add n1) ltac:(unfold node_done; by destruct (is_sb_host _)) Hb2)).
  split; [done|]. split; [done|]. split; [unfold did_handshake_occur, node_done; by destruct (is_sb_host _)|]. by split.
Qed.

End handshake.

(** ** Other messages *)

Section messages.
Context (ve : IVersioned) (LAWS : VersionedLaws ve) (Hve : versioneds 1%Z = Some ve).

(** A message for the log of a node that is past its handshake is written
    to it once and acknowledged once, with the end of the stream after it. *)
Theorem log_message_acknowledged now req msg n x r v :
  handshake_ongoing n = false -> good req -> sig_log ve req = true -> translate_log_message ve req = Some msg ->
  nsteps (Server.calm_step (node_call LoggerNode submit_log_message now req)) 10 (Server.Server_new r (n, x)) v ->
  exists a b, Server.wire (Server.net v) = [a; b] /\ success a = true /\ success b = false
    /\ Server.state v = (n, x ++ [txt "---" ++ msg]).
Proof using DEF LAWS Hve.
  intros Ho [Hv Hs] Hsig Ht Hr. set (a := sign ve (set_success true (set_success false Transaction_new))).
  set (b := sign ve (set_success false Transaction_new)). exists a, b.
  assert (get_versioned versioneds req = Some ve) as Hg by (unfold get_versioned; by rewrite Hv).
  assert (success a = true) as H1 by apply vl_sign. pose proof (signed_refusal ve LAWS : success b = false) as H2.
  destruct (two_served (fun w _ => LogMessageReceiver_run req w) a b (n, x) (n, x ++ [txt "---" ++ msg]))
    with (r := r) (v := v) as [E1 E2]; [| |exact H1|exact H2|exact Hr|by split].
  - intros _. unfold LogMessageReceiver_run, node_run, do_run, bind, gets, ret, get_handshake_handler, modify.
    rewrite Hs. cbn -[txt]. rewrite Ho, Hg. cbn -[txt]. rewrite Hsig. cbn -[txt]. by rewrite Ht.
  - unfold LogMessageReceiver_run, node_run, do_run, bind, gets, ret, get_handshake_handler, modify.
    rewrite Hs. cbn -[txt]. by rewrite Ho, Hg.
Qed.

(** A node of a kind without a name ends when it is asked with h0: the task
    throws. *)
Theorem pinger_cannot_be_launched now0 now2 ep n :
  waiting n -> Handshake0Receiver_of PingerNode now2 (SendH0_run ve now0 ep) 0 n = Throw "not supported" (set_h3_ts now2 n).
Proof using DEF LAWS Hve.
  intros (Ho & _). destruct (vl_h0 now0 ep) as (t0 & E0 & V0 & S0 & T0).
  destruct (vl_h1 now0 (kp_get_pub_key n)) as (t1 & E1 & _).
  assert (good (sign ve t0)) as [Hv Hs] by (by apply signed_good).
  unfold Handshake0Receiver_of, SendH0_run, do_run, bind, gets, ret, get_handshake_handler, get_versioned. cbn [get_node_type_str].
  rewrite E0. cbn [default from_option id]. unfold id. rewrite Hs. cbn -[i32]. rewrite Ho, Hv. change (i32 1) with 1%Z. rewrite Hve. cbn.
  destruct (vl_sigs t0) as (-> & _). cbn. unfold unnamed_response_h0, bind, gets, modify.
  rewrite (T0 _ (proj2 (proj2 (vl_sign t0)))). cbn. by rewrite E1.
Qed.

End messages.

(** Calls that no node serves get no answer at all, not even an end. *)
Theorem unserved_rpc_hangs k r now req t s j v :
  r ∈ [manage_node_network; get_balance; get_transactions; get_creation_sum; create_ordering_node_handshake2] ->
  nsteps (Server.step (node_call k r now req)) j (Server.Server_new t s) v ->
  Server.wire (Server.net v) = [] /\ Server.ended (Server.net v) = false /\ (j = 2%nat -> forall v', ~ Server.step (node_call k r now req) v v').
Proof.
  intros Hr Hv. assert (node_call k r now req = no_handler) as E.
  { repeat (apply list.elem_of_cons in Hr as [->|Hr]; [by destruct k|]). by apply list.elem_of_nil in Hr. }
  rewrite E in *. destruct (Server.unserved_call_hangs no_handler t s j v eq_refl Hv) as (H1 & H2 & _ & _ & H3). done.
Qed.

(** What an ordering node is asked, to take a message or to subscribe, is
    answered without success whatever the message and the state: the answer
    that the receiver makes is dropped. *)
Theorem ordering_never_acknowledges r now req t s j v :
  r = submit_message \/ r = subscribe_to_blockchain ->
  (forall z ve, versioneds z = Some ve -> forall x, success (sign ve x) = success x) ->
  nsteps (Server.calm_step (node_call OrderingNode r now req)) j (Server.Server_new t s) v ->
  Forall (fun x => success x = false) (Server.wire (Server.net v)).
Proof.
  intros Hr Hsign Hv.
  assert (p_handler (node_call OrderingNode r now req) = true) as Hp by (by destruct Hr as [-> | ->]).
  assert (exists b, Server.answers (node_call OrderingNode r now req) 1 None 0 t s = Some [b] /\ success b = false) as (b & Ha & Hb).
  { assert (forall process, (forall ve hh x y, exists x' y', process ve hh x y = Ret x' y' /\ success x' = success x) ->
      exists b s1, node_run (fun ve => sig_message ve req) process false req 0 s = Ret b s1 /\ success b = false) as Hrun.
    { intros process Hproc. unfold node_run, do_run, bind, gets, ret.
      destruct (negb (success req) && _); [by repeat eexists|]. destruct (negb _); [by repeat eexists|].
      destruct (get_versioned versioneds req) as [ve|] eqn:Eve; [|by repeat eexists].
      destruct (negb _ && _); [do 2 eexists; split; [reflexivity|by rewrite (Hsign _ _ Eve)]|].
      destruct (Hproc ve (get_handshake_handler false s.1) (set_success false Transaction_new) s) as (x' & y' & -> & Hx).
      do 2 eexists. split; [reflexivity|]. by rewrite (Hsign _ _ Eve), Hx. }
    destruct Hr as [-> | ->].
    - destruct (Hrun (fun ve hh reply => if hh then ret reply else match translate_ordering ve req with
        | Some _ => ret reply
        | None => modify (log (txt "cannot translate into OrderingRequest")) ;;; ret reply end)) as (b & s1 & E & Hb);
        [|exists b; split; [exact (one_answer _ _ _ _ _ E Hb)|done]].
      intros ve [] x y; [by repeat eexists|]. destruct (translate_ordering ve req); by repeat eexists.
    - destruct (Hrun (fun ve hh reply => ret reply)) as (b & s1 & E & Hb); [by repeat eexists|].
      exists b. split; [exact (one_answer _ _ _ _ _ E Hb)|done]. }
  destruct (Server.served_runs _ Hp _ _ _ _ _ (Server.served_new _ _ _ _ _ Ha) Hv) as [_ Hs].
  destruct (Server.served_prefix _ _ _ _ Hs) as [_ Hpre]. destruct Hpre as [rest E].
  destruct (Server.wire (Server.net v)) as [|y [|z l]]; [constructor| |by destruct l]. injection E as <- _. by repeat constructor.
Qed.

End nodes.

(** ** Witnesses *)

#[local] Existing Instances demo_defaults demo_protobuf demo_laws.

Abbreviation demo_tx := (Transaction (list Z)).
Abbreviation demo_ve := (IVersioned Z (list Z)).
Definition demo_sig (ve : demo_ve) (t : demo_tx) : bool := bool_decide (sigMap t <> []).
Definition demo_log (ve : demo_ve) (t : demo_tx) : option bytes := Some (body_bytes t).
Definition demo_order (ve : demo_ve) (t : demo_tx) : option bytes := if decide (body_bytes t = []) then None else Some (body_bytes t).
Definition demo_nodes := demo_versioneds demo_versioned.
Definition demo_node_call := node_call demo_sig demo_sig demo_log demo_order (demo_conf false) demo_nodes.

(** The node is asked with h0, the launcher with h2. *)
Definition demo_h0_call := demo_node_call OrderingNode create_node_handshake0 6%Z (SendH0_run demo_versioned 5%Z [9%Z]).
Definition demo_h0_new : Server.Server := Server.Server_new (C := unit) Transaction_new (demo_waiting, @nil bytes).
Definition demo_h0_served := default demo_h0_new (server_runs demo_h0_call 10 demo_h0_new).
Definition demo_h0_asked : Client.Subscriber := Client.Subscriber_new (Server.wire (Server.net demo_h0_served)).
Definition demo_h0_fed := default demo_h0_asked (client_runs success 10 demo_h0_asked).

Definition demo_h2_call := launcher_call demo_versioned (sign demo_versioned
  (default Transaction_new (prepare_h2 demo_versioned 6%Z (txt "ORDERING") [12%Z]))).
Definition demo_h2_new : Server.Server := Server.Server_new (C := unit) Transaction_new (mkLauncher true false).
Definition demo_h2_served := default demo_h2_new (server_runs demo_h2_call 10 demo_h2_new).

Lemma demo_h0_runs : nsteps (Server.calm_step demo_h0_call) 10 demo_h0_new demo_h0_served.
Proof. apply server_runs_calm, some_default. vm_compute. reflexivity. Qed.
Lemma demo_h0_feeds : nsteps (Client.calm_step success) 10 demo_h0_asked demo_h0_fed.
Proof. apply client_runs_calm, some_default. vm_compute. reflexivity. Qed.
Lemma demo_h2_runs : nsteps (Server.calm_step demo_h2_call) 10 demo_h2_new demo_h2_served.
Proof. apply server_runs_calm, some_default. vm_compute. reflexivity. Qed.

Lemma handshake_over_network_witness :
  waiting demo_waiting /\ nsteps (Server.calm_step demo_h0_call) 10 demo_h0_new demo_h0_served
  /\ exists l1 h2,
    for_each (Client.delivered demo_h0_fed) (StarterHandshakeHandler_on_transaction demo_versioned) Launcher_new = Ret tt l1
    /\ node_effects (Server.state demo_h0_served).1 = [PushSendH2 [9%Z] h2 1].
Proof.
  split; [apply demo_waits|]. split; [exact demo_h0_runs|].
  destruct (handshake_over_network demo_sig demo_sig demo_log demo_order (demo_conf false) demo_nodes demo_versioned demo_laws
    eq_refl OrderingNode (txt "ORDERING") 5%Z 6%Z [9%Z] demo_waiting [] demo_h0_served demo_h0_fed eq_refl demo_waits
    demo_h0_runs demo_h0_feeds) as (l1 & h2 & H1 & H2 & _).
  exists l1, h2. split; [exact H1|exact H2].
Defined.

(** A signed message of two bytes for the log and for the ordering node. *)
Definition demo_message : demo_tx := mkTransaction 1 (txt "hi") true [7%Z].
Definition demo_quiet : Node Z (list Z) := Node_new (Some ([11%Z], [12%Z])).
Definition demo_log_call := demo_node_call LoggerNode submit_log_message 6%Z demo_message.
Definition demo_log_new : Server.Server := Server.Server_new (C := unit) Transaction_new (demo_quiet, @nil bytes).
Definition demo_log_served := default demo_log_new (server_runs demo_log_call 10 demo_log_new).
Lemma demo_log_runs : nsteps (Server.calm_step demo_log_call) 10 demo_log_new demo_log_served.
Proof. apply server_runs_calm, some_default. vm_compute. reflexivity. Qed.

Lemma log_message_acknowledged_witness :
  nsteps (Server.calm_step demo_log_call) 10 demo_log_new demo_log_served
  /\ Server.state demo_log_served = (demo_quiet, [txt "---hi"]).
Proof.
  split; [exact demo_log_runs|].
  destruct (log_message_acknowledged demo_sig demo_sig demo_log demo_order (demo_conf false) demo_nodes demo_versioned demo_laws
    eq_refl 6%Z demo_message (txt "hi") demo_quiet [] Transaction_new demo_log_served eq_refl (conj eq_refl eq_refl) eq_refl eq_refl
    demo_log_runs) as (a & b & _ & _ & _ & H). exact H.
Defined.

Definition demo_order_call := demo_node_call OrderingNode submit_message 6%Z demo_message.
Definition demo_order_served := default demo_log_new (server_runs demo_order_call 6 demo_log_new).
Lemma demo_order_runs : nsteps (Server.calm_step demo_order_call) 6 demo_log_new demo_order_served.
Proof. apply server_runs_calm, some_default. vm_compute. reflexivity. Qed.

Lemma ordering_never_acknowledges_witness :
  length (Server.wire (Server.net demo_order_served)) = 1%nat
  /\ Forall (fun x => success x = false) (Server.wire (Server.net demo_order_served)).
Proof.
  split; [vm_compute; reflexivity|].
  apply (ordering_never_acknowledges demo_sig demo_sig demo_log demo_order (demo_conf false) demo_nodes submit_message 6%Z demo_message
    Transaction_new (demo_quiet, []) 6 demo_order_served); [by left| |exact demo_order_runs].
  intros z ve. unfold demo_nodes, demo_versioneds. destruct (z =? 1)%Z; [|done]. by intros [= <-] x.
Defined.

(** The call is polled, and then nothing is left to do. *)
Definition demo_hang_call := demo_node_call OrderingNode get_balance 6%Z demo_message.
Definition demo_hanging := default demo_log_new (server_runs demo_hang_call 2 demo_log_new).
Lemma demo_hang_runs : nsteps (Server.step demo_hang_call) 2 demo_log_new demo_hanging.
Proof. apply Server.calm_nsteps, server_runs_calm, some_default. vm_compute. reflexivity. Qed.

Lemma unserved_rpc_hangs_witness :
  Server.wire (Server.net demo_hanging) = [] /\ forall v', ~ Server.step demo_hang_call demo_hanging v'.
Proof.
  destruct (unserved_rpc_hangs demo_sig demo_sig demo_log demo_order (demo_conf false) demo_nodes OrderingNode get_balance 6%Z
    demo_message Transaction_new (demo_quiet, []) 2 demo_hanging) as (H1 & _ & H2); [by repeat constructor|exact demo_hang_runs|].
  split; [exact H1|]. apply H2. reflexivity.
Defined.

Lemma pinger_cannot_be_launched_witness :
  waiting demo_waiting
  /\ Handshake0Receiver_of (demo_conf false) demo_nodes PingerNode 6%Z (SendH0_run demo_versioned 5%Z [9%Z]) 0 demo_waiting
    = Throw "not supported" (set_h3_ts 6%Z demo_waiting).
Proof.
  split; [apply demo_waits|].
  apply (pinger_cannot_be_launched (demo_conf false) demo_nodes demo_versioned demo_laws eq_refl). apply demo_waits.
Defined.
