(* ===== verification/Startup.v ===== *)
(** * Starting and restarting a node (config.cpp, facades_impl.cpp, main_def.h)

    The main program of every kind of node, from the files of its folder to
    running threads or an exit code: the launch token that is used up, the key
    pair that is made and stored, the property file and the values a kind
    takes from it, the worker pools and servers, the subcluster blockchain or
    the group register.  Each change of the folder is kept ([c_disk]), so that
    the theorems can speak of a process that is killed between two of them
    and of all later starts.

    Poco's property files are the class [PropertyFiles]; whether an address
    can be listened on is the class [Platform]; the keys come from
    [create_kp_identity]. *)

From stdpp Require Import base gmap list strings.
From Stdlib Require Import ZArith Lia Decimal DecimalN.
From S2P Require Import Prelude GradidoDef CoreUtils GroupRegister Config Json Programs Handshake Nodes.
Local Open Scope Z_scope.
Local Open Scope node_scope.
Set Default Proof Using "Type".

(** [load]: the contents of a file, [None] when it is refused; [getString]:
    the value of a key, [None] when there is none; [parse_int]: the number a
    value is read as by [getInt]. *)
Class PropertyFiles := {
  Props : Type;
  load : bytes -> option Props;
  getString : Props -> bytes -> option bytes;
  parse_int : bytes -> option Z }.

Class Platform := { grpc_starts : bytes -> bool; port_free : Z -> bool }.

(** The folder a process is started in. *)
Record Folder := mkFolder
  { fo_token : option bytes; fo_conf : option bytes; fo_priv : option bytes; fo_pub : option bytes;
    fo_siblings : bytes; fo_dirs : list bytes }.

(** Poco's exceptions, for which [main] has a handler of its own. *)
Definition poco_exception (e : string) : bool :=
  bool_decide (e = "missing item" \/ e = "bad number" \/ e = "null pointer" \/ e = "address in use").

Section startup.
Context {PF : PropertyFiles}.

(** ** Configuration objects

    Of all kinds in one record: [c_lt], [c_fc] are the property files of
    [LaunchToken] and [FileConfig], [c_kp] is [KpIdentity], [c_groups] and
    [c_topic] belong to [GradidoNodeConfigDeprecated], [c_launcher] are the
    endpoints of [NodeLauncherConfig]. *)
Record Cfg := mkCfg
  { c_token : option bytes; c_conf : option bytes; c_kp : Kp; c_groups : Conf;
    c_lt : option Props; c_fc : option Props; c_topic : HederaTopicID; c_launcher : bytes * bytes;
    c_disk : list Folder }.

Definition Cfg_new (f : Folder) : Cfg :=
  mkCfg (fo_token f) (fo_conf f) (mkKp false [] [] (fo_priv f) (fo_pub f)) (mkConf [] [] (fo_siblings f) (fo_dirs f))
    None None (mkHederaTopicID 0 0 0) ([], []) [].
Definition folder_of (c : Cfg) : Folder :=
  mkFolder (c_token c) (c_conf c) (kp_priv_file (c_kp c)) (kp_pub_file (c_kp c))
    (conf_sibling_file (c_groups c)) (conf_dirs (c_groups c)).

Definition set_c_token v c :=
  mkCfg v (c_conf c) (c_kp c) (c_groups c) (c_lt c) (c_fc c) (c_topic c) (c_launcher c) (c_disk c).
Definition set_c_kp v c :=
  mkCfg (c_token c) (c_conf c) v (c_groups c) (c_lt c) (c_fc c) (c_topic c) (c_launcher c) (c_disk c).
Definition set_c_groups v c :=
  mkCfg (c_token c) (c_conf c) (c_kp c) v (c_lt c) (c_fc c) (c_topic c) (c_launcher c) (c_disk c).
Definition set_c_lt v c :=
  mkCfg (c_token c) (c_conf c) (c_kp c) (c_groups c) v (c_fc c) (c_topic c) (c_launcher c) (c_disk c).
Definition set_c_fc v c :=
  mkCfg (c_token c) (c_conf c) (c_kp c) (c_groups c) (c_lt c) v (c_topic c) (c_launcher c) (c_disk c).
Definition set_c_topic v c :=
  mkCfg (c_token c) (c_conf c) (c_kp c) (c_groups c) (c_lt c) (c_fc c) v (c_launcher c) (c_disk c).
Definition set_c_launcher v c :=
  mkCfg (c_token c) (c_conf c) (c_kp c) (c_groups c) (c_lt c) (c_fc c) (c_topic c) v (c_disk c).
Definition saved (l : list Folder) c :=
  mkCfg (c_token c) (c_conf c) (c_kp c) (c_groups c) (c_lt c) (c_fc c) (c_topic c) (c_launcher c) (c_disk c ++ l).

Definition in_kp {A} (m : M Kp A) : M Cfg A := zoom c_kp set_c_kp m.

(** The token is removed as soon as it was read. *)
Definition LaunchToken_init : M Cfg unit :=
  let! f := gets c_token in
  match f with
  | None => ret tt
  | Some text =>
      match load text with
      | None => throw "Couldn't open launch token file"
      | Some pfc =>
          modify (set_c_token None) ;;;
          modify (fun c => saved [folder_of c] c) ;;;
          modify (set_c_lt (Some pfc))
      end
  end.
Definition launch_token_is_present (c : Cfg) : bool := bool_decide (is_Some (c_lt c)).

Definition FileConfig_init : M Cfg unit :=
  let! f := gets c_conf in
  match f ≫= load with
  | None => throw "Couldn't open configuration file"
  | Some pfc => modify (set_c_fc (Some pfc))
  end.

(** [SAFE_GET_CONF_ITEM]; a null [AutoPtr] throws. *)
Definition fc_string (key : string) : M Cfg bytes :=
  let! fc := gets c_fc in
  match fc with
  | None => throw "null pointer"
  | Some pfc => match getString pfc (txt key) with Some v => ret v | None => throw "missing item" end
  end.
Definition fc_int (key : string) : M Cfg Z :=
  let! v := fc_string key in
  match parse_int v with Some z => ret z | None => throw "bad number" end.
Definition get_is_sb_host : M Cfg bool := let! z := fc_int "is_sb_host" in ret (negb (z =? 0)).

Definition AbstractNodeConfig_init : M Cfg unit := LaunchToken_init ;;; in_kp kp_init ;;; FileConfig_init.

(** One key file is created, then filled. *)
Definition save_key (key : bytes) (file : Kp -> option bytes) (write : bytes -> Kp -> Kp) : M Cfg unit :=
  let! k := gets c_kp in
  in_kp (save_key_to_file key file write) ;;;
  modify (fun c => saved [folder_of (set_c_kp (write [] k) c); folder_of c] c).
Definition store_kp (pr pu : bytes) : M Cfg unit :=
  save_key pr kp_priv_file set_priv_file ;;;
  save_key pu kp_pub_file set_pub_file ;;;
  in_kp (modify (set_priv pr) ;;; modify (set_pub pu) ;;; modify (set_present true)).

(** [sscanf] with "%ld": the number and the rest of the text. *)
Inductive Scanned := Eof | NoMatch | Scan (z : option Z) (rest : bytes).
Definition is_space (c : Z) : bool := ((9 <=? c) && (c <=? 13)) || (c =? 32).
Definition in_long (z : Z) : option Z := if (- 2 ^ 63 <=? z) && (z <? 2 ^ 63) then Some z else None.
Definition scan_digits (sign : Z) (s : bytes) : Scanned :=
  match span is_digit s with
  | ([], _) => NoMatch
  | (d, r) => Scan (d' ← text_uint d; in_long (sign * Z.of_N (N.of_uint d'))) r
  end.
Definition scan_ld (s : bytes) : Scanned :=
  match (span is_space s).2 with
  | [] => Eof
  | c :: s' => if c =? 45 then scan_digits (-1) s' else if c =? 43 then scan_digits 1 s' else scan_digits 1 (c :: s')
  end.
(** The next part, after a dot; what is not read stays zero. *)
Definition scan_next (r : bytes) : Scanned :=
  match r with c :: r' => if c =? DOT then scan_ld r' else NoMatch | [] => NoMatch end.
Definition scanned_topic (sc : Scanned) : M Cfg HederaTopicID :=
  match sc with
  | Eof => throw "config: bad group register topic id"
  | NoMatch => ret (mkHederaTopicID 0 0 0)
  | Scan a r =>
      let! a := of_option a in
      match scan_next r with
      | Scan b r =>
          let! b := of_option b in
          match scan_next r with
          | Scan n _ => let! n := of_option n in ret (mkHederaTopicID a b n)
          | _ => ret (mkHederaTopicID a b 0)
          end
      | _ => ret (mkHederaTopicID a 0 0)
      end
  end.
Definition scan_topic_id (s : bytes) : M Cfg HederaTopicID := scanned_topic (scan_ld s).

(** What goes wrong in these two, a missing item included, is thrown anew. *)
Definition rethrow {S A} (msg : string) (m : M S A) : M S A :=
  fun s => match m s with Throw _ s' => Throw msg s' | r => r end.

Definition GradidoNodeConfigDeprecated_init : M Cfg unit :=
  FileConfig_init ;;;
  let! grti := fc_string "group_register_topic_id" in
  let! t := scan_topic_id grti in
  modify (set_c_topic t) ;;;
  rethrow "Couldn't open sibling file" (fc_string "sibling_node_file" ;;; zoom c_groups set_c_groups reload_sibling_file) ;;;
  rethrow "Couldn't init blockchain groups" (fc_string "data_root_folder" ;;; zoom c_groups set_c_groups reload_group_infos).

Definition NodeLauncherConfig_init (params : list bytes) : M Cfg unit :=
  zoom (fun c => Config.mkLauncher (c_kp c) (c_launcher c).1 (c_launcher c).2)
    (fun l c => set_c_launcher (nl_own_endpoint l, nl_endpoint l) (set_c_kp (nl_kp l) c))
    (launcher_init params).

(** What a kind of node takes from the file, and what it fixes itself. *)
Definition config_init (k : NodeKind) (params : list bytes) : M Cfg unit :=
  match k with
  | GradidoNodeDeprecated => GradidoNodeConfigDeprecated_init
  | NodeLauncher => NodeLauncherConfig_init params
  | _ => AbstractNodeConfig_init
  end.
Definition get_worker_count (k : NodeKind) : M Cfg Z :=
  match k with LoggerNode | OrderingNode | NodeLauncher => ret 1 | _ => fc_int "worker_count" end.
Definition get_io_worker_count (k : NodeKind) : M Cfg Z :=
  match k with LoggerNode | OrderingNode | NodeLauncher => ret 1 | _ => fc_int "io_worker_count" end.
Definition get_grpc_endpoint (k : NodeKind) : M Cfg bytes :=
  match k with NodeLauncher => gets (fun c => (c_launcher c).1) | _ => fc_string "grpc_endpoint" end.
Definition get_json_rpc_port (k : NodeKind) : M Cfg Z :=
  match k with GradidoNodeDeprecated => fc_int "json_rpc_port" | _ => ret 0 end.

(** ** The facade *)

(** What was started, in order; a pool of a number below one has no thread. *)
Inductive Started :=
| WorkerThreads (n : Z)
| CommThreads (n : Z)
| Serving (endpoint : bytes)
| JsonRpcServing (port : Z)
| Subcluster (sb_key endpoint ordering_key root : bytes)
| Register (root : bytes) (topic : HederaTopicID)
| PushedInitGroupRegister
| PushedSendH0 (endpoint : bytes).

Record Process := mkProcess
  { p_cfg : Cfg; p_workers : Z; p_handshake_ongoing : bool; p_sb : bool; p_started : list Started }.
Definition Process_new (f : Folder) : Process := mkProcess (Cfg_new f) 0 false false [].
Definition set_p_cfg v p := mkProcess v (p_workers p) (p_handshake_ongoing p) (p_sb p) (p_started p).
Definition set_p_workers v p := mkProcess (p_cfg p) v (p_handshake_ongoing p) (p_sb p) (p_started p).
Definition set_p_ongoing v p := mkProcess (p_cfg p) (p_workers p) v (p_sb p) (p_started p).
Definition set_p_sb v p := mkProcess (p_cfg p) (p_workers p) (p_handshake_ongoing p) v (p_started p).
Definition start (e : Started) p :=
  mkProcess (p_cfg p) (p_workers p) (p_handshake_ongoing p) (p_sb p) (p_started p ++ [e]).
Definition in_cfg {A} (m : M Cfg A) : M Process A := zoom p_cfg set_p_cfg m.

Context {PL : Platform}.

(** One thread more for the calls from other nodes; the server object is used
    unchecked; a port is cut to 16 bits. *)
Definition CommunicationLayer_init (worker_count : Z) (rpcs_endpoint : bytes) (json_rpc_port : Z) : M Process unit :=
  modify (start (CommThreads (worker_count + 1))) ;;;
  (if grpc_starts rpcs_endpoint then modify (start (Serving rpcs_endpoint)) else undef) ;;;
  if json_rpc_port =? 0 then ret tt
  else if port_free (uwrap 16 json_rpc_port) then modify (start (JsonRpcServing (uwrap 16 json_rpc_port)))
  else throw "address in use".

(** [AbstractFacade::init]: the configuration, then pools and servers. *)
Definition start_servers (k : NodeKind) : M Process unit :=
  let! n := in_cfg (get_worker_count k) in
  modify (set_p_workers n) ;;;
  modify (start (WorkerThreads n)) ;;;
  let! io := in_cfg (get_io_worker_count k) in
  let! endpoint := in_cfg (get_grpc_endpoint k) in
  let! port := in_cfg (get_json_rpc_port k) in
  CommunicationLayer_init io endpoint port.
Definition AbstractFacade_init (k : NodeKind) (params : list bytes) : M Process unit :=
  in_cfg (config_init k params) ;;; start_servers k.

(** [start_sb]; [k]: the kind whose configuration is asked. *)
Definition start_subcluster (k : NodeKind) : M Process unit :=
  let! sb := gets p_sb in
  if sb then ret tt
  else
    let! root := in_cfg (fc_string "data_root_folder") in
    let! host := in_cfg get_is_sb_host in
    let! sb_key := in_cfg (fc_string "sb_pub_key") in
    (if (host : bool) then
       let! endpoint := in_cfg (get_grpc_endpoint k) in
       let! key := gets (fun p => kp_pub (c_kp (p_cfg p))) in
       modify (start (Subcluster sb_key endpoint key root))
     else
       let! endpoint := in_cfg (fc_string "sb_ordering_node_endpoint") in
       let! key := in_cfg (fc_string "sb_ordering_node_pub_key") in
       modify (start (Subcluster sb_key endpoint key root))) ;;;
    modify (set_p_sb true).

(** [created]: the result of [create_kp_identity]. *)
Definition NodeFacade_start (k : NodeKind) (created : option (bytes * bytes)) : M Process unit :=
  let! token := gets (fun p => launch_token_is_present (p_cfg p)) in
  let! has := gets (fun p => kp_present (c_kp (p_cfg p))) in
  if (token : bool) then
    if (has : bool) then throw "key pair identity already exists; delete both key files manually and redeploy launch token"
    else
      match created with
      | None => throw "cannot create kp identity"
      | Some (pr, pu) => in_cfg (store_kp pr pu) ;;; modify (set_p_ongoing true)
      end
  else
    if has then start_subcluster k else throw "no identity; provide launch token".

Definition GroupRegisterFacade_init : M Process unit :=
  let! root := in_cfg (fc_string "data_root_folder") in
  let! topic := gets (fun p => c_topic (p_cfg p)) in
  modify (start (Register root topic)) ;;;
  modify (start PushedInitGroupRegister).

(** [init] of the facades: of all nodes that take a token, of the gradido
    node and of the launcher. *)
Definition NodeBase_init (k : NodeKind) (params : list bytes) (created : option (bytes * bytes)) : M Process unit :=
  AbstractFacade_init k params ;;; NodeFacade_start k created.
Definition GradidoNodeDeprecated_init (params : list bytes) : M Process unit :=
  AbstractFacade_init GradidoNodeDeprecated params ;;; GroupRegisterFacade_init.
Definition NodeLauncher_init (params : list bytes) : M Process unit :=
  AbstractFacade_init NodeLauncher params ;;;
  let! e := gets (fun p => (c_launcher (p_cfg p)).2) in
  modify (start (PushedSendH0 e)).
Definition node_init (k : NodeKind) (params : list bytes) (created : option (bytes * bytes)) : M Process unit :=
  match k with
  | GradidoNodeDeprecated => GradidoNodeDeprecated_init params
  | NodeLauncher => NodeLauncher_init params
  | _ => NodeBase_init k params created
  end.

(** [GRADIDO_NODE_MAIN]: a process that does not end joins its workers, of
    which there may be none; [None]: undefined behaviour. *)
Inductive Run := Exits (code : Z) | Runs.
Definition node_main (k : NodeKind) (params : list bytes) (created : option (bytes * bytes)) (f : Folder) : option (Run * Process) :=
  if show_version params then Some (Exits 0, Process_new f)
  else match node_init k params created (Process_new f) with
       | Ret _ p => Some (if p_workers p <=? 0 then Exits 0 else Runs, p)
       | Throw e p => Some (Exits (if poco_exception e then 1 else 2), p)
       | Undef => None
       end.

(** ** Nothing is overwritten

    [grows c c']: the changes of the folder from [c] to [c'] were all kept,
    and at none of them was a key file, once there, replaced or the property
    file touched. *)
Definition no_overwrite (f g : Folder) : Prop :=
  (fo_token g = fo_token f \/ fo_token g = None) /\ fo_conf g = fo_conf f
  /\ fo_siblings g = fo_siblings f /\ fo_dirs g = fo_dirs f
  /\ (forall k, fo_priv f = Some k -> fo_priv g = Some k) /\ (forall k, fo_pub f = Some k -> fo_pub g = Some k).
Definition grows (c c' : Cfg) : Prop :=
  exists l, c_disk c' = c_disk c ++ l /\ List.last l (folder_of c) = folder_of c' /\ Forall (no_overwrite (folder_of c)) l.

#[export] Instance no_overwrite_preorder : PreOrder no_overwrite.
Proof.
  split; [intros f; unfold no_overwrite; naive_solver|]. intros f g h Hf Hg. unfold no_overwrite in *.
  destruct Hf as (Ht & Hc & Hs & Hd & Hp & Hu), Hg as (Ht' & Hc' & Hs' & Hd' & Hp' & Hu').
  split_and!; [|congruence..|auto|auto]. destruct Ht' as [->| ->]; auto.
Qed.

Lemma no_overwrite_last f l : Forall (no_overwrite f) l -> no_overwrite f (List.last l f).
Proof.
  intros H. destruct l as [|g l _] using rev_ind; [reflexivity|].
  rewrite List.last_last. by apply Forall_app in H as [_ H%Forall_inv].
Qed.

#[export] Instance grows_preorder : PreOrder grows.
Proof.
  split; [intros c; exists []; by rewrite app_nil_r|].
  intros c1 c2 c3 (l1 & E1 & L1 & F1) (l2 & E2 & L2 & F2). exists (l1 ++ l2). split_and!.
  - by rewrite E2, E1, app_assoc.
  - rewrite <- L2, <- L1. destruct l2 as [|g l _] using rev_ind; [by rewrite app_nil_r|].
    by rewrite app_assoc, !List.last_last.
  - apply Forall_app. split; [done|]. apply (Forall_impl _ _ _ F2). intros g Hg. etrans; [|exact Hg].
    rewrite <- L1. by apply no_overwrite_last.
Qed.

Lemma grows_refl c : grows c c. Proof. reflexivity. Qed.

(** A computation moves the part [get] of its object along [R], whether it
    returns or throws. *)
Definition moves {S T A} (R : relation T) (get : S -> T) (m : M S A) : Prop :=
  forall s, match m s with Ret _ s' | Throw _ s' => R (get s) (get s') | Undef => True end.
Abbreviation moves_cfg := (moves grows (fun c : Cfg => c)).
Abbreviation moves_p := (moves grows p_cfg).

Section moves.
Context {S T : Type} (R : relation T) `{!PreOrder R} (get : S -> T).
Lemma moves_ret {A} (a : A) : moves R get (ret a). Proof using Type*. intros s. exact (reflexivity (R := R) _). Qed.
Lemma moves_throw {A} e : moves R get (throw (A := A) e). Proof using Type*. intros s. exact (reflexivity (R := R) _). Qed.
Lemma moves_undef {A} : moves R get (undef (A := A)). Proof. done. Qed.
Lemma moves_gets {A} (f : S -> A) : moves R get (gets f). Proof using Type*. intros s. exact (reflexivity (R := R) _). Qed.
Lemma moves_bind {A B} (m : M S A) (k : A -> M S B) : moves R get m -> (forall a, moves R get (k a)) -> moves R get (bind m k).
Proof using Type*.
  intros Hm Hk s. unfold bind. specialize (Hm s). destruct (m s) as [a s1|e s1|]; [|done|done].
  specialize (Hk a s1). destruct (k a s1); [by etrans|by etrans|done].
Qed.
Lemma moves_modify f : (forall s, R (get s) (get (f s))) -> moves R get (modify f).
Proof. intros H s. apply H. Qed.
Lemma moves_rethrow {A} e (m : M S A) : moves R get m -> moves R get (rethrow e m).
Proof. intros H s. specialize (H s). unfold rethrow. by destruct (m s). Qed.
Lemma moves_of_option {A} (o : option A) : moves R get (of_option o).
Proof using Type*. destruct o; [apply moves_ret|apply moves_undef]. Qed.
End moves.

(** A field that is not part of the folder. *)
Lemma grows_same c c' : c_disk c' = c_disk c -> folder_of c' = folder_of c -> grows c c'.
Proof. intros Hd Hf. exists []. by rewrite app_nil_r. Qed.

Create HintDb moves.
#[local] Hint Resolve moves_ret moves_throw moves_undef moves_gets moves_rethrow moves_of_option : moves.
#[local] Hint Extern 1 (PreOrder _) => typeclasses eauto : moves.
Ltac solve_moves := repeat first
  [ solve [auto with moves] | apply moves_bind; [apply _| |intros ?] | apply moves_rethrow
  | solve [apply moves_modify; intros; by apply grows_same]
  | match goal with |- moves _ _ (match ?x with _ => _ end) => destruct x end ].

(** Values of the property file are read without any effect. *)
Section getters.
Context (R : relation Cfg) `{!PreOrder R}.
Abbreviation reads := (moves R (fun c : Cfg => c)).
Lemma moves_fc_string key : reads (fc_string key).
Proof using Type*. unfold fc_string. solve_moves. Qed.
Lemma moves_fc_int key : reads (fc_int key).
Proof using Type*. unfold fc_int. apply moves_bind; [done|apply moves_fc_string|]. intros v. solve_moves. Qed.
Lemma moves_getters k :
  reads (get_worker_count k) /\ reads (get_io_worker_count k) /\ reads (get_grpc_endpoint k)
  /\ reads (get_json_rpc_port k) /\ reads get_is_sb_host.
Proof using Type*.
  pose proof moves_fc_int as Hi. pose proof moves_fc_string as Hs.
  destruct k; split_and!; try unfold get_is_sb_host; cbn [get_worker_count get_io_worker_count get_grpc_endpoint get_json_rpc_port]; solve_moves.
Qed.
End getters.
#[local] Hint Resolve moves_fc_string moves_fc_int : moves.
#[local] Hint Extern 0 (moves _ _ (get_worker_count _)) => apply moves_getters : moves.
#[local] Hint Extern 0 (moves _ _ (get_io_worker_count _)) => apply moves_getters : moves.
#[local] Hint Extern 0 (moves _ _ (get_grpc_endpoint _)) => apply moves_getters : moves.
#[local] Hint Extern 0 (moves _ _ (get_json_rpc_port _)) => apply moves_getters : moves.
#[local] Hint Extern 0 (moves _ _ get_is_sb_host) => eapply (fun R H => moves_getters R (PreOrder0 := H) OrderingNode) : moves.

Lemma moves_token : moves_cfg LaunchToken_init.
Proof.
  intros c. unfold LaunchToken_init, bind, gets. destruct (c_token c) as [text|] eqn:E; [|exact (grows_refl c)].
  destruct (load text) as [pfc|]; [|exact (grows_refl c)]. cbn. exists [folder_of (set_c_token None c)]. split_and!; [done|done|].
  constructor; [|done]. unfold no_overwrite. cbn. naive_solver.
Qed.

(** Reading the key files, and reading siblings and folders, changes none. *)
Lemma kp_init_files k :
  match kp_init k with Ret _ k' | Throw _ k' => kp_priv_file k' = kp_priv_file k /\ kp_pub_file k' = kp_pub_file k | Undef => False end.
Proof.
  unfold kp_init, load_key, read_key_from_file, bind, gets. destruct (kp_priv_file k) as [a|] eqn:Ea; cbn;
    [destruct (is_key a); cbn; [|by rewrite Ea]|];
    (destruct (kp_pub_file k) as [b|] eqn:Eb; cbn; [destruct (is_key b); cbn|]; rewrite ?Ea, ?Eb; done).
Qed.
Lemma moves_zoom {S A} (get : Cfg -> S) (set : S -> Cfg -> Cfg) (m : M S A) :
  (forall c, match m (get c) with
             | Ret _ s | Throw _ s => c_disk (set s c) = c_disk c /\ folder_of (set s c) = folder_of c
             | Undef => True end) ->
  moves_cfg (zoom get set m).
Proof.
  intros H c. specialize (H c). unfold zoom.
  destruct (m (get c)) as [a s|e s|]; [destruct H as [Hd Hf]; exists []; by rewrite app_nil_r..|done].
Qed.
Lemma moves_kp_init : moves_cfg (in_kp kp_init).
Proof.
  apply moves_zoom. intros c. pose proof (kp_init_files (c_kp c)) as H. unfold folder_of.
  destruct (kp_init (c_kp c)); cbn; [destruct H as [-> ->]; done..|done].
Qed.
Lemma moves_FileConfig : moves_cfg FileConfig_init.
Proof. unfold FileConfig_init. solve_moves. Qed.
#[local] Hint Resolve moves_token moves_kp_init moves_FileConfig : moves.

Lemma reload_files c :
  match reload_group_infos c with
  | Ret _ c' | Throw _ c' => conf_sibling_file c' = conf_sibling_file c /\ conf_dirs c' = conf_dirs c
  | Undef => True end.
Proof.
  unfold reload_group_infos, bind, gets. generalize (conf_dirs c) at 1. intros dirs. revert c.
  induction dirs as [|d dirs IH]; intros c; [done|]. cbn [for_each]. unfold bind.
  destruct (dir_group_info d) as [[gi|]|]; cbn; [apply (IH (push_gi gi c))|apply IH|done].
Qed.
Lemma moves_reloads :
  moves_cfg (zoom c_groups set_c_groups reload_group_infos) /\ moves_cfg (zoom c_groups set_c_groups reload_sibling_file).
Proof.
  split; apply moves_zoom; intros c; [|done]. pose proof (reload_files (c_groups c)) as H. unfold folder_of.
  destruct (reload_group_infos (c_groups c)); cbn; [destruct H as [-> ->]; done..|done].
Qed.

Lemma launcher_files params l :
  match launcher_init params l with
  | Ret _ l' | Throw _ l' => kp_priv_file (nl_kp l') = kp_priv_file (nl_kp l) /\ kp_pub_file (nl_kp l') = kp_pub_file (nl_kp l)
  | Undef => True end.
Proof.
  unfold launcher_init, bind at 1, zoom. pose proof (kp_init_files (nl_kp l)) as H.
  destruct (kp_init (nl_kp l)) as [[] k|e k|]; cbn; [|done|done]. unfold bind, gets. cbn.
  destruct (kp_present k); cbn; [|done]. destruct (params !! 1%nat) as [[|c own]|]; cbn; [done| |done].
  destruct (params !! 2%nat) as [[|]|]; done.
Qed.
Lemma moves_config k params : moves_cfg (config_init k params).
Proof.
  destruct moves_reloads as [Hg Hs].
  destruct k; cbn [config_init]; unfold GradidoNodeConfigDeprecated_init, AbstractNodeConfig_init, scan_topic_id, scanned_topic; try solve [solve_moves].
  apply moves_zoom. intros c.
  pose proof (launcher_files params (Config.mkLauncher (c_kp c) (c_launcher c).1 (c_launcher c).2)) as H. unfold folder_of.
  destruct (launcher_init _ _); cbn; [destruct H as [-> ->]; done..|done].
Qed.

Lemma moves_in_cfg {A} (m : M Cfg A) : moves_cfg m -> moves_p (in_cfg m).
Proof. intros H p. specialize (H (p_cfg p)). unfold in_cfg, zoom. by destruct (m (p_cfg p)). Qed.
#[local] Hint Resolve moves_config moves_in_cfg : moves.

Lemma moves_save_key key file write :
  (forall k v, file k = None ->
    let g := mkFolder None None (kp_priv_file (write v k)) (kp_pub_file (write v k)) [] [] in
    no_overwrite (mkFolder None None (kp_priv_file k) (kp_pub_file k) [] []) g) ->
  moves_cfg (save_key key file write).
Proof.
  intros Hw c. unfold save_key, in_kp, zoom, save_key_to_file, bind, gets. destruct (is_key key); cbn; [|exists []; by rewrite app_nil_r].
  destruct (file (c_kp c)) eqn:Ef; cbn; [exists []; by rewrite app_nil_r|].
  eexists. split_and!; [reflexivity|done|].
  pose proof (Hw (c_kp c) [] Ef) as H1. pose proof (Hw (c_kp c) key Ef) as H2. unfold no_overwrite in *. cbn in *.
  repeat constructor; tauto.
Qed.
Lemma moves_store_kp pr pu : moves_cfg (store_kp pr pu).
Proof.
  unfold store_kp. apply moves_bind; [apply _| |intros []; apply moves_bind; [apply _| |intros []]].
  - apply moves_save_key. intros k v E. unfold no_overwrite. cbn. naive_solver.
  - apply moves_save_key. intros k v E. unfold no_overwrite. cbn. naive_solver.
  - by apply moves_zoom.
Qed.
#[local] Hint Resolve moves_store_kp : moves.

Lemma moves_node_init k params created : moves_p (node_init k params created).
Proof.
  unfold node_init, GradidoNodeDeprecated_init, NodeLauncher_init, NodeBase_init, AbstractFacade_init, start_servers, CommunicationLayer_init.
  destruct k; unfold GroupRegisterFacade_init, NodeFacade_start, start_subcluster; solve_moves.
Qed.

(** Whatever kind of node is started with whatever parameters and files, and
    at whatever moment it is killed (before a change of the folder, or after
    any that the process made): the property file, siblings and group folders
    are as they were, the launch token is as it was or gone, and a key file
    that was there still has its contents. *)
Theorem start_overwrites_nothing k params created f r p :
  node_main k params created f = Some (r, p) ->
  Forall (no_overwrite f) (c_disk (p_cfg p)) /\ List.last (c_disk (p_cfg p)) f = folder_of (p_cfg p)
  /\ no_overwrite f (folder_of (p_cfg p)).
Proof.
  assert (folder_of (p_cfg (Process_new f)) = f) as Ef by by destruct f.
  intros H. assert (grows (p_cfg (Process_new f)) (p_cfg p)) as (l & El & Ll & Hl).
  { unfold node_main in H. destruct (show_version params); [by injection H as <- <-|].
    pose proof (moves_node_init k params created (Process_new f)) as Hk.
    destruct (node_init k params created (Process_new f)); by simplify_eq. }
  rewrite Ef in *. rewrite El. cbn [Process_new p_cfg Cfg_new c_disk app]. split_and!; [done|done|].
  rewrite <- Ll. by apply no_overwrite_last.
Qed.

(** ** A launch and what follows it *)

(** The kinds that are launched with a token. *)
Definition takes_token (k : NodeKind) : bool :=
  match k with LoggerNode | OrderingNode | PingerNode => true | _ => false end.

(** What such a node takes from its property file; the keys it does not ask
    for may be missing. *)
Record Settings := mkSettings
  { s_workers : Z; s_io : Z; s_grpc : bytes; s_root : bytes; s_sb_key : bytes;
    s_ordering : option (bytes * bytes) }.
Definition item (pfc : Props) (key : string) : option bytes := getString pfc (txt key).
Definition number (pfc : Props) (key : string) : option Z := v ← item pfc key; parse_int v.
Definition settings_of (k : NodeKind) (pfc : Props) : option Settings :=
  w ← (match k with PingerNode => number pfc "worker_count" | _ => Some 1 end);
  io ← (match k with PingerNode => number pfc "io_worker_count" | _ => Some 1 end);
  grpc ← item pfc "grpc_endpoint";
  root ← item pfc "data_root_folder";
  host ← number pfc "is_sb_host";
  sb_key ← item pfc "sb_pub_key";
  if host =? 0 then
    endpoint ← item pfc "sb_ordering_node_endpoint";
    key ← item pfc "sb_ordering_node_pub_key";
    Some (mkSettings w io grpc root sb_key (Some (endpoint, key)))
  else Some (mkSettings w io grpc root sb_key None).

Definition run_of (s : Settings) : Run := if s_workers s <=? 0 then Exits 0 else Runs.
Definition threads_of (s : Settings) : list Started :=
  [WorkerThreads (s_workers s); CommThreads (s_io s + 1); Serving (s_grpc s)].
(** A host orders by itself, under its own key. *)
Definition subcluster_of (s : Settings) (own_key : bytes) : Started :=
  let o := default (s_grpc s, own_key) (s_ordering s) in Subcluster (s_sb_key s) o.1 o.2 (s_root s).

Lemma fc_string_ret key c pfc v : c_fc c = Some pfc -> item pfc key = Some v -> fc_string key c = Ret v c.
Proof. intros H E. unfold fc_string, bind, gets. rewrite H. unfold item in E. by rewrite E. Qed.
Lemma fc_int_ret key c pfc z : c_fc c = Some pfc -> number pfc key = Some z -> fc_int key c = Ret z c.
Proof.
  intros H E. unfold number in E. destruct (item pfc key) as [v|] eqn:Ev; [|done]. cbn in E. unfold fc_int, bind.
  rewrite (fc_string_ret key c pfc v H Ev). by rewrite E.
Qed.

Lemma settings_inv k pfc s :
  settings_of k pfc = Some s ->
  item pfc "grpc_endpoint" = Some (s_grpc s) /\ item pfc "data_root_folder" = Some (s_root s)
  /\ item pfc "sb_pub_key" = Some (s_sb_key s)
  /\ (k = PingerNode -> number pfc "worker_count" = Some (s_workers s) /\ number pfc "io_worker_count" = Some (s_io s))
  /\ (k <> PingerNode -> s_workers s = 1 /\ s_io s = 1)
  /\ exists host, number pfc "is_sb_host" = Some host
     /\ match s_ordering s with
        | None => host <> 0
        | Some (e, key) => host = 0 /\ item pfc "sb_ordering_node_endpoint" = Some e
                           /\ item pfc "sb_ordering_node_pub_key" = Some key
        end.
Proof.
  intros H. unfold settings_of in H. apply bind_Some in H as (w & Hw & (io & Hio & (g & -> & (root & -> & (host & Hh & (sk & -> & H)%bind_Some)%bind_Some)%bind_Some)%bind_Some)%bind_Some).
  rewrite Hh. destruct (Z.eqb_spec host 0) as [E|E].
  - apply bind_Some in H as (e & He & (key & Hk & [= <-])%bind_Some). cbn.
    destruct k; split_and!; try done; try (intros; split; congruence); eauto.
  - injection H as <-. cbn. destruct k; split_and!; try done; try (intros; split; congruence); eauto.
Qed.

Lemma in_cfg_ret {A} (m : M Cfg A) p a : m (p_cfg p) = Ret a (p_cfg p) -> in_cfg m p = Ret a p.
Proof. intros H. unfold in_cfg, zoom. rewrite H. by destruct p. Qed.

(** The pools and the server of a kind that takes a token, once its
    configuration was read. *)
Lemma facade_up k params s pfc p c :
  takes_token k = true -> config_init k params (p_cfg p) = Ret tt c -> c_fc c = Some pfc ->
  settings_of k pfc = Some s -> grpc_starts (s_grpc s) = true ->
  AbstractFacade_init k params p
  = Ret tt (mkProcess c (s_workers s) (p_handshake_ongoing p) (p_sb p) (p_started p ++ threads_of s)).
Proof.
  intros Hk Hc Hfc Hs Hg. destruct (settings_inv _ _ _ Hs) as (H1 & _ & _ & Hp & Hn & _).
  assert (get_worker_count k c = Ret (s_workers s) c /\ get_io_worker_count k c = Ret (s_io s) c
          /\ get_grpc_endpoint k c = Ret (s_grpc s) c /\ get_json_rpc_port k c = Ret 0 c) as (Ew & Ei & Ee & Ej).
  { destruct k; try done; split_and!; cbn [get_worker_count get_io_worker_count get_grpc_endpoint get_json_rpc_port]; try (by eapply fc_string_ret);
      try (eapply fc_int_ret; [done|by apply Hp]); try done; (destruct Hn as [Hw Hi]; [done|by rewrite ?Hw, ?Hi]). }
  unfold AbstractFacade_init. erewrite bind_Ret; [|unfold in_cfg, zoom; rewrite Hc; reflexivity]. unfold start_servers.
  erewrite bind_Ret; [|apply in_cfg_ret; exact Ew].
  do 2 (erewrite bind_Ret; [|reflexivity]).
  erewrite bind_Ret; [|apply in_cfg_ret; exact Ei]. erewrite bind_Ret; [|apply in_cfg_ret; exact Ee].
  erewrite bind_Ret; [|apply in_cfg_ret; exact Ej]. unfold CommunicationLayer_init. rewrite Hg.
  do 2 (erewrite bind_Ret; [|reflexivity]). unfold ret, start, threads_of. cbn -[txt]. by rewrite <- !app_assoc.
Qed.

(** What the first two objects of the configuration make of a folder; the
    outer [None]: they throw. *)
Definition token_read (f : Folder) : option (option Props) :=
  match fo_token f with None => Some None | Some text => Some <$> load text end.
Definition keys_found (f : Folder) : option (option (bytes * bytes)) :=
  match fo_priv f, fo_pub f with
  | None, None => Some None
  | Some pr, Some pu => if is_key pr && is_key pu then Some (Some (pr, pu)) else None
  | _, _ => None
  end.
Definition kp_of (ks : option (bytes * bytes)) (f : Folder) : Kp :=
  match ks with
  | Some (pr, pu) => mkKp true pr pu (fo_priv f) (fo_pub f)
  | None => mkKp false [] [] (fo_priv f) (fo_pub f)
  end.
Definition with_token (t : option bytes) (f : Folder) : Folder :=
  mkFolder t (fo_conf f) (fo_priv f) (fo_pub f) (fo_siblings f) (fo_dirs f).
Definition with_conf (t : option bytes) (f : Folder) : Folder :=
  mkFolder (fo_token f) t (fo_priv f) (fo_pub f) (fo_siblings f) (fo_dirs f).
Definition with_keys (pr pu : option bytes) (f : Folder) : Folder :=
  mkFolder (fo_token f) (fo_conf f) pr pu (fo_siblings f) (fo_dirs f).
Definition cfg_read (f : Folder) (lt : option Props) (pfc : Props) (ks : option (bytes * bytes)) : Cfg :=
  mkCfg None (fo_conf f) (kp_of ks f) (mkConf [] [] (fo_siblings f) (fo_dirs f)) lt (Some pfc) (mkHederaTopicID 0 0 0) ([], [])
    (match lt with Some _ => [with_token None f] | None => [] end).

Lemma set_kp_saved k k' l c : set_c_kp k (saved l (set_c_kp k' c)) = saved l (set_c_kp k c).
Proof. reflexivity. Qed.
Lemma saved_saved l l' c : saved l' (saved l c) = saved (l ++ l') c.
Proof. unfold saved. cbn. by rewrite app_assoc. Qed.
Lemma folder_set_kp k c : folder_of (set_c_kp k c) = with_keys (kp_priv_file k) (kp_pub_file k) (folder_of c).
Proof. reflexivity. Qed.
Lemma folder_saved l c : folder_of (saved l c) = folder_of c.
Proof. reflexivity. Qed.
Lemma kp_saved l c : c_kp (saved l c) = c_kp c.
Proof. reflexivity. Qed.
Lemma kp_set k c : c_kp (set_c_kp k c) = k.
Proof. reflexivity. Qed.

Lemma kp_init_found f :
  match keys_found f with
  | Some ks => kp_init (mkKp false [] [] (fo_priv f) (fo_pub f)) = Ret tt (kp_of ks f)
  | None => exists e k, kp_init (mkKp false [] [] (fo_priv f) (fo_pub f)) = Throw e k /\ poco_exception e = false
  end.
Proof.
  unfold keys_found, kp_init, load_key, read_key_from_file, bind, gets.
  destruct (fo_priv f) as [a|] eqn:Ea, (fo_pub f) as [b|] eqn:Eb; cbn -[is_key]; rewrite ?Ea, ?Eb; cbn -[is_key];
    try (destruct (is_key a) eqn:Ka; cbn -[is_key]); try (destruct (is_key b) eqn:Kb; cbn -[is_key]); eauto; unfold kp_of; rewrite ?Ea, ?Eb; eauto.
Qed.

Lemma token_run f :
  match token_read f with
  | Some lt => exists c, LaunchToken_init (Cfg_new f) = Ret tt c /\ c_conf c = fo_conf f /\ folder_of c = with_token None f
      /\ c_kp c = mkKp false [] [] (fo_priv f) (fo_pub f) /\ c_token c = None
      /\ forall ks pfc, set_c_fc (Some pfc) (set_c_kp (kp_of ks f) c) = cfg_read f lt pfc ks
  | None => exists e, LaunchToken_init (Cfg_new f) = Throw e (Cfg_new f) /\ poco_exception e = false
  end.
Proof.
  unfold token_read, LaunchToken_init, bind, gets. destruct (fo_token f) as [text|] eqn:E; cbn; rewrite E.
  - destruct (load text) as [lt|]; cbn; eauto 10.
  - exists (Cfg_new f). split_and!; [done|done|unfold folder_of, with_token; cbn; by rewrite E|done|done|]. intros ks pfc. unfold set_c_fc, set_c_kp, cfg_read. cbn. by rewrite E.
Qed.

(** The configuration is read when the token, the keys and the property file
    are all in order, and no value is asked for before. *)
Lemma config_run f :
  match token_read f, keys_found f, fo_conf f ≫= load with
  | Some lt, Some ks, Some pfc => AbstractNodeConfig_init (Cfg_new f) = Ret tt (cfg_read f lt pfc ks)
  | _, _, _ => exists e c, AbstractNodeConfig_init (Cfg_new f) = Throw e c /\ poco_exception e = false
      /\ folder_of c = with_token (c_token c) f
  end.
Proof.
  pose proof (token_run f) as Ht. pose proof (kp_init_found f) as Hk. unfold AbstractNodeConfig_init.
  destruct (token_read f) as [lt|].
  2: { destruct Ht as (e & E & He). unfold bind. rewrite E. exists e, (Cfg_new f). by destruct f. }
  destruct Ht as (c & Ec & Hc & Hf & Hkp & Htok & Hall). erewrite bind_Ret by exact Ec.
  assert (in_kp kp_init c = match kp_init (mkKp false [] [] (fo_priv f) (fo_pub f)) with
                            | Ret a k => Ret a (set_c_kp k c) | Throw e k => Throw e (set_c_kp k c) | Undef => Undef end) as Ek
    by (unfold in_kp, zoom; by rewrite Hkp).
  destruct (keys_found f) as [ks|].
  2: { destruct Hk as (e & k & E & He). pose proof (kp_init_files (mkKp false [] [] (fo_priv f) (fo_pub f))) as Hfiles.
       rewrite E in Ek, Hfiles. unfold bind. rewrite Ek. exists e, (set_c_kp k c). split_and!; [done|done|].
       rewrite folder_set_kp, Hf. cbn [set_c_kp c_token]. rewrite Htok. destruct Hfiles as [-> ->]. done. }
  rewrite Hk in Ek. erewrite bind_Ret by exact Ek. unfold FileConfig_init, bind, gets. cbn [c_conf set_c_kp]. rewrite Hc.
  destruct (fo_conf f ≫= load) as [pfc|]; [unfold modify; by rewrite Hall|]. eexists _, _. split_and!; [reflexivity|done|].
  rewrite folder_set_kp, Hf. cbn [set_c_kp c_token]. rewrite Htok. by destruct ks as [[? ?]|].
Qed.

Lemma node_init_base k params created : takes_token k = true -> node_init k params created = NodeBase_init k params created.
Proof. by destruct k. Qed.

(** A folder with damaged or missing key files, or with a token nobody can
    read: nothing is started. *)
Lemma dead_start k params created f :
  takes_token k = true -> show_version params = false ->
  (token_read f = None \/ keys_found f = None \/ fo_conf f ≫= load = None) ->
  exists p, node_main k params created f = Some (Exits 2, p) /\ p_started p = [] /\ p_sb p = false
    /\ folder_of (p_cfg p) = with_token (c_token (p_cfg p)) f.
Proof.
  intros Hk Hv H. pose proof (config_run f) as Hc.
  assert (exists e c, AbstractNodeConfig_init (Cfg_new f) = Throw e c /\ poco_exception e = false
    /\ folder_of c = with_token (c_token c) f) as (e & c & E & He & Hf).
  { destruct H as [H|[H|H]]; rewrite H in Hc; [done| |].
    - by destruct (token_read f).
    - by destruct (token_read f), (keys_found f). }
  unfold node_main. rewrite Hv.
  assert (node_init k params created (Process_new f) = Throw e (set_p_cfg c (Process_new f))) as ->.
  { rewrite (node_init_base k) by done; unfold NodeBase_init, AbstractFacade_init, in_cfg, bind, zoom. cbn [p_cfg Process_new].
    destruct k; try done; cbn [config_init]; by rewrite E. }
  rewrite He. eexists. split_and!; [reflexivity|done|done|exact Hf].
Qed.

(** The facade and the servers are up; what happens next is the node's. *)
Lemma node_up k params created f lt ks pfc s :
  takes_token k = true -> token_read f = Some lt -> keys_found f = Some ks -> fo_conf f ≫= load = Some pfc ->
  settings_of k pfc = Some s -> grpc_starts (s_grpc s) = true ->
  node_init k params created (Process_new f)
  = NodeFacade_start k created (mkProcess (cfg_read f lt pfc ks) (s_workers s) false false (threads_of s)).
Proof.
  intros Hk Ht Hks Hc Hs Hg. pose proof (config_run f) as Hrun. rewrite Ht, Hks, Hc in Hrun. rewrite (node_init_base k) by done. unfold NodeBase_init.
  rewrite (bind_Ret _ _ _ tt _ (facade_up k params s pfc (Process_new f) (cfg_read f lt pfc ks) Hk
    ltac:(by destruct k) eq_refl Hs Hg)).
  by destruct k.
Qed.

Lemma subcluster_run k pfc s p :
  takes_token k = true -> c_fc (p_cfg p) = Some pfc -> settings_of k pfc = Some s -> p_sb p = false ->
  start_subcluster k p
  = Ret tt (set_p_sb true (start (subcluster_of s (kp_pub (c_kp (p_cfg p)))) p)).
Proof.
  intros Hk Hfc Hs Hsb. destruct (settings_inv _ _ _ Hs) as (Hg & Hr & Hkey & _ & _ & host & Hh & Ho).
  unfold start_subcluster, bind at 1, gets at 1. rewrite Hsb.
  erewrite bind_Ret; [|apply in_cfg_ret; by eapply fc_string_ret].
  erewrite bind_Ret; [|apply in_cfg_ret; unfold get_is_sb_host; erewrite bind_Ret; [reflexivity|by eapply fc_int_ret]].
  erewrite bind_Ret; [|apply in_cfg_ret; by eapply fc_string_ret]. unfold subcluster_of.
  destruct (s_ordering s) as [[e key]|]; cbn [default].
  - destruct Ho as (-> & He & Hk'). cbn [Z.eqb negb]. rewrite bind_assoc. cbn [Z.eqb negb].
    erewrite bind_Ret; [|apply in_cfg_ret; by eapply fc_string_ret]. rewrite bind_assoc.
    erewrite bind_Ret; [|apply in_cfg_ret; by eapply fc_string_ret]. reflexivity.
  - rewrite (proj2 (Z.eqb_neq _ _) Ho). cbn [negb]. rewrite bind_assoc.
    assert (get_grpc_endpoint k (p_cfg p) = Ret (s_grpc s) (p_cfg p)) as Ee
      by (destruct k; try done; cbn [get_grpc_endpoint]; exact (fc_string_ret _ _ _ _ Hfc Hg)).
    erewrite bind_Ret; [|apply in_cfg_ret; exact Ee]. reflexivity.
Qed.

(** A restart: the key pair is there, a token is not. *)
Lemma restart_run k params created f pr pu pfc s :
  takes_token k = true -> show_version params = false -> fo_token f = None -> keys_found f = Some (Some (pr, pu)) ->
  fo_conf f ≫= load = Some pfc -> settings_of k pfc = Some s -> grpc_starts (s_grpc s) = true ->
  exists p, node_main k params created f = Some (run_of s, p) /\ p_started p = threads_of s ++ [subcluster_of s pu]
    /\ p_sb p = true /\ p_handshake_ongoing p = false /\ folder_of (p_cfg p) = f.
Proof.
  intros Hk Hv Ht Hks Hc Hs Hg. unfold node_main. rewrite Hv.
  rewrite (node_up k params created f None (Some (pr, pu)) pfc s) by (done || unfold token_read; by rewrite Ht).
  unfold NodeFacade_start, bind, gets. cbn [p_cfg cfg_read c_lt launch_token_is_present c_kp kp_of kp_present].
  change (launch_token_is_present (cfg_read f None pfc (Some (pr, pu)))) with false. cbn iota.
  erewrite subcluster_run; [|done|reflexivity|done|done].
  eexists. split; [reflexivity|]. split_and!; [done..|]. destruct f. cbn in *. by subst.
Qed.

(** What store_kp leaves in the folder, from creating the first file on. *)
Definition stored_steps (pr pu : bytes) (f : Folder) : list Folder :=
  [with_keys (Some []) None f; with_keys (Some pr) None f; with_keys (Some pr) (Some []) f; with_keys (Some pr) (Some pu) f].
Lemma save_key_run key file write c :
  is_key key = true -> file (c_kp c) = None ->
  save_key key file write c
  = Ret tt (let c1 := set_c_kp (write key (c_kp c)) c in
            saved [folder_of (set_c_kp (write [] (c_kp c)) c1); folder_of c1] c1).
Proof. intros Hk Hf. unfold save_key, in_kp, zoom, save_key_to_file, bind, gets. rewrite Hk. cbn [negb]. by rewrite Hf. Qed.
Lemma store_run pr pu c :
  is_key pr = true -> is_key pu = true -> kp_priv_file (c_kp c) = None -> kp_pub_file (c_kp c) = None ->
  store_kp pr pu c = Ret tt (saved (stored_steps pr pu (folder_of c)) (set_c_kp (mkKp true pr pu (Some pr) (Some pu)) c)).
Proof.
  intros Hr Hu Ep Eu. unfold store_kp. erewrite bind_Ret by by apply save_key_run. cbv zeta.
  erewrite bind_Ret; [|apply save_key_run; [done|exact Eu]]. cbv zeta.
  unfold in_kp. erewrite zoom_Ret; [|reflexivity]. rewrite !kp_saved, !kp_set, !set_kp_saved, !saved_saved, !folder_set_kp, !folder_saved, !folder_set_kp.
  change (kp_pub_file (set_priv_file [] (c_kp c))) with (kp_pub_file (c_kp c)).
  change (kp_pub_file (set_priv_file pr (c_kp c))) with (kp_pub_file (c_kp c)). rewrite Eu. reflexivity.
Qed.
Lemma launch_run k params pr pu f lt pfc s :
  takes_token k = true -> show_version params = false -> token_read f = Some (Some lt) -> keys_found f = Some None ->
  fo_conf f ≫= load = Some pfc -> settings_of k pfc = Some s -> grpc_starts (s_grpc s) = true ->
  is_key pr = true -> is_key pu = true ->
  exists p, node_main k params (Some (pr, pu)) f = Some (run_of s, p) /\ p_started p = threads_of s
    /\ p_sb p = false /\ p_handshake_ongoing p = true
    /\ c_disk (p_cfg p) = with_token None f :: stored_steps pr pu (with_token None f)
    /\ folder_of (p_cfg p) = with_keys (Some pr) (Some pu) (with_token None f).
Proof.
  intros Hk Hv Ht Hks Hc Hs Hg Hr Hu. unfold node_main. rewrite Hv.
  rewrite (node_up k params (Some (pr, pu)) f (Some lt) None pfc s) by done.
  assert (fo_priv f = None /\ fo_pub f = None) as [Ep Eu].
  { unfold keys_found in Hks. destruct (fo_priv f), (fo_pub f); try done. by destruct (is_key _ && is_key _). }
  unfold NodeFacade_start, bind, gets. cbn [p_cfg].
  change (launch_token_is_present (cfg_read f (Some lt) pfc None)) with true.
  cbn [cfg_read c_kp kp_of kp_present]. unfold in_cfg, zoom. cbn [p_cfg]. rewrite store_run by done.
  eexists. split; [reflexivity|]. by split_and!.
Qed.

(** C12: a node that is launched makes its keys, stores them and waits for the
    handshake.  Every later start with these files, by whatever kind of node
    and whether or not the handshake took place, starts the subcluster
    blockchain at once, with the stored key where the node is the host, waits
    for no handshake, and leaves the folder as it is. *)
Theorem launch_then_restarts k params pr pu f lt pfc s :
  takes_token k = true -> show_version params = false -> token_read f = Some (Some lt) -> keys_found f = Some None ->
  fo_conf f ≫= load = Some pfc -> settings_of k pfc = Some s -> grpc_starts (s_grpc s) = true ->
  is_key pr = true -> is_key pu = true ->
  exists p, node_main k params (Some (pr, pu)) f = Some (run_of s, p)
    /\ p_started p = threads_of s /\ p_sb p = false /\ p_handshake_ongoing p = true
    /\ folder_of (p_cfg p) = with_keys (Some pr) (Some pu) (with_token None f)
    /\ forall k' params' created' s', takes_token k' = true -> show_version params' = false ->
         settings_of k' pfc = Some s' -> grpc_starts (s_grpc s') = true ->
         exists p', node_main k' params' created' (folder_of (p_cfg p)) = Some (run_of s', p')
           /\ p_started p' = threads_of s' ++ [subcluster_of s' pu] /\ p_sb p' = true
           /\ p_handshake_ongoing p' = false /\ folder_of (p_cfg p') = folder_of (p_cfg p).
Proof.
  intros Hk Hv Ht Hks Hc Hs Hg Hr Hu. destruct (launch_run k params pr pu f lt pfc s) as (p & E & H1 & H2 & H3 & _ & H4); try done.
  exists p. split_and!; try done. intros k' params' created' s' Hk' Hv' Hs' Hg'. rewrite H4. apply (restart_run _ _ _ _ pr pu pfc); try done.
  unfold keys_found. cbn. by rewrite Hr, Hu.
Qed.

(** A token that can be read is gone, however the start ends. *)
Lemma in_cfg_bind {A B} (m : M Cfg A) (k : A -> M Cfg B) p : in_cfg (bind m k) p = bind (in_cfg m) (fun a => in_cfg (k a)) p.
Proof.
  unfold in_cfg, zoom, bind. destruct (m (p_cfg p)) as [a c|e c|]; [|done|done]. cbn [p_cfg set_p_cfg].
  destruct (k a c); done.
Qed.
Lemma token_used k params created f r p :
  takes_token k = true -> show_version params = false -> token_read f <> None ->
  node_main k params created f = Some (r, p) -> fo_token (folder_of (p_cfg p)) = None.
Proof.
  intros Hk Hv Ht H. unfold node_main in H. rewrite Hv in H. pose proof (token_run f) as Hrun.
  destruct (token_read f) as [lt|]; [|done]. destruct Hrun as (c & Ec & _ & _ & _ & Htok & _).
  set (p0 := set_p_cfg c (Process_new f)). assert (exists m, moves_p m /\ node_init k params created (Process_new f) = m p0) as (m & Hm & Em).
  { exists (in_cfg (in_kp kp_init ;;; FileConfig_init) ;;; start_servers k ;;; NodeFacade_start k created). split.
    { unfold start_servers, NodeFacade_start, start_subcluster, CommunicationLayer_init. solve_moves.
      apply moves_in_cfg. solve_moves. }
    rewrite (node_init_base k) by done; unfold NodeBase_init, AbstractFacade_init. rewrite bind_assoc. unfold bind at 1.
    assert (in_cfg (config_init k params) (Process_new f) = in_cfg (in_kp kp_init ;;; FileConfig_init) p0) as ->.
    { unfold in_cfg, zoom. cbn [p_cfg Process_new p0 set_p_cfg]. destruct k; try done; cbn [config_init]; unfold AbstractNodeConfig_init;
        by erewrite bind_Ret by exact Ec. }
    by destruct k. }
  rewrite Em in H. specialize (Hm p0).
  assert (grows c (p_cfg p)) as (l & _ & El & Hl) by (destruct (m p0); by simplify_eq).
  apply no_overwrite_last in Hl as [Hl _]. rewrite El in Hl. unfold folder_of in Hl at 1 3. cbn in Hl. rewrite Htok in Hl. naive_solver.
Qed.

(** C13: a launch that is killed after a change of the folder and before its keys
    are stored can never be completed: the token is used up before the first
    key file is created, and every later start, of any kind and with any
    keys made, ends with code 2.  A new token helps only where no key file
    was created yet; else it is used up in turn and the key files have to be
    removed by hand. *)
Theorem interrupted_launch k params pr pu f lt pfc s :
  takes_token k = true -> show_version params = false -> token_read f = Some (Some lt) -> keys_found f = Some None ->
  fo_conf f ≫= load = Some pfc -> settings_of k pfc = Some s -> grpc_starts (s_grpc s) = true ->
  is_key pr = true -> is_key pu = true ->
  let without := with_token None f in
  exists p, node_main k params (Some (pr, pu)) f = Some (run_of s, p)
    /\ c_disk (p_cfg p) = without :: stored_steps pr pu without
    /\ (forall created' k' params' s', takes_token k' = true -> show_version params' = false ->
          settings_of k' pfc = Some s' -> grpc_starts (s_grpc s') = true ->
          exists p', node_main k' params' created' without = Some (Exits 2, p') /\ folder_of (p_cfg p') = without)
    /\ forall g t created' k' params', g ∈ take 3 (stored_steps pr pu without) ->
         takes_token k' = true -> show_version params' = false ->
         exists p', node_main k' params' created' (with_token t g) = Some (Exits 2, p') /\ p_started p' = []
           /\ (t ≫= load <> None -> fo_token (folder_of (p_cfg p')) = None).
Proof.
  intros Hk Hv Ht Hks Hc Hs Hg Hr Hu without.
  destruct (launch_run k params pr pu f lt pfc s) as (p & E & _ & _ & _ & Hd & _); try done.
  assert (fo_priv f = None /\ fo_pub f = None) as [Ep Eu].
  { unfold keys_found in Hks. destruct (fo_priv f), (fo_pub f); try done. by destruct (is_key _ && is_key _). }
  exists p. split_and!; [done|done| |].
  - intros created' k' params' s' Hk' Hv' Hs' Hg'. unfold node_main. rewrite Hv'.
    rewrite (node_up k' params' created' without None None pfc s'); try done.
    unfold NodeFacade_start, bind, gets. cbn [p_cfg]. change (launch_token_is_present (cfg_read without None pfc None)) with false.
    eexists. split; [reflexivity|]. done.
  - intros g t created' k' params' Hin Hk' Hv'.
    assert (keys_found (with_token t g) = None) as Hdead.
    { assert (is_key [] = false) as E0 by reflexivity. unfold stored_steps in Hin. cbn [take] in Hin. unfold keys_found.
      repeat (apply elem_of_cons in Hin as [->|Hin]; [cbn [fo_priv fo_pub with_token with_keys]; rewrite ?E0, ?andb_false_r; reflexivity|]).
      by apply elem_of_nil in Hin. }
    destruct (dead_start k' params' created' (with_token t g)) as (p' & E' & H' & _); [done|done|auto|]. exists p'. split_and!; [done|done|].
    intros Hl. eapply token_used; [exact Hk'|exact Hv'| |exact E']. unfold token_read. cbn in *. destruct t as [t|]; [|done]. cbn in Hl. by destruct (load t).
Qed.

(** Pools and servers are started without any change of files or state. *)
Definition same (p p' : Process) : Prop :=
  p_cfg p' = p_cfg p /\ p_handshake_ongoing p' = p_handshake_ongoing p /\ p_sb p' = p_sb p.
#[local] Instance same_preorder : PreOrder same.
Proof. unfold same. split; [done|]. intros p1 p2 p3 (-> & -> & ->) (-> & -> & ->). done. Qed.
Lemma same_in_cfg {A} (m : M Cfg A) : moves eq (fun c => c) m -> moves same (fun p => p) (in_cfg m).
Proof. intros H p. specialize (H (p_cfg p)). unfold in_cfg, zoom. destruct (m (p_cfg p)); [by subst..|done]. Qed.
#[local] Hint Resolve same_in_cfg : moves.
Lemma start_servers_same k : moves same (fun p => p) (start_servers k).
Proof. unfold start_servers, CommunicationLayer_init. solve_moves. all: by apply moves_modify. Qed.

(** A launch that fails for any reason, be it a property file that is missing
    or lacks a value, or a port that is taken, has used up its token and made
    no keys: when the reason is removed every later start still ends with
    code 2, for the lack of a key pair, until a new token is provided. *)
Theorem failed_launch_loses_token k params pr pu f lt r p :
  takes_token k = true -> show_version params = false -> token_read f = Some (Some lt) -> keys_found f = Some None ->
  is_key pr = true -> is_key pu = true ->
  node_main k params (Some (pr, pu)) f = Some (r, p) -> p_handshake_ongoing p = false ->
  folder_of (p_cfg p) = with_token None f /\ (r = Exits 1 \/ r = Exits 2) /\ p_sb p = false
  /\ forall t k' params' created' pfc s, takes_token k' = true -> show_version params' = false ->
       load t = Some pfc -> settings_of k' pfc = Some s -> grpc_starts (s_grpc s) = true ->
       exists p', node_main k' params' created' (with_conf (Some t) (folder_of (p_cfg p))) = Some (Exits 2, p')
         /\ p_started p' = threads_of s /\ p_sb p' = false /\ p_handshake_ongoing p' = false.
Proof.
  intros Hk Hv Ht Hks Hr Hu H Hno.
  assert (fo_priv f = None /\ fo_pub f = None) as [Ep Eu].
  { unfold keys_found in Hks. destruct (fo_priv f), (fo_pub f); try done. by destruct (is_key _ && is_key _). }
  assert (folder_of (p_cfg p) = with_token None f /\ (r = Exits 1 \/ r = Exits 2) /\ p_sb p = false) as (Hf & Hx & Hb).
  { destruct (fo_conf f ≫= load) as [pfc|] eqn:Hc.
    - pose proof (config_run f) as Hrun. rewrite Ht, Hks, Hc in Hrun. unfold node_main in H. rewrite Hv in H.
      assert (node_init k params (Some (pr, pu)) (Process_new f)
        = bind (start_servers k) (fun _ => NodeFacade_start k (Some (pr, pu))) (set_p_cfg (cfg_read f (Some lt) pfc None) (Process_new f))) as En.
      { rewrite (node_init_base k) by done; unfold NodeBase_init, AbstractFacade_init. rewrite bind_assoc. unfold bind at 1, in_cfg, zoom. cbn [p_cfg Process_new].
        destruct k; try done; cbn [config_init]; rewrite Hrun; done. }
      rewrite En in H. unfold bind in H. pose proof (start_servers_same k (set_p_cfg (cfg_read f (Some lt) pfc None) (Process_new f))) as Hsame.
      destruct (start_servers k _) as [[] p1|e p1|]; [| |done]; destruct Hsame as (Hcfg & Ho & Hsb); cbn in Hcfg, Ho, Hsb.
      + exfalso. destruct p1 as [cf w o sb st]. cbn in *. subst.
        unfold NodeFacade_start, bind, gets in H. cbn [p_cfg] in H.
        change (launch_token_is_present (cfg_read f (Some lt) pfc None)) with true in H.
        cbn [cfg_read c_kp kp_of kp_present] in H. unfold in_cfg, zoom in H. cbn [p_cfg] in H.
        rewrite store_run in H by done. cbn in H. injection H as <- <-. done.
      + injection H as <- <-. rewrite Hcfg. split; [done|]. split; [destruct (poco_exception e); auto|done].
    - destruct (dead_start k params (Some (pr, pu)) f) as (p' & E' & _ & Hb & Hfo); [done|done|auto|]. rewrite E' in H. injection H as <- <-.
      assert (fo_token (folder_of (p_cfg p')) = None) as Htok by (eapply token_used; [done|done| |exact E']; by rewrite Ht).
      change (c_token (p_cfg p') = None) in Htok. rewrite Htok in Hfo. split_and!; [done|auto|done]. }
  split_and!; try done. intros t k' params' created' pfc s Hk' Hv' Hl Hs Hg. rewrite Hf. unfold node_main. rewrite Hv'.
  rewrite (node_up k' params' created' (with_conf (Some t) (with_token None f)) None None pfc s); try done.
  unfold NodeFacade_start, bind, gets. cbn [p_cfg].
  change (launch_token_is_present (cfg_read (with_conf (Some t) (with_token None f)) None pfc None)) with false.
  eexists. split; [reflexivity|]. done.
Qed.

(** ** The node of the handshake

    A process as [Handshake] sees its node, and what a property file is to
    it. *)
Section refinement.
Context {Timestamp SignatureMap : Type} {DEF : MessageDefaults Timestamp SignatureMap}.
Definition node_effect (e : Started) : option (NodeEffect SignatureMap) :=
  match e with Subcluster sb_key endpoint key _ => Some (StartSb sb_key endpoint key) | _ => None end.
Definition node_of (p : Process) : Node Timestamp SignatureMap :=
  let k := c_kp (p_cfg p) in
  mkNode (p_handshake_ongoing p) (p_sb p) (if kp_present k then Some (kp_priv k, kp_pub k) else None)
    ts_default false Transaction_new (omap node_effect (p_started p)).
Definition node_conf (s : Settings) (token : bool) (type : bytes) : NodeConf :=
  let o := default ([], []) (s_ordering s) in
  mkNodeConf token (bool_decide (s_ordering s = None)) (s_grpc s) o.1 o.2 (s_sb_key s) type.

Lemma node_of_start e p :
  node_of (start e p) = match node_effect e with Some x => emit_effect x (node_of p) | None => node_of p end.
Proof. unfold node_of, start. cbn. rewrite omap_app. cbn. destruct (node_effect e); cbn; [done|]. by rewrite app_nil_r. Qed.

(** With a complete property file and keys that are keys, what [NodeFacade]
    does with files and values is what [Handshake] says of its node: the same
    exceptions, the same keys, the same subcluster blockchain. *)
Theorem NodeFacade_start_refines k created p pfc s type :
  takes_token k = true -> c_fc (p_cfg p) = Some pfc -> settings_of k pfc = Some s ->
  (kp_present (c_kp (p_cfg p)) = false -> kp_priv_file (c_kp (p_cfg p)) = None /\ kp_pub_file (c_kp (p_cfg p)) = None) ->
  (forall pr pu, created = Some (pr, pu) -> is_key pr = true /\ is_key pu = true) ->
  match NodeFacade_start k created p,
        NodeFacade_init (node_conf s (launch_token_is_present (p_cfg p)) type) created (node_of p) with
  | Ret _ p', Ret _ n => node_of p' = n
  | Throw e p', Throw e' n => e = e' /\ p' = p /\ n = node_of p
  | _, _ => False
  end.
Proof.
  intros Hk Hfc Hs Hfiles Hkeys. unfold NodeFacade_start, NodeFacade_init, bind, gets.
  cbn [node_conf Handshake.launch_token_is_present node_of kp_identity].
  destruct (launch_token_is_present (p_cfg p)), (kp_present (c_kp (p_cfg p))) eqn:Ep; cbn [bool_decide decide_rel]; cbv beta iota.
  - rewrite bool_decide_eq_true_2 by eauto. done.
  - rewrite bool_decide_eq_false_2 by (intros [? [=]]). destruct created as [[pr pu]|]; [|done].
    destruct (Hkeys pr pu eq_refl) as [Hr Hu], (Hfiles eq_refl) as [Fr Fu].
    unfold in_cfg, zoom. rewrite store_run by done. done.
  - rewrite bool_decide_eq_true_2 by eauto. unfold Handshake.start_sb, bind at 1, gets at 1. cbn [node_of sb_started].
    destruct (p_sb p) eqn:Eb; [unfold start_subcluster, bind, gets; by rewrite Eb|].
    erewrite subcluster_run by done. unfold bind, gets, node_conf. cbn [is_sb_host].
    unfold subcluster_of. destruct (s_ordering s) as [[e key]|]; cbn [bool_decide default]; unfold node_of; cbn;
      rewrite Ep, omap_app; done.
  - rewrite bool_decide_eq_false_2 by (intros [? [=]]). done.
Qed.
End refinement.

(** ** Threads of the ordering node *)

Definition fixed_threads (p : Process) : Prop :=
  Forall (fun e => match e with WorkerThreads n => n = 1 | JsonRpcServing _ => False | _ => True end) (p_started p)
  /\ (p_workers p = 0 \/ (p_workers p = 1 /\ WorkerThreads 1 ∈ p_started p)).
Definition stays_fixed (p p' : Process) : Prop := fixed_threads p -> fixed_threads p'.
#[local] Instance stays_fixed_preorder : PreOrder stays_fixed.
Proof. split; [intros p H; exact H|]. intros p1 p2 p3 H1 H2 H. exact (H2 (H1 H)). Qed.
Lemma fixed_in_cfg {A} (m : M Cfg A) : moves stays_fixed (fun p => p) (in_cfg m).
Proof. intros p. unfold in_cfg, zoom. destruct (m (p_cfg p)); [exact (fun H => H)..|done]. Qed.
#[local] Hint Resolve fixed_in_cfg : moves.
Lemma fixed_start e p : (match e with WorkerThreads _ | JsonRpcServing _ => False | _ => True end) -> stays_fixed p (start e p).
Proof.
  intros He [Hf Hw]. split; [apply Forall_app; split; [done|constructor; [by destruct e|done]]|].
  destruct Hw as [?|[? ?]]; [by left|right]. split; [done|]. apply elem_of_app. by left.
Qed.

Ltac solve_fixed := solve_moves; apply moves_modify; intros ?; first [by apply fixed_start | exact (fun H => H)].

Lemma bind_in_cfg_ret {A B} (a : A) (m : A -> M Process B) p : bind (in_cfg (ret a)) m p = m a p.
Proof. by destruct p. Qed.
Lemma fixed_servers k : k = OrderingNode \/ k = LoggerNode -> moves stays_fixed (fun p => p) (start_servers k).
Proof.
  intros Hk p. set (q := start (WorkerThreads 1) (set_p_workers 1 p)).
  assert (stays_fixed p q) as Hpq.
  { intros [Hf _]. split; [by apply Forall_app_2; [|constructor]|]. right. split; [done|]. apply elem_of_app. right. by apply list_elem_of_singleton. }
  assert (exists m, moves stays_fixed (fun p => p) m /\ start_servers k p = m q) as (m & Hm & ->).
  { exists (let! io := in_cfg (get_io_worker_count k) in let! endpoint := in_cfg (get_grpc_endpoint k) in CommunicationLayer_init io endpoint 0).
    split; [unfold CommunicationLayer_init; cbn [Z.eqb]; solve_fixed|].
    assert (get_worker_count k = ret 1 /\ get_json_rpc_port k = ret 0) as [Ew Ej] by by destruct Hk as [-> | ->].
    unfold start_servers. rewrite Ew, Ej, bind_in_cfg_ret. unfold bind at 1, modify at 1. unfold bind at 1, modify at 1. fold q.
    unfold bind. destruct (in_cfg (get_io_worker_count k) q) as [io q1| |]; [|done|done].
    destruct (in_cfg (get_grpc_endpoint k) q1) as [endpoint q2| |]; [by destruct q2|done|done]. }
  specialize (Hm q). destruct (m q); [by etrans|by etrans|done].
Qed.

(** Whatever the property file of an ordering or a logger node says of its
    workers, such a node has one worker and answers no JSON requests; one that
    keeps running has started it. *)
Theorem ordering_node_one_worker k params created f r p :
  k = OrderingNode \/ k = LoggerNode -> node_main k params created f = Some (r, p) ->
  (forall n, WorkerThreads n ∈ p_started p -> n = 1) /\ (forall port, JsonRpcServing port ∉ p_started p)
  /\ (r = Runs -> p_workers p = 1 /\ WorkerThreads 1 ∈ p_started p).
Proof.
  intros Hk H. assert (fixed_threads (Process_new f)) as H0 by by split; [constructor|left].
  assert (fixed_threads p /\ (r = Runs -> p_workers p <> 0)) as [[Hf Hw] Hr].
  { unfold node_main in H. destruct (show_version params); [by injection H as <- <-|].
    assert (moves stays_fixed (fun p => p) (node_init k params created)) as Hn.
    { rewrite (node_init_base k) by by destruct Hk as [-> | ->]. unfold NodeBase_init, AbstractFacade_init. pose proof (fixed_servers k Hk) as Hs.
      destruct Hk as [-> | ->]; unfold NodeFacade_start, start_subcluster; solve_fixed. }
    specialize (Hn (Process_new f)). destruct (node_init k params created (Process_new f)) as [[] q|e q|]; simplify_eq.
    - split; [by apply Hn|]. destruct (Z.leb_spec (p_workers p) 0); [done|lia].
    - split; [by apply Hn|done]. }
  rewrite Forall_forall in Hf. split_and!.
  - intros n Hn. exact (Hf _ Hn).
  - intros port Hp. exact (Hf _ Hp).
  - intros E. destruct Hw as [?|?]; [by destruct Hr|done].
Qed.

(** ** The topic of the group register *)

Definition topic_text (t : HederaTopicID) : bytes :=
  decimal (topic_shardNum t) ++ DOT :: decimal (topic_realmNum t) ++ DOT :: decimal (topic_topicNum t).
Definition is_long (z : Z) : Prop := - 2 ^ 63 <= z < 2 ^ 63.
Definition no_digit (r : bytes) : Prop := match r with [] => True | c :: _ => is_digit c = false end.

Lemma span_stops q a r :
  Forall (fun x => q x = true) a -> (match r with [] => True | c :: _ => q c = false end) -> span q (a ++ r) = (a, r).
Proof.
  intros H Hr. destruct r as [|c r]; [|by apply span_app]. rewrite app_nil_r.
  induction H as [|x a Hx _ IH]; [done|]. cbn. by rewrite Hx, IH.
Qed.
Lemma span_consumes q s : (span q s).2 = [] <-> Forall (fun x => q x = true) s.
Proof.
  induction s as [|x s IH]; [by split; [constructor|]|]. cbn. rewrite Forall_cons. destruct (q x); cbn; [by rewrite IH; naive_solver|].
  split; [done|]. by intros [? _].
Qed.
Lemma scan_digits_text sign n r :
  no_digit r -> is_long (sign * Z.of_N n) -> scan_digits sign (uint_text (N.to_uint n) ++ r) = Scan (Some (sign * Z.of_N n)) r.
Proof.
  intros Hr Hl. unfold scan_digits. rewrite span_stops by (done || apply uint_text_digits).
  pose proof (text_uint_text (N.to_uint n)) as E. destruct (uint_text_nonempty n) as (c & t & Et). rewrite Et in *.
  rewrite E. cbn [mbind option_bind]. rewrite DecimalN.Unsigned.of_to. unfold in_long.
  destruct Hl as [H1 H2]. by rewrite (proj2 (Z.leb_le _ _) H1), (proj2 (Z.ltb_lt _ _) H2).
Qed.
Lemma scan_ld_decimal z r : is_long z -> no_digit r -> scan_ld (decimal z ++ r) = Scan (Some z) r.
Proof.
  intros Hl Hr. unfold decimal. destruct (Z.ltb_spec z 0) as [Hz|Hz].
  - unfold scan_ld. cbn [app span is_space Z.leb Z.eqb Z.compare andb orb snd].
    change (span is_space (45 :: uint_text (N.to_uint (Z.to_N (- z))) ++ r)).2
      with (45 :: uint_text (N.to_uint (Z.to_N (- z))) ++ r). cbn [Z.eqb Pos.eqb].
    replace z with (-1 * Z.of_N (Z.to_N (- z))) at 2 by lia. apply scan_digits_text; [done|]. by replace (-1 * _) with z by lia.
  - pose proof (scan_digits_text 1 (Z.to_N z) r Hr) as E. replace (1 * Z.of_N (Z.to_N z)) with z in E by lia. rewrite <- E by done.
    pose proof (uint_text_digits (N.to_uint (Z.to_N z))) as Hd. destruct (uint_text_nonempty (Z.to_N z)) as (c & t & Et). rewrite Et in *.
    apply Forall_cons in Hd as [Hc _]. unfold is_digit in Hc. unfold scan_ld.
    assert ((span is_space ((c :: t) ++ r)).2 = c :: t ++ r) as ->
      by (cbn [List.app span]; replace (is_space c) with false by (unfold is_space; lia); done).
    by rewrite (proj2 (Z.eqb_neq c 45)), (proj2 (Z.eqb_neq c 43)) by lia.
Qed.

Lemma register_topic_scanned t c :
  is_long (topic_shardNum t) -> is_long (topic_realmNum t) -> is_long (topic_topicNum t) -> scan_topic_id (topic_text t) c = Ret t c.
Proof.
  intros H1 H2 H3. unfold scan_topic_id, scanned_topic, topic_text. rewrite scan_ld_decimal by done. cbn [of_option scan_next]. unfold bind, ret.
  change (DOT =? DOT) with true. cbn iota. rewrite scan_ld_decimal by done. cbn [scan_next]. change (DOT =? DOT) with true. cbn iota.
  rewrite <- (app_nil_r (decimal (topic_topicNum t))), scan_ld_decimal by done. by destruct t.
Qed.

(** The topic of the register as it is written is the one that is read.  But
    only an empty text is refused: one that begins with anything but a number
    is taken as topic 0.0.0, and a number with nothing behind it fills up with
    zeros. *)
Theorem register_topic_read t c :
  is_long (topic_shardNum t) -> is_long (topic_realmNum t) -> is_long (topic_topicNum t) ->
  scan_topic_id (topic_text t) c = Ret t c
  /\ scan_topic_id (decimal (topic_shardNum t)) c = Ret (mkHederaTopicID (topic_shardNum t) 0 0) c
  /\ (forall s, scan_topic_id s c = Throw "config: bad group register topic id" c <-> Forall (fun x => is_space x = true) s)
  /\ (forall x s, is_space x = false -> is_digit x = false -> x <> 45 -> x <> 43 ->
        scan_topic_id (x :: s) c = Ret (mkHederaTopicID 0 0 0) c).
Proof.
  intros H1 H2 H3. split_and!.
  - by apply register_topic_scanned.
  - unfold scan_topic_id. rewrite <- (app_nil_r (decimal _)), scan_ld_decimal by done. done.
  - intros s. rewrite <- span_consumes. unfold scan_topic_id, scan_ld. destruct (span is_space s).2 as [|x s']; [done|].
    split; [|done]. intros H. exfalso. revert H.
    assert (forall sign l, match scan_digits sign l with Eof => False | _ => True end) as Hd
      by (intros sign l; unfold scan_digits; by destruct (span is_digit l) as [[|? ?] ?]).
    assert (forall sc, match sc with Eof => False | _ => True end ->
      scanned_topic sc c <> Throw "config: bad group register topic id" c) as Hs.
    { intros [| |[a|] r] Hsc; [done|done| |done]. unfold scanned_topic, bind. cbn [of_option ret]. destruct (scan_next r) as [| |[b|] r']; try done.
      cbn [of_option ret]. destruct (scan_next r') as [| |[n|] r'']; done. }
    destruct (x =? 45), (x =? 43); apply Hs, Hd.
  - intros x s Hx Hdg H45 H43. unfold scan_topic_id, scan_ld. cbn [span]. rewrite Hx. cbn [snd].
    rewrite (proj2 (Z.eqb_neq x 45)), (proj2 (Z.eqb_neq x 43)) by done. unfold scan_digits. cbn [span]. by rewrite Hdg.
Qed.

(** A gradido node whose property file is complete and whose group folders
    can be read starts its pools and servers, the group register with the
    topic of the file, and the task that initialises it; its groups are those
    of the folders and its siblings the lines of the file.  Its folder is as
    before. *)
Theorem deprecated_node_starts params created f pfc t w io grpc root sib port gs :
  show_version params = false -> fo_conf f ≫= load = Some pfc ->
  item pfc "group_register_topic_id" = Some (topic_text t) ->
  is_long (topic_shardNum t) -> is_long (topic_realmNum t) -> is_long (topic_topicNum t) ->
  item pfc "sibling_node_file" = Some sib -> item pfc "data_root_folder" = Some root ->
  number pfc "worker_count" = Some w -> number pfc "io_worker_count" = Some io -> item pfc "grpc_endpoint" = Some grpc ->
  number pfc "json_rpc_port" = Some port -> mapM dir_group_info (fo_dirs f) = Some gs ->
  grpc_starts grpc = true -> (port = 0 \/ port_free (uwrap 16 port) = true) ->
  exists p, node_main GradidoNodeDeprecated params created f = Some (if w <=? 0 then Exits 0 else Runs, p)
    /\ p_started p = [WorkerThreads w; CommThreads (io + 1); Serving grpc]
         ++ (if port =? 0 then [] else [JsonRpcServing (uwrap 16 port)]) ++ [Register root t; PushedInitGroupRegister]
    /\ conf_gis (c_groups (p_cfg p)) = omap id gs /\ conf_siblings (c_groups (p_cfg p)) = getlines [] (fo_siblings f)
    /\ folder_of (p_cfg p) = f.
Proof.
  intros Hv Hc Htt L1 L2 L3 Hsib Hroot Hw Hio Hg Hport Hgs Hup Hfree.
  set (c1 := set_c_topic t (set_c_fc (Some pfc) (Cfg_new f))).
  set (c2 := set_c_groups (mkConf (omap id gs) (getlines [] (fo_siblings f)) (fo_siblings f) (fo_dirs f)) c1).
  assert (GradidoNodeConfigDeprecated_init (Cfg_new f) = Ret tt c2) as Ec.
  { unfold GradidoNodeConfigDeprecated_init, FileConfig_init. rewrite bind_assoc. unfold bind at 1, gets. cbn [c_conf Cfg_new]. rewrite Hc.
    unfold bind at 1, modify at 1. erewrite bind_Ret; [|by eapply fc_string_ret]. erewrite bind_Ret; [|by apply register_topic_scanned].
    unfold bind at 1, modify at 1. fold c1.
    unfold bind at 1, rethrow at 1. erewrite bind_Ret; [|by eapply fc_string_ret]. cbn [zoom reload_sibling_file modify].
    unfold rethrow. erewrite bind_Ret; [|by eapply fc_string_ret]. unfold zoom at 1.
    rewrite (reload_run _ gs) by done. reflexivity. }
  assert (c_fc c2 = Some pfc) as Hfc by done. unfold node_main. rewrite Hv.
  set (p1 := mkProcess c2 w false false ([WorkerThreads w; CommThreads (io + 1); Serving grpc]
         ++ (if port =? 0 then [] else [JsonRpcServing (uwrap 16 port)]))).
  assert (AbstractFacade_init GradidoNodeDeprecated params (Process_new f) = Ret tt p1) as Ea.
  { unfold AbstractFacade_init. erewrite bind_Ret; [|unfold in_cfg, zoom; cbn [config_init p_cfg Process_new]; rewrite Ec; reflexivity].
    unfold start_servers. cbn [get_worker_count get_io_worker_count get_grpc_endpoint get_json_rpc_port].
    erewrite bind_Ret; [|apply in_cfg_ret; by eapply fc_int_ret]. do 2 (erewrite bind_Ret; [|reflexivity]).
    erewrite bind_Ret; [|apply in_cfg_ret; by eapply fc_int_ret]. erewrite bind_Ret; [|apply in_cfg_ret; by eapply fc_string_ret].
    erewrite bind_Ret; [|apply in_cfg_ret; by eapply fc_int_ret]. unfold CommunicationLayer_init. rewrite Hup.
    do 2 (erewrite bind_Ret; [|reflexivity]). unfold p1. destruct (Z.eqb_spec port 0) as [->|Hp]; [done|].
    destruct Hfree as [?|Hfree]; [done|]. by rewrite Hfree. }
  unfold node_init, GradidoNodeDeprecated_init. erewrite bind_Ret by exact Ea. unfold GroupRegisterFacade_init.
  erewrite bind_Ret; [|apply in_cfg_ret; by eapply fc_string_ret].
  eexists. split; [reflexivity|]. cbn [p_started start]. rewrite <- !(assoc_L (++)).
  split_and!; [|done|done|by destruct f]. unfold p1. cbn [p_started]. by rewrite <- !(assoc_L (++)).
Qed.
End startup.

(** ** Witnesses *)

(** Property files of lines as [property_line] writes them; numbers are
    digits. *)
Definition demo_pf : PropertyFiles :=
  {| Props := bytes -> option bytes; load := demo_properties; getString := fun pfc k => pfc k; parse_int := stoul |}.
Definition demo_platform : Platform := {| grpc_starts := fun _ => true; port_free := fun _ => true |}.
#[local] Existing Instances demo_pf demo_platform.

Definition demo_conf_text (l : list (string * string)) : bytes :=
  concat (map (fun kv => property_line (txt kv.1, txt kv.2)) l).
Definition demo_node_conf : bytes :=
  demo_conf_text [("grpc_endpoint", "a:1"); ("data_root_folder", "d"); ("is_sb_host", "1"); ("sb_pub_key", "k");
                  ("worker_count", "2"); ("io_worker_count", "1")].
Definition demo_token : bytes := demo_conf_text [("admin_key", "x")].
Definition demo_folder : Folder := mkFolder (Some demo_token) (Some demo_node_conf) None None [] [].
Definition key_b : bytes := replicate 64 98.
Definition demo_settings : Settings := mkSettings 1 1 (txt "a:1") (txt "d") (txt "k") None.
Definition demo_loaded (text : bytes) : Props := default (fun _ => None : option bytes) (demo_properties text).
Definition demo_pfc : Props := demo_loaded demo_node_conf.

(** What a start ends with, and a part of the process it leaves. *)
Lemma main_ends {A} (g : Process -> A) k params created f r a :
  (fun rp => (rp.1, g rp.2)) <$> node_main k params created f = Some (r, a) ->
  exists p, node_main k params created f = Some (r, p) /\ g p = a.
Proof. destruct (node_main k params created f) as [[r' p]|]; [|done]. intros [= -> <-]. eauto. Defined.

Lemma start_overwrites_nothing_witness :
  exists p, node_main OrderingNode [] (Some (key_a, key_b)) demo_folder = Some (Runs, p)
    /\ length (c_disk (p_cfg p)) = 5%nat /\ Forall (no_overwrite demo_folder) (c_disk (p_cfg p)).
Proof.
  destruct (main_ends (fun p => length (c_disk (p_cfg p))) OrderingNode [] (Some (key_a, key_b)) demo_folder Runs 5%nat) as (p & E & H);
    [vm_compute; reflexivity|].
  exists p. split; [exact E|]. split; [exact H|].
  apply (start_overwrites_nothing OrderingNode [] (Some (key_a, key_b)) demo_folder Runs p E).
Defined.

Lemma launch_then_restarts_witness :
  exists p, node_main OrderingNode [] (Some (key_a, key_b)) demo_folder = Some (Runs, p) /\ p_handshake_ongoing p = true
    /\ exists p', node_main OrderingNode [] None (folder_of (p_cfg p)) = Some (Runs, p') /\ p_handshake_ongoing p' = false
       /\ p_started p' = threads_of demo_settings ++ [Subcluster (txt "k") (txt "a:1") key_b (txt "d")].
Proof.
  destruct (launch_then_restarts OrderingNode [] key_a key_b demo_folder
    (demo_loaded demo_token) demo_pfc demo_settings eq_refl eq_refl eq_refl eq_refl eq_refl
    ltac:(vm_compute; reflexivity) eq_refl eq_refl eq_refl) as (p & E & _ & _ & Ho & _ & H).
  exists p. split; [exact E|]. split; [exact Ho|].
  destruct (H OrderingNode [] None demo_settings eq_refl eq_refl ltac:(vm_compute; reflexivity) eq_refl) as (p' & E' & Hs & _ & Ho' & _).
  exists p'. split; [exact E'|]. split; [exact Ho'|exact Hs].
Defined.

(** The private key was written when the process was killed; a new token is
    deployed, used up and of no use. *)
Lemma interrupted_launch_witness :
  exists p', node_main OrderingNode [] (Some (key_b, key_a))
      (with_token (Some demo_token) (with_keys (Some key_a) None (with_token None demo_folder))) = Some (Exits 2, p')
    /\ fo_token (folder_of (p_cfg p')) = None.
Proof.
  destruct (interrupted_launch OrderingNode [] key_a key_b demo_folder
    (demo_loaded demo_token) demo_pfc demo_settings eq_refl eq_refl eq_refl eq_refl eq_refl
    ltac:(vm_compute; reflexivity) eq_refl eq_refl eq_refl) as (p & _ & _ & _ & H).
  destruct (H (with_keys (Some key_a) None (with_token None demo_folder)) (Some demo_token) (Some (key_b, key_a)) OrderingNode []
    ltac:(right; left) eq_refl eq_refl) as (p' & E & _ & Hu).
  exists p'. split; [exact E|]. apply Hu. discriminate.
Defined.

(** The property file lacks the endpoint. *)
Definition demo_incomplete : Folder := with_conf (Some (demo_conf_text [("data_root_folder", "d")])) demo_folder.
Lemma failed_launch_loses_token_witness :
  exists p p', node_main OrderingNode [] (Some (key_a, key_b)) demo_incomplete = Some (Exits 1, p)
    /\ node_main OrderingNode [] (Some (key_a, key_b)) (with_conf (Some demo_node_conf) (folder_of (p_cfg p))) = Some (Exits 2, p').
Proof.
  destruct (main_ends p_handshake_ongoing OrderingNode [] (Some (key_a, key_b)) demo_incomplete (Exits 1) false) as (p & Ep & Ho);
    [vm_compute; reflexivity|].
  destruct (failed_launch_loses_token OrderingNode [] key_a key_b demo_incomplete
    (demo_loaded demo_token) (Exits 1) p eq_refl eq_refl eq_refl eq_refl eq_refl eq_refl Ep Ho) as (_ & _ & _ & H).
  destruct (H demo_node_conf OrderingNode [] (Some (key_a, key_b)) demo_pfc demo_settings eq_refl eq_refl eq_refl
    ltac:(vm_compute; reflexivity) eq_refl) as (p' & E & _).
  exists p, p'. split; [exact Ep|exact E].
Defined.

Definition demo_launched : Process :=
  mkProcess (cfg_read demo_folder (Some (demo_loaded demo_token)) demo_pfc None) 1 false false (threads_of demo_settings).
Definition demo_defaults : MessageDefaults Z (list Z) := {| ts_default := 0; sig_default := [] |}.
#[local] Existing Instance demo_defaults.
Lemma NodeFacade_start_refines_witness :
  match NodeFacade_start OrderingNode (Some (key_a, key_b)) demo_launched,
        NodeFacade_init (node_conf demo_settings true []) (Some (key_a, key_b)) (node_of demo_launched) with
  | Ret _ p', Ret _ n => node_of p' = n /\ kp_identity n = Some (key_a, key_b)
  | _, _ => False
  end.
Proof.
  pose proof (NodeFacade_start_refines OrderingNode (Some (key_a, key_b)) demo_launched demo_pfc demo_settings [] eq_refl eq_refl
    ltac:(vm_compute; reflexivity) (fun _ => conj eq_refl eq_refl) ltac:(by intros pr pu [= <- <-])) as H.
  revert H. destruct (NodeFacade_start _ _ _) as [[] p'|e p'|]; [| |done]; intros H.
  - split; [exact H|reflexivity].
  - destruct H.
Defined.

Lemma ordering_node_one_worker_witness :
  exists p, node_main OrderingNode [] (Some (key_a, key_b)) demo_folder = Some (Runs, p)
    /\ p_workers p = 1 /\ WorkerThreads 1 ∈ p_started p.
Proof.
  destruct (main_ends p_workers OrderingNode [] (Some (key_a, key_b)) demo_folder Runs 1) as (p & E & _); [vm_compute; reflexivity|].
  exists p. split; [exact E|].
  apply (ordering_node_one_worker OrderingNode [] (Some (key_a, key_b)) demo_folder Runs p); [by left|exact E|reflexivity].
Defined.

Lemma register_topic_read_witness :
  scan_topic_id (txt "0.0.5") (Cfg_new demo_folder) = Ret (mkHederaTopicID 0 0 5) (Cfg_new demo_folder)
  /\ scan_topic_id (txt "topic 5") (Cfg_new demo_folder) = Ret (mkHederaTopicID 0 0 0) (Cfg_new demo_folder).
Proof.
  destruct (register_topic_read topic5 (Cfg_new demo_folder)) as (H1 & _ & _ & H4); [split; cbn; lia..|].
  split; [exact H1|]. apply (H4 116 (txt "opic 5")); [reflexivity|reflexivity|lia|lia].
Defined.

Definition demo_group_folder : Folder :=
  mkFolder None (Some (demo_conf_text [("group_register_topic_id", "0.0.5"); ("sibling_node_file", "s"); ("data_root_folder", "d");
    ("worker_count", "2"); ("io_worker_count", "1"); ("grpc_endpoint", "a:1"); ("json_rpc_port", "80")]))
    None None (txt "b:1" ++ [NL]) [name_abc].
Lemma deprecated_node_starts_witness :
  exists p, node_main GradidoNodeDeprecated [] None demo_group_folder = Some (Runs, p)
    /\ length (conf_gis (c_groups (p_cfg p))) = 1%nat /\ conf_siblings (c_groups (p_cfg p)) = [txt "b:1"].
Proof.
  destruct (deprecated_node_starts [] None demo_group_folder
    (demo_loaded (default [] (fo_conf demo_group_folder))) topic5 2 1 (txt "a:1") (txt "d") (txt "s") 80
    [dir_group_info name_abc ≫= id]) as (p & E & _ & Hg & Hs & _);
    try reflexivity; try (split; cbn; lia); [right; reflexivity|].
  exists p. split; [exact E|]. rewrite Hg, Hs. split; vm_compute; reflexivity.
Defined.
