(* ===== verification/Shutdown.v ===== *)
(** * Ending the communication layer (communications.cpp, communications.h)

    The destructor of [CommunicationLayer] stops, from the thread of [main],
    the services that run as tasks of its worker pool; a worker deletes a
    service as soon as its [run] returns.  Both threads, and the events gRPC
    posts, are steps of one relation per kind of service; a step of the
    stopping thread on a service that is deleted is recorded ([broken]).

    gRPC as documented: [Next] takes the first event, waits while there is
    none, and returns false once the queue was shut down and is empty; an
    alarm that is destroyed posts its event, without [ok]. *)

From stdpp Require Import base list relations.
From Stdlib Require Import Lia.
From S2P Require Import Prelude.
Set Default Proof Using "Type".

(** ** Subscribers of this node *)

Module Poll.

(** A worker in [run]: before the test of the loop, in [Next], with an event
    (none at the end of the queue), after the loop; the service is deleted. *)
Inductive Poller := Testing | Waiting | Holding (e : option (nat * bool)) | Returned | Deleted.
(** The thread in [stop]: before, at the client of some index, at the end. *)
Inductive PollStopper := Before | AtClient (i : nat) | Stopped.

Record PollService := mkService
  { clients : list nat; shutdown : bool; events : list (nat * bool); closed : bool;
    poller : Poller; stopper : PollStopper; broken : bool }.

(** As [init] of the layer leaves it. *)
Definition PollService_new : PollService := mkService [] false [] false Testing Before false.

Definition set_poller v s := mkService (clients s) (shutdown s) (events s) (closed s) v (stopper s) (broken s).
Definition set_stopper v s := mkService (clients s) (shutdown s) (events s) (closed s) (poller s) v (broken s).
Definition set_clients v s := mkService v (shutdown s) (events s) (closed s) (poller s) (stopper s) (broken s).
Definition set_events v s := mkService (clients s) (shutdown s) v (closed s) (poller s) (stopper s) (broken s).
Definition set_shutdown v s := mkService (clients s) v (events s) (closed s) (poller s) (stopper s) (broken s).
Definition set_closed v s := mkService (clients s) (shutdown s) (events s) v (poller s) (stopper s) (broken s).
Definition set_broken s := mkService (clients s) (shutdown s) (events s) (closed s) (poller s) (stopper s) true.

Definition is_deleted (s : PollService) : bool := match poller s with Deleted => true | _ => false end.

(** [run], and the [delete] of the worker; [more]: the result of [got_data]. *)
Definition poll_run (more : bool) (s : PollService) : option PollService :=
  match poller s with
  | Testing => Some (set_poller (if shutdown s then Returned else Waiting) s)
  | Waiting =>
      match events s with
      | e :: l => Some (set_events l (set_poller (Holding (Some e)) s))
      | [] => if closed s then Some (set_poller (Holding None) s) else None
      end
  | Holding e =>
      match e with
      | Some (pc, true) =>
          if negb (shutdown s) && negb more
          then Some (set_poller Testing (set_clients (filter (fun c => c <> pc) (clients s)) s))
          else Some (set_poller Testing s)
      | _ => Some (set_poller Testing s)
      end
  | Returned => Some (set_poller Deleted (set_clients [] s))
  | Deleted => None
  end.

(** [stop]: the flag, an alarm for each client, the end of the queue.  On a
    deleted service each of them is undefined. *)
Definition poll_stop (s : PollService) : option PollService :=
  match stopper s with
  | Before => Some (if is_deleted s then set_stopper Stopped (set_broken s) else set_stopper (AtClient 0) (set_shutdown true s))
  | AtClient i =>
      if is_deleted s then Some (set_stopper Stopped (set_broken s))
      else match clients s !! i with
           | Some pc => Some (set_stopper (AtClient (S i)) (set_events (events s ++ [(pc, false)]) s))
           | None => Some (set_stopper Stopped (set_closed true s))
           end
  | Stopped => None
  end.

(** A message for a client, while the queue is open. *)
Definition arrive (pc : nat) (s : PollService) : option PollService :=
  if closed s || negb (bool_decide (pc ∈ clients s)) then None else Some (set_events (events s ++ [(pc, true)]) s).

(** The two threads of this node, and with them the network. *)
Inductive own_step (s : PollService) : PollService -> Prop :=
| own_run more s' : poll_run more s = Some s' -> own_step s s'
| own_stop s' : poll_stop s = Some s' -> own_step s s'.
Inductive step (s : PollService) : PollService -> Prop :=
| step_own s' : own_step s s' -> step s s'
| step_arrive pc s' : arrive pc s = Some s' -> step s s'.

(** A service that has a client, its worker waiting for events as it mostly
    does: the thread in [stop] can come to a deleted service, without any
    message from outside.  Its first alarm wakes the polling
    thread, which finds the flag set, returns and is deleted with its list
    of clients and its queue. *)
Theorem stop_uses_deleted_service pc l s :
  clients s = pc :: l -> events s = [] -> shutdown s = false -> closed s = false -> poller s = Waiting -> stopper s = Before ->
  broken s = false ->
  exists s', rtc own_step s s' /\ broken s' = true.
Proof.
  destruct s as [cl sh ev cq po st br]. cbn. intros -> -> -> -> -> -> ->.
  eexists. split.
  - eapply rtc_l; [apply own_stop; reflexivity|]. eapply rtc_l; [apply own_stop; reflexivity|].
    do 4 (eapply rtc_l; [apply (own_run _ true); reflexivity|]).
    eapply rtc_l; [apply own_stop; reflexivity|]. apply rtc_refl.
  - reflexivity.
Qed.

(** Nor does it take a client: a service that is stopped before its worker
    got to its first [Next] is deleted in the same way. *)
Theorem stop_before_first_poll : exists s', rtc own_step PollService_new s' /\ broken s' = true.
Proof.
  eexists. split.
  - eapply rtc_l; [apply own_stop; reflexivity|]. do 2 (eapply rtc_l; [apply (own_run _ true); reflexivity|]).
    eapply rtc_l; [apply own_stop; reflexivity|]. apply rtc_refl.
  - reflexivity.
Qed.

(** A service without clients whose worker waits: the steps left until both
    threads are done, and the states on the way. *)
Definition left_to_do (s : PollService) : nat :=
  (match poller s with Testing => 2 | Waiting => 4 | Holding _ => 3 | Returned => 1 | Deleted => 0 end
   + match stopper s with Before => 2 | AtClient _ => 1 | Stopped => 0 end)%nat.
Record idle (s : PollService) : Prop := {
  idle_clients : clients s = [];
  idle_events : events s = [];
  idle_sound : broken s = false;
  idle_closed : closed s = true <-> stopper s = Stopped;
  idle_shutdown : shutdown s = true <-> stopper s <> Before;
  idle_waits : closed s = false -> poller s = Waiting }.

Lemma idle_step s s' : idle s -> step s s' -> idle s' /\ (left_to_do s' < left_to_do s)%nat.
Proof.
  destruct s as [cl sh ev cq po st br]. intros [Hc He Hb Hcl Hsh Hw]. cbn in *. subst. intros Hstep.
  destruct Hstep as [s1 [more s2 H|s2 H]|pc s1 H].
  - unfold poll_run in H. cbn in H. destruct cq.
    + assert (st = Stopped) as -> by by apply Hcl. assert (sh = true) as -> by by apply Hsh.
      destruct po as [| |[[c [|]]|]| |]; cbn in H; simplify_eq; (split; [constructor; cbn; naive_solver|cbn; lia]).
    + rewrite Hw in H by done. done.
  - unfold poll_stop, is_deleted in H. cbn in H. destruct st as [|i|]; [| |done].
    + destruct cq; [by destruct Hcl as [Hcl _]; specialize (Hcl eq_refl)|]. rewrite Hw in * by done. simplify_eq. split; [constructor; cbn; naive_solver|cbn; lia].
    + destruct cq; [by destruct Hcl as [Hcl _]; specialize (Hcl eq_refl)|]. rewrite Hw in * by done. rewrite lookup_nil in H. simplify_eq.
      split; [constructor; cbn; naive_solver|cbn; lia].
  - unfold arrive in H. cbn in H. rewrite orb_true_r in H. done.
Qed.

(** A service that has no clients and whose worker waits is stopped without
    harm, however the threads interleave: nothing deleted is used, at most
    six steps are made, and when no thread can make one both are done. *)
Theorem idle_service_stops s n s' :
  clients s = [] -> events s = [] -> shutdown s = false -> closed s = false -> poller s = Waiting -> stopper s = Before ->
  broken s = false -> nsteps step n s s' ->
  broken s' = false /\ (n <= 6)%nat
  /\ ((exists s'', step s' s'') \/ (poller s' = Deleted /\ stopper s' = Stopped)).
Proof.
  intros H1 H2 H3 H4 H5 H6 H7 Hn.
  assert (idle s) as Hi by (constructor; rewrite ?H3, ?H4, ?H6; try done; split; congruence).
  assert (left_to_do s = 6%nat) as Hl by (unfold left_to_do; by rewrite H5, H6).
  assert (idle s' /\ (n + left_to_do s' <= left_to_do s)%nat) as [Hi' Hb].
  { clear -Hi Hn. induction Hn as [|n s s1 s2 H12 _ IH]; [split; [done|lia]|].
    destruct (idle_step _ _ Hi H12) as [H1 Hlt]. destruct (IH H1) as [H2 Hle]. split; [done|lia]. }
  split_and!; [apply Hi'|lia|]. destruct Hi' as [Hc He Hbr Hcl Hsh Hw].
  assert (stopper s' = Stopped \/ exists s'', poll_stop s' = Some s'') as [Es|[s'' E]].
  { unfold poll_stop. rewrite Hc. destruct (stopper s'); [right|right|by left]; destruct (is_deleted s'); eauto. }
  - assert (closed s' = true) as Ecl by by apply Hcl.
    assert (poller s' = Deleted \/ exists s'', poll_run true s' = Some s'') as [Ep|[s'' E]]; [|by right|].
    + unfold poll_run. rewrite He, Ecl. destruct (poller s') as [| |[[c [|]]|]| |]; eauto. rewrite andb_false_r. eauto.
    + left. exists s''. by eapply step_own, own_run.
  - left. exists s''. by apply step_own, own_stop.
Qed.
End Poll.

(** ** Calls from other nodes *)

Module Rpcs.

(** An operation is the request for a next call of some kind, or another. *)
Inductive Runner := Serving | Draining | Returned | Deleted.
Inductive RpcsStopper := Before | Waits | Waited | Stopped.
#[export] Instance RpcsStopper_eq_dec : EqDecision RpcsStopper.
Proof. solve_decision. Defined.

(** [requests], [others]: operations under way; [events]: completed ones, as
    request or other, with [ok]; [call_data_deleted] counts. *)
Record RpcsService := mkService
  { requests : nat; others : nat; events : list (bool * bool); server_down : bool; closed : bool;
    runner : Runner; stopper : RpcsStopper; broken : bool; call_data_deleted : nat }.

(** After [init] with calls of [n] kinds. *)
Definition RpcsService_new (n : nat) : RpcsService := mkService n 0 [] false false Serving Before false 0.

Definition set_runner v s :=
  mkService (requests s) (others s) (events s) (server_down s) (closed s) v (stopper s) (broken s) (call_data_deleted s).
Definition set_stopper v s :=
  mkService (requests s) (others s) (events s) (server_down s) (closed s) (runner s) v (broken s) (call_data_deleted s).
Definition set_ops r o l s :=
  mkService r o l (server_down s) (closed s) (runner s) (stopper s) (broken s) (call_data_deleted s).
Definition set_server_down s :=
  mkService (requests s) (others s) (events s) true (closed s) (runner s) (stopper s) (broken s) (call_data_deleted s).
Definition set_closed s :=
  mkService (requests s) (others s) (events s) (server_down s) true (runner s) (stopper s) (broken s) (call_data_deleted s).
Definition set_broken s :=
  mkService (requests s) (others s) (events s) (server_down s) (closed s) (runner s) (stopper s) true (call_data_deleted s).
Definition delete_call_data s :=
  mkService (requests s) (others s) (events s) (server_down s) (closed s) (runner s) (stopper s) (broken s) (S (call_data_deleted s)).

(** The queue was shut down and nothing is left of it: [Next] returns false. *)
Definition drained (s : RpcsService) : bool :=
  closed s && bool_decide (requests s = 0%nat) && bool_decide (others s = 0%nat).

(** [run], and the [delete] of the worker.  [proceed] asks for the next call
    of the kind when the event is a request, and may start an operation
    ([more]).  The first loop does not look at what [Next] returns: at the
    end of the queue it would take the last event again. *)
Definition rpcs_run (more : bool) (s : RpcsService) : option RpcsService :=
  match runner s, events s with
  | Serving, (req, true) :: l =>
      Some (set_ops ((if req : bool then 1 else 0) + requests s) ((if more then 1 else 0) + others s) l s)
  | Serving, (_, false) :: l => Some (set_runner Draining (set_ops (requests s) (others s) l s))
  | Serving, [] => if drained s then Some (set_broken (set_runner Draining s)) else None
  | Draining, _ :: l => Some (delete_call_data (set_ops (requests s) (others s) l s))
  | Draining, [] => if drained s then Some (set_runner Returned s) else None
  | Returned, _ => Some (set_runner Deleted s)
  | Deleted, _ => None
  end.

(** [stop]: the server is shut down, waited for, and the queue shut down. *)
Definition rpcs_stop (s : RpcsService) : option RpcsService :=
  let used next := match runner s with Deleted => set_stopper Stopped (set_broken s) | _ => next end in
  match stopper s with
  | Before => Some (used (set_stopper Waits (set_server_down s)))
  | Waits => Some (used (set_stopper Waited s))
  | Waited => Some (used (set_stopper Stopped (set_closed s)))
  | Stopped => None
  end.

(** An operation completes; without [ok] once the server is down. *)
Definition complete (req ok : bool) (s : RpcsService) : option RpcsService :=
  if server_down s && ok then None
  else match (if req then requests s else others s) with
       | O => None
       | S n => Some (if req then set_ops n (others s) (events s ++ [(true, ok)]) s
                      else set_ops (requests s) n (events s ++ [(false, ok)]) s)
       end.

Inductive step (s : RpcsService) : RpcsService -> Prop :=
| step_run more s' : rpcs_run more s = Some s' -> step s s'
| step_stop s' : rpcs_stop s = Some s' -> step s s'
| step_complete req ok s' : complete req ok s = Some s' -> step s s'.

(** Requests under way or completed; every kind of call has one. *)
Definition asked (s : RpcsService) : nat := requests s + length (List.filter fst (events s)).
Record sound (s : RpcsService) : Prop := {
  sound_broken : broken s = false;
  sound_asked : runner s = Serving -> (0 < asked s)%nat;
  sound_closed : closed s = true <-> stopper s = Stopped;
  sound_down : server_down s = true <-> stopper s <> Before;
  sound_returned : runner s = Returned \/ runner s = Deleted -> closed s = true }.

Lemma sound_new n : (0 < n)%nat -> sound (RpcsService_new n).
Proof. intros H. constructor; cbn; try naive_solver. unfold asked. cbn. lia. Qed.

Lemma sound_step s s' : sound s -> step s s' -> sound s'.
Proof.
  destruct s as [rq ot ev dn cl ru st br n]. intros [Hb Ha Hc Hd Hr] Hs. cbn in *. subst.
  destruct Hs as [more s1 H|s1 H|req ok s1 H].
  - unfold rpcs_run in H. cbn in H. destruct ru.
    + specialize (Ha eq_refl). unfold asked in Ha. cbn in Ha. destruct ev as [|[req [|]] l].
      * unfold drained in H. cbn in H. assert (bool_decide (rq = 0%nat) = false) as E by (apply bool_decide_eq_false_2; cbn in Ha; lia).
        rewrite E, andb_false_r in H. done.
      * simplify_eq. constructor; cbn; try done. intros _. unfold asked. cbn.
        destruct req; cbn in Ha; lia.
      * simplify_eq. constructor; cbn; try done. naive_solver.
    + destruct ev as [|e l]; [destruct (drained _) eqn:E; [|done]|]; simplify_eq; constructor; cbn; try done.
      intros _. unfold drained in E. cbn in E. by destruct cl.
    + simplify_eq. constructor; cbn; try done. intros _. apply Hr. by left.
    + done.
  - unfold rpcs_stop in H. cbn in H. destruct st; simplify_eq; destruct ru; constructor; cbn; try naive_solver.
  - unfold complete in H. cbn in H. destruct (dn && ok); [done|]. destruct req; [destruct rq as [|rq]|destruct ot as [|ot]]; simplify_eq;
      (constructor; cbn; try done; intros E; specialize (Ha E); unfold asked in *; cbn in *;
       rewrite List.filter_app, length_app; cbn; lia).
Qed.

(** What is left to do once the server is down. *)
Definition event_weight (e : bool * bool) : nat := if e.2 then 6 else 1.
Definition left_to_do (s : RpcsService) : nat :=
  2 * (requests s + others s) + sum_list_with event_weight (events s)
  + match runner s with Serving => 3 | Draining => 2 | Returned => 1 | Deleted => 0 end
  + match stopper s with Before => 3 | Waits => 2 | Waited => 1 | Stopped => 0 end.

Lemma step_left s s' : server_down s = true -> step s s' -> (left_to_do s' < left_to_do s)%nat.
Proof.
  destruct s as [rq ot ev dn cl ru st br n]. cbn. intros -> Hs. destruct Hs as [more s1 H|s1 H|req ok s1 H].
  - unfold rpcs_run in H. cbn in H.
    destruct ru; [destruct ev as [|[req [|]] l]|destruct ev as [|[req [|]] l]| |]; try (destruct (drained _)); simplify_eq; unfold left_to_do; cbn;
      try (destruct req, more); cbn; lia.
  - unfold rpcs_stop in H. cbn in H. destruct st, ru; simplify_eq; unfold left_to_do; cbn; lia.
  - unfold complete in H. cbn in H. destruct ok; [done|]. destruct req; [destruct rq as [|rq]|destruct ot as [|ot]]; simplify_eq;
      unfold left_to_do; cbn; rewrite sum_list_with_app; cbn; lia.
Qed.

Lemma sound_proceeds s : sound s -> server_down s = true -> (exists s', step s s') \/ (runner s = Deleted /\ stopper s = Stopped).
Proof.
  intros [Hb Ha Hc Hd Hr] Hdn. destruct (decide (stopper s = Stopped)) as [Es|Es].
  2: { left. destruct (rpcs_stop s) as [s'|] eqn:E; [exists s'; by apply step_stop|]. unfold rpcs_stop in E. by destruct (stopper s). }
  assert (closed s = true) as Ecl by by apply Hc.
  destruct (complete true false s) as [s'|] eqn:E1; [left; exists s'; by eapply step_complete|].
  destruct (complete false false s) as [s'|] eqn:E2; [left; exists s'; by eapply step_complete|].
  unfold complete in E1, E2. rewrite Hdn in E1, E2. cbn in E1, E2.
  destruct (requests s) eqn:Er; [|done]. destruct (others s) eqn:Eo; [|done].
  destruct (rpcs_run true s) as [s'|] eqn:E3; [left; exists s'; by eapply step_run|]. right. split; [|done].
  unfold rpcs_run, drained in E3. rewrite Ecl, Er, Eo in E3. cbn in E3.
  by destruct (runner s), (events s) as [|[? [|]] ?].
Qed.

(** With at least one kind of call served, and however operations complete
    and the threads interleave: the thread in [stop] never uses a deleted
    service, [proceed] is never called on an event that is none, and once the
    server is down every step, of [run], of [stop] or of an operation, brings
    the end nearer, until both threads are done. *)
Theorem rpcs_service_stops n s :
  (0 < n)%nat -> rtc step (RpcsService_new n) s ->
  broken s = false /\ (runner s = Deleted -> stopper s = Stopped)
  /\ (server_down s = true ->
       (forall s', step s s' -> (left_to_do s' < left_to_do s)%nat)
       /\ ((exists s', step s s') \/ (runner s = Deleted /\ stopper s = Stopped))).
Proof.
  intros Hn Hs. assert (sound s) as H.
  { pose proof (sound_new n Hn) as H0. revert H0. induction Hs as [|a b c Hab _ IH]; [done|]. intros H0. apply IH. by eapply sound_step. }
  split_and!; [apply H|..].
  - intros E. apply (sound_closed _ H), (sound_returned _ H). by right.
  - intros Hd. split; [intros s'; by apply step_left|by apply sound_proceeds].
Qed.
End Rpcs.

(** ** Witnesses *)

Lemma stop_uses_deleted_service_witness :
  exists s', rtc Poll.own_step (Poll.mkService [5%nat] false [] false Poll.Waiting Poll.Before false) s' /\ Poll.broken s' = true.
Proof. apply (Poll.stop_uses_deleted_service 5%nat []); reflexivity. Defined.

Lemma idle_service_stops_witness :
  let s0 := Poll.mkService [] false [] false Poll.Waiting Poll.Before false in
  exists s', nsteps Poll.step 6 s0 s' /\ Poll.broken s' = false /\ Poll.poller s' = Poll.Deleted.
Proof.
  intros s0. eexists. assert (nsteps Poll.step 6 s0 (Poll.mkService [] true [] true Poll.Deleted Poll.Stopped false)) as H.
  { do 2 (eapply nsteps_l; [apply Poll.step_own, Poll.own_stop; reflexivity|]).
    do 4 (eapply nsteps_l; [apply Poll.step_own, (Poll.own_run _ true); reflexivity|]). apply nsteps_O. }
  split; [exact H|]. split; [|reflexivity]. apply (Poll.idle_service_stops s0 6 _ eq_refl eq_refl eq_refl eq_refl eq_refl eq_refl eq_refl H).
Defined.

(** One kind of call; the request completes without [ok] when the server goes
    down. *)
Lemma rpcs_service_stops_witness :
  exists s, rtc Rpcs.step (Rpcs.RpcsService_new 1) s /\ Rpcs.broken s = false /\ Rpcs.runner s = Rpcs.Deleted.
Proof.
  eexists. assert (rtc Rpcs.step (Rpcs.RpcsService_new 1) (Rpcs.mkService 0 0 [] true true Rpcs.Deleted Rpcs.Stopped false 0)) as H.
  { eapply rtc_l; [apply Rpcs.step_stop; reflexivity|].
    eapply rtc_l; [apply (Rpcs.step_complete _ true false); reflexivity|].
    eapply rtc_l; [apply (Rpcs.step_run _ false); reflexivity|].
    do 2 (eapply rtc_l; [apply Rpcs.step_stop; reflexivity|]).
    do 2 (eapply rtc_l; [apply (Rpcs.step_run _ false); reflexivity|]). apply rtc_refl. }
  split; [exact H|]. split; [|reflexivity]. apply (Rpcs.rpcs_service_stops 1 _ ltac:(lia) H).
Defined.
